(* ===== verification/_CoqProject ===== *)
-Q . S2P
Prelude.v
JsValue.v
Regex.v
IsoTime.v
Glob.v
NodePath.v
Scope.v
Policy.v
Json.v
Objects.v
StrictJson.v
Crypto.v
Capability.v
KeyLifecycle.v
Reliability.v
Program.v
SignerRegistry.v
ProviderContract.v
DurableSigner.v
FileSystem.v
SetupJournal.v
SetupOrchestrator.v
CapabilityState.v
AuditLog.v
RemoteControl.v
Adjudication.v
LifecycleProvider.v
BundleJson.v
ControlBundle.v
ControlBundleState.v
Identity.v
DeviceRequest.v
DeviceAuth.v
DeviceAuthFacts.v
DeviceAuthSpec.v
DeviceRestart.v
ApiToken.v
CloudControl.v
CloudControlFacts.v
CloudControlSpec.v
BrokerLock.v
BrokerChecks.v
AuditTransaction.v
AuditTransactionFacts.v
AuditTransactionSpec.v
AuditedTransaction.v
Broker.v
BrokerFacts.v
BrokerSpec.v
NativeAudit.v
AnchorKeys.v
AnchorKeysFacts.v
Recovery.v
RecoverySpec.v
Anchor.v
AnchorFacts.v
AnchorSpec.v
