(* ===== verification/Prelude.v ===== *)
(** * AgentPass: a verification library

    AgentPass lets coding agents sign with keys they never hold.  A cloud
    service issues capabilities and control bundles and signs through managed
    keys; a broker on the developer's machine checks each request against a
    local policy, a capability and the device's bundle, keeps ledgers of what
    was used, and logs every decision.  This library models the JavaScript that
    decides, line by line, and proves what makes it safe.

    ** How the code is read

    A JavaScript value is [JsValue.jsval]: numbers are integers or the texts and
    constants that are not, objects are lists of own enumerable properties with
    string keys in insertion order, host objects are opaque.  A function that
    throws returns [result E A] below; a function of the clock takes the times
    it reads; a function that awaits is a program of effects (Program) whose
    answers are arbitrary (DurableSigner, SetupOrchestrator, Broker) or those of a world
    (AuditTransaction), or a step relation over the states between awaits
    (Reliability, LifecycleProvider, RemoteControl, BrokerLock); an operation on files is
    a result with the list of its atomic writes, so that a crash is a prefix of
    that list (FileSystem).  Regular expressions are decided by
    derivatives (Regex).  Texts are sequences of code units below 256;
    numbers that are not integers reach only tests, never arithmetic: where
    the code would compute with one, the model returns [OutsideModel].

    Code that is not in the repository is a parameter: [IsoTime.DateParse],
    [Json.NumberText], and in Crypto and Capability the digests, keys and
    signatures ([Sha256], [PublicKeys], [KeyObjects], [SigningKeys]), the
    reader of base 64 ([Base64Reader]), host objects and hooks; in DeviceRequest
    and DeviceAuth the parser of URLs ([UrlParser]), elliptic-curve keys
    ([EcKeys], [EcSigningKeys]); in ApiToken the password hash ([Scrypt]) and
    the reader of URL-safe base 64 ([Base64UrlReader]); in CloudControl the
    parser of the client's URLs ([Urls]); in NativeAudit the points of P-256
    ([P256Keys]).  The laws of these
    classes are documented behaviour (a digest is 64 hexadecimal digits;
    [Date.parse] reads what [toISOString] prints; [Number] reads decimal
    integers; base 64 is read back; a signature verifies under its key); every
    class has an instance, and the witnesses compute with them.

    ** The files

    Language: Prelude (results, reachability, lists, tactics), JsValue, Objects
    (spreads, copies, key order), Regex, IsoTime, Json ([JSON.stringify], the
    canonical form, sorting), NodePath, Crypto (with UTF-8), FileSystem, Program
    (asynchronous programs, their traces, worlds and crashes).

    - Glob, Scope (packages/capability/src/index.mjs): patterns, scopes, their
      intersection; an effective scope allows only what each scope allows.
    - Policy (lib/policy.mjs): the local decision, as a specification of the
      requests that are allowed.
    - StrictJson (apps/cloud-api/src/strict-json.mjs): the parser that refuses
      duplicate keys; it terminates, and reads canonical text back.
    - Capability (packages/capability/src/index.mjs): issuing and verifying;
      a verified capability is signed by the pinned key, timely and not
      replayed below the sequence state.
    - CapabilityState (lib/capability-state.mjs): the ledger of used
      capabilities and its lock; a capability is used for one request.
    - KeyLifecycle, LifecycleProvider
      (apps/cloud-api/src/managed-signer-key-lifecycle.mjs): the states of
      signing keys, their invariant, what never signs again; the provider bound
      to a lifecycle calls once per idempotency key.
    - Reliability (managed-signer-reliability.mjs): the circuit breaker and its
      admission under every interleaving of calls.
    - SignerRegistry (signer-purpose-registry.mjs), ProviderContract
      (managed-signer-provider-contract.mjs), DurableSigner
      (durable-managed-signer-provider.mjs), Adjudication
      (managed-signer-provider-operation-adjudication.mjs): keys are bound to
      separate purposes; results of providers are verified; a signature is
      made once, between fences, and returned only when it verifies; an
      uncertain operation is settled only by evidence.
    - BundleJson, ControlBundle, ControlBundleState
      (lib/control-bundle-v2.mjs): the bounded reader, which agrees with the
      strict parser; signed policy and revocations, accepted only when signed,
      addressed and timely; the device's head, which never rolls back, through
      crashes too.
    - SetupJournal (lib/setup-journal.mjs, lib/config.mjs), SetupOrchestrator
      (lib/setup-orchestrator.mjs): the journal of the setup, atomic under
      crashes, and the steps that move it only on evidence.
    - AuditLog (lib/audit.mjs): the hash chain, and checkpoints that pin it.
    - AuditTransaction (lib/audit-transaction.mjs): the fence around a decision
      and its signer, as programs over the state file, the lock, the log and
      the signer.  AuditTransactionFacts: in every sequence of operations and
      crashes the signer is called once per request kept, and a signature is
      released only between its intent and its result; AuditTransactionSpec:
      replays, compaction, the state read back, the lock; AuditedTransaction:
      the same over the hash chain of AuditLog.
    - Identity (lib/identity.mjs): signed requests and their replay cache.
    - RemoteControl (lib/remote-control.mjs): bundles of the first format, the
      file that holds them and its refresh; it never rolls back.
    - DeviceRequest (apps/cloud-api/src/auth.mjs): the text of a request that a
      device signs; two requests with one text are one request.  DeviceAuth:
      devices, their keys, [verifyDeviceRequest] and the replay cache with its
      file; DeviceAuthFacts: what an accepted request satisfies, and that it is
      not accepted twice, over every sequence of calls, crashes and restarts;
      DeviceAuthSpec: what a device signs is accepted; DeviceRestart: the file
      that the cache writes is read back.
    - ApiToken (apps/cloud-api/src/auth.mjs): roles and permissions, token
      records, and the one organisation that a token opens.
    - CloudControl (lib/cloud-control.mjs): the client of control bundles as a
      program of effects; CloudControlFacts: it installs only what it verified
      and never moves the head back, whatever the service and other tasks do;
      CloudControlSpec: DeviceAuth admits its requests, its status is what the
      files say, enrollment's configuration is the one the broker's client takes.
    - BrokerLock (lib/broker.mjs): the lease on the broker's socket, taken by
      several processes at once.
    - BrokerChecks, Broker (lib/broker.mjs): the checks of a request to sign,
      and [processRequest], which composes the components above; BrokerFacts:
      the signer is called only for an admitted request; BrokerSpec: a run.

    - NativeAudit (lib/native-audit.mjs, lib/anchor.mjs): audit keys of both
      kinds, and the one accepted form of a signature on P-256.  AnchorKeys
      (lib/anchor.mjs): recovery policies, transitions between keys, and the
      verification of a tenant's history of keys; AnchorKeysFacts: what a
      verified history satisfies.  Recovery (lib/recovery.mjs): the ceremony
      that authorises a replacement; RecoverySpec: its threshold, and that the
      anchor accepts its evidence.  Anchor (lib/anchor.mjs): a tenant's logs,
      their verification, enrollment and the two submissions; AnchorFacts and
      AnchorSpec: who changes a key, and a tenant that is stuck, on runs.

    How they meet: Scope and Capability give Policy, CapabilityState and
    ControlBundle their scopes and statements; StrictJson is the reference for
    BundleJson; ProviderContract verifies the answers that DurableSigner
    stores; KeyLifecycle decides for LifecycleProvider; SetupJournal holds the
    state that SetupOrchestrator moves; AuditTransaction appends to AuditLog;
    Broker asks Identity, RemoteControl or ControlBundle with Capability and
    CapabilityState, and Policy, and runs AuditTransaction's program inside its
    own, while it holds BrokerLock's lease; DeviceAuth verifies in the cloud
    the text that DeviceRequest makes of a request on the device; CloudControl
    signs with DeviceRequest, installs with ControlBundleState and takes its
    configuration from the broker; Anchor receives the checkpoints that AuditLog
    makes, and AnchorKeys the evidence that Recovery makes; Crypto's interfaces
    are shared by all.

    ** Fuel

    Two recursions are not structural, the two JSON parsers; they get
    [2 * length + 1] steps ([StrictJson.parse_fuel]), one for a token and one
    for the loop around it, and are proved never to run out
    ([StrictJson.parse_enough], [BundleJson.read_enough]).

    ** Not modelled

    The PostgreSQL repositories, migrations and HTTP servers: transactions and
    routing, whose answers are arbitrary in the models of their callers.  The
    vendors' KMS adapters, the web console, the Swift helper, the command line,
    installers and scripts: input, output and calls of other programs.  Of
    DurableSigner the gate that tracks operations and abort signals.  Of every
    module the text of error messages, errors of the file system other than
    those the code tests for (they leave the files as a crash before the write
    does), and values with getters, symbols, cycles or foreign prototypes.
    Of the broker the socket and its shutdown; generating keys.  The service
    that issues control bundles (apps/cloud-api/src/bundles.mjs), the validation
    of the configuration (lib/config.mjs), and the cloud's audit events.  Of the
    transparency anchor the third log, of pruned archives, with its leases and
    snapshots: it is taken to be empty; its HTTP server and the lock of a tenant. *)

From stdpp Require Import base tactics list strings gmap.

(** ** Results of fallible code

    A JavaScript function that may throw is a function into [result E A]:
    [Throw e] is the error it throws (by its code), [Ok a] the value it
    returns.  stdpp's [x ← m; k] sequences two such computations. *)

Inductive result (E A : Type) : Type :=
| Ok (a : A)
| Throw (e : E).
Arguments Ok {E A} a.
Arguments Throw {E A} e.

#[export] Instance result_ret {E} : MRet (result E) := fun A a => Ok a.

#[export] Instance result_bind {E} : MBind (result E) :=
  fun A B f m => match m with Ok a => f a | Throw e => Throw e end.

#[export] Instance result_fmap {E} : FMap (result E) :=
  fun A B f m => match m with Ok a => Ok (f a) | Throw e => Throw e end.

Declare Scope js_scope.
Delimit Scope js_scope with js.

(** [if (b) fail(e);] followed by the rest of the function. *)
Notation "'throw_if' b 'with' e ';;' k" :=
  (if b then Throw e else k)
  (at level 10, b at level 99, e at level 99, k at level 200,
   format "'[v' 'throw_if'  b  'with'  e  ';;' '/' k ']'") : js_scope.

(** [try { m } catch { throw e }] *)
Definition or_throw {E F A} (m : result F A) (e : E) : result E A :=
  match m with Ok a => Ok a | Throw _ => Throw e end.

Definition of_option {E A} (e : E) (o : option A) : result E A :=
  match o with Some a => Ok a | None => Throw e end.

Definition is_ok {E A} (m : result E A) : bool :=
  match m with Ok _ => true | Throw _ => false end.

(** [values.map(f)] for an [f] that may throw: left to right, stopping at the
    first error. *)
Fixpoint map_result {E A B} (f : A -> result E B) (l : list A) : result E (list B) :=
  match l with
  | [] => Ok []
  | a :: l => b ← f a; bs ← map_result f l; Ok (b :: bs)
  end.

#[export] Instance result_eq_dec {E A} `{EqDecision E, EqDecision A} : EqDecision (result E A).
Proof. solve_decision. Defined.

(** ** Reachability

    Reflexive transitive closure of a step relation, with its steps on the
    right: an invariant is proved by induction on it. *)

Inductive reach {S : Type} (init : S -> Prop) (step : S -> S -> Prop) : S -> Prop :=
| reach_init s : init s -> reach init step s
| reach_step s t : reach init step s -> step s t -> reach init step t.

(** ** Small list functions of the language *)

(** [values.includes(x)] and [new Set(values).has(x)] *)
Definition includes {A} `{EqDecision A} (l : list A) (x : A) : bool :=
  bool_decide (x ∈ l).

(** [new Set(values).size === values.length] *)
Definition all_distinct {A} `{EqDecision A} (l : list A) : bool :=
  bool_decide (NoDup l).

(** [[...new Set(values)]]: the distinct values in order of first occurrence. *)
Fixpoint distinct {A} `{EqDecision A} (l : list A) : list A :=
  match l with
  | [] => []
  | x :: l => x :: filter (fun y => y ≠ x) (distinct l)
  end.

(** ** Tactics *)

(** Break a hypothesis that says a guarded computation returned [Ok]. *)
Ltac inv_result :=
  repeat match goal with
  | H : Ok _ = Ok _ |- _ => injection H; clear H; intros; subst
  | H : Throw _ = Ok _ |- _ => discriminate H
  | H : Ok _ = Throw _ |- _ => discriminate H
  | H : Throw _ = Throw _ |- _ => injection H; clear H; intros; subst
  | H : or_throw ?m _ = Ok _ |- _ =>
      let E := fresh "E" in destruct m eqn:E; simpl in H; [|discriminate H]
  | H : of_option _ ?m = Ok _ |- _ =>
      let E := fresh "E" in destruct m eqn:E; simpl in H; [|discriminate H]
  | H : (?m ≫= _) = Ok _ |- _ =>
      let E := fresh "E" in destruct m eqn:E; simpl in H; [|discriminate H]
  | H : (if ?b then Throw _ else _) = Ok _ |- _ =>
      let E := fresh "E" in destruct b eqn:E; [discriminate H|]
  | H : (if ?b then _ else Throw _) = Ok _ |- _ =>
      let E := fresh "E" in destruct b eqn:E; [|discriminate H]
  end.

(** Turn boolean guards into propositions. *)
Ltac guards :=
  repeat match goal with
  | H : negb _ = true |- _ => apply negb_true_iff in H
  | H : negb _ = false |- _ => apply negb_false_iff in H
  | H : _ || _ = false |- _ => apply orb_false_iff in H; destruct H
  | H : _ && _ = true |- _ => apply andb_true_iff in H; destruct H
  | H : bool_decide _ = true |- _ => apply bool_decide_eq_true in H
  | H : bool_decide _ = false |- _ => apply bool_decide_eq_false in H
  | H : Z.eqb _ _ = true |- _ => apply Z.eqb_eq in H
  | H : Z.eqb _ _ = false |- _ => apply Z.eqb_neq in H
  | H : Z.ltb _ _ = true |- _ => apply Z.ltb_lt in H
  | H : Z.ltb _ _ = false |- _ => apply Z.ltb_ge in H
  | H : Z.leb _ _ = true |- _ => apply Z.leb_le in H
  | H : Z.leb _ _ = false |- _ => apply Z.leb_gt in H
  | H : String.eqb _ _ = true |- _ => apply String.eqb_eq in H
  | H : String.eqb _ _ = false |- _ => apply String.eqb_neq in H
  end.

(** ** Lemmas *)

Section Results.
Context {E : Type}.

Lemma bind_ok {A B} (m : result E A) (f : A -> result E B) b :
  m ≫= f = Ok b <-> exists a, m = Ok a /\ f a = Ok b.
Proof. destruct m; simpl; naive_solver. Qed.

Lemma bind_throw {A B} (m : result E A) (f : A -> result E B) e :
  m ≫= f = Throw e <-> m = Throw e \/ exists a, m = Ok a /\ f a = Throw e.
Proof. destruct m; simpl; naive_solver. Qed.

Lemma of_option_ok {A} (e : E) (o : option A) a : of_option e o = Ok a <-> o = Some a.
Proof. destruct o; simpl; naive_solver. Qed.

Lemma is_ok_true {A} (m : result E A) : is_ok m = true <-> exists a, m = Ok a.
Proof. destruct m; simpl; naive_solver. Qed.

Lemma map_result_ok {A B} (f : A -> result E B) l bs :
  map_result f l = Ok bs <-> Forall2 (fun a b => f a = Ok b) l bs.
Proof.
  revert bs; induction l as [|a l IH]; intros bs; simpl.
  - split; [intros [= <-]; constructor | intros H; inversion H; done].
  - rewrite bind_ok. split.
    + intros (b & Hb & (bs' & Hbs & [= <-])%bind_ok). constructor; [done|]. by apply IH.
    + intros H; inversion H; subst. eexists; split; [done|].
      apply bind_ok. eexists; split; [by apply IH|done].
Qed.

Lemma map_result_length {A B} (f : A -> result E B) l bs :
  map_result f l = Ok bs -> length bs = length l.
Proof. intros H%map_result_ok. by apply Forall2_length in H. Qed.
Lemma bind_same {E' A B} (m : result E A) (m' : result E' A) (f : A -> result E B) (f' : A -> result E' B) b :
  m ≫= f = Ok b -> (forall a, m = Ok a -> m' = Ok a) -> (forall a b, f a = Ok b -> f' a = Ok b) -> m' ≫= f' = Ok b.
Proof. intros (a & Ha & Hf)%bind_ok H1 H2. rewrite (H1 a Ha). by apply H2. Qed.
End Results.

(** Two guarded computations that differ in their errors only. *)
Ltac same_ok :=
  repeat match goal with
  | H : _ = Ok _ |- _ = Ok _ => exact H
  | H : (?m ≫= _) = Ok _ |- (_ ≫= _) = Ok _ => eapply bind_same; [exact H|clear H; intros ? H|clear H; intros ? ? H; cbv beta in H |- *]
  | H : (if ?b then Throw _ else _) = Ok _ |- _ => destruct b; [discriminate H|]
  | H : of_option _ ?o = Ok _ |- _ => destruct o; [|discriminate H]
  | H : match ?x with _ => _ end = Ok _ |- _ => destruct x; try discriminate H
  end.

Section Lists.
Context {A : Type} `{EqDecision A}.

Lemma includes_true (l : list A) x : includes l x = true <-> x ∈ l.
Proof. unfold includes. apply bool_decide_eq_true. Qed.

Lemma includes_false (l : list A) x : includes l x = false <-> x ∉ l.
Proof. unfold includes. apply bool_decide_eq_false. Qed.

Lemma all_distinct_true (l : list A) : all_distinct l = true <-> NoDup l.
Proof. unfold all_distinct. apply bool_decide_eq_true. Qed.

Lemma elem_of_distinct (l : list A) x : x ∈ distinct l <-> x ∈ l.
Proof.
  induction l as [|y l IH]; simpl; [done|].
  rewrite !elem_of_cons, list_elem_of_filter, IH. destruct (decide (x = y)); naive_solver.
Qed.

Lemma NoDup_distinct (l : list A) : NoDup (distinct l).
Proof.
  induction l as [|y l IH]; simpl; constructor.
  - rewrite list_elem_of_filter. naive_solver.
  - by apply NoDup_filter.
Qed.

Lemma NoDup_map_inj {B} (f : A -> B) (l : list A) x y :
  NoDup (map f l) -> x ∈ l -> y ∈ l -> f x = f y -> x = y.
Proof.
  induction l as [|z l IH]; simpl; [set_solver|]. intros [Hn Hd]%NoDup_cons Hx Hy E.
  assert (forall w, w ∈ l -> f w <> f z) as Hz.
  { intros w Hw Ew. destruct Hn. apply list_elem_of_fmap. eauto. }
  apply elem_of_cons in Hx as [->|Hx], Hy as [->|Hy]; auto; by destruct (Hz _ ltac:(eassumption)).
Qed.

Lemma existsb_elem_of (f : A -> bool) l : existsb f l = true <-> exists x, x ∈ l /\ f x = true.
Proof. rewrite existsb_exists. by setoid_rewrite <- list_elem_of_In. Qed.

Lemma existsb_not_elem_of (f : A -> bool) l : existsb f l = false <-> forall x, x ∈ l -> f x = false.
Proof.
  rewrite <- not_true_iff_false, existsb_elem_of. split.
  - intros H x Hx. apply not_true_iff_false. naive_solver.
  - intros H (x & Hx & Ht). rewrite H in Ht; done.
Qed.

Lemma forallb_elem_of (f : A -> bool) l : forallb f l = true <-> forall x, x ∈ l -> f x = true.
Proof. rewrite forallb_forall. by setoid_rewrite <- list_elem_of_In. Qed.
End Lists.

Lemma reach_invariant {S} (init : S -> Prop) (step : S -> S -> Prop) (P : S -> Prop) :
  (forall s, init s -> P s) ->
  (forall s t, reach init step s -> P s -> step s t -> P t) ->
  forall s, reach init step s -> P s.
Proof. intros Hi Hs s H. induction H; eauto. Qed.

(** Follow a successful run from bind to bind, without simplifying it. *)
Ltac run_steps H :=
  repeat first
    [ let x := fresh "x" in let E := fresh "E" in apply bind_ok in H as (x & E & H)
    | lazymatch type of H with
      | (if ?b then Throw _ else _) = Ok _ => let E := fresh "E" in destruct b eqn:E; [discriminate H|]
      | (let _ := _ in _) = Ok _ => cbv zeta in H
      end ];
  repeat match goal with E : of_option _ _ = Ok _ |- _ => apply of_option_ok in E end.

Create HintDb js.
#[export] Hint Constructors reach : js.
#[export] Hint Rewrite @bind_ok @of_option_ok @includes_true @includes_false @all_distinct_true : js.
