(* ===== verification/JsValue.v ===== *)
(** * JavaScript values

    The untyped values the validators receive.  Strings are lists of code
    units below 256 ([string]); numbers are split into the integers of
    magnitude below 10^21 (which [Number::toString] prints in plain decimal)
    and the remaining finite doubles, named by the text that
    [Number::toString] gives them (that text determines the double).  [JObj]
    is a plain object (prototype [Object.prototype] or [null]) whose own
    properties are enumerable data properties with string keys, in insertion
    order; [JBytes] a [Buffer] or [Uint8Array]; [JFun] a function; [JHost] an
    instance of some other class. *)

From stdpp Require Import base tactics sets list strings pretty sorting.
From S2P Require Import Prelude.

(** ** Data *)

Inductive jsnum : Set :=
| NInt (z : Z)
| NText (t : string)
| NNaN
| NInf (negative : bool).

#[export] Instance jsnum_eq_dec : EqDecision jsnum.
Proof. solve_decision. Defined.

Unset Elimination Schemes.
Inductive jsval : Set :=
| JUndefined
| JNull
| JBool (b : bool)
| JNum (n : jsnum)
| JStr (s : string)
| JArr (l : list jsval)
| JObj (fields : list (string * jsval))
| JBytes (b : string)
| JFun (id : nat)
| JHost (id : nat).
Set Elimination Schemes.

Section Induction.
Variable P : jsval -> Prop.
Hypothesis HUndefined : P JUndefined.
Hypothesis HNull : P JNull.
Hypothesis HBool : forall b, P (JBool b).
Hypothesis HNum : forall n, P (JNum n).
Hypothesis HStr : forall s, P (JStr s).
Hypothesis HArr : forall l, Forall P l -> P (JArr l).
Hypothesis HObj : forall fs, Forall (fun kv => P kv.2) fs -> P (JObj fs).
Hypothesis HBytes : forall b, P (JBytes b).
Hypothesis HFun : forall i, P (JFun i).
Hypothesis HHost : forall i, P (JHost i).

Fixpoint jsval_ind (v : jsval) : P v :=
  match v with
  | JUndefined => HUndefined
  | JNull => HNull
  | JBool b => HBool b
  | JNum n => HNum n
  | JStr s => HStr s
  | JArr l => HArr l
      ((fix go l : Forall P l :=
          match l with
          | [] => Forall_nil_2 P
          | x :: l => Forall_cons_2 P x l (jsval_ind x) (go l)
          end) l)
  | JObj fs => HObj fs
      ((fix go l : Forall (fun kv => P kv.2) l :=
          match l with
          | [] => Forall_nil_2 _
          | x :: l => Forall_cons_2 (fun kv => P kv.2) x l (jsval_ind x.2) (go l)
          end) fs)
  | JBytes b => HBytes b
  | JFun i => HFun i
  | JHost i => HHost i
  end.
End Induction.

#[export] Instance jsval_eq_dec : EqDecision jsval.
Proof.
  unfold EqDecision, RelDecision. fix IH 1. intros x y.
  destruct x as [ | |b|n|s|l|fs|b|i|i], y as [ | |b'|n'|s'|l'|fs'|b'|i'|i'];
    try (right; discriminate); try (left; reflexivity).
  - destruct (decide (b = b')); [left|right]; congruence.
  - destruct (decide (n = n')); [left|right]; congruence.
  - destruct (decide (s = s')); [left|right]; congruence.
  - cut ({l = l'} + {l <> l'}).
    { intros [->|Hne]; [left; reflexivity|right; congruence]. }
    revert l'. induction l as [|a l IHl]; intros [|a' l'];
      [by left|by right|by right|].
    destruct (IH a a') as [->|]; [|right; congruence].
    destruct (IHl l') as [->|]; [left; reflexivity|right; congruence].
  - cut ({fs = fs'} + {fs <> fs'}).
    { intros [->|Hne]; [left; reflexivity|right; congruence]. }
    revert fs'. induction fs as [|[k a] fs IHl]; intros [|[k' a'] fs'];
      [by left|by right|by right|].
    destruct (decide (k = k')) as [->|]; [|right; congruence].
    destruct (IH a a') as [->|]; [|right; congruence].
    destruct (IHl fs') as [->|]; [left; reflexivity|right; congruence].
  - destruct (decide (b = b')); [left|right]; congruence.
  - destruct (decide (i = i')); [left|right]; congruence.
  - destruct (decide (i = i')); [left|right]; congruence.
Defined.

(** ** The language's operators on values *)

(** [Number.MAX_SAFE_INTEGER] *)
Definition MAX_SAFE_INTEGER : Z := 9007199254740991.

(** [Number.isSafeInteger(v)], with the integer when it is one. *)
Definition safe_integer (v : jsval) : option Z :=
  match v with
  | JNum (NInt z) => if (Z.abs z <=? MAX_SAFE_INTEGER)%Z then Some z else None
  | _ => None
  end.

(** [Number.isInteger(v)] restricted to the integers below 10^21. *)
Definition js_integer (v : jsval) : option Z :=
  match v with JNum (NInt z) => Some z | _ => None end.

(** [Number.isSafeInteger(v) && lo <= v && v <= hi] *)
Definition integer_in (lo hi : Z) (v : jsval) : bool :=
  match safe_integer v with Some z => (lo <=? z)%Z && (z <=? hi)%Z | None => false end.

Definition finite_number (v : jsval) : bool :=
  match v with JNum (NInt _) | JNum (NText _) => true | _ => false end.

(** [v ?? d] *)
Definition nullish (v d : jsval) : jsval :=
  match v with JUndefined | JNull => d | _ => v end.

(** [Boolean(v)] *)
Definition truthy (v : jsval) : bool :=
  match v with
  | JUndefined | JNull | JBool false | JNum (NInt 0) | JNum NNaN => false
  | JStr s => negb (String.eqb s "")
  | _ => true
  end.

(** Association lists of properties: [o[k]] and [Object.hasOwn(o, k)]. *)
Fixpoint assoc (k : string) (fs : list (string * jsval)) : option jsval :=
  match fs with
  | [] => None
  | (k', v) :: fs => if String.eqb k k' then Some v else assoc k fs
  end.

(** [v?.k]: own properties only, the names the code reads are not names of
    [Object.prototype]. *)
Definition get (v : jsval) (k : string) : jsval :=
  match v with JObj fs => default JUndefined (assoc k fs) | _ => JUndefined end.

(** [object[k] = v] on a plain object: a new key goes last. *)
Fixpoint set_field (k : string) (v : jsval) (fs : list (string * jsval)) : list (string * jsval) :=
  match fs with
  | [] => [(k, v)]
  | (k', v') :: fs => if String.eqb k k' then (k, v) :: fs else (k', v') :: set_field k v fs
  end.

Definition has_own (v : jsval) (k : string) : bool :=
  match v with JObj fs => bool_decide (is_Some (assoc k fs)) | _ => false end.

(** The registry object inherits the members of [Object.prototype], whose
    registry fields are undefined. *)
Definition OBJECT_PROTOTYPE :=
  ["__proto__"; "__defineGetter__"; "__defineSetter__"; "__lookupGetter__"; "__lookupSetter__"; "constructor";
   "hasOwnProperty"; "isPrototypeOf"; "propertyIsEnumerable"; "toLocaleString"; "toString"; "valueOf"].

(** [Object.keys(v)] and [Reflect.ownKeys(v)]; the keys of a [Buffer] are its
    indices. *)
Definition own_keys (v : jsval) : list string :=
  match v with
  | JObj fs => map fst fs
  | JBytes b => map (fun i => pretty (Z.of_nat i)) (seq 0 (String.length b))
  | _ => []
  end.

(** [typeof v === "object" && v !== null && !Array.isArray(v)] *)
Definition is_object (v : jsval) : bool :=
  match v with JObj _ | JBytes _ | JHost _ => true | _ => false end.

(** The same, and its prototype is [Object.prototype] or [null]. *)
Definition is_plain (v : jsval) : bool :=
  match v with JObj _ => true | _ => false end.

Definition is_undefined (v : jsval) : bool :=
  match v with JUndefined => true | _ => false end.

Definition is_function (v : jsval) : bool :=
  match v with JFun _ => true | _ => false end.

(** [v === "s"] and [v === n] for constants. *)
Definition is_str (v : jsval) (s : string) : bool :=
  match v with JStr t => String.eqb t s | _ => false end.

Definition is_int (v : jsval) (n : Z) : bool :=
  match v with JNum (NInt z) => Z.eqb z n | _ => false end.

Definition as_str (v : jsval) : option string :=
  match v with JStr s => Some s | _ => None end.

(** ["..."].includes(v)] for an array of string constants. *)
Definition one_of (l : list string) (v : jsval) : bool :=
  match v with JStr s => includes l s | _ => false end.

(** Every own key is expected and there are as many keys as expected ones. *)
Definition same_keys (v : jsval) (keys : list string) : bool :=
  Nat.eqb (length (own_keys v)) (length keys)
  && forallb (fun k => includes keys k) (own_keys v).

(** A well-formed object has no two properties of one name, at any depth. *)
Fixpoint well_formed (v : jsval) : bool :=
  match v with
  | JArr l => forallb well_formed l
  | JObj fs => all_distinct (map fst fs) && forallb (fun kv => well_formed kv.2) fs
  | _ => true
  end.

(** ** [String(v)]

    [None] stands for the [TypeError] of an object whose conversion methods
    are replaced, and for functions and host objects, whose text is their
    source or class. *)

Definition num_to_string (n : jsnum) : string :=
  match n with
  | NInt z => pretty z
  | NText t => t
  | NNaN => "NaN"
  | NInf false => "Infinity"
  | NInf true => "-Infinity"
  end.

Fixpoint join (sep : string) (l : list string) : string :=
  match l with
  | [] => ""
  | [s] => s
  | s :: l => s +:+ sep +:+ join sep l
  end.

Fixpoint option_all {A} (l : list (option A)) : option (list A) :=
  match l with
  | [] => Some []
  | None :: _ => None
  | Some a :: l => option_map (cons a) (option_all l)
  end.

Fixpoint to_string (v : jsval) : option string :=
  match v with
  | JUndefined => Some "undefined"
  | JNull => Some "null"
  | JBool true => Some "true"
  | JBool false => Some "false"
  | JNum n => Some (num_to_string n)
  | JStr s => Some s
  | JArr l =>
      option_map (join ",")
        (option_all (map (fun x => match x with JUndefined | JNull => Some "" | _ => to_string x end) l))
  | JObj fs =>
      if includes (map fst fs) "toString" then None else Some "[object Object]"
  | JBytes b => Some b
  | JFun _ | JHost _ => None
  end.

(** ** Lemmas *)

Lemma safe_integer_Some v z :
  safe_integer v = Some z <-> v = JNum (NInt z) /\ (Z.abs z <= MAX_SAFE_INTEGER)%Z.
Proof.
  unfold safe_integer. destruct v as [ | | |[z'|?| |?]| | | | | | ]; try naive_solver.
  destruct (Z.leb_spec (Z.abs z') MAX_SAFE_INTEGER); split.
  - intros [= ->]. done.
  - by intros [[= ->] _].
  - done.
  - intros [[= ->] ?]. lia.
Qed.

Lemma integer_in_true lo hi v :
  integer_in lo hi v = true <->
  exists z, v = JNum (NInt z) /\ (Z.abs z <= MAX_SAFE_INTEGER)%Z /\ (lo <= z <= hi)%Z.
Proof.
  unfold integer_in. destruct (safe_integer v) as [z|] eqn:E.
  - apply safe_integer_Some in E as [-> ?]. rewrite andb_true_iff, !Z.leb_le.
    split; [intros; exists z; auto|]. intros (z' & [= ->] & ?). lia.
  - split; [done|]. intros (z & -> & Habs & _). simpl in E.
    destruct (Z.leb_spec (Z.abs z) MAX_SAFE_INTEGER); [done|lia].
Qed.

Lemma is_str_true v s : is_str v s = true <-> v = JStr s.
Proof. destruct v; simpl; try naive_solver. rewrite String.eqb_eq. naive_solver. Qed.

Lemma is_int_true v n : is_int v n = true <-> v = JNum (NInt n).
Proof. destruct v as [ | | |[z|?| |?]| | | | | | ]; simpl; try naive_solver. rewrite Z.eqb_eq. naive_solver. Qed.

Lemma is_undefined_true v : is_undefined v = true <-> v = JUndefined.
Proof. destruct v; simpl; naive_solver. Qed.

Lemma is_plain_true v : is_plain v = true <-> exists fs, v = JObj fs.
Proof. destruct v; simpl; naive_solver. Qed.

Lemma one_of_true l v : one_of l v = true <-> exists s, v = JStr s /\ s ∈ l.
Proof. destruct v; simpl; try naive_solver. rewrite includes_true. naive_solver. Qed.

Lemma assoc_Some_elem k fs v : assoc k fs = Some v -> (k, v) ∈ fs.
Proof.
  induction fs as [|[k' v'] fs IH]; simpl; [done|].
  destruct (String.eqb_spec k k') as [->|]; intros H; [injection H as ->|]; set_solver.
Qed.

Lemma assoc_None k fs : assoc k fs = None <-> k ∉ map fst fs.
Proof.
  induction fs as [|[k' v'] fs IH]; simpl; [set_solver|].
  destruct (String.eqb_spec k k') as [->|]; [set_solver|]. rewrite IH. set_solver.
Qed.

Lemma assoc_elem k fs v : NoDup (map fst fs) -> (k, v) ∈ fs -> assoc k fs = Some v.
Proof.
  induction fs as [|[k' v'] fs IH]; simpl; intros Hd Hin; [set_solver|].
  inversion Hd as [|? ? Hn Hd']; subst.
  apply elem_of_cons in Hin as [[= -> ->]|Hin]; [by rewrite String.eqb_refl|].
  destruct (String.eqb_spec k k') as [->|]; [|auto].
  destruct Hn. apply list_elem_of_fmap. by exists (k', v).
Qed.

Lemma same_keys_true v keys :
  same_keys v keys = true <->
  length (own_keys v) = length keys /\ forall k, k ∈ own_keys v -> k ∈ keys.
Proof.
  unfold same_keys. rewrite andb_true_iff, Nat.eqb_eq, forallb_elem_of.
  by setoid_rewrite includes_true.
Qed.

(** With distinct keys, [same_keys] is equality of key sets. *)
Lemma same_keys_all v keys :
  same_keys v keys = true -> NoDup (own_keys v) -> forall k, k ∈ keys -> k ∈ own_keys v.
Proof.
  rewrite same_keys_true. intros [Hl Hin] Hd k Hk.
  assert (own_keys v ⊆+ keys) as Hs by (apply NoDup_submseteq; auto).
  assert (own_keys v ≡ₚ keys) as Hp.
  { apply submseteq_length_Permutation; [done|lia]. }
  by rewrite Hp.
Qed.

#[export] Hint Rewrite safe_integer_Some integer_in_true is_str_true is_int_true
  is_undefined_true one_of_true : js.
