(* ===== verification/Regex.v ===== *)
(** * Regular expressions

    The regular expressions the validators test against are all anchored at
    both ends, so [expr.test(s)] is membership of [s] in a regular language.
    [re] is their syntax, [re_test] a matcher by derivatives, [matches] the
    language; the two agree ([re_test_spec]). *)

From stdpp Require Import base tactics sets list strings.
From Stdlib Require Import Ascii.
From S2P Require Import Prelude JsValue.

(** ** Characters *)

Definition code (c : ascii) : nat := nat_of_ascii c.

Definition between (lo hi : ascii) (c : ascii) : bool :=
  Nat.leb (code lo) (code c) && Nat.leb (code c) (code hi).

Definition digit : ascii -> bool := between "0" "9".
Definition lower : ascii -> bool := between "a" "z".
Definition upper : ascii -> bool := between "A" "Z".
Definition alnum (c : ascii) : bool := digit c || lower c || upper c.
Definition hex_lower (c : ascii) : bool := digit c || between "a" "f" c.
Definition hex_any (c : ascii) : bool := hex_lower c || between "A" "F" c.

Fixpoint chars (s : string) : list ascii :=
  match s with EmptyString => [] | String c s => c :: chars s end.

Definition in_chars (s : string) (c : ascii) : bool := existsb (Ascii.eqb c) (chars s).

(** ** White space *)

(** [text.trim()], below code unit 256. *)
Definition js_space (c : ascii) : bool :=
  (Nat.leb 9 (code c) && Nat.leb (code c) 13) || Nat.eqb (code c) 32 || Nat.eqb (code c) 160.

Fixpoint trim_start (s : string) : string :=
  match s with String c s' => if js_space c then trim_start s' else s | EmptyString => "" end.

Fixpoint trim_end (s : string) : string :=
  match s with
  | EmptyString => ""
  | String c s => match trim_end s with EmptyString => if js_space c then "" else String c "" | t => String c t end
  end.

Definition trim (s : string) : string := trim_end (trim_start s).

Definition all_ascii : list ascii := map ascii_of_nat (seq 0 256).

(** ** Syntax and matcher *)

Inductive re : Type :=
| REmpty
| REps
(** [[p]{lo,hi}], unbounded when [hi] is [None] *)
| RClass (p : ascii -> bool) (lo : nat) (hi : option nat)
| RSeq (r s : re)
| RAlt (r s : re)
| RStar (r : re).

Fixpoint nullable (r : re) : bool :=
  match r with
  | REmpty => false
  | REps => true
  | RClass _ lo _ => Nat.eqb lo 0
  | RSeq r s => nullable r && nullable s
  | RAlt r s => nullable r || nullable s
  | RStar _ => true
  end.

(** Constructors that drop the empty language. *)
Definition rseq (r s : re) : re :=
  match r, s with REmpty, _ | _, REmpty => REmpty | REps, _ => s | _, _ => RSeq r s end.

Definition ralt (r s : re) : re :=
  match r, s with REmpty, _ => s | _, REmpty => r | _, _ => RAlt r s end.

Fixpoint deriv (c : ascii) (r : re) : re :=
  match r with
  | REmpty | REps => REmpty
  | RClass p lo hi =>
      if p c then
        match hi with
        | Some 0 => REmpty
        | Some (S h) => RClass p (Nat.pred lo) (Some h)
        | None => RClass p (Nat.pred lo) None
        end
      else REmpty
  | RSeq r s =>
      if nullable r then ralt (rseq (deriv c r) s) (deriv c s) else rseq (deriv c r) s
  | RAlt r s => ralt (deriv c r) (deriv c s)
  | RStar r => rseq (deriv c r) (RStar r)
  end.

Fixpoint re_test (r : re) (s : string) : bool :=
  match s with
  | EmptyString => match r with RClass _ lo hi => Nat.eqb lo 0 | _ => nullable r end
  | String c s => re_test (deriv c r) s
  end.

(** [typeof v === "string" && expr.test(v)] *)
Definition str_test (r : re) (v : jsval) : bool :=
  match v with JStr s => re_test r s | _ => false end.

(** [expr.test(v)]: the argument is converted to a string first. *)
Definition coerced_test (r : re) (v : jsval) : bool :=
  match to_string v with Some s => re_test r s | None => false end.

(** ** Abbreviations for the source's expressions *)

Definition one (p : ascii -> bool) : re := RClass p 1 (Some 1).
Definition times (p : ascii -> bool) (n : nat) : re := RClass p n (Some n).
Definition upto (p : ascii -> bool) (n : nat) : re := RClass p 0 (Some n).
Definition many (p : ascii -> bool) : re := RClass p 0 None.
Definition some (p : ascii -> bool) : re := RClass p 1 None.
Definition opt (r : re) : re := RAlt r REps.

Fixpoint lit (s : string) : re :=
  match s with EmptyString => REps | String c s => rseq (one (Ascii.eqb c)) (lit s) end.

Fixpoint seqs (l : list re) : re :=
  match l with [] => REps | [r] => r | r :: l => RSeq r (seqs l) end.

Fixpoint alts (l : list re) : re :=
  match l with [] => REmpty | [r] => r | r :: l => RAlt r (alts l) end.

(** Case-insensitive letters, for expressions with the [i] flag. *)
Definition fold_case (c : ascii) : ascii :=
  if upper c then ascii_of_nat (code c + 32) else c.

Fixpoint lit_i (s : string) : re :=
  match s with
  | EmptyString => REps
  | String c s => rseq (one (fun d => Ascii.eqb (fold_case c) (fold_case d))) (lit_i s)
  end.

(** An expression without anchors: it matches somewhere in the string. *)
Definition somewhere (r : re) : re := seqs [many (fun _ => true); r; many (fun _ => true)].

(** ** The language *)

Inductive matches : re -> string -> Prop :=
| m_eps : matches REps ""
| m_class p lo hi s :
    Forall (fun c => p c = true) (chars s) ->
    lo <= length (chars s) ->
    match hi with Some h => length (chars s) <= h | None => True end ->
    matches (RClass p lo hi) s
| m_seq r1 r2 s1 s2 : matches r1 s1 -> matches r2 s2 -> matches (RSeq r1 r2) (s1 +:+ s2)
| m_alt_l r1 r2 s : matches r1 s -> matches (RAlt r1 r2) s
| m_alt_r r1 r2 s : matches r2 s -> matches (RAlt r1 r2) s
| m_star_nil r : matches (RStar r) ""
| m_star_cons r c s1 s2 :
    matches r (String c s1) -> matches (RStar r) s2 -> matches (RStar r) (String c s1 +:+ s2).

#[export] Hint Constructors matches : js.

(** ** The shape of matching strings *)

Definition class_sub (p q : ascii -> bool) : bool :=
  forallb (fun c => implb (p c) (q c)) all_ascii.

(** Every character of a match satisfies [q]. *)
Fixpoint only_chars (q : ascii -> bool) (r : re) : bool :=
  match r with
  | REmpty | REps => true
  | RClass p _ _ => class_sub p q
  | RSeq r s | RAlt r s => only_chars q r && only_chars q s
  | RStar r => only_chars q r
  end.

(** The longest match, when there is one. *)
Fixpoint max_len (r : re) : option nat :=
  match r with
  | REmpty | REps => Some 0
  | RClass _ _ hi => hi
  | RSeq r s =>
      match max_len r, max_len s with Some a, Some b => Some (a + b) | _, _ => None end
  | RAlt r s =>
      match max_len r, max_len s with Some a, Some b => Some (Nat.max a b) | _, _ => None end
  | RStar _ => None
  end.

Fixpoint min_len (r : re) : nat :=
  match r with
  | REmpty | REps | RStar _ => 0
  | RClass _ lo _ => lo
  | RSeq r s => min_len r + min_len s
  | RAlt r s => Nat.min (min_len r) (min_len s)
  end.

(** ** Lemmas *)

Lemma string_app_assoc (s t u : string) : (s +:+ t) +:+ u = s +:+ (t +:+ u).
Proof. induction s as [|c s IH]; [done|]. exact (f_equal (String c) IH). Qed.

Lemma string_app_nil (s : string) : s +:+ "" = s.
Proof. induction s as [|c s IH]; [done|]. exact (f_equal (String c) IH). Qed.

Lemma chars_app s t : chars (s +:+ t) = chars s ++ chars t.
Proof. induction s as [|c s IH]; simpl; [done|]. by rewrite IH. Qed.

Lemma chars_inj s t : chars s = chars t -> s = t.
Proof. revert t; induction s as [|c s IH]; intros [|d t]; simpl; try done. intros [= -> ?%IH]. by subst. Qed.

Lemma in_all_ascii c : c ∈ all_ascii.
Proof.
  unfold all_ascii. apply list_elem_of_fmap. exists (nat_of_ascii c).
  split; [by rewrite ascii_nat_embedding|].
  apply elem_of_seq. pose proof (nat_ascii_bounded c). lia.
Qed.

Lemma class_sub_spec p q c : class_sub p q = true -> p c = true -> q c = true.
Proof.
  unfold class_sub. rewrite forallb_elem_of. intros H Hp.
  specialize (H c (in_all_ascii c)). by rewrite Hp in H.
Qed.

Lemma append_nil_l (s t : string) : s +:+ t = "" <-> s = "" /\ t = "".
Proof. destruct s; simpl; naive_solver. Qed.

Lemma nullable_spec r : nullable r = true <-> matches r "".
Proof.
  split.
  - induction r; simpl; intros H; try done; guards; eauto with js.
    + apply Nat.eqb_eq in H as ->. constructor; simpl; [constructor|lia|]. by destruct hi; [lia|].
    + replace "" with ("" +:+ "") by done. eauto with js.
    + apply orb_true_iff in H as [H|H]; eauto with js.
  - intros H. remember "" as s eqn:E. revert E.
    induction H; simpl; intros E; subst; try done.
    + simpl in *. apply Nat.eqb_eq. lia.
    + apply append_nil_l in E as [-> ->]. rewrite IHmatches1, IHmatches2; done.
    + by rewrite IHmatches.
    + rewrite IHmatches by done. by rewrite orb_true_r.
Qed.

Lemma empty_inv s : matches REmpty s <-> False.
Proof. split; [intros H; inversion H|done]. Qed.

Lemma eps_inv s : matches REps s <-> s = "".
Proof. split; [by intros H; inversion H|intros ->; constructor]. Qed.

Lemma seq_inv r1 r2 s :
  matches (RSeq r1 r2) s <-> exists s1 s2, s = s1 +:+ s2 /\ matches r1 s1 /\ matches r2 s2.
Proof.
  split; [intros H; inversion H; subst; eauto|].
  intros (s1 & s2 & -> & ? & ?). by constructor.
Qed.

Lemma alt_inv r1 r2 s : matches (RAlt r1 r2) s <-> matches r1 s \/ matches r2 s.
Proof. split; [intros H; inversion H; subst; eauto|]. intros [?|?]; eauto with js. Qed.

Lemma rseq_matches r1 r2 s : matches (rseq r1 r2) s <-> matches (RSeq r1 r2) s.
Proof.
  rewrite seq_inv. destruct r1, r2; simpl; rewrite ?seq_inv, ?empty_inv; try done;
    (split; [intros H|intros (s1 & s2 & -> & H1 & H2)]);
    repeat match goal with
    | H : matches REmpty _ |- _ => by apply empty_inv in H
    | H : matches REps _ |- _ => apply eps_inv in H as ->
    end; try done; try (exists "", s; split_and!; [done|constructor|done]).
  all: first
    [ exists "", ""; split_and!; [done|constructor|constructor]
    | exists "", s; split_and!; [done|constructor|by apply seq_inv]
    | rewrite seq_inv in H2; exact H2
    | constructor ].
Qed.

Lemma ralt_matches r1 r2 s : matches (ralt r1 r2) s <-> matches (RAlt r1 r2) s.
Proof.
  rewrite alt_inv. destruct r1, r2; simpl; rewrite ?alt_inv, ?empty_inv; tauto.
Qed.

Lemma class_inv p lo hi s :
  matches (RClass p lo hi) s <->
  Forall (fun c => p c = true) (chars s) /\ lo <= length (chars s) /\
  match hi with Some h => length (chars s) <= h | None => True end.
Proof. split; [intros H; inversion H; subst; auto|]. intros (? & ? & ?). by constructor. Qed.

Lemma star_string_inv r c s :
  matches (RStar r) (String c s) <->
  exists s1 s2, s = s1 +:+ s2 /\ matches r (String c s1) /\ matches (RStar r) s2.
Proof.
  split.
  - intros H. inversion H; subst. eauto.
  - intros (s1 & s2 & -> & H1 & H2). by apply (m_star_cons r c s1 s2).
Qed.

Lemma class_deriv p lo hi c s :
  matches (deriv c (RClass p lo hi)) s <-> matches (RClass p lo hi) (String c s).
Proof.
  rewrite class_inv. simpl. rewrite Forall_cons.
  destruct (p c) eqn:Hp; [|split; [intros H; inversion H|naive_solver]].
  destruct hi as [[|h]|]; try rewrite class_inv.
  - split; [intros H; inversion H|]. intros (? & ? & ?). lia.
  - split; intros; destruct_and!; repeat split; auto; lia.
  - split; intros; destruct_and!; repeat split; auto; lia.
Qed.

Lemma deriv_spec r : forall c s, matches (deriv c r) s <-> matches r (String c s).
Proof.
  induction r as [| |p lo hi|r1 IH1 r2 IH2|r1 IH1 r2 IH2|r IH]; intros c s.
  - split; intros H; inversion H.
  - split; intros H; inversion H.
  - apply class_deriv.
  - assert (Hq : matches (RSeq r1 r2) (String c s) <->
      matches (RSeq (deriv c r1) r2) s \/ (nullable r1 = true /\ matches (deriv c r2) s)).
    { rewrite !seq_inv, IH2, nullable_spec. split.
      - intros ([|d s1] & s2 & E & H1 & H2); simpl in E.
        + right. by rewrite E.
        + injection E as <- ->. left. exists s1, s2. by rewrite IH1.
      - intros [(s1 & s2 & -> & H1 & H2)|[H1 H2]].
        + exists (String c s1), s2. by rewrite <- IH1.
        + by exists "", (String c s). }
    rewrite Hq. simpl. destruct (nullable r1).
    + rewrite ralt_matches, alt_inv, rseq_matches. naive_solver.
    + rewrite rseq_matches. naive_solver.
  - simpl. by rewrite ralt_matches, !alt_inv, IH1, IH2.
  - simpl. rewrite rseq_matches, seq_inv, star_string_inv. by setoid_rewrite IH.
Qed.

(** The matcher decides the language. *)
Lemma re_test_spec r s : re_test r s = true <-> matches r s.
Proof.
  revert r; induction s as [|c s IH]; intros r; cbn [re_test].
  - rewrite <- nullable_spec. by destruct r.
  - by rewrite IH, deriv_spec.
Qed.

Lemma str_test_true r v : str_test r v = true <-> exists s, v = JStr s /\ matches r s.
Proof. destruct v; simpl; try naive_solver. rewrite re_test_spec. naive_solver. Qed.

Lemma coerced_test_true r v :
  coerced_test r v = true <-> exists s, to_string v = Some s /\ matches r s.
Proof. unfold coerced_test. destruct (to_string v); [rewrite re_test_spec|]; naive_solver. Qed.

Lemma matches_only_chars q r s :
  only_chars q r = true -> matches r s -> Forall (fun c => q c = true) (chars s).
Proof.
  intros Hq H. induction H; simpl in Hq; guards; auto; try by constructor.
  - eapply Forall_impl; [done|]. intros c Hc. by eapply class_sub_spec.
  - rewrite chars_app. apply Forall_app; auto.
  - rewrite chars_app. apply Forall_app; auto.
Qed.

Lemma matches_max_len r s n : max_len r = Some n -> matches r s -> length (chars s) <= n.
Proof.
  intros Hn H. revert n Hn.
  induction H; simpl; intros n Hn; try (injection Hn as <-); try done; try (simpl; lia).
  - by subst.
  - destruct (max_len r1), (max_len r2); try done. injection Hn as <-.
    rewrite chars_app, length_app. specialize (IHmatches1 _ eq_refl). specialize (IHmatches2 _ eq_refl). lia.
  - destruct (max_len r1), (max_len r2); try done. injection Hn as <-. specialize (IHmatches _ eq_refl). lia.
  - destruct (max_len r1), (max_len r2); try done. injection Hn as <-. specialize (IHmatches _ eq_refl). lia.
Qed.

Lemma matches_min_len r s : matches r s -> min_len r <= length (chars s).
Proof. intros H. induction H; simpl in *; try rewrite chars_app, length_app; simpl; lia. Qed.

Lemma length_chars s : length (chars s) = String.length s.
Proof. induction s; simpl; auto. Qed.
