(* ===== verification/IsoTime.v ===== *)
(** * Time values and their ISO text

    [Date] time values (milliseconds since 1970, UTC), [Date.prototype.
    toISOString] as [to_iso], and [Date.parse] as the interface [DateParse]:
    ECMAScript fixes it on the output of [toISOString] and leaves other texts
    to the implementation, so the clients rely on the round trip only.
    [iso_date_parse] is an implementation of the interface that reads exactly
    the texts [toISOString] writes. *)

From stdpp Require Import base tactics sets list strings numbers.
From Stdlib Require Import Ascii.
From S2P Require Import Prelude JsValue Regex.
Local Open Scope Z_scope.
Ltac div_lia := Z.to_euclidean_division_equations; lia.

(** ** Calendar *)

(** Days since 1970-01-01 to (year, month, day), proleptic Gregorian. *)
Definition year_of_era (doe : Z) : Z :=
  (doe - doe / 1460 + doe / 36524 - doe / 146096) / 365.

Definition day_of_year (doe : Z) : Z :=
  let yoe := year_of_era doe in doe - (365 * yoe + yoe / 4 - yoe / 100).

Definition civil_of_days (days : Z) : Z * Z * Z :=
  let z := days + 719468 in
  let era := z / 146097 in
  let doe := z mod 146097 in
  let mp := (5 * day_of_year doe + 2) / 153 in
  let d := day_of_year doe - (153 * mp + 2) / 5 + 1 in
  let m := if mp <? 10 then mp + 3 else mp - 9 in
  let y := year_of_era doe + era * 400 in
  (if m <=? 2 then y + 1 else y, m, d).

Definition days_of_civil (ymd : Z * Z * Z) : Z :=
  let '(y, m, d) := ymd in
  let y := if m <=? 2 then y - 1 else y in
  let era := y / 400 in
  let yoe := y mod 400 in
  let mp := if m <=? 2 then m + 9 else m - 3 in
  let doy := (153 * mp + 2) / 5 + d - 1 in
  era * 146097 + (yoe * 365 + yoe / 4 - yoe / 100 + doy) - 719468.

(** ** Decimal digits *)

Definition digit_char (d : Z) : ascii := ascii_of_nat (48 + Z.to_nat d).

Fixpoint digits (n : nat) (z : Z) : string :=
  match n with
  | O => ""
  | S n => digits n (z / 10) +:+ String (digit_char (z mod 10)) ""
  end.

Fixpoint digits_value_from (acc : Z) (s : string) : Z :=
  match s with
  | EmptyString => acc
  | String c s => digits_value_from (10 * acc + (Z.of_nat (code c) - 48)) s
  end.

Definition digits_value (s : string) : Z := digits_value_from 0 s.

(** ** toISOString *)

Definition DAY_MS : Z := 86400000.
Definition MAX_TIME : Z := 8640000000000000.
Definition in_time_range (t : Z) : bool := Z.abs t <=? MAX_TIME.

Definition iso_year (y : Z) : string :=
  if (0 <=? y) && (y <=? 9999) then digits 4 y
  else if 0 <=? y then "+" +:+ digits 6 y else "-" +:+ digits 6 (- y).

Definition to_iso (t : Z) : string :=
  let '(y, m, d) := civil_of_days (t / DAY_MS) in
  let ms := t mod DAY_MS in
  iso_year y +:+ "-" +:+ digits 2 m +:+ "-" +:+ digits 2 d +:+ "T"
  +:+ digits 2 (ms / 3600000) +:+ ":" +:+ digits 2 (ms / 60000 mod 60) +:+ ":"
  +:+ digits 2 (ms / 1000 mod 60) +:+ "." +:+ digits 3 (ms mod 1000) +:+ "Z".

(** ** Date.parse *)

Class DateParse := {
  date_parse : string -> option Z;
  date_parse_range : forall s t, date_parse s = Some t -> Z.abs t <= MAX_TIME;
  date_parse_iso : forall t, Z.abs t <= MAX_TIME -> date_parse (to_iso t) = Some t
}.

(** The clients' test [new Date(Date.parse(v)).toISOString() === v]: the time
    value when [v] is canonical. *)
Definition canonical_iso `{DateParse} (v : string) : option Z :=
  match date_parse v with
  | Some t => if String.eqb (to_iso t) v then Some t else None
  | None => None
  end.

(** [/^\d{4}-\d{2}-\d{2}T\d{2}:\d{2}:\d{2}\.\d{3}Z$/] *)
Definition ISO : re :=
  seqs [times digit 4; lit "-"; times digit 2; lit "-"; times digit 2; lit "T";
        times digit 2; lit ":"; times digit 2; lit ":"; times digit 2; lit ".";
        times digit 3; lit "Z"].

(** ** An implementation of the interface *)

Definition iso_split (s : string) : option (Z * string) :=
  match s with
  | EmptyString => None
  | String c r =>
      if Ascii.eqb c "+" then Some (digits_value (String.substring 0 6 r), String.substring 6 20 r)
      else if Ascii.eqb c "-" then Some (- digits_value (String.substring 0 6 r), String.substring 6 20 r)
      else Some (digits_value (String.substring 0 4 s), String.substring 4 20 s)
  end.

Definition iso_read (s : string) : option Z :=
  match iso_split s with
  | Some (y, r) =>
      let field i n := digits_value (String.substring i n r) in
      let days := days_of_civil (y, field 1%nat 2%nat, field 4%nat 2%nat) in
      let t := days * DAY_MS + field 7%nat 2%nat * 3600000 + field 10%nat 2%nat * 60000
               + field 13%nat 2%nat * 1000 + field 16%nat 3%nat in
      if in_time_range t && String.eqb (to_iso t) s then Some t else None
  | None => None
  end.

(** ** Lemmas on the calendar *)

(** A boolean predicate on the [n] integers from [lo]. *)
Fixpoint all_from (n : nat) (lo : Z) (p : Z -> bool) : bool :=
  match n with
  | O => true
  | S n => p lo && all_from n (lo + 1) p
  end.

Lemma all_from_spec n lo p k : all_from n lo p = true -> lo <= k < lo + Z.of_nat n -> p k = true.
Proof.
  revert lo; induction n as [|n IH]; intros lo H Hk; simpl in *; [lia|].
  guards. destruct (Z.eq_dec k lo) as [->|]; [done|]. apply (IH (lo + 1)); [done|lia].
Qed.

(** First day of year [y] of an era. *)
Definition year_start (y : Z) : Z := 365 * y + y / 4 - y / 100.

(** Its last day: year 399 has the leap day of the era. *)
Definition year_end (y : Z) : Z := if y =? 399 then 146096 else year_start (y + 1) - 1.

Lemma year_bounds_ok :
  all_from 400 0 (fun y => (year_of_era (year_start y) =? y)
    && (year_of_era (year_end y) =? y) && (year_end y <=? 146096)) = true.
Proof. vm_compute. reflexivity. Qed.

Lemma year_of_era_mono a b : 0 <= a <= b -> b <= 146096 -> year_of_era a <= year_of_era b.
Proof.
  intros Hab Hb. unfold year_of_era. apply Z.div_le_mono; [lia|].
  assert (b / 1460 - a / 1460 <= b - a) by (div_lia).
  assert (a / 36524 <= b / 36524) by (apply Z.div_le_mono; lia).
  destruct (Z.eq_dec b 146096) as [->|].
  - destruct (Z.eq_dec a 146096) as [->|]; [lia|].
    assert (a / 146096 = 0) as -> by (apply Z.div_small; lia).
    assert (a / 36524 <= 3) by (div_lia).
    change (146096 / 36524) with 4. change (146096 / 146096) with 1. lia.
  - rewrite !(Z.div_small _ 146096) by lia. lia.
Qed.

Lemma year_start_step y : 0 <= y -> year_start y < year_start (y + 1) <= year_start y + 366.
Proof. unfold year_start. intros H. div_lia. Qed.

(** The year that contains a given day of the era. *)
Lemma year_containing doe :
  0 <= doe < 146097 ->
  exists y, 0 <= y < 400 /\ year_start y <= doe /\ (doe < year_start (y + 1) \/ y = 399).
Proof.
  intros H.
  assert (forall n : nat, (n < 400)%nat ->
    exists y, 0 <= y < 400 /\ year_start y <= doe /\ (doe < year_start (y + 1) \/ y = Z.of_nat n)) as Hn.
  { induction n as [|n IH]; intros Hn.
    - exists 0. change (year_start 0) with 0. lia.
    - destruct IH as (y & Hy & Hs & [He| ->]); [lia|eauto|].
      destruct (Z.lt_ge_cases doe (year_start (Z.of_nat n + 1))); [eauto with lia|].
      exists (Z.of_nat n + 1). lia. }
  destruct (Hn 399%nat ltac:(lia)) as (y & ?). eauto.
Qed.

Lemma era_year doe :
  0 <= doe < 146097 -> 0 <= year_of_era doe <= 399 /\ 0 <= day_of_year doe <= 365.
Proof.
  intros H. destruct (year_containing doe H) as (y & Hy & Hs & He).
  pose proof (all_from_spec _ _ _ y year_bounds_ok ltac:(lia)) as Hb. simpl in Hb. guards.
  pose proof (year_start_step y ltac:(lia)).
  assert (0 <= year_start y) by (unfold year_start; div_lia).
  assert (doe <= year_end y <= year_start y + 365) as Hle.
  { unfold year_end. destruct (Z.eqb_spec y 399) as [->|].
    - change (year_start 399) with 145731. lia.
    - lia. }
  pose proof (year_of_era_mono (year_start y) doe ltac:(lia) ltac:(lia)).
  pose proof (year_of_era_mono doe _ ltac:(split; [lia|apply Hle]) ltac:(done)).
  assert (year_of_era doe = y) as Hyear by lia.
  unfold day_of_year. rewrite Hyear. fold (year_start y). lia.
Qed.

(** The month and day computed from a day of the (March-based) year. *)
Definition month_ok (doy : Z) : bool :=
  let mp := (5 * doy + 2) / 153 in
  let d := doy - (153 * mp + 2) / 5 + 1 in
  (0 <=? mp) && (mp <=? 11) && (1 <=? d) && (d <=? 31).

Lemma months_ok : all_from 366 0 month_ok = true.
Proof. vm_compute. reflexivity. Qed.

Lemma era_day doe :
  0 <= doe < 146097 ->
  0 <= year_of_era doe <= 399 /\ month_ok (day_of_year doe) = true.
Proof.
  intros H. destruct (era_year doe H). split; [done|].
  apply (all_from_spec _ _ _ _ months_ok). lia.
Qed.

Lemma civil_roundtrip days : days_of_civil (civil_of_days days) = days.
Proof.
  unfold civil_of_days, days_of_civil.
  pose proof (Z.mod_pos_bound (days + 719468) 146097 ltac:(lia)) as Hb.
  pose proof (Z.div_mod (days + 719468) 146097 ltac:(lia)) as Hd.
  apply era_day in Hb as [Hyoe Hb]. unfold month_ok in Hb.
  set (doe := (days + 719468) mod 146097) in *. set (era := (days + 719468) / 146097) in *.
  set (mp := (5 * day_of_year doe + 2) / 153) in *.
  set (d := day_of_year doe - (153 * mp + 2) / 5 + 1) in *.
  assert (Hdoy : day_of_year doe = doe - (365 * year_of_era doe + year_of_era doe / 4 - year_of_era doe / 100))
    by reflexivity.
  assert (Hdd : d = day_of_year doe - (153 * mp + 2) / 5 + 1) by reflexivity.
  set (yoe := year_of_era doe) in *. clearbody d mp yoe doe era. guards.
  assert (Hy : forall y, y = yoe + era * 400 -> y / 400 = era /\ y mod 400 = yoe).
  { intros y ->. rewrite Z.div_add, Z.mod_add, Z.div_small, Z.mod_small by lia. lia. }
  destruct (Z.ltb_spec mp 10).
  - destruct (Z.leb_spec (mp + 3) 2); [lia|].
    destruct (Hy _ eq_refl) as [-> ->]. replace (mp + 3 - 3) with mp by lia. lia.
  - destruct (Z.leb_spec (mp - 9) 2); [|lia].
    replace (yoe + era * 400 + 1 - 1) with (yoe + era * 400) by lia.
    destruct (Hy _ eq_refl) as [-> ->]. replace (mp - 9 + 9) with mp by lia. lia.
Qed.

Lemma civil_bounds days y m d :
  civil_of_days days = (y, m, d) ->
  1 <= m <= 12 /\ 1 <= d <= 31 /\ 400 * (days / 146097) - 400 <= y <= 400 * (days / 146097) + 3000.
Proof.
  unfold civil_of_days. intros [= <- <- <-].
  pose proof (Z.mod_pos_bound (days + 719468) 146097 ltac:(lia)) as Hb.
  apply era_day in Hb as [Hyoe Hb]. unfold month_ok in Hb.
  assert (days / 146097 <= (days + 719468) / 146097 <= days / 146097 + 5) as He.
  { pose proof (Z.div_le_mono days (days + 719468) 146097 ltac:(lia) ltac:(lia)).
    pose proof (Z.div_le_mono (days + 719468) (days + 5 * 146097) 146097 ltac:(lia) ltac:(lia)).
    rewrite Z.div_add in * by lia. lia. }
  set (doe := (days + 719468) mod 146097) in *. set (era := (days + 719468) / 146097) in *.
  set (mp := (5 * day_of_year doe + 2) / 153) in *. guards.
  repeat case_match; guards; lia.
Qed.

(** ** Lemmas on decimal digits *)

Lemma code_digit_char d : 0 <= d < 10 -> Z.of_nat (code (digit_char d)) = 48 + d.
Proof.
  intros H. unfold code, digit_char. rewrite nat_ascii_embedding by lia. lia.
Qed.

Lemma digits_value_from_app acc s t :
  digits_value_from acc (s +:+ t) = digits_value_from (digits_value_from acc s) t.
Proof. revert acc; induction s as [|c s IH]; intros acc; simpl; [done|]. apply IH. Qed.

Lemma digits_value_from_digits n acc z :
  0 <= z < 10 ^ Z.of_nat n -> digits_value_from acc (digits n z) = acc * 10 ^ Z.of_nat n + z.
Proof.
  revert acc z; induction n as [|n IH]; intros acc z Hz; [simpl in *; lia|].
  rewrite Nat2Z.inj_succ, Z.pow_succ_r in * by lia.
  cbn [digits]. rewrite digits_value_from_app, IH.
  - cbn [digits_value_from]. pose proof (Z.mod_pos_bound z 10 ltac:(lia)).
    rewrite code_digit_char by lia. pose proof (Z.div_mod z 10 ltac:(lia)). lia.
  - split; [apply Z.div_pos; lia|apply Z.div_lt_upper_bound; lia].
Qed.

Lemma digits_value_digits n z : 0 <= z < 10 ^ Z.of_nat n -> digits_value (digits n z) = z.
Proof. intros H. unfold digits_value. rewrite digits_value_from_digits by done. lia. Qed.

(** ** Reading back what toISOString writes *)

Definition iso_rest (m d ms : Z) : string :=
  "-" +:+ digits 2 m +:+ "-" +:+ digits 2 d +:+ "T"
  +:+ digits 2 (ms / 3600000) +:+ ":" +:+ digits 2 (ms / 60000 mod 60) +:+ ":"
  +:+ digits 2 (ms / 1000 mod 60) +:+ "." +:+ digits 3 (ms mod 1000) +:+ "Z".

Lemma digit_char_not c d : 0 <= d < 10 -> (code c < 48)%nat -> Ascii.eqb (digit_char d) c = false.
Proof.
  intros Hd Hc. apply Ascii.eqb_neq. intros E. pose proof (code_digit_char d Hd).
  rewrite E in H. lia.
Qed.

#[local] Opaque digit_char digits_value.

Lemma iso_split_plain y m d ms :
  0 <= y <= 9999 ->
  iso_split (digits 4 y +:+ iso_rest m d ms) = Some (digits_value (digits 4 y), iso_rest m d ms).
Proof.
  intros H.
  change (digits 4 y +:+ iso_rest m d ms) with
    (String (digit_char (y / 10 / 10 / 10 mod 10)) (digits 3 y +:+ iso_rest m d ms)).
  unfold iso_split.
  pose proof (Z.mod_pos_bound (y / 10 / 10 / 10) 10 ltac:(lia)).
  rewrite !digit_char_not by (done || (cbv; lia)). reflexivity.
Qed.

Lemma iso_split_year y m d ms :
  Z.abs y <= 999999 -> iso_split (iso_year y +:+ iso_rest m d ms) = Some (y, iso_rest m d ms).
Proof.
  intros H. unfold iso_year.
  destruct (Z.leb_spec 0 y); [destruct (Z.leb_spec y 9999)|].
  - rewrite andb_true_l, iso_split_plain, digits_value_digits by lia. done.
  - rewrite andb_false_r.
    change (Some (digits_value (digits 6 y), iso_rest m d ms) = Some (y, iso_rest m d ms)).
    by rewrite digits_value_digits by lia.
  - rewrite andb_false_l.
    change (Some (- digits_value (digits 6 (- y)), iso_rest m d ms) = Some (y, iso_rest m d ms)).
    rewrite digits_value_digits by lia. do 2 f_equal. lia.
Qed.

Lemma time_year_bound t y m d :
  Z.abs t <= MAX_TIME -> civil_of_days (t / DAY_MS) = (y, m, d) -> Z.abs y <= 999999.
Proof.
  intros Ht (_ & _ & Hy)%civil_bounds. unfold MAX_TIME, DAY_MS in *.
  assert (-100000000 <= t / 86400000 <= 100000000) as Hd by div_lia.
  assert (-685 <= t / 86400000 / 146097 <= 685) by div_lia. lia.
Qed.

Lemma time_fields ms :
  ms = ms / 3600000 * 3600000 + ms / 60000 mod 60 * 60000 + ms / 1000 mod 60 * 1000 + ms mod 1000.
Proof.
  pose proof (Z.div_mod ms 1000 ltac:(lia)).
  pose proof (Z.div_mod (ms / 1000) 60 ltac:(lia)) as H2. rewrite Z.div_div in H2 by lia.
  pose proof (Z.div_mod (ms / 60000) 60 ltac:(lia)) as H3. rewrite Z.div_div in H3 by lia.
  change (1000 * 60) with 60000 in *. change (60000 * 60) with 3600000 in *. lia.
Qed.

Lemma iso_read_to_iso t : Z.abs t <= MAX_TIME -> iso_read (to_iso t) = Some t.
Proof.
  intros Ht. unfold iso_read.
  destruct (civil_of_days (t / DAY_MS)) as [[y m] d] eqn:Ec.
  pose proof (time_year_bound t y m d Ht Ec).
  pose proof (civil_bounds _ _ _ _ Ec) as (Hm & Hd & _).
  assert (to_iso t = iso_year y +:+ iso_rest m d (t mod DAY_MS)) as Eiso.
  { unfold to_iso. rewrite Ec. reflexivity. }
  rewrite Eiso, iso_split_year by done.
  set (ms := t mod DAY_MS).
  assert (0 <= ms < DAY_MS) as Hms by (apply Z.mod_pos_bound; done). unfold DAY_MS in Hms.
  change (String.substring 1 2 (iso_rest m d ms)) with (digits 2 m).
  change (String.substring 4 2 (iso_rest m d ms)) with (digits 2 d).
  change (String.substring 7 2 (iso_rest m d ms)) with (digits 2 (ms / 3600000)).
  change (String.substring 10 2 (iso_rest m d ms)) with (digits 2 (ms / 60000 mod 60)).
  change (String.substring 13 2 (iso_rest m d ms)) with (digits 2 (ms / 1000 mod 60)).
  change (String.substring 16 3 (iso_rest m d ms)) with (digits 3 (ms mod 1000)).
  rewrite !digits_value_digits by div_lia. rewrite <- Ec, civil_roundtrip.
  replace (t / DAY_MS * DAY_MS + ms / 3600000 * 3600000 + ms / 60000 mod 60 * 60000
    + ms / 1000 mod 60 * 1000 + ms mod 1000) with t.
  - unfold in_time_range. rewrite (proj2 (Z.leb_le _ _) Ht). simpl.
    by rewrite Eiso, String.eqb_refl.
  - assert (t = t / DAY_MS * DAY_MS + ms) as Hsplit.
    { unfold ms. pose proof (Z.div_mod t DAY_MS ltac:(done)). lia. }
    pose proof (time_fields ms). lia.
Qed.

Lemma iso_read_sound s t : iso_read s = Some t -> Z.abs t <= MAX_TIME.
Proof.
  unfold iso_read. destruct (iso_split s) as [[y r]|]; [|done]. cbv zeta.
  case_match eqn:E; [|done]. intros [= <-]. guards.
  match goal with H : in_time_range _ = true |- _ => by apply Z.leb_le in H end.
Qed.

Definition iso_date_parse : DateParse := {|
  date_parse := iso_read;
  date_parse_range := iso_read_sound;
  date_parse_iso := iso_read_to_iso
|}.

(** ** Lemmas for the clients of [DateParse] *)

Section Clients.
Context `{DateParse}.

(** A text is canonical exactly when it is the ISO text of a time value. *)
Lemma canonical_iso_spec v t :
  canonical_iso v = Some t <-> Z.abs t <= MAX_TIME /\ v = to_iso t.
Proof.
  unfold canonical_iso. split.
  - destruct (date_parse v) as [t'|] eqn:E; [|done].
    destruct (String.eqb_spec (to_iso t') v); [|done]. intros [= ->].
    split; [by eapply date_parse_range|done].
  - intros [Ht ->]. by rewrite date_parse_iso, String.eqb_refl.
Qed.

Lemma to_iso_inj t1 t2 :
  Z.abs t1 <= MAX_TIME -> Z.abs t2 <= MAX_TIME -> to_iso t1 = to_iso t2 -> t1 = t2.
Proof.
  intros H1 H2 E. apply (f_equal date_parse) in E.
  rewrite !date_parse_iso in E by done. by injection E.
Qed.

Lemma canonical_iso_parse v t : canonical_iso v = Some t -> date_parse v = Some t.
Proof. intros [? ->]%canonical_iso_spec. by apply date_parse_iso. Qed.
End Clients.
