(* ===== verification/Glob.v ===== *)
(** * Glob patterns (packages/capability/src/index.mjs, lib/policy.mjs)

    [globMatch] turns a pattern into a regular expression by escaping the
    characters [.+^${}()|[]\] and replacing each star by [.*]; the question
    mark is not escaped, so it quantifies the preceding character.  Both
    [matchesAny] functions of the repository do the same. *)

From stdpp Require Import base tactics sets list strings.
From Stdlib Require Import Ascii.
From S2P Require Import Prelude JsValue Regex.
Local Open Scope char_scope.
Local Open Scope string_scope.

(** ** Definitions *)

(** The [.] of a regular expression without the [s] flag: no line terminator. *)
Definition line_terminator (c : ascii) : bool := Nat.eqb (code c) 10 || Nat.eqb (code c) 13.
Definition dot (c : ascii) : bool := negb (line_terminator c).

(** The terms of the constructed expression: a literal, an optional literal
    (its [?] may be followed by the lazy [?]), and [.*] (maybe lazy).
    [None] is the [SyntaxError] ("nothing to repeat") of [new RegExp]. *)
Inductive glob_term :=
| GLit (c : ascii)
| GOpt (c : ascii)
| GStar.

Fixpoint glob_compile (p : string) : option (list glob_term) :=
  match p with
  | EmptyString => Some []
  | String c p1 =>
      if Ascii.eqb c "?" then None
      else if Ascii.eqb c "*" then
        match p1 with
        | String "?" p2 => option_map (cons GStar) (glob_compile p2)
        | _ => option_map (cons GStar) (glob_compile p1)
        end
      else
        match p1 with
        | String "?" (String "?" p3) => option_map (cons (GOpt c)) (glob_compile p3)
        | String "?" p2 => option_map (cons (GOpt c)) (glob_compile p2)
        | _ => option_map (cons (GLit c)) (glob_compile p1)
        end
  end.

Definition term_re (t : glob_term) : re :=
  match t with
  | GLit c => one (Ascii.eqb c)
  | GOpt c => opt (one (Ascii.eqb c))
  | GStar => many dot
  end.

Fixpoint terms_re (ts : list glob_term) : re :=
  match ts with [] => REps | t :: ts => RSeq (term_re t) (terms_re ts) end.

(** [function globMatch(value, pattern)]: [None] when [new RegExp] throws. *)
Definition globMatch (value pattern : string) : option bool :=
  option_map (fun ts => re_test (terms_re ts) value) (glob_compile pattern).

(** [patterns.some((pattern) => globMatch(value, pattern))]: stops at the
    first match, and throws if it reaches an invalid pattern before. *)
Fixpoint matchesAny (value : string) (patterns : list string) : option bool :=
  match patterns with
  | [] => Some false
  | p :: ps =>
      match globMatch value p with
      | Some true => Some true
      | Some false => matchesAny value ps
      | None => None
      end
  end.

(** [value.includes("*")] *)
Definition has_star (p : string) : bool := existsb (Ascii.eqb "*") (chars p).

Definition count_stars (p : string) : nat := length (filter (fun c => c = "*"%char) (chars p)).

(** [function splitGlob(pattern)]: the text before and after the first star. *)
Fixpoint splitGlob (p : string) : string * string :=
  match p with
  | EmptyString => ("", "")%string
  | String c p =>
      if Ascii.eqb c "*" then (""%string, p)
      else let '(a, b) := splitGlob p in (String c a, b)
  end.

(** [s.startsWith(p)] and [s.endsWith(p)] *)
Definition startsWith (s p : string) : bool := bool_decide (String.prefix p s = true).

Fixpoint endsWith (s p : string) : bool :=
  String.eqb s p || match s with EmptyString => false | String _ s => endsWith s p end.

(** [function globSubset(inner, outer)]; [None] when [globMatch] throws. *)
Definition globSubset (inner outer : string) : option bool :=
  if String.eqb inner outer || String.eqb outer "*" then Some true
  else if negb (has_star inner) then globMatch inner outer
  else if has_star outer && Nat.eqb (count_stars inner) 1 && Nat.eqb (count_stars outer) 1 then
    let '(ip, isf) := splitGlob inner in
    let '(op, osf) := splitGlob outer in
    Some (startsWith ip op && endsWith isf osf)
  else Some false.

(** [function narrowerPattern(a, b)]: outer [None] when [globMatch] throws,
    inner [None] for [undefined]. *)
Definition narrowerPattern (a b : string) : option (option string) :=
  if String.eqb a b then Some (Some a)
  else match globSubset a b with
       | None => None
       | Some true => Some (Some a)
       | Some false =>
           match globSubset b a with
           | None => None
           | Some true => Some (Some b)
           | Some false => Some None
           end
       end.

(** [if (narrower !== undefined && !output.includes(narrower)) output.push(narrower)] *)
Definition push_new (output : list string) (p : option string) : list string :=
  match p with
  | Some p => if includes output p then output else output ++ [p]
  | None => output
  end.

(** The nested loops of [function intersectPatterns(left, right)]. *)
Fixpoint intersect_row (a : string) (rights : list string) (output : list string) : option (list string) :=
  match rights with
  | [] => Some output
  | b :: rights =>
      match narrowerPattern a b with
      | None => None
      | Some p => intersect_row a rights (push_new output p)
      end
  end.

Fixpoint intersect_rows (lefts rights output : list string) : option (list string) :=
  match lefts with
  | [] => Some output
  | a :: lefts =>
      match intersect_row a rights output with
      | None => None
      | Some output => intersect_rows lefts rights output
      end
  end.

Definition intersectPatterns (lefts rights : list string) : option (list string) :=
  intersect_rows lefts rights [].

(** [function intersectExact(left, right)] *)
Definition intersectExact (lefts rights : list string) : list string :=
  filter (fun v => v ∈ rights) lefts.

(** The patterns on which [globMatch] is the intended star-only matching:
    no unescaped quantifier and no line terminator. *)
Definition plain_pattern (p : string) : bool :=
  forallb (fun c => negb (Ascii.eqb c "?") && dot c) (chars p).

(** ** The intended meaning of a pattern

    A star stands for any text without line terminators, every other
    character for itself. *)
Inductive glob_lang : string -> string -> Prop :=
| gl_nil : glob_lang "" ""
| gl_char c p v : c <> "*"%char -> glob_lang p v -> glob_lang (String c p) (String c v)
| gl_star p u v :
    Forall (fun c => dot c = true) (chars u) -> glob_lang p v ->
    glob_lang (String "*" p) (u +:+ v).

#[export] Hint Constructors glob_lang : js.

(** ** Lemmas: compiled plain patterns *)

Fixpoint plain_terms (p : string) : list glob_term :=
  match p with
  | EmptyString => []
  | String c p => (if Ascii.eqb c "*" then GStar else GLit c) :: plain_terms p
  end.

Lemma plain_cons c p :
  plain_pattern (String c p) = true <-> c <> "?"%char /\ dot c = true /\ plain_pattern p = true.
Proof.
  unfold plain_pattern. simpl. rewrite !andb_true_iff, negb_true_iff, Ascii.eqb_neq. tauto.
Qed.

Lemma compile_plain p : plain_pattern p = true -> glob_compile p = Some (plain_terms p).
Proof.
  induction p as [|c p IH]; [done|]. intros (Hq & _ & Hp)%plain_cons.
  simpl. apply Ascii.eqb_neq in Hq as ->. rewrite (IH Hp).
  destruct p as [|d p]; [by destruct (Ascii.eqb c "*")|].
  apply plain_cons in Hp as (Hd & _).
  assert (forall A (x y : A) (f : string -> A), match String d p with String "?" q => f q | _ => x end = x) as Hm.
  { intros A x _ f. destruct d as [[] [] [] [] [] [] [] []]; try done. }
  destruct (Ascii.eqb c "*"); simpl.
  - destruct d as [[] [] [] [] [] [] [] []]; done.
  - destruct d as [[] [] [] [] [] [] [] []]; done.
Qed.

Lemma dot_class_nil : matches (many dot) "".
Proof. constructor; simpl; [constructor|lia|done]. Qed.

Lemma terms_lang p v : matches (terms_re (plain_terms p)) v <-> glob_lang p v.
Proof.
  split.
  - revert v; induction p as [|c p IH]; intros v; cbn [plain_terms terms_re].
    + intros ->%eps_inv. constructor.
    + intros (u & w & -> & Hu & Hw%IH)%seq_inv.
      destruct (Ascii.eqb_spec c "*"%char) as [->|Hc].
      * apply class_inv in Hu as (Hu & _). by constructor.
      * apply class_inv in Hu as (Hu & Hl & Hh).
        destruct u as [|d [|e u]]; simpl in *; try lia.
        apply Forall_cons_1 in Hu as [->%Ascii.eqb_eq _]. by constructor.
  - induction 1 as [|c p v Hc _ IH|p u v Hu _ IH]; cbn [plain_terms terms_re].
    + constructor.
    + apply Ascii.eqb_neq in Hc as ->. apply (m_seq _ _ (String c "") v); [|done].
      apply class_inv. simpl. rewrite Forall_singleton, Ascii.eqb_refl. lia.
    + constructor; [|done]. apply class_inv. simpl. split; [done|lia].
Qed.

(** On plain patterns [globMatch] returns, and decides the intended language. *)
Lemma globMatch_plain v p :
  plain_pattern p = true -> exists b, globMatch v p = Some b /\ (b = true <-> glob_lang p v).
Proof.
  intros Hp. unfold globMatch. rewrite compile_plain by done. simpl. eexists; split; [done|].
  by rewrite re_test_spec, terms_lang.
Qed.

Lemma globMatch_true v p : plain_pattern p = true -> globMatch v p = Some true <-> glob_lang p v.
Proof.
  intros Hp. destruct (globMatch_plain v p Hp) as (b & -> & Hb). rewrite <- Hb.
  split; [by intros [= ->]|by intros ->].
Qed.

(** ** Lemmas: literal and one-star patterns *)

Lemma has_star_cons c p : has_star (String c p) = Ascii.eqb "*" c || has_star p.
Proof. done. Qed.

Lemma glob_lang_literal p v : has_star p = false -> glob_lang p v <-> v = p.
Proof.
  intros Hp. split.
  - intros H. revert Hp. induction H as [|c p v Hc _ IH|p u v Hu _ IH]; rewrite ?has_star_cons; [done| |done].
    intros [_ Hp]%orb_false_iff. by rewrite IH.
  - intros ->. induction p as [|c p IH]; [constructor|].
    rewrite has_star_cons in Hp. apply orb_false_iff in Hp as [Hc Hp].
    constructor; [|auto]. apply Ascii.eqb_neq in Hc. congruence.
Qed.

Lemma count_stars_cons c p :
  count_stars (String c p) = (if Ascii.eqb c "*" then 1 else 0) + count_stars p.
Proof.
  unfold count_stars. simpl. rewrite filter_cons.
  destruct (Ascii.eqb_spec c "*"%char), (decide (c = "*"%char)); done.
Qed.

Lemma count_stars_0 p : count_stars p = 0 -> has_star p = false.
Proof.
  induction p as [|c p IH]; [done|]. rewrite count_stars_cons, has_star_cons.
  destruct (Ascii.eqb_spec c "*"%char); [lia|]. intros H. rewrite IH by lia.
  rewrite orb_false_r. apply Ascii.eqb_neq. congruence.
Qed.

Lemma splitGlob_one_star p a b v :
  count_stars p = 1 -> splitGlob p = (a, b) ->
  glob_lang p v <-> exists u, Forall (fun c => dot c = true) (chars u) /\ v = a +:+ u +:+ b.
Proof.
  revert a b v; induction p as [|c p IH]; intros a b v; [done|].
  rewrite count_stars_cons. cbn [splitGlob]. destruct (Ascii.eqb_spec c "*"%char) as [->|Hc].
  - intros Hn [= <- <-]. assert (has_star p = false) as Hp by (apply count_stars_0; lia).
    split.
    + intros H. inversion H as [| |? u w Hu Hw]; subst; [done|].
      apply glob_lang_literal in Hw as ->; [|done]. by exists u.
    + intros (u & Hu & ->). apply (gl_star p u p); [done|]. by apply glob_lang_literal.
  - intros Hn. destruct (splitGlob p) as [a' b'] eqn:E. intros [= <- <-].
    specialize (IH a' b'). split.
    + intros H. inversion H as [|? ? w ? Hw|]; subst; [|done].
      apply IH in Hw as (u & Hu & ->); [|done|done]. by exists u.
    + intros (u & Hu & ->). simpl. constructor; [done|]. apply IH; [done|done|]. by exists u.
Qed.

Lemma startsWith_spec s p : startsWith s p = true -> exists t, s = p +:+ t.
Proof.
  unfold startsWith. rewrite bool_decide_eq_true. revert s.
  induction p as [|c p IH]; intros s; [by exists s|].
  destruct s as [|d s]; [done|]. simpl. destruct (ascii_dec c d) as [->|]; [|done].
  intros [t ->]%IH. by exists t.
Qed.

Lemma endsWith_spec s p : endsWith s p = true -> exists t, s = t +:+ p.
Proof.
  induction s as [|c s IH]; cbn [endsWith]; intros H.
  - rewrite orb_false_r in H. apply String.eqb_eq in H as <-. by exists "".
  - apply orb_true_iff in H as [->%String.eqb_eq|H]; [by exists ""|].
    destruct (IH H) as [t ->]. by exists (String c t).
Qed.

Lemma glob_lang_dots p v :
  Forall (fun c => dot c = true) (chars p) -> glob_lang p v -> Forall (fun c => dot c = true) (chars v).
Proof.
  intros Hp H. revert Hp. induction H as [|c p v Hc _ IH|p u v Hu _ IH]; cbn [chars]; [done| |];
    intros [Hd Hp]%Forall_cons_1.
  - constructor; auto.
  - rewrite chars_app. apply Forall_app. auto.
Qed.

Lemma plain_dots p : plain_pattern p = true -> Forall (fun c => dot c = true) (chars p).
Proof. induction p as [|c p IH]; [constructor|]. intros (_ & ? & ?)%plain_cons. constructor; auto. Qed.

Lemma glob_lang_star v : glob_lang "*" v <-> Forall (fun c => dot c = true) (chars v).
Proof.
  rewrite (splitGlob_one_star "*"%string ""%string ""%string v) by done. split.
  - intros (u & Hu & ->). by rewrite string_app_nil.
  - intros H. exists v. split; [done|]. by rewrite string_app_nil.
Qed.

(** ** Lemmas: inclusion and intersection of patterns *)

Lemma globSubset_sound inner outer v :
  plain_pattern inner = true -> plain_pattern outer = true ->
  globSubset inner outer = Some true -> glob_lang inner v -> glob_lang outer v.
Proof.
  intros Hpi Hpo. unfold globSubset.
  destruct (String.eqb_spec inner outer) as [->|]; [done|].
  destruct (String.eqb_spec outer "*") as [->|]; simpl.
  { intros _ Hv. apply glob_lang_star. eapply glob_lang_dots; [|done]. by apply plain_dots. }
  destruct (has_star inner) eqn:Hs; simpl.
  - destruct (has_star outer && _ && _) eqn:Hc; [|done].
    apply andb_true_iff in Hc as [[_ Hci%Nat.eqb_eq]%andb_true_iff Hco%Nat.eqb_eq].
    destruct (splitGlob inner) as [ip isf] eqn:Ei, (splitGlob outer) as [op osf] eqn:Eo.
    intros [= [(t1 & ->)%startsWith_spec (t2 & ->)%endsWith_spec]%andb_true_iff] Hv.
    apply (splitGlob_one_star _ _ _ _ Hci Ei) in Hv as (u & Hu & ->).
    apply (splitGlob_one_star _ _ _ _ Hco Eo).
    exists (t1 +:+ u +:+ t2). split; [|by rewrite !string_app_assoc].
    assert (glob_lang inner ((op +:+ t1) +:+ "" +:+ (t2 +:+ osf))) as Hl.
    { apply (splitGlob_one_star _ _ _ _ Hci Ei). exists "". by repeat constructor. }
    apply glob_lang_dots in Hl; [|by apply plain_dots].
    rewrite !chars_app, !Forall_app in *. naive_solver.
  - intros Hm Hv. apply glob_lang_literal in Hv as ->; [|done]. by apply globMatch_true.
Qed.

Lemma narrowerPattern_sound a b n :
  plain_pattern a = true -> plain_pattern b = true -> narrowerPattern a b = Some (Some n) ->
  plain_pattern n = true /\ forall v, glob_lang n v -> glob_lang a v /\ glob_lang b v.
Proof.
  intros Ha Hb. unfold narrowerPattern. destruct (String.eqb_spec a b) as [->|].
  { intros [= ->]. auto. }
  destruct (globSubset a b) as [[]|] eqn:E1; try done.
  { intros [= <-]. split; [done|]. intros v Hv. split; [done|]. by apply (globSubset_sound a b). }
  destruct (globSubset b a) as [[]|] eqn:E2; try done.
  intros [= <-]. split; [done|]. intros v Hv. split; [|done]. by apply (globSubset_sound b a).
Qed.

(** [p] is plain and grants nothing beyond a pattern of [lefts] and one of [rights]. *)
Definition narrows (lefts rights : list string) (p : string) : Prop :=
  plain_pattern p = true /\
  exists a b, a ∈ lefts /\ b ∈ rights /\ forall v, glob_lang p v -> glob_lang a v /\ glob_lang b v.

Definition plain_patterns (ps : list string) : Prop := Forall (fun p => plain_pattern p = true) ps.

Lemma push_new_Forall (P : string -> Prop) out p :
  Forall P out -> match p with Some p => P p | None => True end -> Forall P (push_new out p).
Proof.
  intros Ho Hp. destruct p as [p|]; simpl; [|done].
  destruct (includes out p); [done|]. apply Forall_app. auto.
Qed.

Lemma intersect_row_sound lefts a rights0 rights out res :
  a ∈ lefts -> plain_pattern a = true -> plain_patterns rights -> rights ⊆ rights0 ->
  Forall (narrows lefts rights0) out -> intersect_row a rights out = Some res ->
  Forall (narrows lefts rights0) res.
Proof.
  intros Hin Ha. revert out; induction rights as [|b rights IH]; intros out Hr Hsub Hout; simpl.
  { by intros [= <-]. }
  apply Forall_cons in Hr as [Hb Hr].
  destruct (narrowerPattern a b) as [n|] eqn:En; [|done]. apply IH; [done|set_solver|].
  apply push_new_Forall; [done|]. destruct n as [n|]; [|done].
  apply narrowerPattern_sound in En as [Hn Hl]; [|done|done].
  split; [done|]. exists a, b. set_solver.
Qed.

Lemma intersect_rows_sound lefts0 lefts rights out res :
  plain_patterns lefts -> plain_patterns rights -> lefts ⊆ lefts0 ->
  Forall (narrows lefts0 rights) out -> intersect_rows lefts rights out = Some res ->
  Forall (narrows lefts0 rights) res.
Proof.
  revert out; induction lefts as [|a lefts IH]; intros out Hl Hr Hsub Hout; simpl.
  { by intros [= <-]. }
  apply Forall_cons in Hl as [Ha Hl].
  destruct (intersect_row a rights out) as [out'|] eqn:E; [|done]. apply IH; [done|done|set_solver|].
  eapply intersect_row_sound in E; [done|set_solver|done|done|done|done].
Qed.

Lemma intersectPatterns_sound lefts rights res :
  plain_patterns lefts -> plain_patterns rights -> intersectPatterns lefts rights = Some res ->
  Forall (narrows lefts rights) res.
Proof. intros Hl Hr. by apply intersect_rows_sound. Qed.

Lemma matchesAny_true v ps :
  plain_patterns ps -> matchesAny v ps = Some true <-> exists p, p ∈ ps /\ glob_lang p v.
Proof.
  induction ps as [|p ps IH]; simpl; intros H.
  { split; [done|]. intros (p & Hp & _). set_solver. }
  apply Forall_cons in H as [Hp Hps].
  destruct (globMatch_plain v p Hp) as ([] & -> & Hb).
  - split; [|done]. intros _. exists p. set_solver.
  - rewrite IH by done. split; [intros (q & ? & ?); exists q; set_solver|].
    intros (q & [->|Hq]%elem_of_cons & Hv); [by apply Hb in Hv|eauto].
Qed.

(** A list that reports no match has none, whatever its patterns. *)
Lemma matchesAny_false v ps :
  matchesAny v ps = Some false <-> forall p, p ∈ ps -> globMatch v p = Some false.
Proof.
  induction ps as [|p ps IH]; simpl; [set_solver|].
  destruct (globMatch v p) as [[]|] eqn:E.
  - split; [done|]. intros H. rewrite H in E; [done|set_solver].
  - rewrite IH. split; [intros H q [->|Hq]%elem_of_cons; auto|set_solver].
  - split; [done|]. intros H. rewrite H in E; [done|set_solver].
Qed.
