(* ===== verification/NodePath.v ===== *)
(** * Paths (the parts of [node:path] the policy code uses)

    [path.posix.normalize] and [path.isAbsolute] on POSIX. *)

From stdpp Require Import base tactics list strings.
From Stdlib Require Import Ascii.
From S2P Require Import Prelude JsValue.

(** [s.split(sep)] for a one-character separator. *)
Fixpoint split_on (sep : ascii) (s : string) : list string :=
  match s with
  | EmptyString => [""]
  | String c s =>
      if Ascii.eqb c sep then "" :: split_on sep s
      else match split_on sep s with
           | w :: ws => String c w :: ws
           | [] => [String c ""]
           end
  end.

Definition isAbsolute (p : string) : bool :=
  match p with String "/" _ => true | _ => false end.

Fixpoint ends_with_slash (p : string) : bool :=
  match p with
  | EmptyString => false
  | String c "" => Ascii.eqb c "/"
  | String _ p => ends_with_slash p
  end.

(** One segment of [normalizeString]: the stack of kept segments, last first. *)
Definition normalize_segment (above_root : bool) (stack : list string) (seg : string) : list string :=
  if String.eqb seg "" || String.eqb seg "." then stack
  else if String.eqb seg ".." then
    match stack with
    | top :: rest =>
        if String.eqb top ".." then (if above_root then ".." :: stack else stack) else rest
    | [] => if above_root then [".."] else []
    end
  else seg :: stack.

Definition normalize (p : string) : string :=
  if String.eqb p "" then "."
  else
    let abs := isAbsolute p in
    let kept := rev (foldl (normalize_segment (negb abs)) [] (split_on "/"%char p)) in
    let body := join "/" kept in
    if String.eqb body "" then (if abs then "/" else if ends_with_slash p then "./" else ".")
    else
      let body := if ends_with_slash p then body +:+ "/" else body in
      if abs then "/" +:+ body else body.

Example normalize_ex1 : normalize "/a//b/../c/" = "/a/c/". Proof. reflexivity. Qed.
Example normalize_ex2 : normalize "../a/./b" = "../a/b". Proof. reflexivity. Qed.
