(* ===== verification/Scope.v ===== *)
(** * Capability scopes (packages/capability/src/index.mjs)

    Validation of untyped scopes, the request check [scopeAllows], and the
    intersection of scopes.  A JavaScript exception is [Throw]: a
    [CapabilityError] by its reason, or the [SyntaxError] of [new RegExp] on
    an invalid pattern. *)

From stdpp Require Import base tactics sets list strings.
From Stdlib Require Import Ascii.
From S2P Require Import Prelude JsValue Regex Glob NodePath.
Local Open Scope string_scope.
Local Open Scope js_scope.

(** ** Errors *)

Inductive cap_reason :=
| ALLOWED | INVALID_CAPABILITY | UNKNOWN_FIELD | UNSUPPORTED_VERSION | INVALID_IDENTIFIER
| INVALID_CAPABILITY_ID | INVALID_NONCE | INVALID_AUDIENCE | AUDIENCE_MISMATCH | INVALID_SCOPE
| INVALID_TIMESTAMP | NOT_BEFORE_IN_FUTURE | EXPIRED | TTL_EXCEEDED | INVALID_SEQUENCE
| SEQUENCE_ROLLBACK | SEQUENCE_CONFLICT | ISSUER_NOT_TRUSTED | KEY_ID_NOT_TRUSTED
| ISSUER_KEY_MISMATCH | INVALID_SIGNATURE | INVALID_SIGNATURE_ENCODING | SEQUENCE_HOOK_REJECTED.

Inductive cap_exn :=
| CapabilityError (r : cap_reason)
| RegExpSyntaxError
| RangeError
(** a run outside of the model (see Capability.v) *)
| OutsideModel.

#[export] Instance cap_reason_eq_dec : EqDecision cap_reason.
Proof. solve_decision. Defined.
#[export] Instance cap_exn_eq_dec : EqDecision cap_exn.
Proof. solve_decision. Defined.

Definition SCOPE_KEYS := ["operations"; "repositories"; "branches"; "remotes"; "tags"].
Definition FILTER_KEYS := ["allow"; "deny"].
Definition MAX_SCOPE_ITEMS : nat := 256.
Definition MAX_SCOPE_ITEM_LENGTH : nat := 2048.

(** ** Data *)

Record Filter := mkFilter { allow : list string; deny : option (list string) }.

Record Scope := mkScope {
  operations : list string;
  repositories : list string;
  branches : Filter;
  remotes : Filter;
  tags : option Filter
}.

#[export] Instance Filter_eq_dec : EqDecision Filter.
Proof. solve_decision. Defined.
#[export] Instance Scope_eq_dec : EqDecision Scope.
Proof. solve_decision. Defined.

(** The request of [scopeAllows]; an absent field is [JUndefined]. *)
Record Request := mkRequest {
  operation : jsval; repository : jsval; branch : jsval; remote : jsval; tag : jsval
}.

(** ** Validation *)

Definition rejectUnknown (value : jsval) (allowed : list string) (reason : cap_reason)
  : result cap_exn unit :=
  if forallb (includes allowed) (own_keys value) then Ok tt else Throw (CapabilityError reason).

(** The strings of an array of strings. *)
Definition strings_of (l : list jsval) : option (list string) := option_all (map as_str l).

Definition bad_item (s : string) : bool :=
  Nat.eqb (String.length s) 0 || Nat.ltb MAX_SCOPE_ITEM_LENGTH (String.length s).

Definition validateStringList (value : jsval) (allowEmpty : bool) : result cap_exn (list string) :=
  match value with
  | JArr l =>
      throw_if (negb allowEmpty && Nat.eqb (length l) 0) || Nat.ltb MAX_SCOPE_ITEMS (length l)
        with CapabilityError INVALID_SCOPE ;;
      match strings_of l with
      | None => Throw (CapabilityError INVALID_SCOPE)
      | Some ss =>
          throw_if existsb bad_item ss with CapabilityError INVALID_SCOPE ;;
          throw_if negb (all_distinct ss) with CapabilityError INVALID_SCOPE ;;
          Ok ss
      end
  | _ => Throw (CapabilityError INVALID_SCOPE)
  end.

Definition validateFilter (filter : jsval) (allowEmpty : bool) : result cap_exn Filter :=
  throw_if negb (is_object filter) with CapabilityError INVALID_SCOPE ;;
  _ ← rejectUnknown filter FILTER_KEYS UNKNOWN_FIELD;
  allow ← validateStringList (get filter "allow") allowEmpty;
  if is_undefined (get filter "deny") then Ok (mkFilter allow None)
  else
    deny ← validateStringList (get filter "deny") true;
    Ok (mkFilter allow (Some deny)).

Definition canonicalRepositoryPattern (value : string) : bool :=
  isAbsolute value && String.eqb (normalize value) value
  && negb (existsb (fun segment => String.eqb segment "." || String.eqb segment "..") (split_on "/"%char value)).

Definition canonicalRepositoryPath (value : string) : bool :=
  canonicalRepositoryPattern value && negb (has_star value).

Definition validateScope (scope : jsval) (allowEmpty : bool) : result cap_exn Scope :=
  throw_if negb (is_object scope) with CapabilityError INVALID_SCOPE ;;
  _ ← rejectUnknown scope SCOPE_KEYS UNKNOWN_FIELD;
  operations ← validateStringList (get scope "operations") allowEmpty;
  repositories ← validateStringList (get scope "repositories") allowEmpty;
  throw_if existsb (fun r => negb (canonicalRepositoryPattern r)) repositories
    with CapabilityError INVALID_SCOPE ;;
  branches ← validateFilter (get scope "branches") allowEmpty;
  remotes ← validateFilter (get scope "remotes") allowEmpty;
  if is_undefined (get scope "tags") then Ok (mkScope operations repositories branches remotes None)
  else
    tags ← validateFilter (get scope "tags") allowEmpty;
    Ok (mkScope operations repositories branches remotes (Some tags)).

(** The JavaScript object a normalized scope is. *)
Definition strings_js (ss : list string) : jsval := JArr (map JStr ss).

Definition filter_js (f : Filter) : jsval :=
  JObj (("allow", strings_js (allow f)) ::
        match deny f with Some d => [("deny", strings_js d)] | None => [] end).

Definition scope_js (s : Scope) : jsval :=
  JObj ([("operations", strings_js (operations s)); ("repositories", strings_js (repositories s));
         ("branches", filter_js (branches s)); ("remotes", filter_js (remotes s))] ++
        match tags s with Some t => [("tags", filter_js t)] | None => [] end)%list.

(** ** The request check *)

Definition matches_any (value : string) (patterns : list string) : result cap_exn bool :=
  of_option RegExpSyntaxError (matchesAny value patterns).

(** [a && b] when evaluating [a] or [b] may throw. *)
Definition and_then (a : result cap_exn bool) (b : result cap_exn bool) : result cap_exn bool :=
  x ← a; if (x : bool) then b else Ok false.

Definition not_denied (value : string) (deny : option (list string)) : result cap_exn bool :=
  match deny with
  | None => Ok true
  | Some d => x ← matches_any value d; Ok (negb x)
  end.

Definition matchesFilter (value : jsval) (filter : Filter) : result cap_exn bool :=
  match value with
  | JStr value => and_then (not_denied value (deny filter)) (matches_any value (allow filter))
  | _ => Ok false
  end.

Definition matches_operation (value : jsval) (patterns : list string) : result cap_exn bool :=
  match value with JStr value => matches_any value patterns | _ => Ok false end.

Definition matches_repository (value : jsval) (patterns : list string) : result cap_exn bool :=
  match value with
  | JStr value => if canonicalRepositoryPath value then matches_any value patterns else Ok false
  | _ => Ok false
  end.

Definition matches_tag (value : jsval) (tags : option Filter) : result cap_exn bool :=
  match tags with
  | None => Ok true
  | Some f => if is_undefined value then Ok false else matchesFilter value f
  end.

(** [scopeAllows] after its first line, on the normalized scope. *)
Definition allows (s : Scope) (r : Request) : result cap_exn bool :=
  and_then (matches_operation (operation r) (operations s))
  (and_then (matches_repository (repository r) (repositories s))
  (and_then (matchesFilter (branch r) (branches s))
  (and_then (matchesFilter (remote r) (remotes s))
            (matches_tag (tag r) (tags s))))).

Definition scopeAllows (scope : jsval) (r : Request) : result cap_exn bool :=
  normalized ← validateScope scope true; allows normalized r.

(** ** Intersection *)

Definition intersectFilter (l r : Filter) : result cap_exn Filter :=
  a ← of_option RegExpSyntaxError (intersectPatterns (allow l) (allow r));
  Ok (mkFilter a (Some (distinct (default [] (deny l) ++ default [] (deny r))%list))).

Definition intersect_tags (l r : option Filter) : result cap_exn (option Filter) :=
  match l, r with
  | Some l, Some r => f ← intersectFilter l r; Ok (Some f)
  | Some l, None => Ok (Some l)
  | None, Some r => Ok (Some r)
  | None, None => Ok None
  end.

Definition intersectTwoScopes (l r : Scope) : result cap_exn Scope :=
  repos ← of_option RegExpSyntaxError (intersectPatterns (repositories l) (repositories r));
  bs ← intersectFilter (branches l) (branches r);
  rs ← intersectFilter (remotes l) (remotes r);
  ts ← intersect_tags (tags l) (tags r);
  Ok (mkScope (intersectExact (operations l) (operations r)) repos bs rs ts).

Fixpoint intersect_all (acc : Scope) (rest : list Scope) : result cap_exn Scope :=
  match rest with
  | [] => Ok acc
  | next :: rest => acc ← intersectTwoScopes acc next; intersect_all acc rest
  end.

Definition intersectScopes (scopes : list jsval) : result cap_exn Scope :=
  normalized ← map_result (fun scope => validateScope scope true) scopes;
  match normalized with
  | [] => Throw (CapabilityError INVALID_SCOPE)
  | first :: rest => intersect_all first rest
  end.

Definition effectiveScope (localPolicy : jsval) (narrowingScopes : list jsval) : result cap_exn Scope :=
  intersectScopes (localPolicy :: narrowingScopes).

Definition effectiveIntersection (localPolicy agentScope capabilityScope : jsval) (scopes : list jsval)
  : result cap_exn Scope :=
  effectiveScope localPolicy
    (filter (fun s => is_undefined s = false) (agentScope :: capabilityScope :: scopes)).

(** ** Plain scopes

    The scopes whose patterns mean what they say: no unescaped quantifier and
    no line terminator. *)

Definition plain_filter (f : Filter) : bool := forallb plain_pattern (allow f).

Definition plain_scope (s : Scope) : bool :=
  forallb plain_pattern (operations s) && forallb plain_pattern (repositories s)
  && plain_filter (branches s) && plain_filter (remotes s)
  && match tags s with Some f => plain_filter f | None => true end.

(** The untyped scope [v] validates to a plain scope. *)
Definition plain_js (v : jsval) : bool :=
  match validateScope v true with Ok s => plain_scope s | Throw _ => true end.

(** ** Lemmas: validation *)

Lemma strings_of_spec l ss : strings_of l = Some ss <-> l = map JStr ss.
Proof.
  unfold strings_of. revert ss; induction l as [|v l IH]; intros ss; simpl.
  - split; [by intros [= <-]|]. by destruct ss.
  - destruct v as [ | | | |s| | | | | ]; simpl;
      try (split; [done|by destruct ss as [|? ?]; intros [=]]).
    destruct (option_all (map as_str l)) as [ss'|] eqn:E; simpl.
    + split; [intros [= <-]; simpl; f_equal; by apply IH|].
      destruct ss as [|s' ss]; [done|]. intros [= -> H]. apply IH in H. by injection H as ->.
    + split; [done|]. destruct ss as [|s' ss]; [done|]. intros [= -> H]. by apply IH in H.
Qed.

Definition valid_list (ae : bool) (ss : list string) : Prop :=
  (ae = false -> ss <> []) /\ length ss <= MAX_SCOPE_ITEMS /\
  (forall s, s ∈ ss -> bad_item s = false) /\ NoDup ss.

Lemma validateStringList_ok v ae ss :
  validateStringList v ae = Ok ss <-> v = strings_js ss /\ valid_list ae ss.
Proof.
  unfold validateStringList, valid_list, strings_js. split.
  - destruct v as [ | | | | |l| | | | ]; try done. intros H. inv_result.
    destruct (strings_of l) as [ss'|] eqn:El; [|done]. inv_result. guards.
    apply strings_of_spec in El as ->. split; [done|].
    match goal with H : existsb bad_item _ = false |- _ => rewrite existsb_not_elem_of in H end.
    match goal with H : all_distinct _ = true |- _ => apply all_distinct_true in H end.
    match goal with H : Nat.ltb _ _ = false |- _ => apply Nat.ltb_ge in H; rewrite length_map in H end.
    split_and!; try done. intros ->. by destruct ss.
  - intros (-> & Hne & Hlen & Hitems & Hd).
    rewrite length_map. rewrite (proj2 (strings_of_spec _ _) eq_refl).
    rewrite (proj2 (Nat.ltb_ge _ _) Hlen).
    rewrite (proj2 (existsb_not_elem_of _ _) Hitems), (proj2 (all_distinct_true _) Hd). simpl.
    destruct ae; [done|]. destruct ss; [by destruct Hne|done].
Qed.

#[local] Arguments validateStringList : simpl never.
#[local] Arguments strings_js : simpl never.

Lemma valid_list_weaken ae ss : valid_list ae ss -> valid_list true ss.
Proof. unfold valid_list. naive_solver. Qed.

Lemma strings_js_inj s t : strings_js s = strings_js t -> s = t.
Proof.
  unfold strings_js. intros [= H]. revert t H.
  induction s as [|x s IH]; intros [|y t]; simpl; try done. intros [= -> H]. f_equal. auto.
Qed.

Definition valid_filter (ae : bool) (f : Filter) : Prop :=
  valid_list ae (allow f) /\ match deny f with Some d => valid_list true d | None => True end.

Lemma validateFilter_valid v ae f : validateFilter v ae = Ok f -> valid_filter ae f.
Proof.
  unfold validateFilter. intros H. inv_result.
  destruct (is_undefined (get v "deny")); inv_result; unfold valid_filter; simpl;
    repeat match goal with H : validateStringList _ _ = Ok _ |- _ => apply validateStringList_ok in H as [? ?] end; auto.
Qed.

Lemma validateFilter_js ae f : valid_filter ae f -> validateFilter (filter_js f) ae = Ok f.
Proof.
  destruct f as [a [d|]]; intros [Ha Hd]; unfold validateFilter, filter_js; simpl in *;
    rewrite (proj2 (validateStringList_ok _ _ a) (conj eq_refl Ha)); simpl; [|done].
  by rewrite (proj2 (validateStringList_ok _ _ d) (conj eq_refl Hd)).
Qed.

Lemma validateFilter_js_inv ae f g : validateFilter (filter_js f) ae = Ok g -> g = f.
Proof.
  destruct f as [fa [fd|]]; intros H; unfold validateFilter in H; simpl in H; inv_result;
    repeat match goal with H : validateStringList _ _ = Ok _ |- _ =>
      apply validateStringList_ok in H as [?%strings_js_inj _]; subst end; done.
Qed.

#[local] Arguments validateFilter : simpl never.
#[local] Arguments filter_js : simpl never.

Definition valid_scope (ae : bool) (s : Scope) : Prop :=
  valid_list ae (operations s) /\ valid_list ae (repositories s) /\
  (forall r, r ∈ repositories s -> canonicalRepositoryPattern r = true) /\
  valid_filter ae (branches s) /\ valid_filter ae (remotes s) /\
  match tags s with Some f => valid_filter ae f | None => True end.

Lemma validateScope_valid v ae s : validateScope v ae = Ok s -> valid_scope ae s.
Proof.
  unfold validateScope. intros H. inv_result.
  match goal with H : existsb _ ?l = false |- _ =>
    rewrite existsb_not_elem_of in H;
    assert (forall r, r ∈ l -> canonicalRepositoryPattern r = true)
      by (intros r Hr; by apply negb_false_iff, H)
  end.
  repeat match goal with
  | H : validateStringList _ _ = Ok _ |- _ => apply validateStringList_ok in H as [_ ?]
  | H : validateFilter _ _ = Ok _ |- _ => apply validateFilter_valid in H
  end.
  destruct (is_undefined (get v "tags")); inv_result; unfold valid_scope; simpl; split_and!; auto.
  by eapply validateFilter_valid.
Qed.

Lemma validateScope_js s ae : valid_scope ae s -> validateScope (scope_js s) ae = Ok s.
Proof.
  destruct s as [ops repos bs rs ts]. intros (Ho & Hr & Hc & Hb & Hm & Ht). simpl in *.
  assert (existsb (fun r => negb (canonicalRepositoryPattern r)) repos = false) as He.
  { apply existsb_not_elem_of. intros r ?. by rewrite Hc. }
  destruct ts as [t|]; unfold validateScope, scope_js; simpl;
    rewrite (proj2 (validateStringList_ok _ _ ops) (conj eq_refl Ho)); simpl;
    rewrite (proj2 (validateStringList_ok _ _ repos) (conj eq_refl Hr)); simpl;
    rewrite He, (validateFilter_js _ _ Hb); simpl; rewrite (validateFilter_js _ _ Hm); simpl; [|done].
  by rewrite (validateFilter_js _ _ Ht).
Qed.

Lemma validateScope_js_inv s s' ae : validateScope (scope_js s) ae = Ok s' -> s' = s.
Proof.
  destruct s as [ops repos bs rs [t|]]; intros H; unfold validateScope in H; simpl in H; inv_result;
    repeat match goal with
    | H : validateStringList _ _ = Ok _ |- _ => apply validateStringList_ok in H as [?%strings_js_inj _]
    | H : validateFilter (filter_js _) _ = Ok _ |- _ => apply validateFilter_js_inv in H
    end; by subst.
Qed.

(** ** Lemmas: what a granted request satisfies *)

Lemma and_then_true a b : and_then a b = Ok true <-> a = Ok true /\ b = Ok true.
Proof. destruct a as [[]|]; simpl; naive_solver. Qed.

Lemma matches_any_true v ps : matches_any v ps = Ok true <-> matchesAny v ps = Some true.
Proof. unfold matches_any. by rewrite of_option_ok. Qed.

Lemma not_denied_true v d :
  not_denied v d = Ok true <-> forall p, p ∈ default [] d -> globMatch v p = Some false.
Proof.
  destruct d as [d|]; simpl; [|set_solver]. unfold matches_any. rewrite <- matchesAny_false.
  destruct (matchesAny v d) as [[]|]; simpl; naive_solver.
Qed.

Lemma matchesFilter_true v f :
  matchesFilter v f = Ok true <->
  exists s, v = JStr s /\ (forall p, p ∈ default [] (deny f) -> globMatch s p = Some false) /\
    matchesAny s (allow f) = Some true.
Proof.
  destruct v; simpl; try naive_solver.
  rewrite and_then_true, not_denied_true, matches_any_true. naive_solver.
Qed.

Lemma matches_any_mono v ps qs :
  plain_patterns ps -> plain_patterns qs ->
  (forall p, p ∈ ps -> glob_lang p v -> exists q, q ∈ qs /\ glob_lang q v) ->
  matchesAny v ps = Some true -> matchesAny v qs = Some true.
Proof.
  intros Hp Hq H. rewrite !matchesAny_true by done. intros (p & Hin & Hv). eauto.
Qed.

Lemma narrows_matches v ls rs ps :
  plain_patterns ls -> plain_patterns rs -> Forall (narrows ls rs) ps ->
  matchesAny v ps = Some true -> matchesAny v ls = Some true /\ matchesAny v rs = Some true.
Proof.
  intros Hl Hr H. assert (plain_patterns ps) as Hp.
  { eapply Forall_impl; [done|]. by intros p [? _]. }
  rewrite Forall_forall in H.
  split; eapply matches_any_mono; try done; intros p Hin Hv;
    destruct (H p Hin) as (_ & a & b & ? & ? & Hab); destruct (Hab v Hv); eauto.
Qed.

Lemma plain_filter_patterns f : plain_filter f = true -> plain_patterns (allow f).
Proof. unfold plain_filter, plain_patterns. rewrite forallb_elem_of, Forall_forall. auto. Qed.

Lemma plain_list ps : forallb plain_pattern ps = true -> plain_patterns ps.
Proof. unfold plain_patterns. rewrite forallb_elem_of, Forall_forall. auto. Qed.

Lemma plain_patterns_list ps : plain_patterns ps -> forallb plain_pattern ps = true.
Proof. unfold plain_patterns. rewrite forallb_elem_of, Forall_forall. auto. Qed.

Lemma narrows_plain ls rs ps : Forall (narrows ls rs) ps -> plain_patterns ps.
Proof. intros H. eapply Forall_impl; [done|]. by intros p [? _]. Qed.

(** ** Lemmas: the intersection of two scopes *)

Lemma intersectFilter_sound l r f v :
  plain_filter l = true -> plain_filter r = true -> intersectFilter l r = Ok f ->
  plain_filter f = true /\
  (matchesFilter v f = Ok true -> matchesFilter v l = Ok true /\ matchesFilter v r = Ok true).
Proof.
  intros Hl%plain_filter_patterns Hr%plain_filter_patterns H. unfold intersectFilter in H. inv_result.
  match goal with H : intersectPatterns _ _ = Some _ |- _ =>
    apply intersectPatterns_sound in H as Hn; [|done|done] end.
  split; [by eapply plain_patterns_list, narrows_plain|].
  rewrite !matchesFilter_true. simpl. intros (s & -> & Hd & Hm).
  destruct (narrows_matches _ _ _ _ Hl Hr Hn Hm) as [Hml Hmr].
  split; exists s; split_and!; try done; intros p Hp; apply Hd, elem_of_distinct; set_solver.
Qed.

Lemma intersect_tags_sound l r f v :
  match l with Some f => plain_filter f = true | None => True end ->
  match r with Some f => plain_filter f = true | None => True end ->
  intersect_tags l r = Ok f ->
  match f with Some f => plain_filter f = true | None => True end /\
  (matches_tag v f = Ok true -> matches_tag v l = Ok true /\ matches_tag v r = Ok true).
Proof.
  destruct l as [l|], r as [r|]; simpl; intros Hl Hr H; inv_result; try naive_solver.
  match goal with H : intersectFilter _ _ = Ok _ |- _ =>
    apply (intersectFilter_sound _ _ _ v) in H as [Hp Hm]; [|done|done] end.
  split; [done|]. simpl. by destruct (is_undefined v).
Qed.

Lemma plain_sublist (P : string -> Prop) `{forall s, Decision (P s)} l :
  plain_patterns l -> plain_patterns (filter P l).
Proof. unfold plain_patterns. rewrite !Forall_forall. intros Hl p [_ Hp]%list_elem_of_filter. auto. Qed.

Lemma intersectExact_matches v l r :
  plain_patterns l -> plain_patterns r ->
  matchesAny v (intersectExact l r) = Some true -> matchesAny v l = Some true /\ matchesAny v r = Some true.
Proof.
  intros Hl Hr H. unfold intersectExact in H.
  assert (plain_patterns (filter (fun v => v ∈ r) l)) as Hp by by apply plain_sublist.
  apply matchesAny_true in H as (p & [Hpr Hpl]%list_elem_of_filter & Hv); [|done].
  split; apply matchesAny_true; eauto.
Qed.

Lemma plain_scope_spec s :
  plain_scope s = true <->
  plain_patterns (operations s) /\ plain_patterns (repositories s) /\ plain_filter (branches s) = true /\
  plain_filter (remotes s) = true /\ match tags s with Some f => plain_filter f = true | None => True end.
Proof.
  unfold plain_scope. rewrite !andb_true_iff. unfold plain_patterns.
  rewrite !forallb_elem_of, !Forall_forall. destruct (tags s); tauto.
Qed.

Lemma intersectTwoScopes_sound l r s :
  plain_scope l = true -> plain_scope r = true -> intersectTwoScopes l r = Ok s ->
  plain_scope s = true /\
  forall q, allows s q = Ok true -> allows l q = Ok true /\ allows r q = Ok true.
Proof.
  intros Hl%plain_scope_spec Hr%plain_scope_spec H. unfold intersectTwoScopes in H. inv_result.
  destruct Hl as (Hlo & Hlr & Hlb & Hlm & Hlt), Hr as (Hro & Hrr & Hrb & Hrm & Hrt).
  match goal with H : intersectPatterns _ _ = Some _ |- _ =>
    pose proof (intersectPatterns_sound _ _ _ Hlr Hrr H) as Hn end.
  match goal with H : intersectFilter (branches _) _ = Ok _ |- _ =>
    pose proof (fun v => intersectFilter_sound _ _ _ v Hlb Hrb H) as Hb end.
  match goal with H : intersectFilter (remotes _) _ = Ok _ |- _ =>
    pose proof (fun v => intersectFilter_sound _ _ _ v Hlm Hrm H) as Hm end.
  match goal with H : intersect_tags _ _ = Ok _ |- _ =>
    pose proof (fun v => intersect_tags_sound _ _ _ v Hlt Hrt H) as Ht end.
  split.
  - apply plain_scope_spec. simpl. split_and!.
    + by apply plain_sublist.
    + by eapply narrows_plain.
    + apply (Hb JUndefined).
    + apply (Hm JUndefined).
    + apply (Ht JUndefined).
  - intros q. unfold allows. rewrite !and_then_true. simpl. intros (Ho & Hrep & Hbr & Hrem & Htag).
    apply Hb in Hbr as [? ?]. apply Hm in Hrem as [? ?]. apply Ht in Htag as [? ?].
    destruct (operation q); simpl in *; try done. destruct (repository q); simpl in *; try done.
    destruct (canonicalRepositoryPath _); [|done]. rewrite !matches_any_true in *.
    apply intersectExact_matches in Ho as [? ?]; [|done|done].
    destruct (narrows_matches _ _ _ _ Hlr Hrr Hn Hrep). done.
Qed.

Lemma intersect_all_sound rest acc s :
  plain_scope acc = true -> Forall (fun r => plain_scope r = true) rest ->
  intersect_all acc rest = Ok s ->
  forall q, allows s q = Ok true -> allows acc q = Ok true /\ Forall (fun r => allows r q = Ok true) rest.
Proof.
  revert acc; induction rest as [|next rest IH]; intros acc Ha Hr H q Hq; simpl in H.
  { inv_result. done. }
  apply Forall_cons in Hr as [Hn Hr]. inv_result.
  match goal with H : intersectTwoScopes _ _ = Ok _ |- _ =>
    apply intersectTwoScopes_sound in H as [Hp Hs]; [|done|done] end.
  eapply IH in H as [Hacc Hrest]; [|done..]. apply Hs in Hacc as [? ?]. auto.
Qed.

Lemma intersectScopes_grants scopes s r :
  forallb plain_js scopes = true -> intersectScopes scopes = Ok s ->
  scopeAllows (scope_js s) r = Ok true ->
  forall sc, sc ∈ scopes -> scopeAllows sc r = Ok true.
Proof.
  rewrite forallb_elem_of. intros Hp H Hs sc Hsc.
  unfold scopeAllows in Hs. apply bind_ok in Hs as (s' & ->%validateScope_js_inv & Hs).
  unfold intersectScopes in H. apply bind_ok in H as (ns & Hn%map_result_ok & H).
  destruct ns as [|n ns]; [done|].
  assert (forall x n, x ∈ scopes -> validateScope x true = Ok n -> plain_scope n = true) as Hplain.
  { intros x m Hx Hm. specialize (Hp x Hx). unfold plain_js in Hp. by rewrite Hm in Hp. }
  assert (Forall (fun m => plain_scope m = true) (n :: ns)) as Hpn.
  { eapply Forall2_Forall_r; [exact Hn|]. apply Forall_forall. intros. eapply Hplain; eauto. }
  apply Forall_cons in Hpn as [Hpn Hpns].
  destruct (intersect_all_sound _ _ _ Hpn Hpns H r Hs) as [Ha Hall].
  apply list_elem_of_lookup in Hsc as [i Hi].
  destruct (Forall2_lookup_l _ _ _ _ _ Hn Hi) as (m & Hm & Hv).
  unfold scopeAllows. rewrite Hv. simpl.
  assert (Forall (fun m => allows m r = Ok true) (n :: ns)) as Hall' by by constructor.
  by eapply Forall_lookup_1 in Hall'.
Qed.

(** ** Lemmas: requests against plain scopes *)

Definition in_filter (v : jsval) (f : Filter) : Prop :=
  exists s, v = JStr s /\ (forall p, p ∈ default [] (deny f) -> ~ glob_lang p s) /\
            exists p, p ∈ allow f /\ glob_lang p s.

Definition plain_denies (f : Filter) : bool := forallb plain_pattern (default [] (deny f)).

Lemma matchesFilter_in_filter v f :
  plain_filter f = true -> plain_denies f = true ->
  matchesFilter v f = Ok true <-> in_filter v f.
Proof.
  intros Ha%plain_filter_patterns Hd. unfold plain_denies in Hd. rewrite forallb_elem_of in Hd.
  rewrite matchesFilter_true. unfold in_filter.
  setoid_rewrite (fun s => matchesAny_true s (allow f) Ha).
  assert (forall s p, p ∈ default [] (deny f) -> globMatch s p = Some false <-> ~ glob_lang p s) as Hg.
  { intros s p Hp. specialize (Hd p Hp). rewrite <- globMatch_true by done.
    destruct (globMatch_plain s p Hd) as (b & Hb & _). rewrite Hb. destruct b; naive_solver. }
  split; intros (s & -> & Hn & Hx); exists s; split_and!; try done; intros p Hp;
    specialize (Hn p Hp); by apply Hg.
Qed.

Definition plain_denied_scope (s : Scope) : bool :=
  plain_scope s && plain_denies (branches s) && plain_denies (remotes s)
  && match tags s with Some f => plain_denies f | None => true end.

(** What a request must be for a plain scope to grant it. *)
Definition granted (s : Scope) (r : Request) : Prop :=
  (exists o p, operation r = JStr o /\ p ∈ operations s /\ glob_lang p o) /\
  (exists o p, repository r = JStr o /\ canonicalRepositoryPath o = true /\
               p ∈ repositories s /\ glob_lang p o) /\
  in_filter (branch r) (branches s) /\ in_filter (remote r) (remotes s) /\
  match tags s with Some f => in_filter (tag r) f | None => True end.

Lemma matches_operation_granted v ps :
  plain_patterns ps ->
  matches_operation v ps = Ok true <-> exists o p, v = JStr o /\ p ∈ ps /\ glob_lang p o.
Proof.
  intros Hp. destruct v; simpl; try naive_solver. rewrite matches_any_true, matchesAny_true by done.
  naive_solver.
Qed.

Lemma matches_repository_granted v ps :
  plain_patterns ps ->
  matches_repository v ps = Ok true <->
  exists o p, v = JStr o /\ canonicalRepositoryPath o = true /\ p ∈ ps /\ glob_lang p o.
Proof.
  intros Hp. destruct v as [ | | | |s| | | | | ]; simpl; try naive_solver.
  destruct (canonicalRepositoryPath s) eqn:E; [|naive_solver congruence].
  rewrite matches_any_true, matchesAny_true by done. naive_solver.
Qed.

Lemma matches_tag_granted v f :
  match f with Some f => plain_filter f = true /\ plain_denies f = true | None => True end ->
  matches_tag v f = Ok true <-> match f with Some f => in_filter v f | None => True end.
Proof.
  destruct f as [f|]; simpl; [|done]. intros [Ha Hd]. rewrite <- matchesFilter_in_filter by done.
  by destruct v.
Qed.

Lemma allows_granted s r : plain_denied_scope s = true -> allows s r = Ok true <-> granted s r.
Proof.
  unfold plain_denied_scope. rewrite !andb_true_iff, plain_scope_spec.
  intros [[[(Ho & Hr & Hb & Hm & Ht) Hdb] Hdm] Hdt]. unfold allows, granted.
  rewrite !and_then_true, matches_operation_granted, matches_repository_granted,
    !matchesFilter_in_filter, matches_tag_granted by (done || destruct (tags s); auto). done.
Qed.

(** ** Properties *)

(** C7: effective access only narrows: a request that the intersection of
    the local policy, the agent scope, the capability scope and any further
    scopes grants is granted by the local policy and by each of those scopes
    that is present (scopes with plain patterns; without that see
    [quantifier_widens]). *)
Theorem effectiveIntersection_narrows localPolicy agentScope capabilityScope scopes s r :
  forallb plain_js (localPolicy :: agentScope :: capabilityScope :: scopes) = true ->
  effectiveIntersection localPolicy agentScope capabilityScope scopes = Ok s ->
  scopeAllows (scope_js s) r = Ok true ->
  scopeAllows localPolicy r = Ok true /\
  forall sc, sc ∈ agentScope :: capabilityScope :: scopes -> sc <> JUndefined ->
    scopeAllows sc r = Ok true.
Proof.
  rewrite forallb_elem_of. intros Hp H Hs.
  assert (forall sc, sc ∈ localPolicy ::
    filter (fun s => is_undefined s = false) (agentScope :: capabilityScope :: scopes) ->
    scopeAllows sc r = Ok true) as Hall.
  { eapply intersectScopes_grants; [|exact H|done]. rewrite forallb_elem_of. intros x Hx.
    apply Hp. rewrite elem_of_cons, list_elem_of_filter in Hx. set_solver. }
  split; [apply Hall; set_solver|]. intros sc Hsc Hne. apply Hall.
  apply elem_of_cons. right. apply list_elem_of_filter. split; [by destruct sc|done].
Qed.

(** C29: for a valid scope whose patterns, to allow and to deny, are plain (they
    contain no question mark and no line terminator, [plain_denied_scope]),
    [scopeAllows] grants exactly the requests whose operation, canonical
    repository path, branch, remote and (when the scope has a tag filter) tag are
    texts matched by an allow pattern and by no deny pattern, a star standing for
    any text.  The restriction is needed: a question mark is read as a
    quantifier ([quantifier_grants], [quantifier_widens]). *)
Theorem scopeAllows_spec scope s r :
  validateScope scope true = Ok s -> plain_denied_scope s = true ->
  scopeAllows scope r = Ok true <-> granted s r.
Proof. intros Hv Hp. unfold scopeAllows. rewrite Hv. simpl. by apply allows_granted. Qed.

(** Normalization is a projection onto valid scopes: the normalized scope
    has unique non-empty bounded items and canonical repository patterns, it
    validates to itself, and only it does. *)
Theorem validateScope_normal_form v ae s :
  validateScope v ae = Ok s ->
  valid_scope ae s /\ validateScope (scope_js s) ae = Ok s /\
  forall s', scope_js s' = scope_js s -> s' = s.
Proof.
  intros H%validateScope_valid. split; [done|]. split; [by apply validateScope_js|].
  intros s' E. pose proof (validateScope_js s ae H) as Hs. rewrite <- E in Hs.
  by apply validateScope_js_inv in Hs.
Qed.

Definition any_filter (p : string) : Filter := mkFilter [p] None.
Definition branch_scope (p : string) : Scope :=
  mkScope ["push"] ["/repo"] (any_filter p) (any_filter "*") None.
Definition push_request (b : string) : Request :=
  mkRequest (JStr "push") (JStr "/repo") (JStr b) (JStr "origin") JUndefined.

(** A question mark is a quantifier: the branch "ab" is granted by "abc?". *)
Example quantifier_grants :
  scopeAllows (scope_js (branch_scope "abc?")) (push_request "ab") = Ok true /\
  plain_denied_scope (branch_scope "abc?") = false.
Proof. vm_compute. done. Qed.

(** With an unescaped quantifier the intersection widens: the branches
    ["abc*"] and ["abc?"] intersect to ["abc?"], which grants the branch ["ab"]
    that ["abc*"] does not. *)
Theorem quantifier_widens :
  exists s, effectiveIntersection (scope_js (branch_scope "abc*")) JUndefined
              (scope_js (branch_scope "abc?")) [] = Ok s /\
    scopeAllows (scope_js s) (push_request "ab") = Ok true /\
    scopeAllows (scope_js (branch_scope "abc*")) (push_request "ab") = Ok false.
Proof. eexists. split; [vm_compute; reflexivity|]. split; vm_compute; reflexivity. Qed.

(** ** Witnesses *)

Definition local_scope : Scope :=
  mkScope ["push"; "fetch"] ["/repo"; "/work/*"] (mkFilter ["*"] (Some ["main"])) (any_filter "origin") None.

Lemma effectiveIntersection_narrows_witness :
  scopeAllows (scope_js local_scope) (push_request "agent/x") = Ok true.
Proof.
  refine (proj1 (effectiveIntersection_narrows (scope_js local_scope) JUndefined
    (scope_js (branch_scope "agent/*")) [] _ _ _ _ _)); vm_compute; reflexivity.
Defined.

Lemma scopeAllows_spec_witness : ~ granted local_scope (push_request "main").
Proof.
  intros H. apply (scopeAllows_spec (scope_js local_scope)) in H.
  - vm_compute in H. discriminate H.
  - vm_compute. reflexivity.
  - vm_compute. reflexivity.
Defined.

Lemma validateScope_normal_form_witness :
  validateScope (scope_js local_scope) false = Ok local_scope /\ valid_scope false local_scope.
Proof.
  split; [vm_compute; reflexivity|].
  apply (validateScope_normal_form (scope_js local_scope) false local_scope). vm_compute. reflexivity.
Defined.
