(* ===== verification/Policy.v ===== *)
(** * Local policy decisions (lib/policy.mjs)

    The broker's check of a request against the local policy file and the
    scope of the requesting agent.  The policy is an untyped JSON value, so
    reading a field of [null] or calling [some] on something that is not an
    array throws a [TypeError].  The file system lookup [real] (the real path,
    or the resolved path when there is none) is a parameter; [None] when the
    value is not a path. *)

From stdpp Require Import base tactics sets list strings.
From S2P Require Import Prelude JsValue Regex Glob.
Local Open Scope string_scope.
Local Open Scope js_scope.

(** ** Data *)

Inductive policy_exn := TypeError | SyntaxError.

#[export] Instance policy_exn_eq_dec : EqDecision policy_exn.
Proof. solve_decision. Defined.

Record Context := mkContext {
  policy : jsval; cwd : jsval; branch : jsval; remote : jsval; operation : jsval; revoked : jsval
}.

Inductive Decision :=
| Allowed (operation : jsval)
| Denied (reason : string).

(** [v === undefined ? d : v], the defaults of destructured parameters. *)
Definition or_default (v d : jsval) : jsval := if is_undefined v then d else v.

(** ** Operations *)

(** [String(pattern)] and the argument conversion of [test]. *)
Definition string_of (v : jsval) : result policy_exn string := of_option TypeError (to_string v).

Fixpoint some_match (value : jsval) (patterns : list jsval) : result policy_exn bool :=
  match patterns with
  | [] => Ok false
  | p :: ps =>
      p ← string_of p;
      throw_if bool_decide (glob_compile p = None) with SyntaxError ;;
      v ← string_of value;
      m ← of_option SyntaxError (globMatch v p);
      if (m : bool) then Ok true else some_match value ps
  end.

Definition matchesAny (value patterns : jsval) : result policy_exn bool :=
  match patterns with
  | JUndefined => Ok false
  | JArr ps => some_match value ps
  | _ => Throw TypeError
  end.

(** [o.k] of a value that may be [null] or [undefined]. *)
Definition field (o : jsval) (k : string) : result policy_exn jsval :=
  match o with JUndefined | JNull => Throw TypeError | _ => Ok (get o k) end.

(** [if (c && m) return reason; k] *)
Definition deny_if (c : bool) (m : result policy_exn bool) (reason : string)
    (k : result policy_exn Decision) : result policy_exn Decision :=
  if c then b ← m; if (b : bool) then Ok (Denied reason) else k else k.

Definition not_result (m : result policy_exn bool) : result policy_exn bool := negb <$> m.

(** The [{ allow: ["*"] }] of a missing filter. *)
Definition allow_all : jsval := JObj [("allow", JArr [JStr "*"])].

Section Policy.
(** [fs.realpathSync], falling back to [path.resolve]. *)
Variable real : jsval -> option string.

Definition isSameRepository (candidate root : jsval) : result policy_exn bool :=
  a ← of_option TypeError (real candidate);
  b ← of_option TypeError (real root);
  Ok (String.eqb a b).

Fixpoint some_repository (cwd : jsval) (configured : list jsval) : result policy_exn bool :=
  match configured with
  | [] => Ok false
  | c :: cs => b ← isSameRepository cwd c; if (b : bool) then Ok true else some_repository cwd cs
  end.

Definition allowed_repository (cwd repositories : jsval) : result policy_exn bool :=
  match nullish repositories (JArr []) with
  | JArr cs => some_repository cwd cs
  | _ => Throw TypeError
  end.

Definition session_missing (policy : jsval) : bool :=
  truthy (get (get policy "session") "required") && negb (truthy (get (get policy "session") "valid")).

(** The filter that applies to the ref: [tags] for a tag push, [branches]
    otherwise, and the prefix of its denial reasons. *)
Definition ref_filter (policy operation : jsval) : jsval * string :=
  if is_str operation "git.tag.push" then (nullish (get policy "tags") allow_all, "tag")
  else (nullish (get policy "branches") allow_all, "branch").

Definition check_remotes (policy remote operation : jsval) : result policy_exn Decision :=
  let remotes := get policy "remotes" in
  deny_if (truthy (get remotes "allow")) (not_result (matchesAny remote (get remotes "allow")))
    "remote_not_allowed"
  (deny_if (truthy (get remotes "deny")) (matchesAny remote (get remotes "deny")) "remote_denied"
  (Ok (Allowed operation))).

Definition check_ref (policy branch remote operation : jsval) : result policy_exn Decision :=
  let '(filter, kind) := ref_filter policy operation in
  deny_if (truthy (get filter "deny")) (matchesAny branch (get filter "deny")) (kind +:+ "_denied")
  (deny_if (truthy (get filter "allow")) (not_result (matchesAny branch (get filter "allow")))
    (kind +:+ "_not_allowed")
  (check_remotes policy remote operation)).

Definition evaluateRequest (c : Context) : result policy_exn Decision :=
  let branch := or_default (branch c) (JStr "") in
  let remote := or_default (remote c) (JStr "") in
  let operation := or_default (operation c) (JStr "git.commit.sign") in
  let policy := policy c in
  if truthy (revoked c) then Ok (Denied "revoked") else
  _ ← field policy "session";
  if session_missing policy then Ok (Denied "session_required") else
  let allowedOperations := nullish (get policy "operations") (JArr [JStr "git.commit.sign"]) in
  deny_if true (not_result (matchesAny operation allowedOperations)) "operation_not_allowed"
  (deny_if true (not_result (allowed_repository (cwd c) (get policy "repositories")))
    "repository_not_allowed"
  (check_ref policy branch remote operation)).

Definition evaluateSignRequest (c : Context) : result policy_exn Decision :=
  evaluateRequest (mkContext (policy c) (cwd c) (branch c) (remote c) (JStr "git.commit.sign") (revoked c)).

(** [{ ...scope, session }]: a [session] of the scope is overwritten in
    place; the index keys of a spread array or string are not read. *)
Definition with_session (scope session : jsval) : jsval :=
  match scope with
  | JObj fs =>
      JObj (if includes (map fst fs) "session"
            then map (fun kv => if String.eqb kv.1 "session" then (kv.1, session) else kv) fs
            else fs ++ [("session", session)])%list
  | _ => JObj [("session", session)]
  end.

Definition evaluateAgentRequest (c : Context) (agent : jsval) : result policy_exn Decision :=
  globalDecision ← evaluateRequest c;
  match globalDecision with
  | Denied _ => Ok globalDecision
  | Allowed _ =>
      if negb (truthy (get agent "scope")) then Ok globalDecision else
      session ← field (policy c) "session";
      scopedDecision ← evaluateRequest
        (mkContext (with_session (get agent "scope") session) (cwd c) (branch c) (remote c)
           (operation c) (revoked c));
      match scopedDecision with
      | Allowed _ => Ok globalDecision
      | Denied reason => Ok (Denied ("agent_scope_" +:+ reason))
      end
  end.

(** ** Lemmas *)

Lemma deny_if_allowed c m reason k op :
  deny_if c m reason k = Ok (Allowed op) <-> (c = true -> m = Ok false) /\ k = Ok (Allowed op).
Proof.
  unfold deny_if. destruct c; [|naive_solver]. destruct m as [[]|]; simpl; naive_solver.
Qed.

Lemma not_result_false m : not_result m = Ok false <-> m = Ok true.
Proof. destruct m as [[]|]; simpl; naive_solver. Qed.

Lemma check_remotes_allowed p r o op :
  check_remotes p r o = Ok (Allowed op) <->
  op = o /\
  (truthy (get (get p "remotes") "allow") = true -> matchesAny r (get (get p "remotes") "allow") = Ok true) /\
  (truthy (get (get p "remotes") "deny") = true -> matchesAny r (get (get p "remotes") "deny") = Ok false).
Proof. unfold check_remotes. rewrite !deny_if_allowed, not_result_false. naive_solver. Qed.

(** The conditions of [check_ref]. *)
Definition ref_allowed (p b o : jsval) : Prop :=
  let filter := (ref_filter p o).1 in
  (truthy (get filter "deny") = true -> matchesAny b (get filter "deny") = Ok false) /\
  (truthy (get filter "allow") = true -> matchesAny b (get filter "allow") = Ok true).

Definition remote_allowed (p r : jsval) : Prop :=
  let filter := get p "remotes" in
  (truthy (get filter "deny") = true -> matchesAny r (get filter "deny") = Ok false) /\
  (truthy (get filter "allow") = true -> matchesAny r (get filter "allow") = Ok true).

(** What an allowed request satisfies: the abstract policy. *)
Definition permitted (p cwd b r o : jsval) : Prop :=
  nullish p JUndefined <> JUndefined /\ session_missing p = false /\
  matchesAny o (nullish (get p "operations") (JArr [JStr "git.commit.sign"])) = Ok true /\
  allowed_repository cwd (get p "repositories") = Ok true /\
  ref_allowed p b o /\ remote_allowed p r.

Lemma check_ref_allowed p b r o op :
  check_ref p b r o = Ok (Allowed op) <-> op = o /\ ref_allowed p b o /\ remote_allowed p r.
Proof.
  unfold check_ref, ref_allowed, remote_allowed. destruct (ref_filter p o) as [f kind]. simpl.
  rewrite !deny_if_allowed, check_remotes_allowed, not_result_false. naive_solver.
Qed.

Lemma field_ok p k v : field p k = Ok v <-> nullish p JUndefined <> JUndefined /\ v = get p k.
Proof. destruct p; simpl; naive_solver. Qed.

#[local] Arguments deny_if : simpl never.

Lemma evaluateRequest_allowed c op :
  evaluateRequest c = Ok (Allowed op) <->
  op = or_default (operation c) (JStr "git.commit.sign") /\ truthy (revoked c) = false /\
  permitted (policy c) (cwd c) (or_default (branch c) (JStr "")) (or_default (remote c) (JStr "")) op.
Proof.
  unfold evaluateRequest, permitted. destruct (truthy (revoked c)); [naive_solver|].
  destruct (field (policy c) "session") as [v|] eqn:E; simpl.
  2:{ split; [done|]. intros (_ & _ & Hp & _). by destruct (policy c). }
  apply field_ok in E as [Hp _].
  destruct (session_missing (policy c)); [naive_solver|].
  cbv zeta. rewrite !deny_if_allowed, !not_result_false, check_ref_allowed. naive_solver.
Qed.

#[local] Arguments String.eqb : simpl never.

Lemma session_with_session scope session :
  get (with_session scope session) "session" = session.
Proof.
  destruct scope as [ | | | | | |fs| | | ]; try done. simpl. destruct (includes (map fst fs) "session") eqn:E.
  - apply includes_true in E. simpl. induction fs as [|[k v] fs IH]; simpl in *; [set_solver|].
    destruct (String.eqb_spec k "session") as [->|Hne]; simpl; [done|].
    rewrite (proj2 (String.eqb_neq _ _)) by congruence. apply IH. set_solver.
  - apply includes_false in E. simpl. induction fs as [|[k v] fs IH]; simpl in *; [done|].
    destruct (String.eqb_spec "session" k) as [Hk|]; [subst; set_solver|]. apply IH. set_solver.
Qed.

(** ** Properties *)

(** C31: a request is allowed exactly when nothing is revoked, the required
    session is valid, the operation matches, some configured repository is
    the same directory, and the branch (or tag) and remote filters accept;
    in particular a policy without repositories allows nothing. *)
Theorem evaluateRequest_spec c op :
  (evaluateRequest c = Ok (Allowed op) <->
   op = or_default (operation c) (JStr "git.commit.sign") /\ truthy (revoked c) = false /\
   permitted (policy c) (cwd c) (or_default (branch c) (JStr "")) (or_default (remote c) (JStr "")) op) /\
  (nullish (get (policy c) "repositories") (JArr []) = JArr [] -> evaluateRequest c <> Ok (Allowed op)).
Proof.
  split; [apply evaluateRequest_allowed|]. rewrite evaluateRequest_allowed. unfold permitted, allowed_repository.
  intros -> (_ & _ & _ & _ & _ & H & _). done.
Qed.

(** An agent's request is allowed exactly when the global policy allows it
    and, when the agent has a scope, that scope allows it too under the global
    session: an agent scope never widens the policy. *)
Theorem evaluateAgentRequest_spec c agent op :
  evaluateAgentRequest c agent = Ok (Allowed op) <->
  evaluateRequest c = Ok (Allowed op) /\
  (truthy (get agent "scope") = true ->
   permitted (with_session (get agent "scope") (get (policy c) "session")) (cwd c)
     (or_default (branch c) (JStr "")) (or_default (remote c) (JStr "")) op).
Proof.
  unfold evaluateAgentRequest. destruct (evaluateRequest c) as [[o|r]|] eqn:E; simpl; [|naive_solver..].
  apply evaluateRequest_allowed in E as (-> & Hr & Hp).
  destruct (truthy (get agent "scope")) eqn:Es; simpl; [|naive_solver].
  destruct (field (policy c) "session") as [v|] eqn:Ef; simpl.
  2:{ split; [done|]. intros _. destruct Hp as [Hn _]. by destruct (policy c). }
  apply field_ok in Ef as [_ ->].
  destruct (evaluateRequest (mkContext (with_session _ _) _ _ _ _ _)) as [[o|r]|] eqn:E2; simpl.
  - apply evaluateRequest_allowed in E2 as (-> & _ & Hs). simpl in Hs. naive_solver.
  - split; [done|]. intros [[= <-] Hs].
    assert (Ok (Denied r) = Ok (Allowed (or_default (operation c) (JStr "git.commit.sign")))
      :> result policy_exn Decision) as [=].
    rewrite <- E2. apply evaluateRequest_allowed. auto.
  - split; [done|]. intros [[= <-] Hs].
    assert (Throw e = Ok (Allowed (or_default (operation c) (JStr "git.commit.sign")))
      :> result policy_exn Decision) as [=].
    rewrite <- E2. apply evaluateRequest_allowed. auto.
Qed.
End Policy.

(** ** Witnesses *)

Definition path_of (v : jsval) : option string := as_str v.

Definition sample_policy : jsval :=
  JObj [("repositories", JArr [JStr "/repo"]);
        ("branches", JObj [("allow", JArr [JStr "agent/*"]); ("deny", JArr [JStr "agent/root"])])].

Definition sample_context (b : string) : Context :=
  mkContext sample_policy (JStr "/repo") (JStr b) JUndefined JUndefined JUndefined.

Lemma evaluateRequest_spec_witness :
  evaluateRequest path_of (mkContext JNull JUndefined JUndefined JUndefined JUndefined JUndefined) <> Ok (Allowed JNull) /\
  permitted path_of sample_policy (JStr "/repo") (JStr "agent/x") (JStr "") (JStr "git.commit.sign").
Proof.
  split.
  - apply (evaluateRequest_spec path_of); reflexivity.
  - apply (proj1 (evaluateRequest_spec path_of (sample_context "agent/x") (JStr "git.commit.sign"))).
    vm_compute. reflexivity.
Defined.
