(* ===== verification/Json.v ===== *)
(** * JSON texts

    [JSON.stringify] of strings and numbers, the canonical form with sorted
    keys that the signers, journals and idempotency digests hash
    (canonicalJson in apps/cloud-api/src/managed-signer-key-lifecycle.mjs), and
    [Number] of a numeric literal as the class [NumberText]: its law fixes the
    decimal integers, the other literals are the host's. *)

From stdpp Require Import base tactics sets list strings pretty.
From Stdlib Require Import Ascii.
From S2P Require Import Prelude JsValue Regex.
Local Open Scope string_scope.

(** ** JSON.stringify *)

Definition dquote : ascii := "034".
Definition backslash : ascii := "092".

Definition hex_digit (n : nat) : ascii :=
  ascii_of_nat (if Nat.ltb n 10 then 48 + n else 87 + n).

(** The escape letter of a control character that has one. *)
Definition escape_letter (c : ascii) : option ascii :=
  match code c with
  | 8 => Some "b"%char | 9 => Some "t"%char | 10 => Some "n"%char
  | 12 => Some "f"%char | 13 => Some "r"%char
  | 34 => Some dquote | 92 => Some backslash
  | _ => None
  end.

Definition escape (c : ascii) : string :=
  match escape_letter c with
  | Some e => String backslash (String e "")
  | None =>
      if Nat.ltb (code c) 32 then
        String backslash ("u00" +:+ String (hex_digit (code c / 16)) (String (hex_digit (code c mod 16)) ""))
      else String c ""
  end.

Fixpoint escapes (s : string) : string :=
  match s with EmptyString => "" | String c s => escape c +:+ escapes s end.

Definition quote (s : string) : string := String dquote (escapes s +:+ String dquote "").

(** [JSON.stringify] of a value that is not an object; [undefined] and a
    function give [undefined], which a template prints as that word. *)
Definition stringify_scalar (v : jsval) : string :=
  match v with
  | JNull | JNum NNaN | JNum (NInf _) => "null"
  | JBool true => "true"
  | JBool false => "false"
  | JNum n => num_to_string n
  | JStr s => quote s
  | _ => "undefined"
  end.

(** [keys.sort()]: by code units. *)
Fixpoint insert_field {A} (k : string) (a : A) (fs : list (string * A)) : list (string * A) :=
  match fs with
  | [] => [(k, a)]
  | (k', a') :: fs' => if String.leb k k' then (k, a) :: fs else (k', a') :: insert_field k a fs'
  end.

Fixpoint sort_fields {A} (fs : list (string * A)) : list (string * A) :=
  match fs with [] => [] | (k, a) :: fs => insert_field k a (sort_fields fs) end.

(** [texts.sort()] *)
Fixpoint insert_string (s : string) (l : list string) : list string :=
  match l with [] => [s] | t :: l' => if String.leb s t then s :: l else t :: insert_string s l' end.

Definition sort_strings (l : list string) : list string := foldr insert_string [] l.

(** The elements of a [Buffer] as enumerable properties. *)
Definition byte_fields (b : string) : list (string * jsval) :=
  map (fun p => (pretty (Z.of_nat (fst p)), JNum (NInt (Z.of_nat (code (snd p))))))
    (combine (seq 0 (String.length b)) (chars b)).

(** [function canonicalJson(value)] *)
Fixpoint canonicalJson (v : jsval) : string :=
  match v with
  | JArr l => "[" +:+ join "," (map canonicalJson l) +:+ "]"
  | JObj fs =>
      "{" +:+ join "," (map (fun kt => quote (fst kt) +:+ ":" +:+ snd kt)
        (sort_fields (map (fun kv => (fst kv, canonicalJson (snd kv))) fs))) +:+ "}"
  | JBytes b =>
      "{" +:+ join "," (map (fun kt => quote (fst kt) +:+ ":" +:+ snd kt)
        (sort_fields (map (fun kv => (fst kv, stringify_scalar (snd kv))) (byte_fields b)))) +:+ "}"
  | JHost _ => "{}"
  | _ => stringify_scalar v
  end.

(** What [JSON.stringify] leaves out of objects and writes as [null] in
    arrays. *)
Definition omitted (v : jsval) : bool := match v with JUndefined | JFun _ => true | _ => false end.

(** [JSON.stringify(value)] without indentation, on plain values: the keys in
    their order. *)
Fixpoint stringify (v : jsval) : string :=
  match v with
  | JArr l => "[" +:+ join "," (map (fun x => if omitted x then "null" else stringify x) l) +:+ "]"
  | JObj fs =>
      "{" +:+ join "," (map (fun kt => quote (fst kt) +:+ ":" +:+ snd kt)
        (flat_map (fun kv => if omitted (snd kv) then [] else [(fst kv, stringify (snd kv))]) fs)) +:+ "}"
  | _ => stringify_scalar v
  end.

(** ** JSON values

    The values that a JSON text denotes, whose numbers are safe integers, and the
    normal form of a value: every object with its keys sorted. *)

Fixpoint json_value (v : jsval) : bool :=
  match v with
  | JNull | JBool _ | JStr _ => true
  | JNum _ => match safe_integer v with Some _ => true | None => false end
  | JArr l => forallb json_value l
  | JObj fs => all_distinct (map fst fs) && forallb (fun kv => json_value (snd kv)) fs
  | _ => false
  end.

Fixpoint normal (v : jsval) : jsval :=
  match v with
  | JArr l => JArr (map normal l)
  | JObj fs => JObj (sort_fields (map (fun kv => (fst kv, normal (snd kv))) fs))
  | _ => v
  end.

(** ** Numeric literals *)

(** [Number(text)] of a literal of the JSON grammar, [None] when it is not
    finite. *)
Class NumberText := {
  number_of : string -> option jsnum;
  number_of_integer : forall z, (Z.abs z <= MAX_SAFE_INTEGER)%Z -> number_of (pretty z) = Some (NInt z)
}.

Fixpoint read_digits (acc : N) (s : string) : option N :=
  match s with
  | EmptyString => Some acc
  | String c s => if digit c then read_digits (10 * acc + N.of_nat (code c - 48)) s else None
  end.

Definition read_integer (s : string) : option Z :=
  match s with
  | String "-" s => option_map (fun n => - Z.of_N n)%Z (read_digits 0 s)
  | _ => option_map Z.of_N (read_digits 0 s)
  end.

(** ** Lemmas: decimal texts *)

Lemma digit_pretty_N_char x : (x < 10)%N -> digit (pretty_N_char x) = true
  /\ N.of_nat (code (pretty_N_char x) - 48) = x.
Proof.
  intros Hx. assert (exists n, x = N.of_nat n /\ n < 10) as (n & -> & Hn)
    by (exists (N.to_nat x); lia).
  do 10 (destruct n as [|n]; [by vm_compute|]). lia.
Qed.

Lemma pretty_N_char_zero x : (x < 10)%N -> pretty_N_char x = "0"%char -> x = 0%N.
Proof. intros [_ H]%digit_pretty_N_char E. rewrite <- H, E. reflexivity. Qed.

(** The digits [pretty] writes before the ones it has. *)
Lemma pretty_N_go_app x s : pretty_N_go x s = pretty_N_go x "" +:+ s.
Proof.
  revert s. induction (N.lt_wf_0 x) as [x _ IH]. intros s.
  destruct (decide (0 < x)%N) as [Hx|Hx].
  - rewrite !(pretty_N_go_step x) by done.
    rewrite IH by (apply N.div_lt; lia). rewrite (IH (x / 10)%N) with (s := String _ "") by (apply N.div_lt; lia).
    by rewrite string_app_assoc.
  - assert (x = 0%N) as -> by lia. by rewrite !pretty_N_go_0.
Qed.

Lemma read_digits_app acc s t :
  read_digits acc (s +:+ t) = match read_digits acc s with Some a => read_digits a t | None => None end.
Proof. revert acc. induction s as [|c s IH]; intros acc; simpl; [done|]. destruct (digit c); auto. Qed.

(** A numeral without leading zeros. *)
Definition numeral (s : string) : Prop :=
  s = "0" \/ exists c r, s = String c r /\ digit c = true /\ c <> "0"%char /\
                         Forall (fun c => digit c = true) (chars r).

Lemma pretty_N_go_numeral x :
  (0 < x)%N -> (exists c r, pretty_N_go x "" = String c r /\ digit c = true /\ c <> "0"%char /\
                 Forall (fun c => digit c = true) (chars r)) /\
               read_digits 0 (pretty_N_go x "") = Some x.
Proof.
  induction (N.lt_wf_0 x) as [x _ IH]. intros Hx.
  rewrite pretty_N_go_step, pretty_N_go_app by done.
  destruct (digit_pretty_N_char (x mod 10)) as [Hd Hv]; [by apply N.mod_lt|].
  destruct (decide (x / 10 = 0)%N) as [E|E].
  - rewrite E. change (pretty_N_go 0 "") with "". change ("" +:+ ?s) with s.
    assert ((x mod 10)%N = x) as Em by (pose proof (N.div_mod x 10 ltac:(done)); lia).
    split.
    + eexists _, "". split_and!; [reflexivity|done| |constructor].
      intros H%pretty_N_char_zero; [lia|by apply N.mod_lt].
    + cbn [read_digits]. rewrite Hd, Hv. f_equal. lia.
  - destruct (IH (x / 10)%N) as [(c & r & Ec & Hc & Hne & Hr) Hval]; [apply N.div_lt; lia|by apply N.neq_0_lt_0|].
    split.
    + eexists c, (r +:+ _). rewrite Ec. split_and!; [reflexivity|done..|].
      rewrite chars_app, Forall_app. split; [done|]. simpl. by repeat constructor.
    + rewrite read_digits_app, Hval. cbn [read_digits]. rewrite Hd, Hv. f_equal.
      pose proof (N.div_mod x 10 ltac:(done)). lia.
Qed.

Lemma pretty_N_numeral n : numeral (pretty n) /\ read_digits 0 (pretty n) = Some n.
Proof.
  unfold pretty, pretty_N. destruct (decide (n = 0)%N) as [->|Hn]; [split; [by left|done]|].
  destruct (pretty_N_go_numeral n) as [H1 H2]; [lia|]. split; [by right|done].
Qed.

Lemma pretty_Z_cases z :
  (exists n, z = Z.of_N n /\ pretty z = pretty n) \/
  (exists n, (0 < n)%N /\ z = (- Z.of_N n)%Z /\ pretty z = String "-" (pretty n)).
Proof.
  destruct z as [|p|p].
  - left. by exists 0%N.
  - left. by exists (Npos p).
  - right. by exists (Npos p).
Qed.

Lemma read_integer_pretty z : read_integer (pretty z) = Some z.
Proof.
  destruct (pretty_Z_cases z) as [(n & -> & ->)|(n & _ & -> & ->)].
  - destruct (pretty_N_numeral n) as [Hn Hr]. unfold read_integer.
    destruct (pretty n) as [|c s] eqn:E; [by rewrite Hr|].
    destruct (Ascii.eqb_spec c "-") as [->|Hc].
    + by destruct Hn as [?|(? & ? & [= <- <-] & ? & _)].
    + assert (read_integer (String c s) = option_map Z.of_N (read_digits 0 (String c s))) as Hri.
      { destruct c as [[] [] [] [] [] [] [] []]; try reflexivity. by destruct Hc. }
      unfold read_integer in Hri. by rewrite Hri, Hr.
  - destruct (pretty_N_numeral n) as [_ Hr]. simpl. by rewrite Hr.
Qed.

(** Integer literals read exactly, every other literal kept as its text. *)
Definition integer_text : NumberText := {|
  number_of := fun s => match read_integer s with Some z => Some (NInt z) | None => Some (NText s) end;
  number_of_integer := fun z _ => ltac:(cbv beta; by rewrite read_integer_pretty)
|}.

(** ** Sorted fields and the length of a text *)

Lemma insert_field_map {A B} (f : A -> B) k a fs :
  insert_field k (f a) (map (fun kv => (kv.1, f kv.2)) fs) =
  map (fun kv => (kv.1, f kv.2)) (insert_field k a fs).
Proof. induction fs as [|[k' a'] fs IH]; simpl; [done|]. destruct (String.leb k k'); simpl; congruence. Qed.

Lemma sort_fields_map {A B} (f : A -> B) fs :
  sort_fields (map (fun kv => (kv.1, f kv.2)) fs) = map (fun kv => (kv.1, f kv.2)) (sort_fields fs).
Proof. induction fs as [|[k a] fs IH]; simpl; [done|]. by rewrite IH, insert_field_map. Qed.

Lemma insert_field_perm {A} k (a : A) fs : insert_field k a fs ≡ₚ (k, a) :: fs.
Proof.
  induction fs as [|[k' a'] fs IH]; simpl; [done|]. destruct (String.leb k k'); [done|].
  rewrite IH. apply Permutation_swap.
Qed.

Lemma sort_fields_perm {A} (fs : list (string * A)) : sort_fields fs ≡ₚ fs.
Proof. induction fs as [|[k a] fs IH]; simpl; [done|]. by rewrite insert_field_perm, IH. Qed.

Fixpoint total {A} (f : A -> nat) (l : list A) : nat := match l with [] => 0 | x :: l => f x + total f l end.

Lemma insert_string_perm s l : insert_string s l ≡ₚ s :: l.
Proof.
  induction l as [|t l IH]; simpl; [done|]. destruct (String.leb s t); [done|]. rewrite IH. apply Permutation_swap.
Qed.

Lemma sort_strings_perm l : sort_strings l ≡ₚ l.
Proof. induction l as [|s l IH]; simpl; [done|]. by rewrite insert_string_perm, IH. Qed.

(** Every text is at most the next; sorting makes a list so, and leaves such
    a list as it is. *)
Fixpoint ascending (l : list string) : Prop :=
  match l with s :: (t :: _) as l' => String.leb s t = true /\ ascending l' | _ => True end.

Lemma insert_ascending s l : ascending l -> ascending (insert_string s l).
Proof.
  induction l as [|t l IH]; [done|]. intros H. cbn [insert_string]. destruct (String.leb s t) eqn:E; [by split|].
  assert (String.leb t s = true) as Ht by (destruct (String.leb_total s t); congruence).
  destruct l as [|u l]; [by split|]. destruct H as [Hu H]. specialize (IH H). cbn [insert_string] in *.
  destruct (String.leb s u); by split.
Qed.

Lemma sort_ascending l : ascending (sort_strings l).
Proof. induction l as [|s l IH]; [done|]. by apply insert_ascending. Qed.

Lemma sort_same l : ascending l -> sort_strings l = l.
Proof.
  induction l as [|s l IH]; [done|]. intros H. change (insert_string s (sort_strings l) = s :: l). destruct l as [|t l]; [done|].
  destruct H as [Hs H]. rewrite (IH H). cbn [insert_string]. by rewrite Hs.
Qed.

Lemma total_perm {A} (f : A -> nat) (l l' : list A) : l ≡ₚ l' -> total f l = total f l'.
Proof. induction 1; simpl; lia. Qed.

Lemma total_le {A} (f : A -> nat) n (l : list A) : (forall x, x ∈ l -> n <= f x) -> n * length l <= total f l.
Proof.
  induction l as [|x l IH]; intros H; simpl; [lia|]. specialize (IH ltac:(set_solver)). pose proof (H x ltac:(set_solver)). lia.
Qed.

Lemma length_append s t : String.length (s +:+ t) = String.length s + String.length t.
Proof. induction s as [|c s IH]; [done|]. exact (f_equal S IH). Qed.

Lemma length_join sep l : String.length sep = 1 -> total String.length l + length l <= String.length (join sep l) + 1.
Proof.
  intros Hs. induction l as [|s [|t l] IH]; [simpl; lia|simpl; lia|].
  change (join sep (s :: t :: l)) with (s +:+ sep +:+ join sep (t :: l)). rewrite !length_append, Hs.
  change (total String.length (s :: t :: l)) with (String.length s + total String.length (t :: l)).
  change (length (s :: t :: l)) with (S (length (t :: l))). lia.
Qed.

Lemma length_quote s : String.length s + 2 <= String.length (quote s).
Proof.
  unfold quote. cbn [String.length]. rewrite length_append. cbn [String.length].
  assert (String.length s <= String.length (escapes s)); [|lia].
  induction s as [|c s IH]; [done|]. cbn [escapes String.length]. rewrite length_append.
  assert (1 <= String.length (escape c)); [|lia].
  unfold escape. destruct (escape_letter c); [simpl; lia|]. destruct (Nat.ltb (code c) 32); simpl; lia.
Qed.

(** The text of an object is at least as long as those of its fields, with
    their quotes, colons and commas. *)
Lemma length_object fs :
  1 + total (fun kv => String.length kv.1 + 4 + String.length (canonicalJson kv.2)) fs <= String.length (canonicalJson (JObj fs)).
Proof.
  cbn [canonicalJson]. rewrite sort_fields_map, map_map. cbn [fst snd].
  change ("{" +:+ ?s +:+ "}") with (String "{" (s +:+ "}")). cbn [String.length]. rewrite length_append. cbn [String.length].
  rewrite <- (total_perm _ _ _ (sort_fields_perm fs)). pose proof (length_join "," (map (fun kv =>
    quote kv.1 +:+ ":" +:+ canonicalJson kv.2) (sort_fields fs)) eq_refl) as Hj.
  rewrite length_map in Hj. assert (forall l : list (string * jsval),
    total (fun kv => String.length kv.1 + 4 + String.length (canonicalJson kv.2)) l <=
    total String.length (map (fun kv => quote kv.1 +:+ ":" +:+ canonicalJson kv.2) l) + length l) as Ht.
  { induction l as [|[k v] l IH]; [simpl; lia|]. cbn [total map length]. rewrite !length_append. cbn [fst snd String.length].
    pose proof (length_quote k). lia. }
  specialize (Ht (sort_fields fs)). lia.
Qed.
