(* ===== verification/Objects.v ===== *)
(** * Plain objects

    Spreading, deleting and copying the properties of plain objects, as the
    modules that keep records in JSON do, and their laws. *)

From stdpp Require Import base tactics sets list strings pretty.
From S2P Require Import Prelude JsValue Json.
Local Open Scope string_scope.

(** [{ ...base, ...value }] *)
Definition spread (base : list (string * jsval)) (v : jsval) : list (string * jsval) :=
  fold_left (fun fs kv => set_field kv.1 kv.2 fs) (match v with JObj fs => fs | _ => [] end) base.

(** [delete object[k]] *)
Definition delete_field (k : string) (fs : list (string * jsval)) : list (string * jsval) :=
  filter (fun kv => String.eqb kv.1 k = false) fs.

(** [JSON.parse(JSON.stringify(value))] *)
Fixpoint json_clone (v : jsval) : jsval :=
  match v with
  | JArr l => JArr (map (fun x => if omitted x then JNull else json_clone x) l)
  | JObj fs => JObj (flat_map (fun kv => if omitted (snd kv) then [] else [(fst kv, json_clone (snd kv))]) fs)
  | JNum NNaN | JNum (NInf _) => JNull
  | _ => v
  end.

(** [{ ...value, [k]: x }] and [value[k] = x] on a plain object. *)
Definition assign (v : jsval) (k : string) (x : jsval) : jsval :=
  match v with JObj fs => JObj (set_field k x fs) | _ => v end.

(** The properties of a plain object. *)
Definition fields_of (v : jsval) : list (string * jsval) := match v with JObj fs => fs | _ => [] end.

(** [object[k]] of a plain object, whose prototype has the members
    [OBJECT_PROTOTYPE]: functions, for the names that are not reserved. *)
Definition member (v : jsval) (k : string) : jsval :=
  match v with
  | JObj fs => match assoc k fs with Some x => x | None => if includes OBJECT_PROTOTYPE k then JFun 0 else JUndefined end
  | _ => JUndefined
  end.

(** An array index: the decimal text of an integer below 2^32 - 1. *)
Definition array_index (k : string) : option N :=
  match read_digits 0 k with
  | Some n => if String.eqb (pretty n) k && (n <? 4294967295)%N then Some n else None
  | None => None
  end.

Fixpoint insert_index (n : N) (k : string) (l : list (N * string)) : list (N * string) :=
  match l with
  | [] => [(n, k)]
  | (m, k') :: l' => if (n <=? m)%N then (n, k) :: l else (m, k') :: insert_index n k l'
  end.

Fixpoint sort_indices (ks : list string) : list (N * string) :=
  match ks with
  | [] => []
  | k :: ks => match array_index k with Some n => insert_index n k (sort_indices ks) | None => sort_indices ks end
  end.

(** [Object.keys(value)]: the array indices in ascending order, then the other
    keys in the order of their insertion. *)
Definition ordered_keys (fs : list (string * jsval)) : list string :=
  let ks := map fst fs in map snd (sort_indices ks) ++ filter (fun k => array_index k = None) ks.

(** [Object.values(value)] *)
Definition ordered_values (fs : list (string * jsval)) : list jsval :=
  map (fun k => default JUndefined (assoc k fs)) (ordered_keys fs).

(** ** Lemmas *)

Lemma insert_index_perm n k l : insert_index n k l ≡ₚ (n, k) :: l.
Proof.
  induction l as [|[m k'] l IH]; [done|]. cbn [insert_index]. destruct (n <=? m)%N; [done|]. rewrite IH. constructor.
Qed.

(** The order of the keys is a permutation of them. *)
Lemma ordered_keys_perm fs : ordered_keys fs ≡ₚ map fst fs.
Proof.
  unfold ordered_keys. induction (map fst fs) as [|k ks IH]; [done|]. cbn [sort_indices].
  destruct (array_index k) as [n|] eqn:E.
  - rewrite filter_cons_False by (by rewrite E). rewrite insert_index_perm. cbn [map snd]. simpl. by constructor.
  - rewrite filter_cons_True by done. transitivity (k :: (map snd (sort_indices ks) ++ filter (fun k => array_index k = None) ks)); [symmetry; apply Permutation_middle|by constructor].
Qed.

Lemma elem_of_ordered_keys k fs : k ∈ ordered_keys fs <-> k ∈ map fst fs.
Proof. by rewrite ordered_keys_perm. Qed.

Lemma stringify_clone v : stringify (json_clone v) = stringify v.
Proof.
  induction v as [ | |b|[z|t| |n]|s|l IH|fs IH| | | ] using jsval_ind; try done.
  - cbn [json_clone stringify]. rewrite map_map. do 3 f_equal. induction IH as [|v l Hv _ IHl]; [done|]. cbn [map]. rewrite IHl. f_equal.
    destruct (omitted v) eqn:E; [done|]. rewrite Hv. by destruct v as [ | | |[]| | | | | | ].
  - cbn [json_clone stringify]. do 4 f_equal. induction IH as [|[k v] fs Hv _ IHl]; [done|]. cbn [flat_map fst snd] in *.
    destruct (omitted v) eqn:E; [done|]. cbn [app flat_map fst snd]. rewrite Hv, IHl. by destruct v as [ | | |[]| | | | | | ].
Qed.

Definition clone_fields (fs : list (string * jsval)) : list (string * jsval) :=
  flat_map (fun kv => if omitted (snd kv) then [] else [(fst kv, json_clone (snd kv))]) fs.

Lemma clone_object fs : json_clone (JObj fs) = JObj (clone_fields fs).
Proof. done. Qed.

Lemma clone_keys fs k : k ∈ map fst (clone_fields fs) -> k ∈ map fst fs.
Proof.
  induction fs as [|[k' v] fs IH]; [done|]. unfold clone_fields. cbn [flat_map]. fold (clone_fields fs). rewrite map_app, elem_of_app.
  intros [H|H]; [|right; auto]. cbn [fst snd map] in *. destruct (omitted v); [by apply elem_of_nil in H|].
  apply list_elem_of_singleton in H as ->. left.
Qed.

Lemma assoc_app k fs gs : assoc k (fs ++ gs) = match assoc k fs with Some v => Some v | None => assoc k gs end.
Proof. induction fs as [|[k' v] fs IH]; [done|]. cbn [assoc app]. by destruct (String.eqb k k'). Qed.

Lemma assoc_clone k fs s : assoc k fs = Some (JStr s) -> assoc k (clone_fields fs) = Some (JStr s).
Proof.
  induction fs as [|[k' v] fs IH]; [done|]. cbn [assoc]. unfold clone_fields. cbn [flat_map fst snd]. fold (clone_fields fs).
  destruct (String.eqb k k') eqn:E.
  - intros [= ->]. cbn [omitted app assoc json_clone]. by rewrite E.
  - intros H. destruct (omitted v); [by apply IH|]. cbn [app assoc]. rewrite E. by apply IH.
Qed.

Lemma set_field_new k v fs : k ∉ map fst fs -> set_field k v fs = (fs ++ [(k, v)])%list.
Proof.
  induction fs as [|[k' v'] fs IH]; [done|]. cbn [map set_field fst]. intros H. destruct (String.eqb_spec k k') as [->|].
  - destruct H. left.
  - cbn [app]. f_equal. apply IH. intros Hin. apply H. by right.
Qed.

Lemma set_field_get k v fs k' : assoc k' (set_field k v fs) = if String.eqb k' k then Some v else assoc k' fs.
Proof.
  induction fs as [|[k2 v2] fs IH]; cbn [set_field assoc].
  - done.
  - destruct (String.eqb_spec k k2) as [->|Hk]; cbn [assoc].
    + by destruct (String.eqb k' k2).
    + destruct (String.eqb_spec k' k2) as [->|]; [|exact IH]. by rewrite (proj2 (String.eqb_neq k2 k)) by congruence.
Qed.

Lemma get_assign v k x k' : is_plain v = true -> get (assign v k x) k' = if String.eqb k' k then x else get v k'.
Proof. intros (fs & ->)%is_plain_true. cbn [assign get]. rewrite set_field_get. by destruct (String.eqb k' k). Qed.

Lemma set_field_keys k v fs k' : k' ∈ map fst (set_field k v fs) <-> k' = k \/ k' ∈ map fst fs.
Proof.
  assert (forall gs, k' ∈ map fst gs <-> assoc k' gs <> None) as Ha.
  { intros gs. rewrite assoc_None. destruct (decide (k' ∈ map fst gs)); naive_solver. }
  rewrite !Ha, set_field_get. destruct (String.eqb_spec k' k) as [->|]; naive_solver.
Qed.

Lemma spread_get base fs k :
  NoDup (map fst fs) -> assoc k (spread base (JObj fs)) = match assoc k fs with Some v => Some v | None => assoc k base end.
Proof.
  unfold spread. revert base. induction fs as [|[k' v] fs IH]; intros base Hd; [done|]. cbn [map fst] in Hd.
  apply NoDup_cons in Hd as [Hn Hd]. cbn [fold_left fst snd assoc]. rewrite IH, set_field_get by done.
  destruct (String.eqb_spec k k') as [->|]; [|done]. by rewrite (proj2 (assoc_None k' fs)).
Qed.

Lemma spread_keys base fs k : k ∈ map fst (spread base (JObj fs)) <-> k ∈ map fst base \/ k ∈ map fst fs.
Proof.
  unfold spread. revert base. induction fs as [|[k' v] fs IH]; intros base; [set_solver|].
  cbn [fold_left fst snd map]. rewrite IH, set_field_keys. set_solver.
Qed.

Lemma delete_absent k fs : k ∉ map fst fs -> delete_field k fs = fs.
Proof.
  induction fs as [|[k' v] fs IH]; [done|]. cbn [map fst]. intros H. unfold delete_field. rewrite filter_cons_True.
  - f_equal. apply IH. intros Hin. apply H. by right.
  - cbn. apply String.eqb_neq. intros ->. apply H. left.
Qed.

Lemma delete_last k v fs : k ∉ map fst fs -> delete_field k (fs ++ [(k, v)]) = fs.
Proof.
  intros H. unfold delete_field. rewrite filter_app. fold (delete_field k fs). rewrite delete_absent by done.
  rewrite filter_cons_False by (cbn; by rewrite String.eqb_refl). rewrite filter_nil. apply app_nil_r.
Qed.

Lemma delete_get k k' fs : k' <> k -> assoc k' (delete_field k fs) = assoc k' fs.
Proof.
  intros Hk. induction fs as [|[k2 v] fs IH]; [done|]. unfold delete_field. destruct (String.eqb_spec k2 k) as [->|Hne].
  - rewrite filter_cons_False by (cbn; by rewrite String.eqb_refl). cbn [assoc].
    by rewrite (proj2 (String.eqb_neq k' k) Hk).
  - rewrite filter_cons_True by (cbn; by apply String.eqb_neq). cbn [assoc]. by destruct (String.eqb k' k2).
Qed.

Lemma json_delete k fs : json_value (JObj fs) = true -> json_value (JObj (delete_field k fs)) = true.
Proof.
  cbn [json_value]. rewrite !andb_true_iff, !all_distinct_true, !forallb_elem_of. intros [Hd Hj]. split.
  - clear Hj. induction fs as [|[k' v] fs IH]; [done|]. cbn [map fst] in Hd. apply NoDup_cons in Hd as [Hn Hd]. specialize (IH Hd).
    unfold delete_field. destruct (decide (String.eqb k' k = false)) as [E|E].
    + rewrite filter_cons_True by done. cbn [map fst]. apply NoDup_cons. split; [|done]. intros Hin. apply Hn.
      apply list_elem_of_fmap in Hin as (kv & -> & [_ Hkv]%list_elem_of_filter). apply list_elem_of_fmap. by exists kv.
    + by rewrite filter_cons_False.
  - intros kv Hkv%list_elem_of_filter. apply Hj, Hkv.
Qed.

Lemma clone_json v : json_value v = true -> json_clone v = v.
Proof.
  induction v as [ | |b|[z|t| |n]|s|l IH|fs IH| | | ] using jsval_ind; try done.
  - cbn [json_value json_clone]. intros H. f_equal. rewrite forallb_elem_of in H. induction IH as [|v l Hv _ IHl]; [done|]. cbn [map]. f_equal.
    + specialize (H v ltac:(left)). rewrite Hv by done. by destruct v.
    + apply IHl. intros x Hx. apply H. by right.
  - cbn [json_value]. rewrite clone_object. intros [_ H]%andb_true_iff. f_equal. rewrite forallb_elem_of in H.
    induction IH as [|[k v] fs Hv _ IHl]; [done|]. unfold clone_fields. cbn [flat_map fst snd] in *. fold (clone_fields fs).
    pose proof (H (k, v) ltac:(left)) as Hj. cbn in Hj. rewrite Hv, IHl by (done || (intros x Hx; apply H; by right)). by destruct v.
Qed.
