(* ===== verification/StrictJson.v ===== *)
(** * The strict JSON parser (apps/cloud-api/src/strict-json.mjs)

    A recursive descent parser that refuses duplicate object keys.  The
    position of the class is the rest of the text; [JSON.parse] of one string
    literal is [unescape].  The parser is run with fuel: [parse_fuel] is
    enough for every text ([parse_terminates]).  Texts are sequences of code
    units below 256; an escape that denotes a larger one is [CodeUnit]. *)

From stdpp Require Import base tactics sets list strings pretty.
From Stdlib Require Import Ascii.
From S2P Require Import Prelude JsValue Regex Json.
Local Open Scope char_scope.
Local Open Scope string_scope.
Local Open Scope js_scope.

(** ** Definitions *)

Inductive json_exn := JsonSyntaxError | DuplicateJsonKeyError | CodeUnit | NoFuel.

#[export] Instance json_exn_eq_dec : EqDecision json_exn.
Proof. solve_decision. Defined.

Definition whitespace (c : ascii) : bool :=
  match code c with 32 | 9 | 10 | 13 => true | _ => false end.

Fixpoint skipWhitespace (s : string) : string :=
  match s with
  | String c r => if whitespace c then skipWhitespace r else s
  | EmptyString => s
  end.

(** The scan for the closing quote: the raw text of the literal and the rest. *)
Fixpoint scan_string (s : string) : result json_exn (string * string) :=
  match s with
  | EmptyString => Throw JsonSyntaxError
  | String c r =>
      if Ascii.eqb c backslash then
        match r with
        | EmptyString => Throw JsonSyntaxError
        | String d r =>
            '(raw, rest) ← scan_string r; Ok (String c (String d raw), rest)
        end
      else if Ascii.eqb c dquote then Ok ("", r)
      else if Nat.ltb (code c) 32 then Throw JsonSyntaxError
      else '(raw, rest) ← scan_string r; Ok (String c raw, rest)
  end.

Definition hex_value (c : ascii) : option nat :=
  if digit c then Some (code c - 48)
  else if between "a" "f" c then Some (code c - 87)
  else if between "A" "F" c then Some (code c - 55)
  else None.

Definition unescape_letter (c : ascii) : option ascii :=
  match code c with
  | 34 => Some dquote | 92 => Some backslash | 47 => Some "/"%char
  | 98 => Some (ascii_of_nat 8) | 102 => Some (ascii_of_nat 12) | 110 => Some (ascii_of_nat 10)
  | 114 => Some (ascii_of_nat 13) | 116 => Some (ascii_of_nat 9)
  | _ => None
  end.

(** [JSON.parse] of the literal with this raw text. *)
Fixpoint unescape (raw : string) : result json_exn string :=
  match raw with
  | EmptyString => Ok ""
  | String c r =>
      if Ascii.eqb c backslash then
        match r with
        | String "u" (String h3 (String h2 (String h1 (String h0 r)))) =>
            match hex_value h3, hex_value h2, hex_value h1, hex_value h0 with
            | Some a, Some b, Some c, Some d =>
                if Nat.eqb a 0 && Nat.eqb b 0 then
                  s ← unescape r; Ok (String (ascii_of_nat (16 * c + d)) s)
                else Throw CodeUnit
            | _, _, _, _ => Throw JsonSyntaxError
            end
        | String e r =>
            match unescape_letter e with
            | Some c => s ← unescape r; Ok (String c s)
            | None => Throw JsonSyntaxError
            end
        | EmptyString => Throw JsonSyntaxError
        end
      else if Nat.ltb (code c) 32 then Throw JsonSyntaxError
      else s ← unescape r; Ok (String c s)
  end.

(** After the opening quote. *)
Definition parseString (s : string) : result json_exn (string * string) :=
  '(raw, rest) ← scan_string s; v ← unescape raw; Ok (v, rest).

(** [\d*], greedily. *)
Fixpoint take_digits (s : string) : string * string :=
  match s with
  | String c r => if digit c then let '(ds, rest) := take_digits r in (String c ds, rest) else ("", s)
  | EmptyString => ("", "")
  end.

(** A zero, or digits that do not start with one. *)
Definition take_int (s : string) : option (string * string) :=
  match s with
  | String "0" r => Some ("0", r)
  | String c r => if digit c then let '(ds, rest) := take_digits r in Some (String c ds, rest) else None
  | EmptyString => None
  end.

(** [(?:\.\d+)?] *)
Definition take_frac (s : string) : string * string :=
  match s with
  | String "." r =>
      let '(ds, rest) := take_digits r in
      if String.eqb ds "" then ("", s) else (String "." ds, rest)
  | _ => ("", s)
  end.

Definition take_sign (s : string) : string * string :=
  match s with
  | String "+" r => ("+", r)
  | String "-" r => ("-", r)
  | _ => ("", s)
  end.

(** [(?:[eE][+-]?\d+)?] *)
Definition take_exp (s : string) : string * string :=
  match s with
  | String c r =>
      if Ascii.eqb c "e" || Ascii.eqb c "E" then
        let '(sign, r) := take_sign r in
        let '(ds, rest) := take_digits r in
        if String.eqb ds "" then ("", s) else (String c (sign +:+ ds), rest)
      else ("", s)
  | EmptyString => ("", s)
  end.

Definition take_minus (s : string) : string * string :=
  match s with String "-" r => ("-", r) | _ => ("", s) end.

(** The match of the numeric expression at the start of the text. *)
Definition take_number (s : string) : option (string * string) :=
  let '(minus, r) := take_minus s in
  match take_int r with
  | None => None
  | Some (int, r) =>
      let '(frac, r) := take_frac r in
      let '(exp, r) := take_exp r in
      Some (minus +:+ int +:+ frac +:+ exp, r)
  end.

(** [text.startsWith(p, position)], with the text after it. *)
Fixpoint strip_prefix (p s : string) : option string :=
  match p, s with
  | EmptyString, _ => Some s
  | String a p, String b s => if Ascii.eqb a b then strip_prefix p s else None
  | String _ _, EmptyString => None
  end.

Section Parser.
Context `{HN : NumberText}.

Definition parseNumber (s : string) : result json_exn (jsval * string) :=
  match take_number s with
  | None => Throw JsonSyntaxError
  | Some (text, rest) =>
      match number_of text with
      | Some n => Ok (JNum n, rest)
      | None => Throw JsonSyntaxError
      end
  end.

(** The keywords and numbers of [parseValue]. *)
Definition parseScalar (s : string) : result json_exn (jsval * string) :=
  match strip_prefix "true" s with
  | Some r => Ok (JBool true, r)
  | None =>
  match strip_prefix "false" s with
  | Some r => Ok (JBool false, r)
  | None =>
  match strip_prefix "null" s with
  | Some r => Ok (JNull, r)
  | None => parseNumber s
  end end end.

(** [parseMembers] is the loop of [parseObject], with the fields read so far;
    [parseElements] the loop of [parseArray]. *)
Fixpoint parseValue (fuel : nat) (s : string) {struct fuel} : result json_exn (jsval * string) :=
  match fuel with
  | 0 => Throw NoFuel
  | S fuel =>
      let s := skipWhitespace s in
      match s with
      | String c r =>
          if Ascii.eqb c "{" then
            match skipWhitespace r with
            | String "}" r => Ok (JObj [], r)
            | r => parseMembers fuel [] r
            end
          else if Ascii.eqb c "[" then
            match skipWhitespace r with
            | String "]" r => Ok (JArr [], r)
            | r => parseElements fuel [] r
            end
          else if Ascii.eqb c dquote then '(t, r) ← parseString r; Ok (JStr t, r)
          else parseScalar s
      | EmptyString => parseScalar s
      end
  end
with parseMembers (fuel : nat) (fields : list (string * jsval)) (s : string) {struct fuel}
    : result json_exn (jsval * string) :=
  match fuel with
  | 0 => Throw NoFuel
  | S fuel =>
      match skipWhitespace s with
      | String c r =>
          throw_if negb (Ascii.eqb c dquote) with JsonSyntaxError ;;
          '(key, r) ← parseString r;
          throw_if includes (map fst fields) key with DuplicateJsonKeyError ;;
          match skipWhitespace r with
          | String ":" r =>
              '(v, r) ← parseValue fuel r;
              let fields := (fields ++ [(key, v)])%list in
              match skipWhitespace r with
              | String "}" r => Ok (JObj fields, r)
              | String "," r => parseMembers fuel fields r
              | _ => Throw JsonSyntaxError
              end
          | _ => Throw JsonSyntaxError
          end
      | EmptyString => Throw JsonSyntaxError
      end
  end
with parseElements (fuel : nat) (items : list jsval) (s : string) {struct fuel}
    : result json_exn (jsval * string) :=
  match fuel with
  | 0 => Throw NoFuel
  | S fuel =>
      '(v, r) ← parseValue fuel s;
      let items := (items ++ [v])%list in
      match skipWhitespace r with
      | String "]" r => Ok (JArr items, r)
      | String "," r => parseElements fuel items r
      | _ => Throw JsonSyntaxError
      end
  end.

Definition parse_fuel (s : string) : nat := 2 * String.length s + 1.

Definition parseJsonNoDuplicateKeys (text : jsval) : result json_exn jsval :=
  match text with
  | JStr text =>
      throw_if String.eqb text "" with JsonSyntaxError ;;
      '(v, rest) ← parseValue (parse_fuel text) text;
      throw_if negb (String.eqb (skipWhitespace rest) "") with JsonSyntaxError ;;
      Ok v
  | _ => Throw JsonSyntaxError
  end.

(** ** Lemmas: progress and fuel *)

Lemma skipWhitespace_length s : String.length (skipWhitespace s) <= String.length s.
Proof. induction s as [|c s IH]; simpl; [lia|]. destruct (whitespace c); simpl; lia. Qed.

Lemma scan_string_length s raw rest :
  scan_string s = Ok (raw, rest) -> String.length rest < String.length s.
Proof.
  remember (String.length s) as n eqn:En. revert s raw rest En.
  induction (lt_wf n) as [n _ IH]. intros [|c s] raw rest En H; [done|]. simpl in *.
  destruct (Ascii.eqb c backslash).
  - destruct s as [|d s]; [done|]. apply bind_ok in H as ([raw' rest'] & Hs & [= <- <-]).
    simpl in *. specialize (IH (String.length s) ltac:(lia) _ _ _ eq_refl Hs). lia.
  - destruct (Ascii.eqb c dquote); [injection H as <- <-; lia|].
    destruct (Nat.ltb (code c) 32); [done|]. apply bind_ok in H as ([raw' rest'] & Hs & [= <- <-]).
    specialize (IH (String.length s) ltac:(lia) _ _ _ eq_refl Hs). lia.
Qed.

Lemma parseString_length s v rest : parseString s = Ok (v, rest) -> String.length rest < String.length s.
Proof.
  unfold parseString. intros ([raw r] & Hs & (v' & _ & [= <- <-])%bind_ok)%bind_ok.
  by eapply scan_string_length.
Qed.

Lemma take_digits_length s ds rest : take_digits s = (ds, rest) -> String.length rest <= String.length s.
Proof.
  revert ds rest. induction s as [|c s IH]; intros ds rest; simpl; [intros [= <- <-]; simpl; lia|].
  destruct (digit c); [|intros [= <- <-]; simpl; lia].
  destruct (take_digits s) as [ds' r] eqn:E. intros [= <- <-]. specialize (IH _ _ eq_refl). lia.
Qed.

Lemma take_int_length s ds rest : take_int s = Some (ds, rest) -> String.length rest < String.length s.
Proof.
  destruct s as [|c s]; [done|]. intros H. simpl String.length. apply le_n_S.
  destruct (Ascii.eqb_spec c "0") as [->|Hc]; [by injection H as _ <-|].
  assert (take_int (String c s) =
    if digit c then let '(ds, rest) := take_digits s in Some (String c ds, rest) else None) as E.
  { destruct c as [[] [] [] [] [] [] [] []]; try reflexivity. by destruct Hc. }
  rewrite E in H. destruct (digit c); [|done].
  destruct (take_digits s) as [ds' r] eqn:Ed. injection H as _ <-. by eapply take_digits_length.
Qed.

Lemma take_frac_length s ds rest : take_frac s = (ds, rest) -> String.length rest <= String.length s.
Proof.
  unfold take_frac. intros H. repeat case_match; simplify_eq; try lia.
  match goal with H : take_digits _ = _ |- _ => apply take_digits_length in H end. simpl in *. lia.
Qed.

Lemma take_sign_length s ds rest : take_sign s = (ds, rest) -> String.length rest <= String.length s.
Proof. unfold take_sign. intros H. repeat case_match; simplify_eq; simpl; lia. Qed.

Lemma take_exp_length s ds rest : take_exp s = (ds, rest) -> String.length rest <= String.length s.
Proof.
  unfold take_exp. intros H. destruct s as [|c s]; [simplify_eq; lia|].
  destruct (_ || _); [|simplify_eq; lia].
  destruct (take_sign s) as [sg r1] eqn:E1, (take_digits r1) as [ds' r2] eqn:E2.
  apply take_sign_length in E1. apply take_digits_length in E2.
  destruct (String.eqb ds' ""); simplify_eq; simpl; lia.
Qed.

Lemma take_number_length s t rest : take_number s = Some (t, rest) -> String.length rest < String.length s.
Proof.
  unfold take_number. destruct (take_minus s) as [m r0] eqn:E0.
  assert (String.length r0 <= String.length s).
  { unfold take_minus in E0. repeat case_match; simplify_eq; simpl; lia. }
  destruct (take_int r0) as [[int r1]|] eqn:E1; [|done].
  destruct (take_frac r1) as [fr r2] eqn:E2, (take_exp r2) as [ex r3] eqn:E3. intros [= _ <-].
  apply take_int_length in E1. apply take_frac_length in E2. apply take_exp_length in E3. lia.
Qed.

Lemma strip_prefix_length p s r : strip_prefix p s = Some r -> String.length s = String.length p + String.length r.
Proof.
  revert s. induction p as [|a p IH]; intros s H; [by injection H as ->|].
  destruct s as [|b s]; [done|]. simpl in *. destruct (Ascii.eqb a b); [|done]. apply IH in H. lia.
Qed.

Lemma parseScalar_length s v r : parseScalar s = Ok (v, r) -> String.length r < String.length s.
Proof.
  unfold parseScalar, parseNumber. intros H. repeat case_match; simplify_eq;
    repeat match goal with
    | H : strip_prefix _ _ = Some _ |- _ => apply strip_prefix_length in H; simpl in H
    | H : take_number _ = Some _ |- _ => apply take_number_length in H
    end; lia.
Qed.

Lemma parseScalar_fuel s : parseScalar s <> Throw NoFuel.
Proof. unfold parseScalar, parseNumber. repeat case_match; done. Qed.

(** What the three functions promise on any result: the rest is shorter. *)
Lemma parse_shortens n :
  (forall s v r, parseValue n s = Ok (v, r) -> String.length r < String.length s) /\
  (forall fs s v r, parseMembers n fs s = Ok (v, r) -> String.length r < String.length s) /\
  (forall l s v r, parseElements n l s = Ok (v, r) -> String.length r < String.length s).
Proof.
  induction n as [|n (IHv & IHm & IHe)]; [done|]. split_and!.
  - intros s v r H. simpl in H. pose proof (skipWhitespace_length s) as Hw.
    destruct (skipWhitespace s) as [|c r0]; [apply parseScalar_length in H; lia|]. simpl in Hw.
    pose proof (skipWhitespace_length r0).
    repeat case_match; simplify_eq; simpl in *;
      try match goal with
      | H : parseMembers _ _ _ = _ |- _ => apply IHm in H; simpl in *; lia
      | H : parseElements _ _ _ = _ |- _ => apply IHe in H; simpl in *; lia
      | H : parseScalar _ = _ |- _ => apply parseScalar_length in H; simpl in *; lia
      end; try lia.
    apply bind_ok in H as ([t r'] & Hs%parseString_length & [= <- <-]). lia.
  - intros fs s v r H. simpl in H. pose proof (skipWhitespace_length s).
    destruct (skipWhitespace s) as [|c r0]; [done|]. simpl in *.
    destruct (Ascii.eqb c dquote); [|done]. simpl in H.
    apply bind_ok in H as ([k r1] & Hk%parseString_length & H).
    destruct (includes _ _); [done|]. pose proof (skipWhitespace_length r1).
    destruct (skipWhitespace r1) as [|c1 r2]; [done|].
    repeat case_match; simplify_eq.
    apply bind_ok in H as ([v2 r3] & Hv%IHv & H). pose proof (skipWhitespace_length r3). simpl in *.
    repeat case_match; simplify_eq; simpl in *; first [apply IHm in H; lia | lia].
  - intros l s v r H. simpl in H. apply bind_ok in H as ([v2 r3] & Hv%IHv & H).
    pose proof (skipWhitespace_length r3). repeat case_match; simplify_eq; simpl in *; first [apply IHe in H; lia | lia].
Qed.

Lemma bind_fuel {A B} (m : result json_exn A) (f : A -> result json_exn B) :
  m <> Throw NoFuel -> (forall a, m = Ok a -> f a <> Throw NoFuel) -> m ≫= f <> Throw NoFuel.
Proof. destruct m; simpl; naive_solver. Qed.

(** Induction on the length of a text. *)
Lemma string_length_ind (P : string -> Prop) :
  (forall s, (forall t, String.length t < String.length s -> P t) -> P s) -> forall s, P s.
Proof.
  intros H s. remember (String.length s) as n eqn:En. revert s En.
  induction (lt_wf n) as [n _ IH]. intros s ->. apply H. intros t Ht. by eapply IH.
Qed.

Lemma scan_string_fuel s : scan_string s <> Throw NoFuel.
Proof.
  induction s as [s IH] using string_length_ind. destruct s as [|c s]; [done|]. simpl in *.
  repeat case_match; try done; apply bind_fuel; try (intros [? ?]; done); apply IH; simpl; lia.
Qed.

Lemma unescape_fuel s : unescape s <> Throw NoFuel.
Proof.
  induction s as [s IH] using string_length_ind. destruct s as [|c s]; [done|]. simpl in *.
  repeat case_match; try done; (apply bind_fuel; [apply IH; simpl; lia|done]).
Qed.

Lemma parseString_fuel s : parseString s <> Throw NoFuel.
Proof.
  unfold parseString. apply bind_fuel; [apply scan_string_fuel|]. intros [raw r] _.
  apply bind_fuel; [apply unescape_fuel|done].
Qed.

Lemma parse_enough n :
  (forall s, 2 * String.length s + 1 <= n -> parseValue n s <> Throw NoFuel) /\
  (forall fs s, 2 * String.length s + 2 <= n -> parseMembers n fs s <> Throw NoFuel) /\
  (forall l s, 2 * String.length s + 2 <= n -> parseElements n l s <> Throw NoFuel).
Proof.
  induction n as [|n (IHv & IHm & IHe)]; [split_and!; lia|]. split_and!.
  - intros s Hn. simpl. pose proof (skipWhitespace_length s) as Hw.
    destruct (skipWhitespace s) as [|c r0]; [apply parseScalar_fuel|]. simpl in Hw.
    pose proof (skipWhitespace_length r0).
    destruct (Ascii.eqb c "{"); [repeat case_match; try done; apply IHm; simpl in *; lia|].
    destruct (Ascii.eqb c "["); [repeat case_match; try done; apply IHe; simpl in *; lia|].
    destruct (Ascii.eqb c dquote); [|apply parseScalar_fuel].
    apply bind_fuel; [apply parseString_fuel|]. by intros [? ?].
  - intros fs s Hn. simpl. pose proof (skipWhitespace_length s).
    destruct (skipWhitespace s) as [|c r0]; [done|]. simpl in *.
    destruct (negb _); [done|].
    apply bind_fuel; [apply parseString_fuel|]. intros [k r1] Hk%parseString_length.
    destruct (includes _ _); [done|]. pose proof (skipWhitespace_length r1).
    destruct (skipWhitespace r1) as [|c1 r2]; [done|]. simpl in *.
    repeat case_match; try done. apply bind_fuel; [apply IHv; lia|]. intros [v r3] Hv.
    apply (parse_shortens n) in Hv. pose proof (skipWhitespace_length r3).
    repeat case_match; try done; apply IHm; simpl in *; lia.
  - intros l s Hn. simpl. apply bind_fuel; [apply IHv; lia|]. intros [v r3] Hv.
    apply (parse_shortens n) in Hv. pose proof (skipWhitespace_length r3).
    repeat case_match; try done; apply IHe; simpl in *; lia.
Qed.

(** ** Lemmas: accepted values have unique keys *)

Fixpoint no_duplicates (v : jsval) : bool :=
  match v with
  | JArr l => forallb no_duplicates l
  | JObj fs => all_distinct (map fst fs) && forallb (fun kv => no_duplicates (snd kv)) fs
  | _ => true
  end.

Lemma no_duplicates_obj fs :
  no_duplicates (JObj fs) = true <->
  NoDup (map fst fs) /\ Forall (fun kv => no_duplicates kv.2 = true) fs.
Proof. simpl. by rewrite andb_true_iff, all_distinct_true, forallb_elem_of, Forall_forall. Qed.

Lemma no_duplicates_arr l :
  no_duplicates (JArr l) = true <-> Forall (fun v => no_duplicates v = true) l.
Proof. simpl. by rewrite forallb_elem_of, Forall_forall. Qed.

Lemma no_duplicates_snoc fs k v :
  no_duplicates (JObj fs) = true -> k ∉ map fst fs -> no_duplicates v = true ->
  no_duplicates (JObj (fs ++ [(k, v)])) = true.
Proof.
  rewrite !no_duplicates_obj. intros [Hd Hf] Hk Hv. split.
  - rewrite map_app. apply NoDup_app. split_and!; [done| |by repeat constructor; set_solver].
    simpl. set_solver.
  - apply Forall_app. by repeat constructor.
Qed.

Lemma parse_unique n :
  (forall s v r, parseValue n s = Ok (v, r) -> no_duplicates v = true) /\
  (forall fs s v r, parseMembers n fs s = Ok (v, r) -> no_duplicates (JObj fs) = true -> no_duplicates v = true) /\
  (forall l s v r, parseElements n l s = Ok (v, r) -> no_duplicates (JArr l) = true -> no_duplicates v = true).
Proof.
  induction n as [|n (IHv & IHm & IHe)]; [done|].
  assert (forall s v r, parseScalar s = Ok (v, r) -> no_duplicates v = true) as Hs.
  { unfold parseScalar, parseNumber. intros s v r H. repeat case_match; by simplify_eq. }
  split_and!.
  - intros s v r H. simpl in H. destruct (skipWhitespace s) as [|c r0]; [by eapply Hs|].
    destruct (Ascii.eqb c "{"); [repeat case_match; simplify_eq; first [done|by eapply IHm]|].
    destruct (Ascii.eqb c "["); [repeat case_match; simplify_eq; first [done|by eapply IHe]|].
    destruct (Ascii.eqb c dquote); [|by eapply Hs].
    by apply bind_ok in H as ([t r'] & _ & [= <- <-]).
  - intros fs s v r H Hfs. simpl in H. destruct (skipWhitespace s) as [|c r0]; [done|]. simpl in *.
    destruct (negb _); [done|]. apply bind_ok in H as ([k r1] & _ & H).
    destruct (includes _ _) eqn:Ek; [done|]. apply includes_false in Ek.
    destruct (skipWhitespace r1) as [|c1 r2]; [done|]. repeat case_match; simplify_eq.
    apply bind_ok in H as ([v2 r3] & Hv%IHv & H).
    assert (no_duplicates (JObj (fs ++ [(k, v2)])) = true) by (by apply no_duplicates_snoc).
    repeat case_match; simplify_eq; first [done|by eapply IHm].
  - intros l s v r H Hl. simpl in H. apply bind_ok in H as ([v2 r3] & Hv%IHv & H).
    assert (no_duplicates (JArr (l ++ [v2])) = true).
    { apply no_duplicates_arr, Forall_app. apply no_duplicates_arr in Hl. by repeat constructor. }
    repeat case_match; simplify_eq; first [done|by eapply IHe].
Qed.

(** ** Lemmas: the parser reads what [canonicalJson] prints *)

Lemma scan_escape c t :
  scan_string (escape c +:+ t) = '(raw, rest) ← scan_string t; Ok (escape c +:+ raw, rest).
Proof.
  destruct c as [[] [] [] [] [] [] [] []]; try reflexivity;
    simpl; change ("" +:+ t) with t; destruct (scan_string t) as [[raw rest]|e]; reflexivity.
Qed.

Lemma unescape_escape c t : unescape (escape c +:+ t) = s ← unescape t; Ok (String c s).
Proof. destruct c as [[] [] [] [] [] [] [] []]; reflexivity. Qed.

Lemma parseString_quote s rest : parseString (escapes s +:+ String dquote rest) = Ok (s, rest).
Proof.
  unfold parseString.
  assert (scan_string (escapes s +:+ String dquote rest) = Ok (escapes s, rest)) as ->.
  { induction s as [|c s IH]; [done|]. cbn [escapes]. by rewrite string_app_assoc, scan_escape, IH. }
  simpl. assert (unescape (escapes s) = Ok s) as ->; [|done].
  induction s as [|c s IH]; [done|]. cbn [escapes]. by rewrite unescape_escape, IH.
Qed.

(** The rest of a text after a complete value. *)
Definition delimited (rest : string) : Prop :=
  rest = "" \/ exists c r, rest = String c r /\ c ∈ [","%char; "]"%char; "}"%char].

Lemma delimited_comma r : delimited (String "," r).
Proof. right. exists ","%char, r. split; [done|set_solver]. Qed.
Lemma delimited_bracket r : delimited (String "]" r).
Proof. right. exists "]"%char, r. split; [done|set_solver]. Qed.
Lemma delimited_brace r : delimited (String "}" r).
Proof. right. exists "}"%char, r. split; [done|set_solver]. Qed.

Lemma take_digits_delimited ds rest :
  Forall (fun c => digit c = true) (chars ds) -> delimited rest -> take_digits (ds +:+ rest) = (ds, rest).
Proof.
  intros Hds Hr. induction ds as [|c ds IH]; simpl.
  - destruct Hr as [->|(c & r & -> & Hc)]; [done|]. set_unfold in Hc.
    by destruct Hc as [->|[->|[->|[]]]].
  - apply Forall_cons in Hds as [Hc Hds]. change (String.append ds rest) with (ds +:+ rest).
    by rewrite Hc, IH.
Qed.

Lemma take_frac_exp_delimited rest :
  delimited rest -> take_frac rest = ("", rest) /\ take_exp rest = ("", rest).
Proof.
  intros [->|(c & r & -> & Hc)]; [done|]. set_unfold in Hc. by destruct Hc as [->|[->|[->|[]]]].
Qed.

Lemma take_int_numeral s rest : numeral s -> delimited rest -> take_int (s +:+ rest) = Some (s, rest).
Proof.
  intros [->|(c & r & -> & Hc & Hne & Hr)] Hd; [done|].
  assert (take_int (String c r +:+ rest) =
    if digit c then let '(ds, rest) := take_digits (r +:+ rest) in Some (String c ds, rest) else None) as ->.
  { destruct c as [[] [] [] [] [] [] [] []]; try reflexivity. by destruct Hne. }
  by rewrite Hc, take_digits_delimited.
Qed.

Lemma numeral_head s : numeral s -> exists c r, s = String c r /\ digit c = true.
Proof. intros [->|(c & r & -> & Hc & _)]; eauto. Qed.

Lemma pretty_head (z : Z) : exists c r, pretty z = String c r /\ (digit c = true \/ c = "-"%char).
Proof.
  destruct (pretty_Z_cases z) as [(n & _ & ->)|(n & _ & _ & ->)]; [|eauto].
  destruct (numeral_head (pretty n)) as (c & r & -> & Hc); [apply pretty_N_numeral|eauto].
Qed.

Lemma take_number_pretty (z : Z) rest : delimited rest -> take_number (pretty z +:+ rest) = Some (pretty z, rest).
Proof.
  intros Hd. unfold take_number.
  assert (exists m n, take_minus (pretty z +:+ rest) = (m, n +:+ rest) /\ numeral n /\ m +:+ n = pretty z)
    as (m & n & -> & Hn & Hmn).
  { destruct (pretty_Z_cases z) as [(n & _ & ->)|(n & _ & _ & ->)].
    - exists "", (pretty n). split_and!; [|apply pretty_N_numeral|done].
      destruct (numeral_head (pretty n)) as (c & r & -> & Hc); [apply pretty_N_numeral|].
      by destruct c as [[] [] [] [] [] [] [] []].
    - exists "-", (pretty n). split_and!; [done|apply pretty_N_numeral|done]. }
  rewrite take_int_numeral by done. destruct (take_frac_exp_delimited rest Hd) as [-> ->].
  by rewrite string_app_nil, Hmn.
Qed.

Lemma parseScalar_pretty z rest :
  (Z.abs z <= MAX_SAFE_INTEGER)%Z -> delimited rest ->
  parseScalar (pretty z +:+ rest) = Ok (JNum (NInt z), rest).
Proof.
  intros Hz Hd. unfold parseScalar.
  assert (forall p, p ∈ ["true"; "false"; "null"] -> strip_prefix p (pretty z +:+ rest) = None) as Hp.
  { destruct (pretty_head z) as (c & r & -> & Hc). intros p Hp. set_unfold in Hp.
    destruct Hp as [->|[->|[->|[]]]];
      (destruct Hc as [Hc| ->]; [|reflexivity]); by destruct c as [[] [] [] [] [] [] [] []]. }
  rewrite !Hp by set_solver. unfold parseNumber.
  by rewrite take_number_pretty, number_of_integer by done.
Qed.

Lemma skipWhitespace_skip c r : whitespace c = false -> skipWhitespace (String c r) = String c r.
Proof. intros H. simpl. by rewrite H. Qed.

Lemma skipWhitespace_delimited rest : delimited rest -> skipWhitespace rest = rest.
Proof. intros [->|(c & r & -> & Hc)]; [done|]. set_unfold in Hc. by destruct Hc as [->|[->|[->|[]]]]. Qed.

(** The first character of a printed value. *)
Definition value_start (c : ascii) : bool := negb (whitespace c) && negb (Ascii.eqb c "]").

(** [t] is a text that starts a value. *)
Definition starts (t : string) : Prop := exists c r, t = String c r /\ value_start c = true.

Lemma scalar_starts v :
  json_value v = true -> match v with JArr _ | JObj _ => False | _ => True end -> starts (stringify_scalar v).
Proof.
  unfold starts. destruct v as [ | |[]|[z|?| |?]|s|l|fs| | | ]; simpl; intros H Hs; try done;
    try (eexists _, _; split; reflexivity).
  destruct (pretty_head z) as (c & r & -> & Hc). eexists _, _; split; [reflexivity|].
  destruct Hc as [Hc| ->]; [|reflexivity]. by destruct c as [[] [] [] [] [] [] [] []].
Qed.

Lemma canonical_head v : json_value v = true -> starts (canonicalJson v).
Proof.
  intros H. destruct v; try (by apply scalar_starts); try done; eexists _, _; (split; [reflexivity|done]).
Qed.

Lemma stringify_head v : json_value v = true -> starts (stringify v).
Proof.
  intros H. destruct v; try (by apply scalar_starts); try done; eexists _, _; (split; [reflexivity|done]).
Qed.

(** The parser reads [v] from the text [t]. *)
Definition reads (t : string) (v : jsval) : Prop :=
  forall n rest, delimited rest -> 2 * String.length t + 1 <= n -> parseValue n (t +:+ rest) = Ok (v, rest).

Lemma join_map {A} (f : A -> string) x y l :
  join "," (map f (x :: y :: l)) = f x +:+ String "," (join "," (map f (y :: l))).
Proof. done. Qed.

Lemma parse_elements_step n acc s :
  parseElements (S n) acc s =
    '(v, r) ← parseValue n s;
    match skipWhitespace r with
    | String "]" r => Ok (JArr (acc ++ [v]), r)
    | String "," r => parseElements n (acc ++ [v]) r
    | _ => Throw JsonSyntaxError
    end.
Proof. done. Qed.

Lemma parse_elements_spec ts vs : ts <> [] -> Forall2 reads ts vs -> forall n acc rest,
  2 * String.length (join "," ts) + 2 <= n ->
  parseElements n acc (join "," ts +:+ String "]" rest) = Ok (JArr (acc ++ vs), rest).
Proof.
  intros Hne H. induction H as [|t v ts vs Hv Hl IH]; [done|]. intros n acc rest Hn.
  destruct n as [|n]; [lia|]. rewrite parse_elements_step. destruct ts as [|t' ts].
  - inversion Hl; subst. cbn [join] in *. rewrite Hv; [done|apply delimited_bracket|lia].
  - change (join "," (t :: t' :: ts)) with (t +:+ String "," (join "," (t' :: ts))) in *.
    rewrite length_append in Hn. cbn [String.length] in Hn.
    rewrite string_app_assoc, Hv by first [apply delimited_comma | lia]. simpl mbind.
    change (skipWhitespace (String "," ?t)) with (String "," t). cbv iota.
    etransitivity; [apply (IH ltac:(done)); lia|]. by rewrite <- app_assoc.
Qed.

(** A member: its key, the text of its value, and the value. *)
#[local] Notation member := (string * (string * jsval))%type.
Definition member_text (m : member) : string := quote m.1 +:+ ":" +:+ m.2.1.
Definition field (m : member) : string * jsval := (m.1, m.2.2).

Lemma member_text_app k x t :
  member_text (k, x) +:+ t = String dquote (escapes k +:+ String dquote (String ":" (x.1 +:+ t))).
Proof.
  unfold member_text, quote. cbn [fst snd].
  change (String dquote ?a +:+ ":" +:+ ?b) with (String dquote (a +:+ String ":" b)).
  change (String dquote ?a +:+ ?b) with (String dquote (a +:+ b)).
  f_equal. rewrite !string_app_assoc. reflexivity.
Qed.

Lemma member_text_length k x : String.length x.1 + 4 <= String.length (member_text (k, x)) + 1.
Proof.
  rewrite <- (string_app_nil (member_text (k, x))), member_text_app. simpl.
  rewrite length_append. simpl. rewrite string_app_nil. lia.
Qed.

Lemma parse_member k x m acc t :
  reads x.1 x.2 -> includes (map fst acc) k = false -> delimited t -> 2 * String.length x.1 + 1 <= m ->
  parseMembers (S m) acc (member_text (k, x) +:+ t) =
  match skipWhitespace t with
  | String "}" r => Ok (JObj (acc ++ [(k, x.2)]), r)
  | String "," r => parseMembers m (acc ++ [(k, x.2)]) r
  | _ => Throw JsonSyntaxError
  end.
Proof.
  intros Hx Hk Ht Hm. rewrite member_text_app.
  cbn [parseMembers]. rewrite skipWhitespace_skip by done. change (negb (Ascii.eqb dquote dquote)) with false.
  cbv iota. rewrite parseString_quote. simpl. rewrite Hk.
  change (String.append ?a ?b) with (a +:+ b). rewrite Hx by done. simpl. done.
Qed.

Lemma parse_members_spec ms : ms <> [] -> Forall (fun m => reads m.2.1 m.2.2) ms -> forall n acc rest,
  NoDup (map fst acc ++ map fst ms) ->
  2 * String.length (join "," (map member_text ms)) + 2 <= n ->
  parseMembers n acc (join "," (map member_text ms) +:+ String "}" rest)
  = Ok (JObj (acc ++ map field ms), rest).
Proof.
  induction ms as [|[k x] ms IH]; [done|]. intros _ Hms n acc rest Hd Hn. apply Forall_cons in Hms as [Hx Hms].
  destruct n as [|n]; [lia|].
  assert (includes (map fst acc) k = false) as Hk.
  { apply includes_false. intros Hin. apply NoDup_app in Hd as (_ & Hd & _).
    apply (Hd k Hin). simpl. set_solver. }
  pose proof (member_text_length k x).
  destruct ms as [|m ms].
  - cbn [map join] in *. rewrite parse_member; [done|done|done|apply delimited_brace|lia].
  - rewrite join_map in *. rewrite length_append in Hn. cbn [String.length] in Hn.
    rewrite string_app_assoc, parse_member by first [done | apply delimited_comma | lia].
    change (skipWhitespace (String "," ?t)) with (String "," t). cbv iota.
    etransitivity; [apply (IH ltac:(done) Hms)|].
    + rewrite map_app, <- app_assoc. done.
    + lia.
    + by rewrite <- app_assoc.
Qed.

(** The steps of [parseValue] on a value that starts with [c]. *)
Lemma parse_value_object n c r :
  value_start c = true ->
  parseValue (S n) (String "{" (String c r)) =
    if Ascii.eqb c "}" then Ok (JObj [], r) else parseMembers n [] (String c r).
Proof.
  intros Hc. unfold value_start in Hc. apply andb_true_iff in Hc as [Hw%negb_true_iff _].
  simpl. rewrite Hw. by destruct c as [[] [] [] [] [] [] [] []].
Qed.

Lemma parse_value_array n c r :
  value_start c = true -> parseValue (S n) (String "[" (String c r)) = parseElements n [] (String c r).
Proof.
  intros Hc. unfold value_start in Hc. apply andb_true_iff in Hc as [Hw%negb_true_iff Hb].
  simpl. rewrite Hw. by destruct c as [[] [] [] [] [] [] [] []].
Qed.

Lemma parse_value_string n r :
  parseValue (S n) (String dquote r) = '(t, r) ← parseString r; Ok (JStr t, r).
Proof. done. Qed.

Lemma join_head c s l : exists r, join "," (String c s :: l) = String c r.
Proof. destruct l as [|t l]; [by exists s|]. by exists (s +:+ "," +:+ join "," (t :: l)). Qed.

Lemma reads_array ts vs : Forall starts ts -> Forall2 reads ts vs -> reads ("[" +:+ join "," ts +:+ "]") (JArr vs).
Proof.
  intros Hs Hl n rest Hd Hn. rewrite !length_append in Hn. cbn [String.length] in Hn.
  destruct n as [|n]; [lia|]. rewrite !string_app_assoc. change ("[" +:+ ?t) with (String "[" t).
  change ("]" +:+ rest) with (String "]" rest).
  destruct ts as [|t ts]; [inversion Hl; subst; done|]. destruct (Forall_inv Hs) as (c & r & -> & Hc).
  destruct (join_head c r ts) as [r' Er]. rewrite Er in *.
  change (String c r' +:+ ?t) with (String c (r' +:+ t)). rewrite parse_value_array by done.
  change (String c (r' +:+ ?t)) with (String c r' +:+ t). rewrite <- Er in *.
  apply (parse_elements_spec (String c r :: ts) vs ltac:(done) Hl n []). lia.
Qed.

(** An object is read before any text. *)
Lemma reads_members (ms : list member) n rest :
  NoDup (map fst ms) -> Forall (fun m => reads m.2.1 m.2.2) ms ->
  2 * String.length ("{" +:+ join "," (map member_text ms) +:+ "}") + 1 <= n ->
  parseValue n (("{" +:+ join "," (map member_text ms) +:+ "}") +:+ rest) = Ok (JObj (map field ms), rest).
Proof.
  intros Hd Hms Hn. rewrite !length_append in Hn. cbn [String.length] in Hn.
  destruct n as [|n]; [lia|]. rewrite !string_app_assoc. change ("{" +:+ ?t) with (String "{" t).
  change ("}" +:+ rest) with (String "}" rest). destruct ms as [|[k x] ms]; [done|].
  assert (exists r, join "," (map member_text ((k, x) :: ms)) = String dquote r) as [r Er].
  { cbn [map]. rewrite <- (string_app_nil (member_text (k, x))), member_text_app. apply join_head. }
  rewrite Er. change (String dquote r +:+ ?t) with (String dquote (r +:+ t)). rewrite parse_value_object by done.
  change (Ascii.eqb dquote "}") with false. cbv iota.
  change (String dquote (r +:+ ?t)) with (String dquote r +:+ t). rewrite <- Er.
  apply (parse_members_spec ((k, x) :: ms) ltac:(done) Hms n []); [done|]. lia.
Qed.

Lemma reads_object (ms : list member) :
  NoDup (map fst ms) -> Forall (fun m => reads m.2.1 m.2.2) ms ->
  reads ("{" +:+ join "," (map member_text ms) +:+ "}") (JObj (map field ms)).
Proof. intros Hd Hms n rest _ Hn. by apply reads_members. Qed.

Lemma reads_scalar v :
  json_value v = true -> match v with JArr _ | JObj _ => False | _ => True end -> reads (stringify_scalar v) v.
Proof.
  intros Hj Hs. destruct v as [ | |b|m|s|l|fs| | | ]; try done.
  - intros [|n] rest Hd Hn; [simpl in Hn; lia|done].
  - intros [|n] rest Hd Hn; [simpl in Hn; lia|by destruct b].
  - intros [|n] rest Hd Hn; [lia|]. cbn [json_value] in Hj.
    destruct (safe_integer (JNum m)) as [z|] eqn:E; [|done]. apply safe_integer_Some in E as [[= ->] Hz].
    pose proof (parseScalar_pretty z rest Hz Hd) as Hp. change (stringify_scalar (JNum (NInt z))) with (pretty z).
    destruct (pretty_head z) as (c & r & E & Hc). rewrite E in *.
    change (String c r +:+ rest) with (String c (r +:+ rest)) in *. simpl.
    assert (whitespace c = false /\ Ascii.eqb c "{" = false /\ Ascii.eqb c "[" = false /\ Ascii.eqb c dquote = false)
      as (Hw & H1 & H2 & H3).
    { destruct Hc as [Hc| ->]; [|done]. by destruct c as [[] [] [] [] [] [] [] []]. }
    by rewrite Hw, H1, H2, H3.
  - intros [|n] rest Hd Hn; [lia|]. cbn [stringify_scalar] in *. unfold quote.
    change (String dquote ?a +:+ rest) with (String dquote (a +:+ rest)). rewrite string_app_assoc.
    change (String dquote "" +:+ rest) with (String dquote rest). by rewrite parse_value_string, parseString_quote.
Qed.

(** The parts of a JSON value are JSON values. *)
Lemma json_array l : json_value (JArr l) = true -> Forall (fun v => json_value v = true) l.
Proof. cbn [json_value]. intros H. apply Forall_forall. by apply forallb_elem_of. Qed.

Lemma json_object fs :
  json_value (JObj fs) = true -> NoDup (map fst fs) /\ Forall (fun kv => json_value kv.2 = true) fs.
Proof.
  cbn [json_value]. rewrite andb_true_iff, all_distinct_true. intros [H1 H2]. split; [done|].
  apply Forall_forall. by apply forallb_elem_of.
Qed.

Lemma reads_canonical v : json_value v = true -> reads (canonicalJson v) (normal v).
Proof.
  induction v as [ | |b|m|s|l IH|fs IH| | | ] using jsval_ind; intros Hj; try (by apply reads_scalar); try done.
  - apply json_array in Hj. rewrite Forall_forall in IH, Hj. apply reads_array.
    + apply Forall_fmap, Forall_forall. intros v Hv. apply canonical_head. auto.
    + apply Forall2_fmap, Forall_Forall2_diag, Forall_forall. auto.
  - apply json_object in Hj as [Hd Hj]. rewrite Forall_forall in IH, Hj.
    pose proof (reads_object (map (fun kv => (kv.1, (canonicalJson kv.2, normal kv.2))) (sort_fields fs))) as Ho.
    cbn [canonicalJson normal]. rewrite !sort_fields_map, !map_map in *. apply Ho.
    + by rewrite sort_fields_perm.
    + apply Forall_fmap. rewrite sort_fields_perm. apply Forall_forall. intros kv Hkv. cbn. auto.
Qed.

Definition normal_field (kv : string * jsval) : string * jsval := (kv.1, normal kv.2).

Lemma normal_obj fs : normal (JObj fs) = JObj (map normal_field (sort_fields fs)).
Proof. cbn [normal]. by rewrite sort_fields_map. Qed.

(** The text that [JSON.stringify] gives a JSON value. *)
Lemma stringify_array l :
  Forall (fun v => json_value v = true) l -> stringify (JArr l) = "[" +:+ join "," (map stringify l) +:+ "]".
Proof. intros H. cbn [stringify]. do 3 f_equal. induction H as [|v l Hv _ IH]; [done|]. cbn [map]. rewrite IH. by destruct v. Qed.

Lemma stringify_object fs :
  Forall (fun kv => json_value kv.2 = true) fs ->
  stringify (JObj fs) = "{" +:+ join "," (map member_text (map (fun kv => (kv.1, (stringify kv.2, kv.2))) fs)) +:+ "}".
Proof.
  intros H. cbn [stringify]. rewrite map_map. do 3 f_equal. induction H as [|[k v] fs Hv _ IH]; [done|].
  cbn [flat_map map]. rewrite map_app, IH. by destruct v.
Qed.

Lemma reads_stringify v : json_value v = true -> reads (stringify v) v.
Proof.
  induction v as [ | |b|m|s|l IH|fs IH| | | ] using jsval_ind; intros Hj; try (by apply reads_scalar); try done.
  - apply json_array in Hj. rewrite stringify_array by done. rewrite Forall_forall in IH, Hj. apply reads_array.
    + apply Forall_fmap, Forall_forall. intros v Hv. apply stringify_head. auto.
    + rewrite <- (list_fmap_id l) at 2. apply Forall2_fmap, Forall_Forall2_diag, Forall_forall. auto.
  - apply json_object in Hj as [Hd Hj]. rewrite stringify_object by done. rewrite Forall_forall in IH, Hj.
    pose proof (reads_object (map (fun kv => (kv.1, (stringify kv.2, kv.2))) fs)) as Ho.
    rewrite !map_map in *. rewrite (map_ext _ id), map_id in Ho by (by intros []). apply Ho; [done|].
    apply Forall_fmap, Forall_forall. intros kv Hkv. cbn. auto.
Qed.

(** A text from which a value is read as a whole. *)
Lemma parse_text t v : starts t -> reads t v -> parseJsonNoDuplicateKeys (JStr t) = Ok v.
Proof.
  intros (c & r & E & _) Hr. unfold parseJsonNoDuplicateKeys.
  assert (String.eqb t "" = false) as -> by by rewrite E.
  rewrite <- (string_app_nil t) at 2. rewrite Hr; [done|by left|]. unfold parse_fuel. lia.
Qed.

Lemma parse_canonical v :
  json_value v = true -> parseJsonNoDuplicateKeys (JStr (canonicalJson v)) = Ok (normal v).
Proof. intros Hj. apply parse_text; [by apply canonical_head|by apply reads_canonical]. Qed.

Lemma reads_canonical_object fs n rest :
  json_value (JObj fs) = true -> 2 * String.length (canonicalJson (JObj fs)) + 1 <= n ->
  parseValue n (canonicalJson (JObj fs) +:+ rest) = Ok (normal (JObj fs), rest).
Proof.
  intros [Hd Hj]%json_object. rewrite Forall_forall in Hj.
  pose proof (reads_members (map (fun kv => (kv.1, (canonicalJson kv.2, normal kv.2))) (sort_fields fs)) n rest) as Ho.
  cbn [canonicalJson normal] in *. rewrite !sort_fields_map, !map_map in *. apply Ho.
  - by rewrite sort_fields_perm.
  - apply Forall_fmap. rewrite sort_fields_perm. apply Forall_forall. intros kv Hkv. cbn. apply reads_canonical. auto.
Qed.

(** The canonical text of an object as a line of a file. *)
Lemma parse_canonical_line fs :
  json_value (JObj fs) = true ->
  parseJsonNoDuplicateKeys (JStr (canonicalJson (JObj fs) +:+ String "010" "")) = Ok (normal (JObj fs)).
Proof.
  intros Hj. unfold parseJsonNoDuplicateKeys.
  assert (String.eqb (canonicalJson (JObj fs) +:+ String "010" "") "" = false) as -> by done.
  rewrite reads_canonical_object; [done|done|]. unfold parse_fuel. rewrite length_append. lia.
Qed.

Lemma parse_stringify v : json_value v = true -> parseJsonNoDuplicateKeys (JStr (stringify v)) = Ok v.
Proof. intros Hj. apply parse_text; [by apply stringify_head|by apply reads_stringify]. Qed.

(** ** Properties *)

(** C32: the parser always returns, with the fuel it is given here: on every
    text it either fails with one of its errors or returns a value, and an
    accepted value has no duplicate key at any depth. *)
Theorem parse_terminates_unique text :
  parseJsonNoDuplicateKeys text <> Throw NoFuel /\
  forall v, parseJsonNoDuplicateKeys text = Ok v -> no_duplicates v = true.
Proof.
  unfold parseJsonNoDuplicateKeys. destruct text as [ | | | |text| | | | | ]; try done.
  destruct (String.eqb text ""); [done|]. split.
  - apply bind_fuel; [apply parse_enough; unfold parse_fuel; lia|]. intros [v rest] _. by destruct (negb _).
  - intros v ([v' rest] & Hv & H)%bind_ok. apply parse_unique in Hv. destruct (negb _); [done|]. by injection H as <-.
Qed.

(** C30: parsing the canonical text of a JSON value gives the value back with
    its keys sorted. *)
Theorem canonical_roundtrip v :
  json_value v = true -> parseJsonNoDuplicateKeys (JStr (canonicalJson v)) = Ok (normal v).
Proof. apply parse_canonical. Qed.
End Parser.

(** Two JSON values with the same canonical text are the same up to the
    order of their keys. *)
Lemma canonicalJson_inj v w :
  json_value v = true -> json_value w = true -> canonicalJson v = canonicalJson w -> normal v = normal w.
Proof.
  intros Hv Hw E. pose proof (parse_canonical (HN := integer_text) v Hv) as H.
  rewrite E, (parse_canonical (HN := integer_text) w Hw) in H. congruence.
Qed.

(** Two JSON values with the same text are the same. *)
Lemma stringify_inj v w : json_value v = true -> json_value w = true -> stringify v = stringify w -> v = w.
Proof.
  intros Hv Hw E. pose proof (parse_stringify (HN := integer_text) v Hv) as H.
  rewrite E, (parse_stringify (HN := integer_text) w Hw) in H. congruence.
Qed.

(** ** Witnesses *)

Definition sample_value : jsval :=
  JObj [("b", JArr [JNum (NInt (-42)); JBool true; JStr "line"; JNull]); ("a", JObj [])].

Lemma canonical_roundtrip_witness :
  parseJsonNoDuplicateKeys (HN := integer_text) (JStr (canonicalJson sample_value))
  = Ok (JObj [("a", JObj []); ("b", JArr [JNum (NInt (-42)); JBool true; JStr "line"; JNull])]).
Proof. apply (canonical_roundtrip (HN := integer_text) sample_value). vm_compute. reflexivity. Defined.
