(* ===== verification/Crypto.v ===== *)
(** * The host's cryptography

    What the modelled code uses of Node's buffers and crypto module: the UTF-8
    bytes of a text, base 64, the SHA-256 digest of a text in lower-case
    hexadecimal, the description of a public key in PEM, and the verification
    of a detached signature.  The digest and the keys are interfaces: no law is
    assumed beyond the shape of a digest, and theorems that need more (that
    two digests differ) say so. *)

From stdpp Require Import base tactics list strings.
From Stdlib Require Import Ascii.
From S2P Require Import Prelude JsValue Regex.
Local Open Scope string_scope.

(** [crypto.createHash("sha256").update(text).digest("hex")] *)
Class Sha256 := {
  sha256 : string -> string;
  sha256_hex : forall s, re_test (times hex_lower 64) (sha256 s) = true
}.

(** [crypto.createPublicKey(pem)]: the type, the asymmetric key type, and the
    SPKI exports of the key; [None] when it throws. *)
Record KeyDescription := mkKeyDescription {
  key_type : string; asymmetricKeyType : string; spki_pem : string; spki_der : string
}.

Class PublicKeys := { createPublicKey : string -> option KeyDescription }.

(** Keys given as values: [value?.type] (for a [KeyObject] its type), the
    description of a value that is itself a public [KeyObject],
    [crypto.createPublicKey] of a value and of SPKI DER bytes, and
    [crypto.verify(null, bytes, key, signature)]; [None] when the call throws. *)
Class KeyObjects := {
  value_type : jsval -> option string;
  object_key : jsval -> option KeyDescription;
  import_value : jsval -> option KeyDescription;
  import_der : string -> option KeyDescription;
  verify_with : KeyDescription -> string -> string -> option bool
}.

(** [bytes.toString("base64")] *)
Definition b64_digit (n : nat) : Ascii.ascii :=
  Ascii.ascii_of_nat
    (if Nat.ltb n 26 then 65 + n else if Nat.ltb n 52 then 71 + n else if Nat.ltb n 62 then n - 4
     else if Nat.eqb n 62 then 43 else 47).

Fixpoint base64 (s : string) : string :=
  match s with
  | String a (String b (String c s)) =>
      String (b64_digit (code a / 4)) (String (b64_digit (code a mod 4 * 16 + code b / 16))
        (String (b64_digit (code b mod 16 * 4 + code c / 64)) (String (b64_digit (code c mod 64)) (base64 s))))
  | String a (String b EmptyString) =>
      String (b64_digit (code a / 4)) (String (b64_digit (code a mod 4 * 16 + code b / 16))
        (String (b64_digit (code b mod 16 * 4)) "="))
  | String a EmptyString =>
      String (b64_digit (code a / 4)) (String (b64_digit (code a mod 4 * 16)) "==")
  | EmptyString => ""
  end.

(** The bytes of a text in hexadecimal. *)
Definition hex_code (c : Ascii.ascii) : nat := if digit c then code c - 48 else code c - 87.

Fixpoint unhex (s : string) : string :=
  match s with String a (String b s) => String (Ascii.ascii_of_nat (16 * hex_code a + hex_code b)) (unhex s) | _ => "" end.

(** [Buffer.from(text)]: the UTF-8 bytes of a text. *)
Fixpoint utf8 (s : string) : string :=
  match s with
  | EmptyString => ""
  | String c s =>
      if Nat.ltb (code c) 128 then String c (utf8 s)
      else String (Ascii.ascii_of_nat (192 + code c / 64)) (String (Ascii.ascii_of_nat (128 + code c mod 64)) (utf8 s))
  end.

(** [toString("base64url")], of the text of [toString("base64")]. *)
Fixpoint url_text (s : string) : string :=
  match s with
  | EmptyString => ""
  | String c s =>
      if Ascii.eqb c "=" then url_text s
      else String (if Ascii.eqb c "+" then "-"%char else if Ascii.eqb c "/" then "_"%char else c) (url_text s)
  end.

(** [createHash("sha256").update(bytes).digest("base64url")] *)
Definition sha256_base64url `{Sha256} (bytes : string) : string := url_text (base64 (unhex (sha256 bytes))).

(** [Buffer.from(text, "base64")] of any text, which skips what is not base64:
    of an encoding it gives the bytes encoded. *)
Class Base64Reader := {
  base64_reader : string -> string;
  base64_reader_encoded : forall bytes, base64_reader (base64 bytes) = bytes
}.

(** A digest for examples: the low hexadecimal digits of a polynomial in the
    characters. *)
Fixpoint text_sum (s : string) : N :=
  match s with EmptyString => 0%N | String c s => ((N.of_nat (code c) + 31 * text_sum s) mod 4093)%N end.

Definition hex_char (n : nat) : Ascii.ascii :=
  Ascii.ascii_of_nat (if Nat.ltb n 10 then 48 + n else 87 + n).

Fixpoint hex_word (n : N) (k : nat) : string :=
  match k with 0 => "" | S k => String (hex_char (N.to_nat (n mod 16))) (hex_word (n / 16) k) end.

Lemma hex_char_lower n : n < 16 -> hex_lower (hex_char n) = true.
Proof. intros H. do 16 (destruct n as [|n]; [reflexivity|]). lia. Qed.

Lemma hex_word_lower k n : matches (times hex_lower k) (hex_word n k).
Proof.
  assert (Forall (fun c => hex_lower c = true) (chars (hex_word n k)) /\ length (chars (hex_word n k)) = k) as [Hf Hl].
  { revert n. induction k as [|k IH]; intros n; [done|]. cbn [hex_word chars length]. destruct (IH (n / 16)%N) as [Hf Hl].
    split; [constructor; [|done]|exact (f_equal S Hl)]. apply hex_char_lower. pose proof (N.mod_lt n 16 ltac:(done)). lia. }
  unfold times. constructor; [done|lia..].
Qed.

Definition toy_sha256 : Sha256 := {|
  sha256 := fun s => hex_word (text_sum s) 64;
  sha256_hex := fun s => proj2 (re_test_spec _ _) (hex_word_lower 64 (text_sum s))
|}.
