(* ===== verification/Capability.v ===== *)
(** * Capabilities (packages/capability/src/index.mjs)

    Signed capability statements: issuing, validation, verification against a
    trust configuration, and the sequence check over the state it shares with
    earlier verifications.  Scopes are those of Scope.v.

    Times and option numbers are safe integers: a fractional or larger number
    and a text given where a number is expected leave the model
    ([OutsideModel]).  Sources of randomness and the current time are
    arguments; keys, the host's [Map] and [Date] objects and the caller's
    hooks are interfaces. *)

From stdpp Require Import base tactics sets list strings sorting.
From Stdlib Require Import Ascii ZifyNat.
From S2P Require Import Prelude JsValue Regex IsoTime Scope Json StrictJson Crypto.
Local Open Scope string_scope.
Local Open Scope js_scope.

(** ** Interfaces of the host *)

(** [container.get(key)] of a [Map] (or a property of another object) and the
    time value of a [Date]. *)
Class HostObjects := {
  is_map : nat -> bool;
  host_entry : nat -> string -> jsval;
  date_value : nat -> option Z
}.

(** [hook(sequence, capability)]; [None] when it throws. *)
Class Hooks := { call_hook : nat -> Z -> jsval -> option jsval }.

(** Private keys: the key of a value ([value] itself or [createPrivateKey]),
    its public key, and [crypto.sign(null, bytes, key)]. *)
Class SigningKeys := {
  PrivateKey : Type;
  import_private : jsval -> option PrivateKey;
  public_of : PrivateKey -> KeyDescription;
  sign_with : PrivateKey -> string -> string
}.

(** ** Constants *)

Definition CAPABILITY_VERSION : Z := 1.
Definition DEFAULT_MAX_TTL_MS : Z := 900000.
Definition DEFAULT_CLOCK_SKEW_MS : Z := 60000.
Definition DEFAULT_TTL_MS : Z := 60000.

Definition TOP_LEVEL_KEYS :=
  ["version"; "capability_id"; "nonce"; "issuer"; "key_id"; "audience"; "scope"; "not_before"; "expires_at";
   "sequence"; "signature"].
Definition ISSUE_INPUT_KEYS :=
  (TOP_LEVEL_KEYS ++ ["private_key"; "signing_key"; "ttl_ms"; "ttlMs"; "notBefore"; "expiresAt"; "keyId"; "now"])%list.
Definition ALIASES :=
  [("key_id", "keyId"); ("not_before", "notBefore"); ("expires_at", "expiresAt"); ("ttl_ms", "ttlMs");
   ("private_key", "signing_key")].
Definition AUDIENCE_KEYS := ["agent_id"; "device_id"].

Definition id_char (c : ascii) : bool := alnum c || in_chars "._:-" c.
Definition IDENTIFIER : re := RSeq (one alnum) (upto id_char 127).
Definition NONCE : re := RSeq (one alnum) (RClass id_char 31 (Some 127)).
Definition version_digit : ascii -> bool := between "1" "8".
Definition variant_char (c : ascii) : bool := in_chars "89abAB" c.
Definition UUID : re :=
  seqs [times hex_any 8; lit "-"; times hex_any 4; lit "-"; one version_digit; times hex_any 3; lit "-";
        one variant_char; times hex_any 3; lit "-"; times hex_any 12].
Definition b64_char (c : ascii) : bool := alnum c || in_chars "+/" c.
Definition BASE64 : re :=
  RSeq (RStar (times b64_char 4))
       (opt (RAlt (RSeq (times b64_char 2) (lit "==")) (RSeq (times b64_char 3) (lit "=")))).
Definition SIGNATURE_LENGTH : nat := 64.

(** ** Data *)

(** The normalized statement.  The identifiers are the values given, which
    the test has only converted to text. *)
Record Audience := mkAudience { agent_id : jsval; device_id : jsval }.

Record Statement := mkStatement {
  capability_id : jsval; nonce : string; issuer : string; key_id : string; audience : Audience;
  scope : Scope; not_before : Z; expires_at : Z; sequence : Z
}.

Definition audience_js (a : Audience) : jsval :=
  JObj [("agent_id", agent_id a); ("device_id", device_id a)].

Definition statement_fields (s : Statement) : list (string * jsval) :=
  [("version", JNum (NInt CAPABILITY_VERSION)); ("capability_id", capability_id s); ("nonce", JStr (nonce s));
   ("issuer", JStr (issuer s)); ("key_id", JStr (key_id s)); ("audience", audience_js (audience s));
   ("scope", scope_js (scope s)); ("not_before", JStr (to_iso (not_before s)));
   ("expires_at", JStr (to_iso (expires_at s))); ("sequence", JNum (NInt (sequence s)))].

Definition statement_js (s : Statement) : jsval := JObj (statement_fields s).

(** [{ ...statement, signature }] *)
Definition signed_js (s : Statement) (signature : string) : jsval :=
  JObj (statement_fields s ++ [("signature", JStr signature)])%list.

(** The second argument of [validateStatement]. *)
Record Times := mkTimes { now : Z; maxTtlMs : Z; clockSkewMs : Z; allowExpired : bool; allowFuture : bool }.

(** The caller's mutable [sequenceState]. *)
Record SequenceState := mkState { highestSequence : jsval; highestCapabilityHash : jsval }.

(** ** Numbers *)

Definition capability_error {A} (r : cap_reason) : result cap_exn A := Throw (CapabilityError r).

Definition toNow (value : jsval) (dateNow : Z) : result cap_exn Z :=
  match value with
  | JUndefined => Ok dateNow
  | JNull => Ok 0%Z
  | JNum NNaN | JNum (NInf _) => capability_error INVALID_TIMESTAMP
  | _ => of_option OutsideModel (safe_integer value)
  end.

(** [options.name ?? default] *)
Definition number_option (options : jsval) (name : string) (dflt : Z) : result cap_exn Z :=
  match get options name with
  | JUndefined | JNull => Ok dflt
  | v => of_option OutsideModel (safe_integer v)
  end.

Definition flag_option (options : jsval) (name : string) : bool := truthy (nullish (get options name) (JBool false)).

(** [new Date(t).toISOString()] of an integer. *)
Definition iso_string (t : Z) : result cap_exn string :=
  if in_time_range t then Ok (to_iso t) else Throw RangeError.

(** ** Base 64 *)

Definition b64_value (c : ascii) : nat :=
  if upper c then code c - 65
  else if lower c then code c - 71
  else if digit c then code c + 4
  else if Ascii.eqb c "+" then 62 else 63.

Definition byte (n : nat) : ascii := ascii_of_nat (n mod 256).

(** [Buffer.from(text, "base64")] of a text that [BASE64] accepts. *)
Fixpoint base64_bytes (s : string) : string :=
  match s with
  | String a (String b (String c (String d s))) =>
      String (byte (b64_value a * 4 + b64_value b / 16))
        (if Ascii.eqb c "=" then ""
         else String (byte (b64_value b mod 16 * 16 + b64_value c / 4))
                (if Ascii.eqb d "=" then "" else String (byte (b64_value c mod 4 * 64 + b64_value d)) (base64_bytes s)))
  | _ => ""
  end.

(** ** Canonical text *)

(** [canonicalValue(value)]: the text of a JSON value, an error for any other.
    The values of the model have no cycles, symbols or foreign prototypes. *)
Fixpoint canonicalValue (v : jsval) : result cap_exn string :=
  match v with
  | JNull | JBool _ | JStr _ | JNum (NInt _) | JNum (NText _) => Ok (stringify_scalar v)
  | JArr l => ts ← map_result canonicalValue l; Ok ("[" +:+ join "," ts +:+ "]")
  | JObj fs =>
      ts ← map_result (fun kv => t ← canonicalValue kv.2; Ok (kv.1, t)) fs;
      Ok ("{" +:+ join "," (map (fun kt => quote kt.1 +:+ ":" +:+ kt.2) (sort_fields ts)) +:+ "}")
  | _ => capability_error INVALID_CAPABILITY
  end.

(** ** Validation *)

Section Validation.
Context `{HParse : DateParse} `{HHost : HostObjects}.

Definition isIdentifier (v : jsval) : option string :=
  match v with JStr s => if re_test IDENTIFIER s then Some s else None | _ => None end.

Definition parseCanonicalTimestamp (v : jsval) : result cap_exn Z :=
  match v with
  | JStr s => of_option (CapabilityError INVALID_TIMESTAMP) (canonical_iso s)
  | _ => capability_error INVALID_TIMESTAMP
  end.

(** Finite numbers that are not safe integers fail the caller's check. *)
Definition parseTimestamp (v : jsval) : result cap_exn Z :=
  match v with
  | JNum (NInt _) | JNum (NText _) => of_option (CapabilityError INVALID_TIMESTAMP) (safe_integer v)
  | JHost h => of_option (CapabilityError INVALID_TIMESTAMP) (date_value h)
  | _ => parseCanonicalTimestamp v
  end.

Definition issueTimestamp (v : jsval) : result cap_exn string :=
  t ← parseTimestamp v; iso_string t.

Definition validateAudience (v : jsval) : result cap_exn Audience :=
  throw_if negb (is_object v) with CapabilityError INVALID_AUDIENCE ;;
  _ ← rejectUnknown v AUDIENCE_KEYS UNKNOWN_FIELD;
  throw_if negb (coerced_test UUID (nullish (get v "agent_id") (JStr "")))
           || negb (coerced_test UUID (nullish (get v "device_id") (JStr "")))
    with CapabilityError INVALID_AUDIENCE ;;
  Ok (mkAudience (get v "agent_id") (get v "device_id")).

Definition validateNonce (v : jsval) : result cap_exn string :=
  match v with
  | JStr s => if re_test NONCE s then Ok s else capability_error INVALID_NONCE
  | _ => capability_error INVALID_NONCE
  end.

(** [Number.isSafeInteger(v) && v >= 1] *)
Definition positive_integer (v : jsval) : option Z :=
  match safe_integer v with Some z => if (1 <=? z)%Z then Some z else None | None => None end.

Definition validateStatement (statement : jsval) (t : Times) : result cap_exn Statement :=
  _ ← rejectUnknown statement TOP_LEVEL_KEYS UNKNOWN_FIELD;
  throw_if negb (is_int (get statement "version") CAPABILITY_VERSION) with CapabilityError UNSUPPORTED_VERSION ;;
  throw_if negb (coerced_test UUID (nullish (get statement "capability_id") (JStr "")))
    with CapabilityError INVALID_CAPABILITY_ID ;;
  nonce ← validateNonce (get statement "nonce");
  issuer ← of_option (CapabilityError INVALID_IDENTIFIER) (isIdentifier (get statement "issuer"));
  key_id ← of_option (CapabilityError INVALID_IDENTIFIER) (isIdentifier (get statement "key_id"));
  audience ← validateAudience (get statement "audience");
  scope ← validateScope (get statement "scope") false;
  notBefore ← parseCanonicalTimestamp (get statement "not_before");
  expiresAt ← parseCanonicalTimestamp (get statement "expires_at");
  throw_if (expiresAt <=? notBefore)%Z with CapabilityError INVALID_TIMESTAMP ;;
  throw_if (maxTtlMs t <? expiresAt - notBefore)%Z with CapabilityError TTL_EXCEEDED ;;
  sequence ← of_option (CapabilityError INVALID_SEQUENCE) (positive_integer (get statement "sequence"));
  throw_if negb (allowFuture t) && (now t + clockSkewMs t <? notBefore)%Z
    with CapabilityError NOT_BEFORE_IN_FUTURE ;;
  throw_if negb (allowExpired t) && (expiresAt <=? now t)%Z with CapabilityError EXPIRED ;;
  Ok (mkStatement (get statement "capability_id") nonce issuer key_id audience scope notBefore expiresAt sequence).

(** [const { signature, ...statement } = capability] *)
Definition without_signature (capability : jsval) : jsval :=
  match capability with
  | JObj fs => JObj (filter (fun kv => kv.1 <> "signature") fs)
  | JBytes b => JObj (byte_fields b)
  | _ => JObj []
  end.

(** [validateCapability(capability, options)], where [now] is [options.now]. *)
Definition validateCapability (capability options now : jsval) (dateNow : Z) : result cap_exn Statement :=
  throw_if negb (is_object capability) with CapabilityError INVALID_CAPABILITY ;;
  throw_if negb (is_undefined (get capability "signature")) && negb (bool_decide (is_Some (as_str (get capability "signature"))))
    with CapabilityError INVALID_SIGNATURE_ENCODING ;;
  now ← toNow (nullish now (JNum (NInt dateNow))) dateNow;
  maxTtlMs ← number_option options "maxTtlMs" DEFAULT_MAX_TTL_MS;
  clockSkewMs ← number_option options "clockSkewMs" DEFAULT_CLOCK_SKEW_MS;
  validateStatement (without_signature capability)
    (mkTimes now maxTtlMs clockSkewMs (flag_option options "allowExpired") (flag_option options "allowFuture")).

Definition canonicalCapability (capability : jsval) (dateNow : Z) : result cap_exn string :=
  s ← validateCapability capability (JObj [("allowExpired", JBool true); ("allowFuture", JBool true)]) JUndefined dateNow;
  canonicalValue (statement_js s).
End Validation.

(** ** Issuing *)

Section Issue.
Context `{HParse : DateParse} `{HHost : HostObjects} `{HSign : SigningKeys}.

Definition rejectAliases (v : jsval) (pairs : list (string * string)) : result cap_exn unit :=
  if existsb (fun p => has_own v p.1 && has_own v p.2) pairs then capability_error UNKNOWN_FIELD else Ok tt.

(** [nonce] of the random bytes' text. *)
Definition randomNonce (text : string) : string :=
  match text with
  | String c r => if alnum c then text else String "A" r
  | EmptyString => "A"
  end.

(** [expires_at] of a statement without one. *)
Definition ttl_expiry (input options : jsval) (notBefore : string) : result cap_exn string :=
  let ttl := nullish (get input "ttl_ms") (nullish (get input "ttlMs") (nullish (get options "ttlMs") (JNum (NInt DEFAULT_TTL_MS)))) in
  throw_if negb (finite_number ttl) with CapabilityError TTL_EXCEEDED ;;
  ms ← of_option OutsideModel (safe_integer ttl);
  throw_if (ms <=? 0)%Z with CapabilityError TTL_EXCEEDED ;;
  t ← parseTimestamp (JStr notBefore);
  iso_string (t + ms).

Definition issue_key (input privateKey : jsval) : jsval :=
  nullish (get privateKey "privateKey") (nullish privateKey (nullish (get input "private_key") (get input "signing_key"))).

(** [issueCapability(input, privateKey, options)] with the random UUID and
    nonce text it may use. *)
Definition issueCapability (input privateKey options : jsval) (uuid nonceText : string) (dateNow : Z)
  : result cap_exn (Statement * string) :=
  throw_if negb (is_object input) with CapabilityError INVALID_CAPABILITY ;;
  _ ← rejectUnknown input ISSUE_INPUT_KEYS UNKNOWN_FIELD;
  _ ← rejectAliases input ALIASES;
  let key := issue_key input privateKey in
  throw_if negb (truthy key) with CapabilityError INVALID_SIGNATURE ;;
  now ← toNow (nullish (get options "now") (get input "now")) dateNow;
  let notBefore := nullish (get input "not_before") (get input "notBefore") in
  not_before ← (if is_undefined notBefore then iso_string now else issueTimestamp notBefore);
  let expiresAt := nullish (get input "expires_at") (get input "expiresAt") in
  expires_at ← (if is_undefined expiresAt then ttl_expiry input options not_before else issueTimestamp expiresAt);
  maxTtlMs ← number_option options "maxTtlMs" DEFAULT_MAX_TTL_MS;
  clockSkewMs ← number_option options "clockSkewMs" DEFAULT_CLOCK_SKEW_MS;
  normalized ← validateStatement
    (JObj [("version", nullish (get input "version") (JNum (NInt CAPABILITY_VERSION)));
           ("capability_id", nullish (get input "capability_id") (JStr uuid));
           ("nonce", nullish (get input "nonce") (JStr (randomNonce nonceText)));
           ("issuer", get input "issuer"); ("key_id", nullish (get input "key_id") (get input "keyId"));
           ("audience", get input "audience"); ("scope", get input "scope");
           ("not_before", JStr not_before); ("expires_at", JStr expires_at); ("sequence", get input "sequence")])
    (mkTimes now maxTtlMs clockSkewMs false false);
  signing ← of_option (CapabilityError INVALID_SIGNATURE) (import_private key);
  throw_if negb (String.eqb (asymmetricKeyType (public_of signing)) "ed25519") with CapabilityError INVALID_SIGNATURE ;;
  text ← canonicalValue (statement_js normalized);
  Ok (normalized, base64 (sign_with signing text)).
End Issue.

(** ** Trust *)

Section Verify.
Context `{HParse : DateParse} `{HHost : HostObjects} `{HHooks : Hooks} `{HKeys : KeyObjects} `{HSha : Sha256}.

Definition isKeyObject (v : jsval) : bool :=
  match v with
  | JObj _ => truthy (get v "type") && is_function (get v "export")
  | JHost _ => bool_decide (is_Some (value_type v))
  | _ => false
  end.

(** [item?.key_id === key || item?.keyId === key || item?.id === key] *)
Definition keyed (key : string) (item : jsval) : bool :=
  is_str (get item "key_id") key || is_str (get item "keyId") key || is_str (get item "id") key.

Fixpoint find_item (key : string) (l : list jsval) : jsval :=
  match l with [] => JUndefined | v :: l => if keyed key v then v else find_item key l end.

(** An object inherits the members of [Object.prototype], which are functions
    for the keys that reach this point. *)
Definition getValue (container : jsval) (key : string) : jsval :=
  match container with
  | JHost h => host_entry h key
  | JArr l => find_item key l
  | JObj fs => match assoc key fs with Some v => v | None => if includes OBJECT_PROTOTYPE key then JFun 0 else JUndefined end
  | _ => JUndefined
  end.

Definition publicKeyFor (v : jsval) : result cap_exn KeyDescription :=
  key ← of_option (CapabilityError KEY_ID_NOT_TRUSTED)
          (if bool_decide (value_type v = Some "public") then object_key v else import_value v);
  throw_if negb (String.eqb (asymmetricKeyType key) "ed25519") with CapabilityError KEY_ID_NOT_TRUSTED ;;
  Ok key.

(** [first ?? second ?? ...] of properties. *)
Fixpoint first_of (l : list (jsval * string)) : jsval :=
  match l with
  | [] => JUndefined
  | [p] => get p.1 p.2
  | p :: l => nullish (get p.1 p.2) (first_of l)
  end.

(** [value !== undefined && value !== text] *)
Definition differs (v : jsval) (text : string) : bool := negb (is_undefined v) && negb (is_str v text).

Definition resolve_issuer (issuers : jsval) (issuer keyId : string) : result cap_exn KeyDescription :=
  let entry := getValue issuers issuer in
  throw_if is_undefined entry with CapabilityError ISSUER_NOT_TRUSTED ;;
  if negb (is_undefined (get entry "public_key")) || negb (is_undefined (get entry "publicKey")) then
    throw_if differs (nullish (get entry "key_id") (get entry "keyId")) keyId with CapabilityError KEY_ID_NOT_TRUSTED ;;
    publicKeyFor (nullish (get entry "public_key") (get entry "publicKey"))
  else
    let key := getValue (nullish (get entry "keys") entry) keyId in
    throw_if is_undefined key with CapabilityError KEY_ID_NOT_TRUSTED ;;
    publicKeyFor key.

Definition resolve_key (keys : jsval) (issuer keyId : string) : result cap_exn KeyDescription :=
  throw_if is_undefined keys with CapabilityError ISSUER_NOT_TRUSTED ;;
  if isKeyObject keys then publicKeyFor keys else
  let entry := getValue keys keyId in
  throw_if is_undefined entry with CapabilityError KEY_ID_NOT_TRUSTED ;;
  throw_if is_object entry && negb (isKeyObject entry) && differs (get entry "issuer") issuer
    with CapabilityError ISSUER_KEY_MISMATCH ;;
  publicKeyFor (nullish (get entry "public_key") (nullish (get entry "publicKey") entry)).

Definition resolveTrustedKey (issuer keyId : string) (trust options : jsval) : result cap_exn KeyDescription :=
  let directKey := first_of [(trust, "public_key"); (trust, "publicKey"); (options, "public_key"); (options, "publicKey")] in
  if negb (is_undefined directKey) then
    throw_if differs (get trust "issuer") issuer with CapabilityError ISSUER_KEY_MISMATCH ;;
    throw_if differs (nullish (get trust "key_id") (get trust "keyId")) keyId with CapabilityError KEY_ID_NOT_TRUSTED ;;
    publicKeyFor directKey
  else
    let issuers := first_of [(trust, "issuers"); (trust, "trustedIssuers"); (options, "issuers"); (options, "trustedIssuers")] in
    if negb (is_undefined issuers) then resolve_issuer issuers issuer keyId
    else resolve_key (first_of [(trust, "keys"); (options, "keys"); (trust, "trustedKeys"); (options, "trustedKeys");
                                (trust, "trusted_keys"); (options, "trusted_keys")]) issuer keyId.

(** The configuration a key, a [Map] or an array stands for. *)
Definition trust_of (trust : jsval) : jsval :=
  match nullish trust (JObj []) with
  | JStr s => JObj [("public_key", JStr s)]
  | JArr l => JObj [("keys", JArr l)]
  | t => if isKeyObject t then JObj [("public_key", t)]
         else match t with JHost h => if is_map h then JObj [("keys", t)] else t | _ => t end
  end.

(** ** The sequence check *)

(** [hook === undefined || (hook is a function that accepts)] *)
Definition check_hook (hook : jsval) (seq : Z) (capability : jsval) : result cap_exn unit :=
  match hook with
  | JUndefined => Ok tt
  | JFun f =>
      r ← of_option (CapabilityError SEQUENCE_HOOK_REJECTED) (call_hook f seq capability);
      throw_if bool_decide (r = JBool false) || bool_decide (get r "allowed" = JBool false)
               || match safe_integer r with Some z => (seq <? z)%Z | None => false end
        with CapabilityError SEQUENCE_ROLLBACK ;;
      Ok tt
  | _ => capability_error SEQUENCE_HOOK_REJECTED
  end.

Definition notify_hook (hook : jsval) (seq : Z) (capability : jsval) : result cap_exn unit :=
  match hook with
  | JUndefined => Ok tt
  | JFun f => _ ← of_option (CapabilityError SEQUENCE_HOOK_REJECTED) (call_hook f seq capability); Ok tt
  | _ => capability_error SEQUENCE_HOOK_REJECTED
  end.

(** The caller's highest sequence with its content evidence. *)
Definition check_highest (highest highestHash : jsval) (seq : Z) (hash : string) : result cap_exn unit :=
  if is_undefined highest then Ok tt else
  match safe_integer highest with
  | None => capability_error SEQUENCE_ROLLBACK
  | Some h =>
      throw_if (seq <? h)%Z with CapabilityError SEQUENCE_ROLLBACK ;;
      throw_if (seq =? h)%Z && negb (is_str highestHash hash) with CapabilityError SEQUENCE_CONFLICT ;;
      Ok tt
  end.

(** [state.highestSequence ?? 0], when it is a safe integer. *)
Definition state_sequence (st : SequenceState) : option Z :=
  safe_integer (nullish (highestSequence st) (JNum (NInt 0))).

Definition check_state (st : SequenceState) (seq : Z) (hash : string) : result cap_exn unit :=
  match state_sequence st with
  | None => capability_error SEQUENCE_ROLLBACK
  | Some h =>
      throw_if (seq <? h)%Z with CapabilityError SEQUENCE_ROLLBACK ;;
      throw_if is_int (highestSequence st) seq && differs (highestCapabilityHash st) hash
        with CapabilityError SEQUENCE_CONFLICT ;;
      Ok tt
  end.

Definition capabilityHash (s : Statement) (signature : string) : result cap_exn string :=
  text ← canonicalValue (signed_js s signature); Ok (sha256 text).

(** The state after an accepted capability; [state] is the caller's shared
    object, absent when there is none. *)
Definition enforceSequence (s : Statement) (signature : string) (options trust : jsval) (state : option SequenceState)
  : result cap_exn (option SequenceState) :=
  hash ← capabilityHash s signature;
  let capability := signed_js s signature in
  _ ← check_highest (first_of [(options, "highestSequence"); (trust, "highestSequence")])
        (first_of [(options, "highestCapabilityHash"); (trust, "highestCapabilityHash")]) (sequence s) hash;
  _ ← match state with Some st => check_state st (sequence s) hash | None => Ok tt end;
  _ ← check_hook (first_of [(options, "sequenceHook"); (options, "checkSequence"); (trust, "sequenceHook")]) (sequence s) capability;
  _ ← notify_hook (first_of [(options, "onSequence"); (trust, "onSequence")]) (sequence s) capability;
  Ok (option_map (fun _ => mkState (JNum (NInt (sequence s))) (JStr hash)) state).

(** ** Verification *)

Definition decode_signature (v : jsval) : result cap_exn (string * string) :=
  match v with
  | JStr s =>
      throw_if negb (re_test BASE64 s) with CapabilityError INVALID_SIGNATURE_ENCODING ;;
      let bytes := base64_bytes s in
      throw_if negb (Nat.eqb (String.length bytes) SIGNATURE_LENGTH) || negb (String.eqb (base64 bytes) s)
        with CapabilityError INVALID_SIGNATURE_ENCODING ;;
      Ok (s, bytes)
  | _ => capability_error INVALID_SIGNATURE_ENCODING
  end.

Definition expected_audience (options trust : jsval) : jsval :=
  let given := first_of [(options, "audience"); (options, "expectedAudience"); (trust, "audience")] in
  nullish given
    (if truthy (get options "agent_id") || truthy (get options "device_id")
     then JObj [("agent_id", get options "agent_id"); ("device_id", get options "device_id")] else JUndefined).

(** [a === b] of two identifiers: two arrays are two objects. *)
Definition same_id (a b : jsval) : bool := match a with JStr s => is_str b s | _ => false end.

Definition check_audience (expected : jsval) (a : Audience) : result cap_exn unit :=
  if is_undefined expected then Ok tt else
  e ← validateAudience expected;
  throw_if negb (same_id (agent_id e) (agent_id a)) || negb (same_id (device_id e) (device_id a))
    with CapabilityError AUDIENCE_MISMATCH ;;
  Ok tt.

(** [crypto.verify(null, canonicalBytes(normalized), publicKey, bytes)],
    false when a call throws. *)
Definition verifies (publicKey : KeyDescription) (s : Statement) (bytes : string) : bool :=
  match canonicalValue (statement_js s) with
  | Ok text => default false (verify_with publicKey text bytes)
  | Throw _ => false
  end.

Definition verifyCapability (capability trust options : jsval) (state : option SequenceState) (dateNow : Z)
  : result cap_exn ((Statement * string) * option SequenceState) :=
  let options := nullish options (JObj []) in
  let trust := trust_of trust in
  now ← toNow (nullish (get options "now") (nullish (get trust "now") (JNum (NInt dateNow)))) dateNow;
  normalized ← validateCapability capability options (JNum (NInt now)) dateNow;
  '(signature, bytes) ← decode_signature (get capability "signature");
  publicKey ← resolveTrustedKey (issuer normalized) (key_id normalized) trust options;
  throw_if negb (verifies publicKey normalized bytes) with CapabilityError INVALID_SIGNATURE ;;
  _ ← check_audience (expected_audience options trust) (audience normalized);
  state ← enforceSequence normalized signature options trust state;
  Ok ((normalized, signature), state).
End Verify.

(** ** Lemmas: base 64 *)

Lemma b64_digit_spec n :
  n < 64 -> b64_value (b64_digit n) = n /\ Ascii.eqb (b64_digit n) "=" = false /\ b64_char (b64_digit n) = true.
Proof.
  intros Hn. assert (forallb (fun n => Nat.eqb (b64_value (b64_digit n)) n && negb (Ascii.eqb (b64_digit n) "=")
    && b64_char (b64_digit n)) (seq 0 64) = true) as H by (vm_compute; reflexivity).
  rewrite forallb_elem_of in H. specialize (H n ltac:(apply elem_of_seq; lia)). guards.
  split_and!; try done. by apply Nat.eqb_eq.
Qed.

Lemma byte_code n c : n mod 256 = code c -> byte n = c.
Proof. intros H. unfold byte. rewrite H. apply ascii_nat_embedding. Qed.

Lemma code_bound c : code c < 256.
Proof. apply nat_ascii_bounded. Qed.

#[local] Ltac Zify.zify_post_hook ::= Z.to_euclidean_division_equations.

(** Decode the digits of characters. *)
Ltac b64_digits :=
  repeat match goal with
  | c : ascii |- _ => lazymatch goal with H : code c < 256 |- _ => fail | _ => pose proof (code_bound c) end
  end;
  repeat match goal with
  | |- context [b64_value (b64_digit ?n)] => rewrite (proj1 (b64_digit_spec n ltac:(lia)))
  | |- context [Ascii.eqb (b64_digit ?n) "="] => rewrite (proj1 (proj2 (b64_digit_spec n ltac:(lia))))
  end.

Lemma base64_bytes_base64 s : base64_bytes (base64 s) = s.
Proof.
  revert s. fix IH 1. intros [|a [|b [|c s]]]; [done| | |]; cbn [base64 base64_bytes]; b64_digits;
    cbn [Ascii.eqb Bool.eqb]; repeat f_equal; try apply byte_code; try lia; apply IH.
Qed.

Lemma b64_char_four x y z w s :
  b64_char x = true -> b64_char y = true -> b64_char z = true -> b64_char w = true ->
  matches BASE64 s -> matches BASE64 (String x (String y (String z (String w s)))).
Proof.
  intros Hx Hy Hz Hw (s1 & s2 & -> & H1 & H2)%seq_inv.
  change (String x (String y (String z (String w (s1 +:+ s2)))))
    with ((String x (String y (String z (String w "")) +:+ s1)) +:+ s2).
  constructor; [|done]. change (String x (String y (String z (String w "")) +:+ s1)) with
    (String x (String y (String z (String w ""))) +:+ s1).
  constructor; [|done]. constructor; simpl; [by repeat constructor|lia..].
Qed.

Lemma base64_matches s : matches BASE64 (base64 s).
Proof.
  revert s. fix IH 1. intros [|a [|b [|c s]]]; cbn [base64].
  - apply re_test_spec. reflexivity.
  - change (matches BASE64 ("" +:+ (String (b64_digit (code a / 4)) (String (b64_digit (code a mod 4 * 16)) "") +:+ "=="))).
    pose proof (code_bound a). constructor; [constructor|]. apply m_alt_l, m_alt_l. constructor.
    + constructor; cbn [chars length]; [|lia..]. repeat (apply Forall_cons; split; [apply b64_digit_spec; lia|]); by apply Forall_nil.
    + apply re_test_spec. reflexivity.
  - change (matches BASE64 ("" +:+ (String (b64_digit (code a / 4)) (String (b64_digit (code a mod 4 * 16 + code b / 16))
      (String (b64_digit (code b mod 16 * 4)) "")) +:+ "="))).
    pose proof (code_bound a). pose proof (code_bound b). constructor; [constructor|]. apply m_alt_l, m_alt_r. constructor.
    + constructor; cbn [chars length]; [|lia..]. repeat (apply Forall_cons; split; [apply b64_digit_spec; lia|]); by apply Forall_nil.
    + apply re_test_spec. reflexivity.
  - pose proof (code_bound a). pose proof (code_bound b). pose proof (code_bound c).
    apply b64_char_four; [apply b64_digit_spec; lia..|apply IH].
Qed.

(** ** Lemmas: statements *)

Section Statements.
Context `{HParse : DateParse} `{HHost : HostObjects}.

Definition valid_audience (a : Audience) : Prop :=
  coerced_test UUID (nullish (agent_id a) (JStr "")) = true /\ coerced_test UUID (nullish (device_id a) (JStr "")) = true.

Definition valid_statement (s : Statement) : Prop :=
  coerced_test UUID (nullish (capability_id s) (JStr "")) = true /\ re_test NONCE (nonce s) = true /\
  re_test IDENTIFIER (issuer s) = true /\ re_test IDENTIFIER (key_id s) = true /\ valid_audience (audience s) /\
  valid_scope false (scope s) /\ (Z.abs (not_before s) <= MAX_TIME)%Z /\ (Z.abs (expires_at s) <= MAX_TIME)%Z /\
  (not_before s < expires_at s)%Z /\ (1 <= sequence s <= MAX_SAFE_INTEGER)%Z.

(** The statement is acceptable at these times. *)
Definition timely (s : Statement) (t : Times) : Prop :=
  (expires_at s - not_before s <= maxTtlMs t)%Z /\
  (allowFuture t = false -> (not_before s <= now t + clockSkewMs t)%Z) /\
  (allowExpired t = false -> (now t < expires_at s)%Z).

Lemma isIdentifier_some v s : isIdentifier v = Some s -> v = JStr s /\ re_test IDENTIFIER s = true.
Proof. destruct v as [ | | | |t| | | | | ]; simpl; try done. destruct (re_test IDENTIFIER t) eqn:E; naive_solver. Qed.

Lemma validateNonce_ok v s : validateNonce v = Ok s -> v = JStr s /\ re_test NONCE s = true.
Proof. destruct v as [ | | | |t| | | | | ]; simpl; try done. destruct (re_test NONCE t) eqn:E; naive_solver. Qed.

Lemma parseCanonicalTimestamp_ok v t :
  parseCanonicalTimestamp v = Ok t -> v = JStr (to_iso t) /\ (Z.abs t <= MAX_TIME)%Z.
Proof.
  destruct v; simpl; try done. intros [? ->]%of_option_ok%canonical_iso_spec. done.
Qed.

Lemma parseCanonicalTimestamp_iso t : (Z.abs t <= MAX_TIME)%Z -> parseCanonicalTimestamp (JStr (to_iso t)) = Ok t.
Proof. intros H. simpl. by rewrite (proj2 (canonical_iso_spec _ t) (conj H eq_refl)). Qed.

#[local] Arguments parseCanonicalTimestamp : simpl never.

Lemma positive_integer_some v z :
  positive_integer v = Some z -> v = JNum (NInt z) /\ (1 <= z <= MAX_SAFE_INTEGER)%Z.
Proof.
  unfold positive_integer. destruct (safe_integer v) as [y|] eqn:E; [|done].
  apply safe_integer_Some in E as [-> ?]. destruct (1 <=? y)%Z eqn:E1; [|done]. intros [= ->]. guards. split; [done|lia].
Qed.

Lemma positive_integer_int z : (1 <= z <= MAX_SAFE_INTEGER)%Z -> positive_integer (JNum (NInt z)) = Some z.
Proof.
  intros H. unfold positive_integer. rewrite (proj2 (safe_integer_Some _ z)) by (split; [done|lia]).
  destruct (1 <=? z)%Z eqn:E; [done|]. guards. lia.
Qed.

Lemma validateAudience_ok v a :
  validateAudience v = Ok a ->
  valid_audience a /\ agent_id a = get v "agent_id" /\ device_id a = get v "device_id".
Proof. unfold validateAudience. intros H. inv_result. guards. done. Qed.

Lemma validateAudience_js a : valid_audience a -> validateAudience (audience_js a) = Ok a.
Proof.
  destruct a as [x y]. intros [Hx Hy]. unfold validateAudience. simpl in *. by rewrite Hx, Hy.
Qed.

Lemma validateStatement_ok v t s : validateStatement v t = Ok s -> valid_statement s /\ timely s t.
Proof.
  unfold validateStatement. intros H. inv_result. guards.
  repeat match goal with
  | H : validateNonce _ = Ok _ |- _ => apply validateNonce_ok in H as [_ ?]
  | H : isIdentifier _ = Some _ |- _ => apply isIdentifier_some in H as [_ ?]
  | H : validateAudience _ = Ok _ |- _ => apply validateAudience_ok in H as [? _]
  | H : validateScope _ _ = Ok _ |- _ => apply validateScope_valid in H
  | H : parseCanonicalTimestamp _ = Ok _ |- _ => apply parseCanonicalTimestamp_ok in H as [_ ?]
  | H : positive_integer _ = Some _ |- _ => apply positive_integer_some in H as [_ ?]
  end.
  split; [by unfold valid_statement|]. unfold timely. simpl. split_and!; [done|..].
  - intros Ef. match goal with H : negb (allowFuture t) && _ = false |- _ => rewrite Ef in H; simpl in H end. by guards.
  - intros Ef. match goal with H : negb (allowExpired t) && _ = false |- _ => rewrite Ef in H; simpl in H end. by guards.
Qed.

Lemma validateStatement_js s t : valid_statement s -> timely s t -> validateStatement (statement_js s) t = Ok s.
Proof.
  destruct s as [ci no iss ki au sc nb ex sq].
  intros (Hc & Hn & Hi & Hk & Ha & Hs & Hnb & Hex & Hlt & Hq) (Ht & Hf & He). simpl in *.
  unfold validateStatement. cbn [statement_js statement_fields get assoc default String.eqb Ascii.eqb Bool.eqb is_int].
  change (rejectUnknown _ _ _) with (Ok (E := cap_exn) tt). simpl.
  rewrite Hc, Hn. simpl. rewrite Hi, Hk. simpl. rewrite (validateAudience_js _ Ha). simpl.
  rewrite (validateScope_js _ _ Hs). simpl. rewrite (parseCanonicalTimestamp_iso _ Hnb), (parseCanonicalTimestamp_iso _ Hex). simpl.
  rewrite (proj2 (Z.leb_gt _ _) Hlt), (proj2 (Z.ltb_ge _ _) Ht). simpl. rewrite (positive_integer_int _ Hq). simpl.
  assert (negb (allowFuture t) && (now t + clockSkewMs t <? nb)%Z = false) as ->.
  { destruct (allowFuture t); [done|]. simpl. by apply Z.ltb_ge, Hf. }
  assert (negb (allowExpired t) && (ex <=? now t)%Z = false) as ->; [|done].
  destruct (allowExpired t); [done|]. simpl. by apply Z.leb_gt, He.
Qed.
End Statements.

#[local] Arguments statement_js : simpl never.
#[local] Arguments signed_js : simpl never.
#[local] Arguments canonicalValue : simpl never.

(** ** Lemmas: verification *)

Section Verification.
Context `{HParse : DateParse} `{HHost : HostObjects} `{HHooks : Hooks} `{HKeys : KeyObjects} `{HSha : Sha256}.

(** The times of a verification, as the options and the trust give them. *)
Definition verification_times (trust options : jsval) (dateNow : Z) (t : Times) : Prop :=
  toNow (nullish (get options "now") (nullish (get (trust_of trust) "now") (JNum (NInt dateNow)))) dateNow = Ok (now t) /\
  number_option options "maxTtlMs" DEFAULT_MAX_TTL_MS = Ok (maxTtlMs t) /\
  number_option options "clockSkewMs" DEFAULT_CLOCK_SKEW_MS = Ok (clockSkewMs t) /\
  allowExpired t = flag_option options "allowExpired" /\ allowFuture t = flag_option options "allowFuture".

(** The signature text is the encoding of 64 bytes that the trusted key of
    the statement's issuer verifies over the statement's canonical text. *)
Definition signed_by_trusted (s : Statement) (signature : string) (trust options : jsval) : Prop :=
  exists key bytes text, resolveTrustedKey (issuer s) (key_id s) (trust_of trust) options = Ok key /\
    asymmetricKeyType key = "ed25519" /\ signature = base64 bytes /\ String.length bytes = SIGNATURE_LENGTH /\
    canonicalValue (statement_js s) = Ok text /\ verify_with key text bytes = Some true.

Definition for_audience (s : Statement) (trust options : jsval) : Prop :=
  expected_audience options (trust_of trust) <> JUndefined ->
  get (expected_audience options (trust_of trust)) "agent_id" = agent_id (audience s) /\
  get (expected_audience options (trust_of trust)) "device_id" = device_id (audience s).

Lemma toNow_number z d n : toNow (JNum (NInt z)) d = Ok n -> n = z.
Proof. simpl. intros H%of_option_ok. by destruct (Z.abs z <=? MAX_SAFE_INTEGER)%Z; [injection H|]. Qed.

Lemma publicKeyFor_ok v k : publicKeyFor v = Ok k -> asymmetricKeyType k = "ed25519".
Proof. unfold publicKeyFor. intros H. inv_result. by guards. Qed.

Lemma resolveTrustedKey_ok i k trust options key :
  resolveTrustedKey i k trust options = Ok key -> asymmetricKeyType key = "ed25519".
Proof.
  unfold resolveTrustedKey, resolve_issuer, resolve_key. intros H.
  repeat (case_match; inv_result); try discriminate; by eapply publicKeyFor_ok.
Qed.

Lemma decode_signature_ok v s bytes :
  decode_signature v = Ok (s, bytes) -> v = JStr s /\ s = base64 bytes /\ String.length bytes = SIGNATURE_LENGTH.
Proof.
  destruct v; simpl; try done. intros H. inv_result. guards.
  repeat match goal with H : Nat.eqb _ _ = true |- _ => apply Nat.eqb_eq in H end. done.
Qed.

Lemma decode_signature_base64 bytes :
  String.length bytes = SIGNATURE_LENGTH -> decode_signature (JStr (base64 bytes)) = Ok (base64 bytes, bytes).
Proof.
  intros Hl. unfold decode_signature. rewrite (proj2 (re_test_spec _ _) (base64_matches bytes)), base64_bytes_base64, Hl.
  by rewrite String.eqb_refl.
Qed.

Lemma same_id_true a b : same_id a b = true -> a = b.
Proof. destruct a; simpl; try done. by intros ->%is_str_true. Qed.

Lemma check_audience_ok e a :
  check_audience e a = Ok tt -> e <> JUndefined -> get e "agent_id" = agent_id a /\ get e "device_id" = device_id a.
Proof.
  unfold check_audience. intros H He. destruct (is_undefined e) eqn:Eu; [by apply is_undefined_true in Eu|].
  inv_result. guards. match goal with H : validateAudience _ = Ok _ |- _ => apply validateAudience_ok in H as (_ & <- & <-) end.
  split; by apply same_id_true.
Qed.

Lemma validateCapability_ok v options at_ dn s :
  validateCapability v options at_ dn = Ok s ->
  valid_statement s /\ exists t, timely s t /\
    toNow (nullish at_ (JNum (NInt dn))) dn = Ok (now t) /\
    number_option options "maxTtlMs" DEFAULT_MAX_TTL_MS = Ok (maxTtlMs t) /\
    number_option options "clockSkewMs" DEFAULT_CLOCK_SKEW_MS = Ok (clockSkewMs t) /\
    allowExpired t = flag_option options "allowExpired" /\ allowFuture t = flag_option options "allowFuture".
Proof.
  unfold validateCapability. intros H. inv_result.
  match goal with H : validateStatement _ _ = Ok _ |- _ => apply validateStatement_ok in H as [? ?] end.
  split; [done|]. by eexists.
Qed.

Lemma verifyCapability_ok capability trust options state dn s sig st' :
  verifyCapability capability trust options state dn = Ok (s, sig, st') ->
  let options := nullish options (JObj []) in
  valid_statement s /\ (exists t, verification_times trust options dn t /\ timely s t) /\
  signed_by_trusted s sig trust options /\ for_audience s trust options /\
  enforceSequence s sig options (trust_of trust) state = Ok st'.
Proof.
  unfold verifyCapability. intros H. apply bind_ok in H as (n & Hn & H). apply bind_ok in H as (s0 & Hv & H).
  apply bind_ok in H as ([sig0 bytes] & Hd & H). apply bind_ok in H as (key & Hk & H).
  apply decode_signature_ok in Hd as (_ & -> & Hl).
  destruct (verifies _ _ _) eqn:Ev; [|done]. simpl in H.
  apply bind_ok in H as ([] & Ha & H). apply bind_ok in H as (st0 & He & H). injection H as -> <- ->.
  apply validateCapability_ok in Hv as (Hs & t & Ht & Hnow & Hm & Hc & Hae & Haf). simpl.
  split; [done|]. split; [exists t; split; [|done]|].
  { unfold verification_times. apply toNow_number in Hnow. by rewrite Hnow. }
  split; [|split; [intros Hne; by apply check_audience_ok|done]].
  unfold verifies in Ev. destruct (canonicalValue (statement_js s)) as [text|] eqn:Et; [|done].
  exists key, bytes, text. split_and!; try done; [by eapply resolveTrustedKey_ok|].
  by destruct (verify_with _ _ _) as [[]|].
Qed.

(** ** Lemmas: sequences *)

(** The hash of an accepted capability, and what it leaves in the state. *)
Definition hash_of (c : Statement * string) : string :=
  match capabilityHash c.1 c.2 with Ok h => h | Throw _ => "" end.

Definition state_of (c : Statement * string) : SequenceState :=
  mkState (JNum (NInt (sequence c.1))) (JStr (hash_of c)).

Lemma enforceSequence_ok s sig options trust st st' :
  enforceSequence s sig options trust (Some st) = Ok st' ->
  st' = Some (state_of (s, sig)) /\ check_state st (sequence s) (hash_of (s, sig)) = Ok tt.
Proof.
  unfold enforceSequence, state_of, hash_of. intros H. apply bind_ok in H as (h & Hh & H). cbn [fst snd]. rewrite Hh.
  apply bind_ok in H as (? & _ & H). apply bind_ok in H as ([] & Hc & H).
  apply bind_ok in H as (? & _ & H). apply bind_ok in H as (? & _ & H). by injection H as <-.
Qed.

(** An accepted pair after another: no older sequence, and one content per
    sequence. *)
Definition follows (a b : Statement * string) : Prop :=
  (sequence a.1 <= sequence b.1)%Z /\
  (sequence a.1 = sequence b.1 -> hash_of a = hash_of b).

Lemma check_state_follows a b :
  (1 <= sequence a.1 <= MAX_SAFE_INTEGER)%Z ->
  check_state (state_of a) (sequence b.1) (hash_of b) = Ok tt -> follows a b.
Proof.
  intros Ha. unfold check_state, state_sequence, state_of. cbn [highestSequence highestCapabilityHash nullish].
  rewrite (proj2 (safe_integer_Some _ (sequence a.1))) by (split; [done|lia]). intros H. inv_result. guards.
  split; [done|]. intros Eq.
  match goal with H : _ && _ = false |- _ => cbn [is_int] in H; rewrite Eq, Z.eqb_refl in H;
    unfold differs in H; simpl in H end.
  by guards.
Qed.

Global Instance follows_trans : Transitive follows.
Proof.
  intros a b c [H1 E1] [H2 E2]. split; [lia|]. intros E. rewrite E1 by lia. apply E2. lia.
Qed.

(** Verifications one after another over the same state object: the accepted
    capabilities in order, and the last state. *)
Fixpoint verify_all (inputs : list (jsval * jsval * jsval * Z)) (st : SequenceState)
  : list (Statement * string) * SequenceState :=
  match inputs with
  | [] => ([], st)
  | (capability, trust, options, dateNow) :: inputs =>
      match verifyCapability capability trust options (Some st) dateNow with
      | Ok (c, Some st') => let '(cs, st'') := verify_all inputs st' in (c :: cs, st'')
      | _ => verify_all inputs st
      end
  end.

Lemma verify_step capability trust options st dn c st' :
  verifyCapability capability trust options (Some st) dn = Ok (c, st') ->
  st' = Some (state_of c) /\ check_state st (sequence c.1) (hash_of c) = Ok tt /\
  (1 <= sequence c.1 <= MAX_SAFE_INTEGER)%Z.
Proof.
  destruct c as [s sig]. intros H%verifyCapability_ok. destruct H as (Hs & _ & _ & _ & He).
  apply enforceSequence_ok in He as [-> Hc]. split; [done|]. split; [done|]. apply Hs.
Qed.

Lemma last_cons {A} (x : A) l d : List.last (x :: l) d = List.last l x.
Proof. revert x d. induction l as [|y l IH]; intros x d; [done|]. change (List.last (y :: l) d = List.last (y :: l) x). by rewrite !IH. Qed.

Lemma verify_all_from inputs : forall a cs st,
  (1 <= sequence a.1 <= MAX_SAFE_INTEGER)%Z -> verify_all inputs (state_of a) = (cs, st) ->
  StronglySorted follows (a :: cs) /\ st = state_of (List.last cs a).
Proof.
  induction inputs as [|[[[v trust] options] dn] inputs IH]; intros a cs st Ha H; cbn [verify_all] in H.
  { injection H as <- <-. split; [by repeat constructor|done]. }
  destruct (verifyCapability v trust options (Some (state_of a)) dn) as [[c st']|] eqn:E; [|by apply IH].
  apply verify_step in E as (-> & Hc & Hb). destruct (verify_all inputs (state_of c)) as [cs' st''] eqn:Ev.
  injection H as <- <-. destruct (IH _ _ _ Hb Ev) as [Hs ->]. apply check_state_follows in Hc; [|done].
  split.
  - constructor; [done|]. constructor; [done|]. apply StronglySorted_inv in Hs as [_ Hf].
    eapply Forall_impl; [exact Hf|]. intros x Hx. by etrans.
  - by rewrite last_cons.
Qed.

(** ** Lemmas: issued capabilities *)

Lemma without_signature_signed s sig : without_signature (signed_js s sig) = statement_js s.
Proof. reflexivity. Qed.

Lemma validateCapability_signed s sig options n dn t :
  valid_statement s -> timely s t -> toNow (JNum (NInt n)) dn = Ok n -> now t = n ->
  number_option options "maxTtlMs" DEFAULT_MAX_TTL_MS = Ok (maxTtlMs t) ->
  number_option options "clockSkewMs" DEFAULT_CLOCK_SKEW_MS = Ok (clockSkewMs t) ->
  allowExpired t = flag_option options "allowExpired" -> allowFuture t = flag_option options "allowFuture" ->
  validateCapability (signed_js s sig) options (JNum (NInt n)) dn = Ok s.
Proof.
  intros Hs Ht Hn <- Hm Hc Hae Haf. unfold validateCapability. rewrite without_signature_signed.
  change (is_object _) with true. change (get (signed_js s sig) "signature") with (JStr sig).
  cbn [negb is_undefined as_str andb nullish]. rewrite bool_decide_eq_true_2 by eauto. cbn [negb].
  rewrite Hn. cbn. rewrite Hm. cbn. rewrite Hc. cbn. rewrite <- Hae, <- Haf. destruct t. by apply validateStatement_js.
Qed.

Lemma toNow_ok v d n : toNow v d = Ok n -> v <> JUndefined -> toNow (JNum (NInt n)) d = Ok n.
Proof.
  destruct v as [ | |b|[z|x| |b]|x|l|l|x|i|i]; simpl; try done.
  - by intros [= <-].
  - intros H%of_option_ok. destruct (Z.abs z <=? MAX_SAFE_INTEGER)%Z eqn:E; [|done]. injection H as ->. by rewrite E.
Qed.

Context `{HSign : SigningKeys}.

Lemma issueCapability_ok input privateKey options uuid nonceText dn s sig :
  issueCapability input privateKey options uuid nonceText dn = Ok (s, sig) ->
  valid_statement s /\
  exists k, import_private (issue_key input privateKey) = Some k /\ asymmetricKeyType (public_of k) = "ed25519" /\
    exists text, canonicalValue (statement_js s) = Ok text /\ sig = base64 (sign_with k text).
Proof.
  unfold issueCapability. intros H. inv_result. guards.
  match goal with H : validateStatement _ _ = Ok _ |- _ => apply validateStatement_ok in H as [? _] end.
  split; [done|]. eexists. split_and!; [done|done|]. eexists. split; done.
Qed.
End Verification.

(** ** Lemmas: canonical texts *)

#[local] Arguments canonicalValue : simpl nomatch.

Section Canonical.
Context `{HParse : DateParse}.

Lemma canonicalValue_text v t : canonicalValue v = Ok t -> t = canonicalJson v.
Proof.
  revert t. induction v as [ | |b|n|x|l IH|fs IH|b|i|i] using jsval_ind; intros t H; cbn in H; try discriminate H.
  - by injection H as <-.
  - by destruct b; injection H as <-.
  - by destruct n; try discriminate H; injection H as <-.
  - by injection H as <-.
  - apply bind_ok in H as (ts & Hts%map_result_ok & [= <-]).
    cbn [canonicalJson]. do 3 f_equal. clear -IH Hts. induction Hts as [|v x l ts Hv Hts IHl]; [done|].
    apply Forall_cons in IH as [Hi IH]. simpl. rewrite (Hi _ Hv), IHl; done.
  - apply bind_ok in H as (ts & Hts%map_result_ok & [= <-]).
    cbn [canonicalJson]. do 5 f_equal. clear -IH Hts. induction Hts as [|[k v] x fs ts Hv Hts IHl]; [done|].
    apply Forall_cons in IH as [Hi IH]. apply bind_ok in Hv as (t & Ht & [= <-]).
    cbn [snd] in Hi, Ht. cbn [map fst snd]. by rewrite (Hi _ Ht), IHl.
Qed.

Lemma get_normal fs k : NoDup (map fst fs) -> get (normal (JObj fs)) k = normal (get (JObj fs) k).
Proof.
  intros Hd. rewrite normal_obj. cbn [get].
  assert (NoDup (map fst (map normal_field (sort_fields fs)))) as Hd'.
  { rewrite map_map. change (fun x => (normal_field x).1) with (fun x : string * jsval => x.1).
    by rewrite (sort_fields_perm fs). }
  destruct (assoc k fs) as [v|] eqn:E.
  - cbn [default]. erewrite assoc_elem; [done|done|]. apply list_elem_of_fmap. exists (k, v). split; [done|].
    rewrite sort_fields_perm. by apply assoc_Some_elem.
  - cbn [default]. rewrite (proj2 (assoc_None k _)); [done|]. rewrite map_map.
    change (fun x => (normal_field x).1) with (fun x : string * jsval => x.1).
    rewrite (sort_fields_perm fs). by apply assoc_None.
Qed.

Lemma normal_strings l : normal (strings_js l) = strings_js l.
Proof. unfold strings_js. cbn [normal]. f_equal. rewrite map_map. by induction l as [|x l IH]; simpl; f_equal. Qed.

Definition text_id (v : jsval) : Prop := exists t, v = JStr t.

(** The identifiers of the statement are texts. *)
Definition text_ids (s : Statement) : Prop :=
  text_id (capability_id s) /\ text_id (agent_id (audience s)) /\ text_id (device_id (audience s)).

Lemma normal_get_eq fs gs :
  NoDup (map fst fs) -> NoDup (map fst gs) -> normal (JObj fs) = normal (JObj gs) ->
  forall k, normal (get (JObj fs) k) = normal (get (JObj gs) k).
Proof. intros Hf Hg E k. by rewrite <- !get_normal, E. Qed.

Ltac distinct_keys := cbn [map fst app]; apply (bool_decide_eq_true_1 (NoDup _)); vm_compute; reflexivity.

Lemma normal_strings_inj l m : normal (strings_js l) = normal (strings_js m) -> l = m.
Proof. rewrite !normal_strings. apply strings_js_inj. Qed.

Lemma normal_filter_inj f g : normal (filter_js f) = normal (filter_js g) -> f = g.
Proof.
  destruct f as [a d], g as [b e]. intros E.
  assert (forall k, normal (get (filter_js (mkFilter a d)) k) = normal (get (filter_js (mkFilter b e)) k)) as Hk.
  { apply normal_get_eq; [destruct d; distinct_keys|destruct e; distinct_keys|exact E]. }
  pose proof (normal_strings_inj a b (Hk "allow")) as ->. f_equal. specialize (Hk "deny").
  destruct d as [d|], e as [e|]; try discriminate Hk; [|done]. by rewrite (normal_strings_inj d e Hk).
Qed.

Lemma normal_scope_inj s t : normal (scope_js s) = normal (scope_js t) -> s = t.
Proof.
  intros E. assert (forall k, normal (get (scope_js s) k) = normal (get (scope_js t) k)) as Hk.
  { apply normal_get_eq; [destruct s as [? ? ? ? []]; distinct_keys|destruct t as [? ? ? ? []]; distinct_keys|exact E]. }
  destruct s as [o r b m g], t as [o' r' b' m' g'].
  pose proof (normal_strings_inj o o' (Hk "operations")) as ->. pose proof (normal_strings_inj r r' (Hk "repositories")) as ->.
  pose proof (normal_filter_inj b b' (Hk "branches")) as ->. pose proof (normal_filter_inj m m' (Hk "remotes")) as ->.
  f_equal. specialize (Hk "tags"). destruct g as [g|], g' as [g'|]; try discriminate Hk; [|done].
  by rewrite (normal_filter_inj g g' Hk).
Qed.

Lemma json_strings l : json_value (strings_js l) = true.
Proof. unfold strings_js. cbn [json_value]. by induction l. Qed.

Lemma json_filter f : json_value (filter_js f) = true.
Proof.
  destruct f as [a [d|]]; unfold filter_js; cbn [json_value forallb map fst snd app allow deny];
    rewrite ?(json_strings a), ?(json_strings d); reflexivity.
Qed.

Lemma json_scope s : json_value (scope_js s) = true.
Proof.
  destruct s as [o r b m [g|]]; unfold scope_js;
    cbn [json_value forallb map fst snd app operations repositories branches remotes tags];
    rewrite (json_strings o), (json_strings r), (json_filter b), (json_filter m), ?(json_filter g); reflexivity.
Qed.

Lemma json_statement s : valid_statement s -> text_ids s -> json_value (statement_js s) = true.
Proof.
  intros Hs ([c Hc] & [a Ha] & [d Hd]). assert (safe_integer (JNum (NInt (sequence s))) = Some (sequence s)) as Hq.
  { apply safe_integer_Some. split; [done|]. destruct Hs as (_ & _ & _ & _ & _ & _ & _ & _ & _ & ?). lia. }
  unfold statement_js, statement_fields, audience_js. rewrite Hc, Ha, Hd.
  cbn [json_value forallb map fst snd]. rewrite (json_scope (scope s)), Hq. reflexivity.
Qed.

Lemma normal_statement_inj s t :
  valid_statement s -> valid_statement t -> text_ids s -> text_ids t ->
  normal (statement_js s) = normal (statement_js t) -> s = t.
Proof.
  intros Hs Ht ([c Hc] & [a Ha] & [d Hd]) ([c' Hc'] & [a' Ha'] & [d' Hd']) E.
  assert (forall k, normal (get (statement_js s) k) = normal (get (statement_js t) k)) as Hk.
  { apply normal_get_eq; [distinct_keys..|exact E]. }
  destruct s as [ci no iss ki [ai di] sc nb ex sq], t as [ci' no' iss' ki' [ai' di'] sc' nb' ex' sq'].
  destruct Hs as (_ & _ & _ & _ & _ & _ & Hnb & Hex & _), Ht as (_ & _ & _ & _ & _ & _ & Hnb' & Hex' & _). simpl in *. subst.
  pose proof (Hk "capability_id") as [= ->]. pose proof (Hk "nonce") as [= ->]. pose proof (Hk "issuer") as [= ->].
  pose proof (Hk "key_id") as [= ->]. pose proof (Hk "audience") as [= -> ->]. pose proof (Hk "sequence") as [= ->].
  pose proof (normal_scope_inj sc sc' (Hk "scope")) as ->.
  pose proof (Hk "not_before") as [= Enb]. pose proof (Hk "expires_at") as [= Eex].
  apply to_iso_inj in Enb as ->; [|done..]. by apply to_iso_inj in Eex as ->.
Qed.
End Canonical.

(** ** Properties *)

Section Properties.
Context `{HParse : DateParse} `{HHost : HostObjects} `{HHooks : Hooks} `{HKeys : KeyObjects} `{HSha : Sha256}.

(** C8: an accepted capability is a valid statement within its lifetime and
    the times of the verification, signed over its canonical text by the
    Ed25519 key trusted for its issuer and key identifier, and issued for the
    expected agent and device. *)
Theorem verified_capability_sound capability trust options state dateNow s sig state' :
  options <> JUndefined -> options <> JNull ->
  verifyCapability capability trust options state dateNow = Ok (s, sig, state') ->
  valid_statement s /\
  (exists t, verification_times trust options dateNow t /\ timely s t) /\
  signed_by_trusted s sig trust options /\ for_audience s trust options.
Proof.
  intros Hu Hn H%verifyCapability_ok. destruct options; try done; naive_solver.
Qed.

(** Sequences never roll back: of the capabilities accepted one after
    another over the same sequence state, a later one has no smaller sequence,
    and one of the same sequence has the same content; the state ends with
    the last accepted one. *)
Theorem accepted_sequences_monotone inputs st cs st' :
  verify_all inputs st = (cs, st') ->
  StronglySorted follows cs /\
  st' = match cs with [] => st | c :: cs => state_of (List.last cs c) end /\
  (forall c, c ∈ cs -> exists h, state_sequence st = Some h /\ (h <= sequence c.1)%Z).
Proof.
  revert st cs. induction inputs as [|[[[v trust] options] dn] inputs IH]; intros st cs H; cbn [verify_all] in H.
  { injection H as <- <-. split; [constructor|]. split; [done|set_solver]. }
  destruct (verifyCapability v trust options (Some st) dn) as [[c st1]|] eqn:E; [|by apply IH].
  apply verify_step in E as (-> & Hc & Hb). destruct (verify_all inputs (state_of c)) as [cs' st2] eqn:Ev.
  injection H as <- <-. destruct (verify_all_from _ _ _ _ Hb Ev) as [Hs ->]. split_and!; [done|done|].
  unfold check_state in Hc. destruct (state_sequence st) as [h|]; [|done]. inv_result. guards.
  intros x Hx. exists h. split; [done|]. apply StronglySorted_inv in Hs as [_ Hf]. rewrite Forall_forall in Hf.
  apply elem_of_cons in Hx as [->|Hx]; [done|]. destruct (Hf x Hx). lia.
Qed.

(** C34: what is issued verifies: a capability that [issueCapability] returns
    is accepted, and its statement and signature returned, by every
    verification that trusts the public key for its issuer, runs within its
    lifetime, expects no other audience and has no conflicting sequence. *)
Theorem issued_capability_verifies `{HSign : SigningKeys}
    input privateKey issue_options uuid nonceText dn s sig trust options state dn' t state' :
  (forall k text, verify_with (public_of k) text (sign_with k text) = Some true) ->
  (forall k text, String.length (sign_with k text) = SIGNATURE_LENGTH) ->
  issueCapability input privateKey issue_options uuid nonceText dn = Ok (s, sig) ->
  options <> JUndefined -> options <> JNull ->
  (forall k, import_private (issue_key input privateKey) = Some k ->
     resolveTrustedKey (issuer s) (key_id s) (trust_of trust) options = Ok (public_of k)) ->
  verification_times trust options dn' t -> timely s t ->
  check_audience (expected_audience options (trust_of trust)) (audience s) = Ok tt ->
  enforceSequence s sig options (trust_of trust) state = Ok state' ->
  verifyCapability (signed_js s sig) trust options state dn' = Ok (s, sig, state').
Proof.
  intros Hverify Hlength Hissue Hu Hn Htrust (Hnow & Hm & Hc & Hae & Haf) Htimely Haud Hseq.
  apply issueCapability_ok in Hissue as (Hs & k & Hk & Hed & text & Htext & ->).
  unfold verifyCapability. assert (nullish options (JObj []) = options) as -> by (by destruct options).
  rewrite Hnow. cbn. assert (toNow (JNum (NInt (now t))) dn' = Ok (now t)) as Hnow'.
  { eapply toNow_ok; [exact Hnow|]. destruct (get options "now"), (get (trust_of trust) "now"); done. }
  rewrite (validateCapability_signed _ _ _ _ _ t Hs Htimely Hnow' eq_refl Hm Hc Hae Haf). cbn [mbind result_bind].
  change (get (signed_js s ?sig) "signature") with (JStr sig).
  rewrite decode_signature_base64 by apply Hlength. cbn. rewrite (Htrust k Hk). cbn.
  unfold verifies. rewrite Htext, Hverify. cbn. rewrite Haud. cbn. by rewrite Hseq.
Qed.

(** The canonical text determines the statement: two capabilities whose
    identifiers are texts and that have the same canonical text, which is what
    a signature covers, have the same normalized statement, and that statement
    is its own normal form. *)
Theorem canonical_text_injective v w dn dn' s t text :
  validateCapability v (JObj []) JUndefined dn = Ok s -> validateCapability w (JObj []) JUndefined dn' = Ok t ->
  text_ids s -> text_ids t ->
  canonicalValue (statement_js s) = Ok text -> canonicalValue (statement_js t) = Ok text ->
  s = t /\ validateCapability (statement_js s) (JObj []) JUndefined dn = Ok s.
Proof.
  intros Hv Hw His Hit Hs%canonicalValue_text Ht%canonicalValue_text.
  apply validateCapability_ok in Hv as (Vs & tm & Tm & Hn & Hm & Hc & Hae & Haf).
  apply validateCapability_ok in Hw as (Vt & _). split.
  - apply normal_statement_inj; try done. apply canonicalJson_inj; [by apply json_statement..|]. congruence.
  - unfold validateCapability. change (without_signature (statement_js s)) with (statement_js s).
    change (is_object _) with true. change (get (statement_js s) "signature") with JUndefined. cbn [negb is_undefined andb].
    rewrite Hn. cbn -[validateStatement flag_option number_option]. rewrite Hm. cbn -[validateStatement flag_option number_option].
    rewrite Hc. cbn -[validateStatement flag_option]. rewrite <- Hae, <- Haf. destruct tm. by apply validateStatement_js.
Qed.
End Properties.

(** ** Witnesses *)

Module Sample.
#[local] Existing Instance iso_date_parse.
#[local] Existing Instance toy_sha256.

Definition issuer_key : KeyDescription := mkKeyDescription "public" "ed25519" "pem" "der".
Definition sign_text (text : string) : string := @sha256 toy_sha256 ("secret" +:+ text).

Definition hosts : HostObjects := {|
  is_map := fun _ => false; host_entry := fun _ _ => JUndefined; date_value := fun _ => None |}.
Definition hooks : Hooks := {| call_hook := fun _ _ _ => None |}.
Definition key_objects : KeyObjects := {|
  value_type := fun v => match v with JHost 7 => Some "public" | _ => None end;
  object_key := fun v => match v with JHost 7 => Some issuer_key | _ => None end;
  import_value := fun _ => None;
  import_der := fun _ => None;
  verify_with := fun _ text bytes => Some (String.eqb bytes (sign_text text)) |}.
Definition signing_keys : SigningKeys := {|
  PrivateKey := unit; import_private := fun _ => Some tt; public_of := fun _ => issuer_key;
  sign_with := fun _ => sign_text |}.
#[local] Existing Instances hosts hooks key_objects signing_keys.

Definition uuid : string := "0b54e0c0-3f0a-4d5b-9a0e-1234567890ab".
Definition time : Z := 1700000000000.

(** A request for sequence [n], issued and verified at [time]. *)
Definition input (n : Z) : jsval :=
  JObj [("issuer", JStr "cloud"); ("key_id", JStr "key-1"); ("nonce", JStr "0123456789abcdef0123456789abcdef");
        ("audience", JObj [("agent_id", JStr uuid); ("device_id", JStr uuid)]);
        ("scope", scope_js (branch_scope "agent/*")); ("sequence", JNum (NInt n))].
Definition options : jsval := JObj [("now", JNum (NInt time))].
Definition trust : jsval := JHost 7.

Definition issued (n : Z) : Statement * string :=
  match issueCapability (input n) (JHost 1) options uuid "" time with
  | Ok c => c
  | Throw _ => (mkStatement JNull "" "" "" (mkAudience JNull JNull) (branch_scope "") 0 0 0, "")
  end.

Definition capability (n : Z) : jsval := signed_js (issued n).1 (issued n).2.

Definition fresh : SequenceState := mkState JUndefined JUndefined.
Definition inputs : list (jsval * jsval * jsval * Z) :=
  [(capability 2, trust, options, time); (capability 1, trust, options, time); (capability 3, trust, options, time)].

Definition times : Times := mkTimes time DEFAULT_MAX_TTL_MS DEFAULT_CLOCK_SKEW_MS false false.
End Sample.

Lemma verified_capability_sound_witness :
  @valid_statement (Sample.issued 2).1.
Proof.
  refine (proj1 (@verified_capability_sound iso_date_parse Sample.hosts Sample.hooks Sample.key_objects toy_sha256
    (Sample.capability 2) Sample.trust Sample.options (Some Sample.fresh) Sample.time (Sample.issued 2).1 (Sample.issued 2).2
    (Some (@state_of toy_sha256 (Sample.issued 2))) _ _ _)); [discriminate..|]. vm_compute. reflexivity.
Defined.

Lemma accepted_sequences_monotone_witness :
  StronglySorted (@follows toy_sha256) [Sample.issued 2; Sample.issued 3].
Proof.
  refine (proj1 (@accepted_sequences_monotone iso_date_parse Sample.hosts Sample.hooks Sample.key_objects toy_sha256
    Sample.inputs Sample.fresh _ (@state_of toy_sha256 (Sample.issued 3)) _)). vm_compute. reflexivity.
Defined.

Lemma sign_text_length text : String.length (Sample.sign_text text) = SIGNATURE_LENGTH.
Proof.
  assert (forall k n, String.length (hex_word n k) = k) as H.
  { induction k as [|k IH]; intros n; [done|]. cbn [hex_word String.length]. by rewrite IH. }
  apply H.
Qed.

Lemma issued_capability_verifies_witness :
  @verifyCapability iso_date_parse Sample.hosts Sample.hooks Sample.key_objects toy_sha256
    (Sample.capability 2) Sample.trust Sample.options (Some Sample.fresh) Sample.time
  = Ok ((Sample.issued 2).1, (Sample.issued 2).2, Some (@state_of toy_sha256 (Sample.issued 2))).
Proof.
  apply (@issued_capability_verifies iso_date_parse Sample.hosts Sample.hooks Sample.key_objects toy_sha256 Sample.signing_keys
    (Sample.input 2) (JHost 1) Sample.options Sample.uuid "" Sample.time (Sample.issued 2).1 (Sample.issued 2).2
    Sample.trust Sample.options (Some Sample.fresh) Sample.time Sample.times).
  - intros k text. exact (f_equal Some (String.eqb_refl _)).
  - intros k text. apply sign_text_length.
  - vm_compute. reflexivity.
  - discriminate.
  - discriminate.
  - intros k _. vm_compute. reflexivity.
  - unfold verification_times. split_and!; vm_compute; reflexivity.
  - unfold timely. split_and!; [vm_compute; discriminate|intros _; vm_compute; discriminate|intros _; vm_compute; reflexivity].
  - vm_compute. reflexivity.
  - vm_compute. reflexivity.
Defined.

Lemma issued_text_ids : text_ids (Sample.issued 2).1.
Proof. split_and!; exists Sample.uuid; vm_compute; reflexivity. Qed.

Lemma issued_valid :
  @validateCapability iso_date_parse (Sample.capability 2) (JObj []) JUndefined Sample.time = Ok (Sample.issued 2).1.
Proof. vm_compute. reflexivity. Qed.

Lemma issued_text : canonicalValue (statement_js (Sample.issued 2).1) = Ok (canonicalJson (statement_js (Sample.issued 2).1)).
Proof. vm_compute. reflexivity. Qed.

Lemma canonical_text_injective_witness :
  @validateCapability iso_date_parse (statement_js (Sample.issued 2).1) (JObj []) JUndefined Sample.time
  = Ok (Sample.issued 2).1.
Proof.
  exact (proj2 (@canonical_text_injective iso_date_parse (Sample.capability 2) (Sample.capability 2) Sample.time Sample.time
    (Sample.issued 2).1 (Sample.issued 2).1 _ issued_valid issued_valid issued_text_ids issued_text_ids issued_text issued_text)).
Defined.
