(* ===== verification/KeyLifecycle.v ===== *)
(** * Managed signer key lifecycle (apps/cloud-api/src/managed-signer-key-lifecycle.mjs)

    The versioned state machine of the signing keys of one purpose: rotation,
    retirement with a verification overlap, revocation, emergency disable and
    restore, with idempotent operations.  A controller is the record
    [Lifecycle] (the variables [current] and [operations] of the closure); an
    operation takes the values the clock returns to it, in order, and gives a
    new controller or an error that leaves the old one.  Clock values are
    numbers; [Date] objects, objects used as key ids (accepted after
    conversion by the expression test) and throwing clocks are not modelled. *)

From stdpp Require Import base tactics sets list strings pretty relations.
From S2P Require Import Prelude JsValue Regex IsoTime Json StrictJson Crypto.
Local Open Scope string_scope.
Local Open Scope Z_scope.
Local Open Scope js_scope.

(** ** Constants and errors *)

Inductive KeyState := ACTIVE | RETIRING | REVOKED | EMERGENCY_DISABLED.

Inductive code :=
| CONFIG | PURPOSE_CODE | VERSION | TRANSITION | OVERLAP | DUPLICATE | NOT_ACTIVE | NOT_VERIFIABLE
| IDEMPOTENCY.

#[export] Instance KeyState_eq_dec : EqDecision KeyState.
Proof. solve_decision. Defined.
#[export] Instance code_eq_dec : EqDecision code.
Proof. solve_decision. Defined.

Definition state_name (s : KeyState) : string :=
  match s with
  | ACTIVE => "active" | RETIRING => "retiring" | REVOKED => "revoked"
  | EMERGENCY_DISABLED => "emergency-disabled"
  end.

(** [STATES.has(value)] *)
Definition read_state (v : jsval) : option KeyState :=
  match v with
  | JStr s =>
      if String.eqb s "active" then Some ACTIVE
      else if String.eqb s "retiring" then Some RETIRING
      else if String.eqb s "revoked" then Some REVOKED
      else if String.eqb s "emergency-disabled" then Some EMERGENCY_DISABLED
      else None
  | _ => None
  end.

Definition id_char (c : Ascii.ascii) : bool := alnum c || in_chars "._:/-" c.

Definition KEY_ID : re := RSeq (one alnum) (upto id_char 255).
Definition PURPOSE : re := RSeq (one alnum) (upto id_char 127).
Definition OPERATION_ID : re := RSeq (one alnum) (many id_char).
Definition ALGORITHM := "ed25519".
Definition FINGERPRINT : re := times hex_lower 64.

Definition newline : string := String (Ascii.ascii_of_nat 10) "".
Definition any_char (_ : Ascii.ascii) : bool := true.
(** [\s] *)
Definition space_char (c : Ascii.ascii) : bool :=
  match Regex.code c with 9 | 10 | 11 | 12 | 13 | 32 | 160 => true | _ => false end%nat.

Definition PUBLIC_KEY_PEM : re :=
  seqs [lit "-----BEGIN PUBLIC KEY-----"; lit newline; some any_char; lit newline;
        lit "-----END PUBLIC KEY-----"; lit newline].
Definition PRIVATE_KEY_TEXT : re := somewhere (seqs [lit_i "PRIVATE"; some space_char; lit_i "KEY"]).

Definition SNAPSHOT_KEYS := ["algorithm"; "keys"; "purpose"; "version"].
Definition KEY_REQUIRED_KEYS :=
  ["algorithm"; "key_id"; "key_version"; "public_key_fingerprint"; "purpose"; "state"; "state_version"].
Definition KEY_OPTIONAL_KEYS := ["public_key"; "verification_until"].

Definition YEAR_MS : Z := 365 * 24 * 60 * 60 * 1000.

(** ** Data *)

(** A normalized key; [purpose] and [algorithm] are those of the options. *)
Record Key := mkKey {
  key_id : jsval;
  key_version : Z;
  public_key_fingerprint : string;
  state : KeyState;
  state_version : Z;
  public_key : option string;
  verification_until : option string
}.

Record Snapshot := mkSnapshot { version : Z; keys : list Key }.

(** The validated parameters of the constructor. *)
Record Options := mkOptions {
  purpose : string;
  maxVerificationOverlapMs : Z;
  maxKeys : Z;
  maxIdempotencyEntries : Z
}.

(** The variables of the closure: the snapshot and the operations map in
    insertion order, each entry with its digest and result. *)
Record Lifecycle := mkLifecycle {
  current : Snapshot;
  operations : list (string * (string * Snapshot))
}.

#[export] Instance Key_eq_dec : EqDecision Key.
Proof. solve_decision. Defined.
#[export] Instance Snapshot_eq_dec : EqDecision Snapshot.
Proof. solve_decision. Defined.

(** ** Helpers *)

Definition closedKeys (v : jsval) (required optional : list string) : bool :=
  is_plain v
  && forallb (includes (required ++ optional)%list) (own_keys v)
  && forallb (fun k => has_own v k && negb (is_undefined (get v k))) required.

Definition exactKeys (v : jsval) (expected : list string) : bool :=
  closedKeys v expected [] && Nat.eqb (length (own_keys v)) (length expected).

Definition readNow (v : jsval) : result code Z :=
  match safe_integer v with
  | Some z => throw_if z <? 0 with CONFIG ;; Ok z
  | None => Throw CONFIG
  end.

Definition requireOperationId (v : jsval) : result code string :=
  match v with
  | JStr s =>
      throw_if Nat.ltb (String.length s) 1 || Nat.ltb 256 (String.length s) || negb (re_test OPERATION_ID s)
        with CONFIG ;;
      Ok s
  | _ => Throw CONFIG
  end.

Definition assertExpectedVersion (v : jsval) (currentVersion : Z) : result code unit :=
  match safe_integer v with
  | Some z => throw_if (z <? 1) || negb (z =? currentVersion) with VERSION ;; Ok tt
  | None => Throw VERSION
  end.

(** The transition matrix of [assertTransition]. *)
Definition allowed (from to : KeyState) : bool :=
  match from, to with
  | ACTIVE, (RETIRING | REVOKED | EMERGENCY_DISABLED) => true
  | RETIRING, (REVOKED | EMERGENCY_DISABLED) => true
  | REVOKED, EMERGENCY_DISABLED => true
  | _, _ => false
  end.

Definition assertTransition (from : KeyState) (to : jsval) : result code KeyState :=
  match read_state to with
  | Some to => throw_if negb (allowed from to) with TRANSITION ;; Ok to
  | None => Throw TRANSITION
  end.

(** [Math.max] of the key versions, which are positive. *)
Definition maxKeyVersion (ks : list Key) : Z := foldr (fun k m => Z.max (key_version k) m) 0 ks.

Definition is_active (k : Key) : bool := bool_decide (state k = ACTIVE).

(** [Array.prototype.find] *)
Fixpoint find_key (p : Key -> bool) (ks : list Key) : option Key :=
  match ks with [] => None | k :: ks => if p k then Some k else find_key p ks end.

(** [operations.set(id, entry)] for a new id, then the eviction loop. *)
Definition record_operation (max : Z) (ops : list (string * (string * Snapshot))) (id : string)
    (entry : string * Snapshot) : list (string * (string * Snapshot)) :=
  let ops := (ops ++ [(id, entry)])%list in
  drop (length ops - Z.to_nat max)%nat ops.

Fixpoint lookup_operation (ops : list (string * (string * Snapshot))) (id : string) : option (string * Snapshot) :=
  match ops with
  | [] => None
  | (k, e) :: ops => if String.eqb k id then Some e else lookup_operation ops id
  end.

Section Lifecycle.
Context `{HDate : DateParse} `{HSha : Sha256} `{HPub : PublicKeys}.

(** ** Normalization *)

Definition validIso (v : string) : option Z := if re_test ISO v then canonical_iso v else None.

Definition validatePublicKey (v : jsval) (fingerprint : string) : result code (option string) :=
  if is_undefined v then Ok None else
  match v with
  | JStr pem =>
      throw_if negb (re_test PUBLIC_KEY_PEM pem) || re_test PRIVATE_KEY_TEXT pem with CONFIG ;;
      match createPublicKey pem with
      | None => Throw CONFIG
      | Some key =>
          throw_if negb (String.eqb (key_type key) "public")
                   || negb (String.eqb (asymmetricKeyType key) ALGORITHM) with CONFIG ;;
          throw_if negb (String.eqb (sha256 (spki_der key)) fingerprint) || negb (String.eqb (spki_pem key) pem)
            with CONFIG ;;
          Ok (Some (spki_pem key))
      end
  | _ => Throw CONFIG
  end.

Definition normalize_until (o : Options) (now : Z) (allowExpiredRetiring : bool) (st : KeyState) (v : jsval)
  : result code (option string) :=
  if bool_decide (st = RETIRING) then
    match v with
    | JStr s =>
        match validIso s with
        | None => Throw OVERLAP
        | Some expiry =>
            throw_if negb allowExpiredRetiring && (expiry <=? now) with OVERLAP ;;
            throw_if now + maxVerificationOverlapMs o <? expiry with OVERLAP ;;
            Ok (Some s)
        end
    | _ => Throw OVERLAP
    end
  else
    match v with JUndefined | JNull => Ok None | _ => Throw CONFIG end.

Definition normalizeKey (o : Options) (now : Z) (allowExpiredRetiring : bool) (v : jsval) : result code Key :=
  throw_if negb (closedKeys v KEY_REQUIRED_KEYS KEY_OPTIONAL_KEYS)
           || negb (coerced_test KEY_ID (nullish (get v "key_id") (JStr "")))
           || negb (is_str (get v "purpose") (purpose o)) || negb (is_str (get v "algorithm") ALGORITHM)
    with CONFIG ;;
  match safe_integer (get v "key_version"), read_state (get v "state"), safe_integer (get v "state_version"),
        get v "public_key_fingerprint" with
  | Some kv, Some st, Some sv, JStr fp =>
      throw_if (kv <? 1) || (MAX_SAFE_INTEGER <? kv) || (sv <? 1) || negb (re_test FINGERPRINT fp) with CONFIG ;;
      pk ← validatePublicKey (get v "public_key") fp;
      until ← normalize_until o now allowExpiredRetiring st (get v "verification_until");
      Ok (mkKey (get v "key_id") kv fp st sv pk until)
  | _, _, _, _ => Throw CONFIG
  end.

(** The loop over the normalized keys: duplicates and versions. *)
Fixpoint check_keys (version : Z) (ids : list jsval) (fingerprints : list string) (versions : list Z)
    (ks : list Key) : result code unit :=
  match ks with
  | [] => Ok tt
  | k :: ks =>
      throw_if includes ids (key_id k) || includes fingerprints (public_key_fingerprint k)
               || includes versions (key_version k) with DUPLICATE ;;
      throw_if version <? state_version k with VERSION ;;
      check_keys version (key_id k :: ids) (public_key_fingerprint k :: fingerprints)
        (key_version k :: versions) ks
  end.

Definition normalizeSnapshot (o : Options) (now : Z) (v : jsval) : result code Snapshot :=
  throw_if negb (is_plain v) || negb (exactKeys v SNAPSHOT_KEYS) || negb (is_str (get v "purpose") (purpose o))
           || negb (is_str (get v "algorithm") ALGORITHM) with CONFIG ;;
  match safe_integer (get v "version"), get v "keys" with
  | Some version, JArr ks =>
      throw_if (version <? 1) || Nat.ltb (length ks) 1 || (maxKeys o <? Z.of_nat (length ks)) with CONFIG ;;
      keys ← map_result (normalizeKey o now true) ks;
      _ ← check_keys version [] [] [] keys;
      throw_if Nat.ltb 1 (length (filter (fun k => state k = ACTIVE) keys)) with TRANSITION ;;
      Ok (mkSnapshot version keys)
  | _, _ => Throw CONFIG
  end.

(** The objects that a normalized key and snapshot are; an absent
    [verification_until] stands also for one set to [undefined]. *)
Definition key_js (o : Options) (k : Key) : jsval :=
  JObj ([("key_id", key_id k); ("key_version", JNum (NInt (key_version k)));
         ("purpose", JStr (purpose o)); ("algorithm", JStr ALGORITHM);
         ("public_key_fingerprint", JStr (public_key_fingerprint k));
         ("state", JStr (state_name (state k))); ("state_version", JNum (NInt (state_version k)))]
        ++ match public_key k with Some p => [("public_key", JStr p)] | None => [] end
        ++ match verification_until k with Some t => [("verification_until", JStr t)] | None => [] end)%list.

Definition snapshot_js (o : Options) (s : Snapshot) : jsval :=
  JObj [("version", JNum (NInt (version s))); ("purpose", JStr (purpose o)); ("algorithm", JStr ALGORITHM);
        ("keys", JArr (map (key_js o) (keys s)))].

(** [validateOptions] and the construction of the closure. *)
Definition validateOptions (purpose algorithm now maxOverlap maxKeys maxEntries : jsval) : result code Options :=
  match purpose, safe_integer maxOverlap, safe_integer maxKeys, safe_integer maxEntries with
  | JStr p, Some ov, Some mk, Some me =>
      throw_if negb (re_test PURPOSE p) || negb (is_str algorithm ALGORITHM) || negb (is_function now)
               || (ov <? 1) || (YEAR_MS <? ov) || (mk <? 1) || (32 <? mk) || (me <? 1) || (4096 <? me)
        with CONFIG ;;
      Ok (mkOptions p ov mk me)
  | _, _, _, _ => Throw CONFIG
  end.

Definition createManagedSignerKeyLifecycle (purpose algorithm clock maxOverlap maxKeys maxEntries snapshot : jsval)
    (now : jsval) : result code (Options * Lifecycle) :=
  o ← validateOptions purpose algorithm clock maxOverlap maxKeys maxEntries;
  t ← readNow now;
  s ← normalizeSnapshot o t snapshot;
  Ok (o, mkLifecycle s []).

(** ** Queries *)

Definition activeKey (s : Snapshot) : option Key := find_key is_active (keys s).

Definition findKey (s : Snapshot) (keyId : jsval) : result code Key :=
  match keyId with
  | JStr _ => of_option CONFIG (find_key (fun k => bool_decide (key_id k = keyId)) (keys s))
  | _ => Throw CONFIG
  end.

Definition assertCanSign (s : Snapshot) (keyId : jsval) : result code Key :=
  key ← findKey s keyId;
  throw_if negb (is_active key) with NOT_ACTIVE ;; Ok key.

Definition isVerifiable (k : Key) (now : Z) : bool :=
  is_active k ||
  (bool_decide (state k = RETIRING) &&
   match verification_until k with
   | Some s => match date_parse s with Some t => now <? t | None => false end
   | None => false
   end).

Definition resolveVerificationKey (s : Snapshot) (keyId at_ : jsval) : result code Key :=
  key ← findKey s keyId;
  now ← readNow at_;
  throw_if negb (isVerifiable key now) with NOT_VERIFIABLE ;; Ok key.

(** ** Operations *)

Definition parseOverlap (v : jsval) (now : Z) : result code string :=
  match v with
  | JStr s =>
      match validIso s with
      | Some t => throw_if t <=? now with OVERLAP ;; Ok s
      | None => Throw OVERLAP
      end
  | _ => Throw OVERLAP
  end.

Definition set_state (k : Key) (st : KeyState) (sv : Z) (until : option string) : Key :=
  mkKey (key_id k) (key_version k) (public_key_fingerprint k) st sv (public_key k) until.

Definition transitionRecord (source : Key) (to : KeyState) (until : jsval) (now version : Z) : result code Key :=
  if bool_decide (to = RETIRING) then
    expiry ← parseOverlap until now; Ok (set_state source to version (Some expiry))
  else Ok (set_state source to version None).

Definition commit (o : Options) (s : Snapshot) (ks : list Key) (now : jsval) : result code Snapshot :=
  let version := (version s + 1)%Z in
  throw_if (MAX_SAFE_INTEGER <? version) with VERSION ;;
  t ← readNow now;
  normalizeSnapshot o t (snapshot_js o (mkSnapshot version ks)).

Fixpoint replace_first (p : Key -> bool) (k' : Key) (ks : list Key) : list Key :=
  match ks with [] => [] | k :: ks => if p k then k' :: ks else k :: replace_first p k' ks end.

(** The body of [transitionKey], on the values the clock returns to it. *)
Definition transition_body (o : Options) (s : Snapshot) (expected keyId to until now1 now2 : jsval)
  : result code Snapshot :=
  _ ← assertExpectedVersion expected (version s);
  let has_id := fun k => bool_decide (key_id k = keyId) in
  source ← of_option TRANSITION (find_key has_id (keys s));
  to ← assertTransition (state source) to;
  now ← readNow now1;
  updated ← transitionRecord source to until now (version s + 1);
  commit o s (replace_first has_id updated (keys s)) now2.

Definition conflicts (k : Key) (ks : list Key) : bool :=
  existsb (fun k' => bool_decide (key_id k' = key_id k)
                     || String.eqb (public_key_fingerprint k') (public_key_fingerprint k)) ks.

Definition rotate_body (o : Options) (s : Snapshot) (expected newKey until now1 now2 : jsval)
  : result code Snapshot :=
  _ ← assertExpectedVersion expected (version s);
  currentActive ← of_option TRANSITION (activeKey s);
  throw_if is_undefined until with TRANSITION ;;
  now ← readNow now1;
  newRecord ← normalizeKey o now false newKey;
  throw_if negb (is_active newRecord) || conflicts newRecord (keys s) with DUPLICATE ;;
  throw_if maxKeys o <=? Z.of_nat (length (keys s)) with CONFIG ;;
  throw_if key_version newRecord <=? maxKeyVersion (keys s) with VERSION ;;
  retiring ← transitionRecord currentActive RETIRING until now (version s + 1);
  let activated := set_state newRecord (state newRecord) (version s + 1) (verification_until newRecord) in
  let retained := map (fun k => if bool_decide (key_id k = key_id currentActive) then retiring else k) (keys s) in
  commit o s (retained ++ [activated])%list now2.

Definition disable_body (o : Options) (s : Snapshot) (expected now2 : jsval) : result code Snapshot :=
  _ ← assertExpectedVersion expected (version s);
  throw_if forallb (fun k => bool_decide (state k = EMERGENCY_DISABLED)) (keys s) with TRANSITION ;;
  commit o s (map (fun k => set_state k EMERGENCY_DISABLED (version s + 1) None) (keys s)) now2.

Definition restore_body (o : Options) (s : Snapshot) (expected newKey now1 now2 : jsval)
  : result code Snapshot :=
  _ ← assertExpectedVersion expected (version s);
  throw_if bool_decide (is_Some (activeKey s)) with TRANSITION ;;
  now ← readNow now1;
  newRecord ← normalizeKey o now false newKey;
  throw_if negb (is_active newRecord) || conflicts newRecord (keys s) with DUPLICATE ;;
  throw_if key_version newRecord <=? maxKeyVersion (keys s) with VERSION ;;
  throw_if maxKeys o <=? Z.of_nat (length (keys s)) with CONFIG ;;
  commit o s (keys s ++ [set_state newRecord (state newRecord) (version s + 1) (verification_until newRecord)])%list now2.

(** The four operations with the fields of their argument object. *)
Inductive Operation :=
| TransitionKey (expected_version key_id to verification_until : jsval)
| Rotate (expected_version new_key verification_until : jsval)
| EmergencyDisable (expected_version : jsval)
| RestoreKey (expected_version new_key : jsval).

(** The request whose digest identifies the operation. *)
Definition request_of (op : Operation) : jsval :=
  match op with
  | TransitionKey e k t u =>
      JObj ([("expected_version", e); ("key_id", k); ("to", t)]
            ++ if is_undefined u then [] else [("verification_until", u)])%list
  | Rotate e n u => JObj [("expected_version", e); ("new_key", n); ("verification_until", u)]
  | EmergencyDisable e => JObj [("expected_version", e)]
  | RestoreKey e n => JObj [("expected_version", e); ("new_key", n)]
  end.

Definition expected_of (op : Operation) : jsval :=
  match op with
  | TransitionKey e _ _ _ | Rotate e _ _ | EmergencyDisable e | RestoreKey e _ => e
  end.

Definition body (o : Options) (s : Snapshot) (op : Operation) (now1 now2 : jsval) : result code Snapshot :=
  match op with
  | TransitionKey e k t u => transition_body o s e k t u now1 now2
  | Rotate e n u => rotate_body o s e n u now1 now2
  | EmergencyDisable e => disable_body o s e now2
  | RestoreKey e n => restore_body o s e n now1 now2
  end.

Definition canonicalDigest (v : jsval) : string := sha256 (canonicalJson v).

(** [idempotent(operation_id, request, body)] *)
Definition perform (o : Options) (l : Lifecycle) (operationId : jsval) (op : Operation) (now1 now2 : jsval)
  : result code (Lifecycle * Snapshot) :=
  id ← requireOperationId operationId;
  let digest := canonicalDigest (request_of op) in
  match lookup_operation (operations l) id with
  | Some (previous, result) =>
      throw_if negb (String.eqb previous digest) with IDEMPOTENCY ;; Ok (l, result)
  | None =>
      s ← body o (current l) op now1 now2;
      Ok (mkLifecycle s (record_operation (maxIdempotencyEntries o) (operations l) id (digest, s)), s)
  end.

(** ** Well-formed keys and snapshots *)

Definition valid_key (k : Key) : Prop :=
  coerced_test KEY_ID (nullish (key_id k) (JStr "")) = true /\
  1 <= key_version k <= MAX_SAFE_INTEGER /\ 1 <= state_version k <= MAX_SAFE_INTEGER /\
  re_test FINGERPRINT (public_key_fingerprint k) = true /\
  match public_key k with
  | Some p => validatePublicKey (JStr p) (public_key_fingerprint k) = Ok (Some p)
  | None => True
  end /\
  match verification_until k with
  | Some t => state k = RETIRING /\ is_Some (validIso t)
  | None => state k <> RETIRING
  end.

Definition valid_snapshot (o : Options) (s : Snapshot) : Prop :=
  1 <= version s <= MAX_SAFE_INTEGER /\
  1 <= Z.of_nat (length (keys s)) <= maxKeys o /\
  Forall valid_key (keys s) /\
  Forall (fun k => state_version k <= version s) (keys s) /\
  NoDup (map key_id (keys s)) /\ NoDup (map public_key_fingerprint (keys s)) /\
  NoDup (map key_version (keys s)) /\
  (length (filter (fun k => state k = ACTIVE) (keys s)) <= 1)%nat.

(** ** Lemmas: normalization *)

Lemma read_state_name st : read_state (JStr (state_name st)) = Some st.
Proof. by destruct st. Qed.

Lemma safe_integer_range v z : safe_integer v = Some z -> z <= MAX_SAFE_INTEGER.
Proof. intros [_ ?]%safe_integer_Some. lia. Qed.

Lemma validatePublicKey_ok v fp p :
  validatePublicKey v fp = Ok p ->
  match p with Some p => v = JStr p /\ validatePublicKey (JStr p) fp = Ok (Some p) | None => v = JUndefined end.
Proof.
  unfold validatePublicKey at 1. destruct (is_undefined v) eqn:E.
  { intros [= <-]. by apply is_undefined_true. }
  destruct v as [ | | | |s| | | | | ]; try done. intros Hv. inv_result.
  destruct (createPublicKey s) as [key|] eqn:Ek; [|done]. inv_result. guards.
  assert (spki_pem key = s) as Es by done. rewrite Es. split; [done|].
  unfold validatePublicKey. simpl. rewrite Ek.
  repeat match goal with H : ?a = _ |- context [?a] => rewrite H end. by rewrite !String.eqb_refl.
Qed.

Lemma normalize_until_ok o now ae st v u :
  normalize_until o now ae st v = Ok u ->
  match u with
  | Some t => v = JStr t /\ st = RETIRING /\ is_Some (validIso t)
  | None => (v = JUndefined \/ v = JNull) /\ st <> RETIRING
  end.
Proof.
  unfold normalize_until. destruct (bool_decide_reflect (st = RETIRING)) as [->|Hst].
  - destruct v as [ | | | |s| | | | | ]; try done. destruct (validIso s) eqn:E; [|done].
    intros Hv. inv_result. by rewrite E.
  - destruct v; try done; intros [= <-]; auto.
Qed.

Lemma normalizeKey_ok o now ae v k :
  normalizeKey o now ae v = Ok k ->
  valid_key k /\ key_id k = get v "key_id" /\ get v "key_version" = JNum (NInt (key_version k)) /\
  get v "public_key_fingerprint" = JStr (public_key_fingerprint k) /\
  read_state (get v "state") = Some (state k) /\ get v "state_version" = JNum (NInt (state_version k)) /\
  match public_key k with Some p => get v "public_key" = JStr p | None => get v "public_key" = JUndefined end /\
  match verification_until k with
  | Some t => get v "verification_until" = JStr t
  | None => get v "verification_until" = JUndefined \/ get v "verification_until" = JNull
  end.
Proof.
  unfold normalizeKey. intros Hk. inv_result.
  destruct (safe_integer (get v "key_version")) as [kv|] eqn:Ekv; [|done].
  destruct (read_state (get v "state")) as [st|] eqn:Est; [|done].
  destruct (safe_integer (get v "state_version")) as [sv|] eqn:Esv; [|done].
  destruct (get v "public_key_fingerprint") as [ | | | |fp| | | | | ] eqn:Efp; try done.
  inv_result. guards.
  pose proof (safe_integer_range _ _ Ekv). pose proof (safe_integer_range _ _ Esv).
  apply safe_integer_Some in Ekv as [-> ?]. apply safe_integer_Some in Esv as [-> ?].
  match goal with H : validatePublicKey _ _ = Ok _ |- _ => apply validatePublicKey_ok in H as Hpk end.
  match goal with H : normalize_until _ _ _ _ _ = Ok _ |- _ => apply normalize_until_ok in H as Hu end.
  unfold valid_key; simpl; repeat case_match; naive_solver lia.
Qed.

Lemma check_keys_ok v ids fps vs ks :
  check_keys v ids fps vs ks = Ok tt <->
  Forall (fun k => state_version k <= v) ks /\
  NoDup (map key_id ks) /\ NoDup (map public_key_fingerprint ks) /\ NoDup (map key_version ks) /\
  Forall (fun k => key_id k ∉ ids /\ public_key_fingerprint k ∉ fps /\ key_version k ∉ vs) ks.
Proof.
  revert ids fps vs. induction ks as [|k ks IH]; intros ids fps vs; simpl.
  { split; [|done]. intros _. split_and!; constructor. }
  rewrite !Forall_cons, !NoDup_cons.
  destruct (includes ids (key_id k)) eqn:E1; [apply includes_true in E1; naive_solver|].
  destruct (includes fps (public_key_fingerprint k)) eqn:E2; [apply includes_true in E2; naive_solver|].
  destruct (includes vs (key_version k)) eqn:E3; [apply includes_true in E3; naive_solver|].
  apply includes_false in E1, E2, E3. simpl.
  destruct (Z.ltb_spec v (state_version k)) as [Hv|Hv]; [naive_solver lia|].
  rewrite IH. rewrite !Forall_forall.
  assert (forall A `{EqDecision A} (f : Key -> A), f k ∉ map f ks <-> (forall x, x ∈ ks -> f x <> f k)) as Hmap.
  { intros A EA f. rewrite list_elem_of_fmap. naive_solver. }
  rewrite !Hmap by apply _. setoid_rewrite not_elem_of_cons. naive_solver.
Qed.

Lemma key_js_fields o k :
  get (key_js o k) "key_id" = key_id k /\
  get (key_js o k) "key_version" = JNum (NInt (key_version k)) /\
  get (key_js o k) "public_key_fingerprint" = JStr (public_key_fingerprint k) /\
  get (key_js o k) "state" = JStr (state_name (state k)) /\
  get (key_js o k) "state_version" = JNum (NInt (state_version k)) /\
  get (key_js o k) "public_key" = from_option JStr JUndefined (public_key k) /\
  get (key_js o k) "verification_until" = from_option JStr JUndefined (verification_until k).
Proof. destruct k as [? ? ? ? ? [|] [|]]; done. Qed.

Lemma normalizeKey_js o now ae k k' : normalizeKey o now ae (key_js o k) = Ok k' -> k' = k /\ valid_key k.
Proof.
  intros (Hv & E1 & E2 & E3 & E4 & E5 & E6 & E7)%normalizeKey_ok.
  destruct (key_js_fields o k) as (F1 & F2 & F3 & F4 & F5 & F6 & F7).
  rewrite F1 in E1. rewrite F2 in E2. rewrite F3 in E3. rewrite F4, read_state_name in E4. rewrite F5 in E5.
  rewrite F6 in E6. rewrite F7 in E7.
  assert (k' = k) as ->; [|done]. destruct k as [? ? ? ? ? pk u], k' as [? ? ? ? ? pk' u']; simpl in *.
  destruct pk, pk', u, u'; simpl in *; naive_solver.
Qed.

Lemma normalizeKeys_js o now ae ks ks' :
  map_result (normalizeKey o now ae) (map (key_js o) ks) = Ok ks' -> ks' = ks /\ Forall valid_key ks.
Proof.
  rewrite map_result_ok. revert ks'. induction ks as [|k ks IH]; intros ks' Hf; inversion Hf; subst; [done|].
  match goal with H : normalizeKey _ _ _ _ = Ok _ |- _ => apply normalizeKey_js in H as [-> ?] end.
  destruct (IH _ ltac:(eassumption)) as [-> ?]. by split; [|constructor].
Qed.

Lemma normalizeSnapshot_valid o now v s :
  normalizeSnapshot o now v = Ok s -> valid_snapshot o s.
Proof.
  unfold normalizeSnapshot. intros Hs. inv_result.
  destruct (safe_integer (get v "version")) as [version|] eqn:Ev; [|done].
  destruct (get v "keys") as [ | | | | |ks| | | | ]; try done. inv_result. guards.
  match goal with H : map_result _ _ = Ok _ |- _ =>
    pose proof (map_result_length _ _ _ H) as Hl; apply map_result_ok in H as Hks end.
  match goal with H : check_keys _ _ _ _ _ = Ok ?u |- _ => destruct u; apply check_keys_ok in H as (? & ? & ? & ? & _) end.
  apply safe_integer_range in Ev. unfold valid_snapshot. simpl.
  repeat match goal with H : Nat.ltb _ _ = false |- _ => apply Nat.ltb_ge in H end.
  split_and!; try done; try lia.
  eapply Forall2_Forall_r; [exact Hks|]. apply Forall_forall. intros x _ y Hy. by apply normalizeKey_ok in Hy as [? _].
Qed.

Lemma normalizeSnapshot_js o now s s' : normalizeSnapshot o now (snapshot_js o s) = Ok s' -> s' = s.
Proof.
  unfold normalizeSnapshot. intros Hs. inv_result. simpl in Hs.
  destruct (Z.abs (version s) <=? MAX_SAFE_INTEGER); [|done]. inv_result.
  match goal with H : map_result _ _ = Ok _ |- _ => apply normalizeKeys_js in H as [-> _] end. by destruct s.
Qed.

Lemma commit_ok o s ks now s' :
  commit o s ks now = Ok s' -> s' = mkSnapshot (version s + 1) ks /\ valid_snapshot o s'.
Proof.
  unfold commit. intros Hc. inv_result.
  match goal with H : normalizeSnapshot _ _ _ = Ok _ |- _ =>
    pose proof (normalizeSnapshot_valid _ _ _ _ H); apply normalizeSnapshot_js in H end. by subst.
Qed.

(** ** Lemmas: what an operation does to the keys *)

(** The same key material, in the same or a later state. *)
Definition key_step (k k' : Key) : Prop :=
  key_id k' = key_id k /\ key_version k' = key_version k /\
  public_key_fingerprint k' = public_key_fingerprint k /\ public_key k' = public_key k /\
  (state k' = state k \/ allowed (state k) (state k') = true).

(** One committed operation: the version is the next one, every key is kept
    and moves forward, and at most one newer active key is added. *)
Definition evolves (s s' : Snapshot) : Prop :=
  version s' = version s + 1 /\
  exists kept new, keys s' = (kept ++ new)%list /\ Forall2 key_step (keys s) kept /\
    Forall (fun k => state k = ACTIVE /\ maxKeyVersion (keys s) < key_version k) new.

Lemma key_step_refl k : key_step k k.
Proof. unfold key_step. split_and!; auto. Qed.

Lemma key_steps_refl ks : Forall2 key_step ks ks.
Proof. induction ks; constructor; auto using key_step_refl. Qed.

Lemma find_key_some p ks k : find_key p ks = Some k -> k ∈ ks /\ p k = true.
Proof.
  induction ks as [|x ks IH]; simpl; [done|]. rewrite elem_of_cons.
  destruct (p x) eqn:E; [by intros [= ->]; auto|]. intros [? ?]%IH. auto.
Qed.

Lemma find_key_none p ks : find_key p ks = None <-> forall k, k ∈ ks -> p k = false.
Proof.
  induction ks as [|x ks IH]; simpl; [set_solver|]. setoid_rewrite elem_of_cons.
  destruct (p x) eqn:E; [|rewrite IH; naive_solver]. split; [done|]. intros Hx. rewrite Hx in E by auto. done.
Qed.

Lemma replace_first_steps p k k' ks :
  find_key p ks = Some k -> key_step k k' -> Forall2 key_step ks (replace_first p k' ks).
Proof.
  induction ks as [|x ks IH]; simpl; [done|]. destruct (p x).
  - intros [= ->] ?. constructor; [done|apply key_steps_refl].
  - intros ? ?. constructor; auto using key_step_refl.
Qed.

Lemma transitionRecord_step k to until now v k' :
  allowed (state k) to = true -> transitionRecord k to until now v = Ok k' -> key_step k k'.
Proof.
  unfold transitionRecord, key_step. intros Ha Ht. destruct (bool_decide _); inv_result; simpl; split_and!; auto.
Qed.

Lemma assertTransition_ok from v to : assertTransition from v = Ok to -> allowed from to = true.
Proof. unfold assertTransition. destruct (read_state v); [|done]. intros Ha. inv_result. by guards. Qed.

Lemma activeKey_some s k : activeKey s = Some k -> k ∈ keys s /\ state k = ACTIVE.
Proof. intros [? Hk]%find_key_some. split; [done|]. by apply bool_decide_eq_true in Hk. Qed.

Lemma body_evolves o s op now1 now2 s' :
  NoDup (map key_id (keys s)) ->
  body o s op now1 now2 = Ok s' -> evolves s s' /\ valid_snapshot o s'.
Proof.
  intros Hd Hb. destruct op as [e k t u|e n u|e|e n]; simpl in Hb.
  - unfold transition_body in Hb. inv_result. apply commit_ok in Hb as [-> ?]. split; [|done].
    split; [done|]. eexists _, []. rewrite app_nil_r. split_and!; [done| |constructor].
    eapply replace_first_steps; [done|]. eapply transitionRecord_step; [|done]. by eapply assertTransition_ok.
  - unfold rotate_body in Hb. inv_result. guards. apply commit_ok in Hb as [-> ?]. split; [|done].
    match goal with H : activeKey s = Some _ |- _ => apply activeKey_some in H as [Hin Ha] end.
    split; [done|]. eexists _, _. split_and!; [done| |].
    + apply Forall2_fmap_r, Forall_Forall2_diag, Forall_forall. intros x Hx.
      unfold compose. case_bool_decide as Hid; [|apply key_step_refl].
      match goal with H : transitionRecord ?a _ _ _ _ = Ok _ |- _ =>
        assert (x = a) as -> by (by eapply NoDup_map_inj) end.
      eapply transitionRecord_step; [|done]. by rewrite Ha.
    + constructor; [|constructor]. simpl. split; [by eapply bool_decide_eq_true_1|lia].
  - unfold disable_body in Hb. inv_result. apply commit_ok in Hb as [-> ?]. split; [|done].
    split; [done|]. eexists _, []. rewrite app_nil_r. split_and!; [done| |constructor].
    apply Forall2_fmap_r, Forall_Forall2_diag, Forall_forall. intros x Hx.
    unfold compose, key_step. simpl. destruct (state x); split_and!; auto.
  - unfold restore_body in Hb. inv_result. guards. apply commit_ok in Hb as [-> ?]. split; [|done].
    split; [done|]. eexists _, _. split_and!; [done|apply key_steps_refl|].
    constructor; [|constructor]. simpl. split; [by eapply bool_decide_eq_true_1|lia].
Qed.

(** ** Lemmas: runs of a controller *)

Definition initial (o : Options) (l : Lifecycle) : Prop :=
  exists p a c ov mk me snapshot now,
    createManagedSignerKeyLifecycle p a c ov mk me snapshot now = Ok (o, l).

Definition operate (o : Options) (l l' : Lifecycle) : Prop :=
  exists id op now1 now2 s, perform o l id op now1 now2 = Ok (l', s).

Lemma perform_ok o l id op now1 now2 l' s :
  perform o l id op now1 now2 = Ok (l', s) ->
  exists i, requireOperationId id = Ok i /\
  ((l' = l /\ lookup_operation (operations l) i = Some (canonicalDigest (request_of op), s)) \/
   (lookup_operation (operations l) i = None /\ body o (current l) op now1 now2 = Ok s /\
    l' = mkLifecycle s (record_operation (maxIdempotencyEntries o) (operations l) i
                          (canonicalDigest (request_of op), s)))).
Proof.
  unfold perform. intros Hp. inv_result. eexists. split; [done|].
  destruct (lookup_operation _ _) as [[d r]|] eqn:El; inv_result; guards; [left|right]; auto.
  by subst.
Qed.

Lemma lookup_operation_none ops id : lookup_operation ops id = None <-> id ∉ map fst ops.
Proof.
  induction ops as [|[k e] ops IH]; simpl; [set_solver|].
  destruct (String.eqb_spec k id) as [->|]; [set_solver|]. rewrite IH. set_solver.
Qed.

Lemma lookup_operation_app ops ops' id :
  lookup_operation ops id = None -> lookup_operation (ops ++ ops') id = lookup_operation ops' id.
Proof. induction ops as [|[k e] ops IH]; simpl; [done|]. destruct (String.eqb k id); [done|auto]. Qed.

Lemma record_operation_spec max ops id e :
  NoDup (map fst ops) -> lookup_operation ops id = None -> 1 <= max ->
  NoDup (map fst (record_operation max ops id e)) /\
  Z.of_nat (length (record_operation max ops id e)) <= max /\
  lookup_operation (record_operation max ops id e) id = Some e.
Proof.
  intros Hd Hn Hm. pose proof Hn as Hin. apply lookup_operation_none in Hin. unfold record_operation.
  assert (NoDup (map fst (ops ++ [(id, e)]))) as Hd'.
  { rewrite map_app. apply NoDup_app. split_and!; [done| |apply NoDup_singleton]. set_solver. }
  rewrite length_app, length_drop, length_app. simpl.
  split_and!; [|lia|].
  - rewrite <- (take_drop (length ops + 1 - Z.to_nat max) (ops ++ [(id, e)])), map_app in Hd'.
    by apply NoDup_app in Hd' as (_ & _ & ?).
  - rewrite drop_app_le by lia. rewrite lookup_operation_app; [simpl; by rewrite String.eqb_refl|].
    apply lookup_operation_none. apply lookup_operation_none in Hn. intros Hx. apply Hn.
    rewrite <- (take_drop (length ops + 1 - Z.to_nat max) ops), map_app. set_solver.
Qed.

Definition lifecycle_ok (o : Options) (l : Lifecycle) : Prop :=
  valid_snapshot o (current l) /\ 1 <= maxIdempotencyEntries o /\
  Z.of_nat (length (operations l)) <= maxIdempotencyEntries o /\ NoDup (map fst (operations l)).

Lemma initial_ok o l : initial o l -> lifecycle_ok o l.
Proof.
  intros (p & a & c & ov & mk & me & v & now & Hc). unfold createManagedSignerKeyLifecycle in Hc. inv_result.
  match goal with H : validateOptions _ _ _ _ _ _ = Ok _ |- _ => rename H into Ho end.
  unfold validateOptions in Ho. repeat case_match; simplify_eq. inv_result. guards.
  split_and!; simpl; try lia; [|constructor]. by eapply normalizeSnapshot_valid.
Qed.

Lemma operate_ok o l l' : lifecycle_ok o l -> operate o l l' -> lifecycle_ok o l'.
Proof.
  intros (Hv & Hm & Hlen & Hd) (id & op & n1 & n2 & s & (i & _ & [[-> _]|(Hn & Hb & ->)])%perform_ok); [done|].
  apply body_evolves in Hb as [_ Hs]; [|apply Hv].
  pose proof (record_operation_spec _ _ i (canonicalDigest (request_of op), s) Hd Hn Hm) as (? & ? & _).
  by split_and!.
Qed.

Lemma operate_evolves o l l' :
  lifecycle_ok o l -> operate o l l' -> l' = l \/ evolves (current l) (current l').
Proof.
  intros (Hv & _) (id & op & n1 & n2 & s & (i & _ & [[-> _]|(Hn & Hb & ->)])%perform_ok); [auto|].
  apply body_evolves in Hb as [He _]; [auto|apply Hv].
Qed.

Lemma retired_kept s s' k :
  evolves s s' -> k ∈ keys s -> state k <> ACTIVE ->
  exists k', k' ∈ keys s' /\ key_id k' = key_id k /\ state k' <> ACTIVE.
Proof.
  intros (_ & kept & new & -> & Hf & _) [i Hi]%list_elem_of_lookup Hs.
  destruct (Forall2_lookup_l _ _ _ _ _ Hf Hi) as (k' & Hk' & Hid & _ & _ & _ & Hst).
  exists k'. split_and!; [|done|].
  - apply elem_of_app. left. by eapply list_elem_of_lookup_2.
  - destruct Hst as [->|Ha]; [done|]. by destruct (state k), (state k').
Qed.

Lemma no_signing s k key o :
  valid_snapshot o s -> k ∈ keys s -> state k <> ACTIVE -> assertCanSign s (key_id k) <> Ok key.
Proof.
  intros (_ & _ & _ & _ & Hd & _) Hk Hs Ha. unfold assertCanSign, findKey in Ha.
  destruct (key_id k) as [ | | | |id| | | | | ] eqn:Eid; try done. inv_result. guards.
  match goal with H : find_key _ _ = Some _ |- _ => apply find_key_some in H as [Hin Hid] end.
  apply bool_decide_eq_true in Hid.
  assert (key = k) as -> by (eapply NoDup_map_inj; [exact Hd|done..|congruence]).
  match goal with H : is_active _ = true |- _ => by apply bool_decide_eq_true in H end.
Qed.

(** ** Lemmas: emergency disable *)

Lemma closedKeys_key_js o k :
  key_id k <> JUndefined -> closedKeys (key_js o k) KEY_REQUIRED_KEYS KEY_OPTIONAL_KEYS = true.
Proof.
  intros Hid. assert (is_undefined (key_id k) = false) as Hu by by destruct (key_id k).
  unfold closedKeys, key_js. destruct k as [id kv fp st sv [p|] [t|]]; simpl in *; by rewrite Hu.
Qed.

Lemma normalizeKey_js_settled o now k :
  valid_key k -> state k <> RETIRING -> normalizeKey o now true (key_js o k) = Ok k.
Proof.
  intros (Hid & Hkv & Hsv & Hfp & Hpk & Hu) Hs.
  assert (verification_until k = None) as Eu by (destruct (verification_until k); tauto).
  assert (key_id k <> JUndefined) as Hne by (intros E; by rewrite E in Hid).
  unfold normalizeKey. rewrite closedKeys_key_js by done.
  destruct (key_js_fields o k) as (F1 & F2 & F3 & F4 & F5 & F6 & F7).
  assert (get (key_js o k) "purpose" = JStr (purpose o)) as -> by done.
  assert (get (key_js o k) "algorithm" = JStr ALGORITHM) as -> by done.
  rewrite F1, F2, F3, F4, F5, F6, F7, read_state_name, Hid, Eu. simpl is_str. rewrite !String.eqb_refl. simpl.
  rewrite !(proj2 (Z.leb_le (Z.abs _) _)) by lia. rewrite Hfp.
  rewrite !(proj2 (Z.ltb_ge _ _)) by lia. simpl. unfold normalize_until.
  rewrite bool_decide_eq_false_2 by done.
  destruct (public_key k) as [p|] eqn:Ep; simpl.
  - simpl in Hpk. unfold validatePublicKey in Hpk |- *. simpl in *. rewrite Hpk. simpl.
    destruct k; simpl in *; by subst.
  - destruct k; simpl in *; by subst.
Qed.

Lemma normalizeSnapshot_js_settled o now s :
  valid_snapshot o s -> Forall (fun k => state k <> RETIRING) (keys s) ->
  normalizeSnapshot o now (snapshot_js o s) = Ok s.
Proof.
  intros (Hv & Hl & Hk & Hsv & Hd1 & Hd2 & Hd3 & Ha) Hset. unfold normalizeSnapshot. simpl.
  rewrite !String.eqb_refl. simpl. rewrite (proj2 (Z.leb_le (Z.abs _) _)) by lia.
  rewrite length_map, !(proj2 (Z.ltb_ge _ _)) by lia.
  rewrite (proj2 (Nat.ltb_ge (length (keys s)) 1)) by lia. simpl.
  assert (map_result (normalizeKey o now true) (map (key_js o) (keys s)) = Ok (keys s)) as ->.
  { apply map_result_ok, Forall2_fmap_l, Forall_Forall2_diag. rewrite Forall_forall in *.
    intros k Hin. apply normalizeKey_js_settled; auto. }
  simpl. assert (check_keys (version s) [] [] [] (keys s) = Ok tt) as ->.
  { apply check_keys_ok. split_and!; try done. apply Forall_forall. set_solver. }
  simpl. rewrite (proj2 (Nat.ltb_ge _ _)) by done. by destruct s.
Qed.

Definition disabled (s : Snapshot) : Snapshot :=
  mkSnapshot (version s + 1) (map (fun k => set_state k EMERGENCY_DISABLED (version s + 1) None) (keys s)).

Lemma disabled_valid o s :
  valid_snapshot o s -> version s < MAX_SAFE_INTEGER -> valid_snapshot o (disabled s).
Proof.
  intros (Hv & Hl & Hk & Hsv & Hd1 & Hd2 & Hd3 & Ha) Hmax. unfold valid_snapshot, disabled. simpl.
  rewrite length_map, !map_map. simpl. split_and!; try done; try lia.
  - apply Forall_fmap. eapply Forall_impl; [exact Hk|]. intros k (H1 & H2 & H3 & H4 & H5 & _).
    unfold compose, valid_key. simpl. split_and!; try done; lia.
  - apply Forall_fmap, Forall_forall. intros k _. unfold compose. simpl. lia.
  - assert (filter (fun k => state k = ACTIVE)
      (map (fun k => set_state k EMERGENCY_DISABLED (version s + 1) None) (keys s)) = []) as ->; [|simpl; lia].
    clear. induction (keys s) as [|k ks IH]; [done|]. cbn [map]. by rewrite filter_cons_False.
Qed.

Lemma disable_succeeds o s now z :
  valid_snapshot o s -> version s < MAX_SAFE_INTEGER -> readNow now = Ok z ->
  (exists k, k ∈ keys s /\ state k <> EMERGENCY_DISABLED) ->
  disable_body o s (JNum (NInt (version s))) now = Ok (disabled s).
Proof.
  intros Hs Hmax Hz (k & Hk & Hne). pose proof Hs as (Hv & _). unfold disable_body, assertExpectedVersion.
  simpl. rewrite (proj2 (Z.leb_le (Z.abs _) _)) by lia.
  rewrite (proj2 (Z.ltb_ge _ _)), Z.eqb_refl by lia. simpl.
  assert (forallb (fun k => bool_decide (state k = EMERGENCY_DISABLED)) (keys s) = false) as ->.
  { apply not_true_iff_false. rewrite forallb_elem_of. intros Hall. apply Hne. by eapply bool_decide_eq_true_1, Hall. }
  unfold commit. rewrite (proj2 (Z.ltb_ge _ _)), Hz by lia. simpl.
  apply (normalizeSnapshot_js_settled o z (disabled s)); [by apply disabled_valid|].
  apply Forall_fmap, Forall_forall. done.
Qed.

(** ** Lemmas: rotation *)

Lemma active_unique o s k1 k2 :
  valid_snapshot o s -> k1 ∈ keys s -> k2 ∈ keys s -> state k1 = ACTIVE -> state k2 = ACTIVE -> k1 = k2.
Proof.
  intros (_ & _ & _ & _ & _ & _ & _ & Ha) H1 H2 S1 S2.
  assert (k1 ∈ filter (fun k => state k = ACTIVE) (keys s)) as F1 by by apply list_elem_of_filter.
  assert (k2 ∈ filter (fun k => state k = ACTIVE) (keys s)) as F2 by by apply list_elem_of_filter.
  destruct (filter _ _) as [|x [|y l]]; [set_solver| |simpl in Ha; lia].
  apply list_elem_of_singleton in F1, F2. congruence.
Qed.

Lemma activeKey_unique o s k :
  valid_snapshot o s -> k ∈ keys s -> state k = ACTIVE -> activeKey s = Some k.
Proof.
  intros Hv Hk Hs. destruct (activeKey s) as [k'|] eqn:E.
  - apply activeKey_some in E as [? ?]. f_equal. by eapply active_unique.
  - unfold activeKey in E. rewrite find_key_none in E. specialize (E k Hk).
    unfold is_active in E. by rewrite bool_decide_eq_true_2 in E.
Qed.

Lemma retiring_verifiable k u t now :
  state k = RETIRING -> verification_until k = Some u -> validIso u = Some t -> isVerifiable k now = (now <? t).
Proof.
  unfold isVerifiable, is_active, validIso. intros Hs Hu Ht. destruct (re_test ISO u); [|done].
  apply canonical_iso_parse in Ht. rewrite Hu, Hs, Ht. done.
Qed.

Lemma parseOverlap_ok v now u :
  parseOverlap v now = Ok u -> v = JStr u /\ exists t, validIso u = Some t /\ now < t.
Proof.
  unfold parseOverlap. destruct v as [ | | | |w| | | | | ]; try done. destruct (validIso w) as [t|] eqn:E; [|done].
  intros Hp. inv_result. guards. eauto.
Qed.

Lemma rotate_body_spec o s e n u now1 now2 s' :
  valid_snapshot o s -> rotate_body o s e n u now1 now2 = Ok s' ->
  exists old new retiring text t,
    activeKey s = Some old /\ activeKey s' = Some new /\ key_id new = get n "key_id" /\
    maxKeyVersion (keys s) < key_version new /\ state_version new = version s' /\
    retiring ∈ keys s' /\ key_id retiring = key_id old /\ u = JStr text /\ validIso text = Some t /\
    (forall now, isVerifiable retiring now = (now <? t)).
Proof.
  intros Hv Hr. unfold rotate_body in Hr. inv_result. guards. apply commit_ok in Hr as [-> Hv'].
  match goal with H : activeKey s = Some ?k |- _ => pose proof (activeKey_some _ _ H) as [Hin Ha] end.
  match goal with H : transitionRecord _ _ _ _ _ = Ok _ |- _ => rename H into Ht end.
  match goal with H : normalizeKey _ _ _ _ = Ok _ |- _ => apply normalizeKey_ok in H as (_ & Hid & _) end.
  unfold transitionRecord in Ht. rewrite bool_decide_eq_true_2 in Ht by done. inv_result.
  match goal with H : parseOverlap _ _ = Ok _ |- _ => apply parseOverlap_ok in H as (-> & t & Ht & _) end.
  match goal with H : is_active ?k = true, _ : activeKey s = Some ?old, _ : validIso ?w = Some t |- _ =>
    exists old, (set_state k (state k) (version s + 1) (verification_until k)),
      (set_state old RETIRING (version s + 1) (Some w)), w, t;
    apply bool_decide_eq_true in H
  end.
  split_and!; try done.
  - eapply activeKey_unique; [exact Hv'|simpl; set_solver|done].
  - simpl. apply elem_of_app. left. apply list_elem_of_fmap. eexists. split; [|exact Hin].
    by rewrite bool_decide_eq_true_2.
  - intros now. by eapply retiring_verifiable.
Qed.

(** ** Properties *)

(** C20: every reachable controller has a valid snapshot (unique ids,
    fingerprints and versions, at most one active key, no key state newer
    than the snapshot, at most [maxKeys] keys) and a bounded operation log;
    an operation either changes nothing (a replay) or commits the next
    version, keeping every key with its material in the same or a later state
    and adding only newer active keys. *)
Theorem lifecycle_invariant o l :
  reach (initial o) (operate o) l ->
  lifecycle_ok o l /\
  forall l', operate o l l' -> l' = l \/ evolves (current l) (current l').
Proof.
  intros Hr. assert (lifecycle_ok o l) as Hok.
  { induction Hr; [by apply initial_ok|by eapply operate_ok]. }
  split; [done|]. intros l'. by apply operate_evolves.
Qed.

(** A key that has left the active state never signs again, whatever
    operations follow. *)
Theorem retired_never_signs o l l' k key :
  reach (initial o) (operate o) l -> k ∈ keys (current l) -> state k <> ACTIVE ->
  rtc (operate o) l l' -> assertCanSign (current l') (key_id k) <> Ok key.
Proof.
  intros Hr Hk Hs Hsteps. assert (lifecycle_ok o l) as Hok.
  { clear Hsteps Hk. induction Hr; [by apply initial_ok|by eapply operate_ok]. }
  clear Hr. revert k Hk Hs. induction Hsteps as [l|l l1 l' Hstep _ IH]; intros k Hk Hs.
  - eapply no_signing; [apply Hok|done..].
  - destruct (operate_evolves _ _ _ Hok Hstep) as [->|He]; [by apply IH|].
    destruct (retired_kept _ _ _ He Hk Hs) as (k' & Hk' & <- & Hs'). apply IH; [|done..].
    by eapply operate_ok.
Qed.

(** An emergency disable at the current version under a fresh operation
    id succeeds whenever some key is not disabled yet; after it no key signs,
    none verifies, and no key can be moved to another state. *)
Theorem emergency_disable_terminal o l id i now1 now2 z :
  reach (initial o) (operate o) l -> version (current l) < MAX_SAFE_INTEGER ->
  requireOperationId id = Ok i -> lookup_operation (operations l) i = None ->
  (exists k, k ∈ keys (current l) /\ state k <> EMERGENCY_DISABLED) -> readNow now2 = Ok z ->
  exists l', perform o l id (EmergencyDisable (JNum (NInt (version (current l))))) now1 now2
             = Ok (l', disabled (current l)) /\
    current l' = disabled (current l) /\
    forall keyId at_ to key,
      assertCanSign (current l') keyId <> Ok key /\
      resolveVerificationKey (current l') keyId at_ <> Ok key /\
      forall k, k ∈ keys (current l') -> assertTransition (state k) to = Throw TRANSITION.
Proof.
  intros Hr Hmax Hid Hlk Hk Hz. assert (lifecycle_ok o l) as [Hv _].
  { clear Hk Hlk Hmax. induction Hr; [by apply initial_ok|by eapply operate_ok]. }
  eexists. split; [|split].
  - unfold perform. rewrite Hid. simpl. rewrite Hlk. simpl.
    by rewrite (disable_succeeds o (current l) now2 z).
  - done.
  - assert (forall k, k ∈ keys (disabled (current l)) -> state k = EMERGENCY_DISABLED) as Hall.
    { intros k Hin%list_elem_of_fmap. naive_solver. }
    simpl. intros keyId at_ to key. split_and!.
    + unfold assertCanSign, findKey. intros Hc. destruct keyId; try done. inv_result. guards.
      match goal with H : find_key _ _ = Some _ |- _ => apply find_key_some in H as [Hin _] end.
      match goal with H : is_active _ = true |- _ => apply bool_decide_eq_true in H end.
      by rewrite Hall in *.
    + unfold resolveVerificationKey, findKey. intros Hc. destruct keyId; try done. inv_result. guards.
      match goal with H : find_key _ _ = Some _ |- _ => apply find_key_some in H as [Hin _] end.
      match goal with H : isVerifiable _ _ = true |- _ => unfold isVerifiable, is_active in H; rewrite Hall in H by done; done end.
    + intros k ->%Hall. unfold assertTransition. by destruct (read_state to) as [[]|].
Qed.

(** An operation id stands for one request: repeating the request
    returns the recorded snapshot and changes nothing, whatever the clock
    says; another request under the same id is refused (unless the digests of
    the two canonical texts collide). *)
Theorem idempotent_replay o l id op now1 now2 l' s :
  reach (initial o) (operate o) l ->
  perform o l id op now1 now2 = Ok (l', s) ->
  (forall t1 t2, perform o l' id op t1 t2 = Ok (l', s)) /\
  forall op' t1 t2,
    json_value (request_of op) = true -> json_value (request_of op') = true ->
    normal (request_of op') <> normal (request_of op) ->
    (sha256 (canonicalJson (request_of op)) = sha256 (canonicalJson (request_of op')) ->
     canonicalJson (request_of op) = canonicalJson (request_of op')) ->
    perform o l' id op' t1 t2 = Throw IDEMPOTENCY.
Proof.
  intros Hr Hp. assert (lifecycle_ok o l) as (_ & Hm & _ & Hd).
  { clear Hp. induction Hr; [by apply initial_ok|by eapply operate_ok]. }
  apply perform_ok in Hp as (i & Hi & Hc).
  assert (lookup_operation (operations l') i = Some (canonicalDigest (request_of op), s)) as Hl.
  { destruct Hc as [[-> ?]|(Hn & _ & ->)]; [done|]. by apply record_operation_spec. }
  split; [intros t1 t2|intros op' t1 t2 J1 J2 Hne Hcoll]; unfold perform; rewrite Hi; simpl; rewrite Hl.
  - by rewrite String.eqb_refl.
  - rewrite (proj2 (String.eqb_neq _ _)); [done|]. intros E. unfold canonicalDigest in E.
    apply Hne. symmetry. apply canonicalJson_inj; auto.
Qed.

(** A rotation that is not a replay makes the new key the one active key,
    with a version above every other, and leaves the old one verifying until
    the given deadline exactly. *)
Theorem rotate_hands_over o l id e n u now1 now2 l' s :
  reach (initial o) (operate o) l ->
  perform o l id (Rotate e n u) now1 now2 = Ok (l', s) -> l' <> l ->
  current l' = s /\
  exists old new retiring text t,
    activeKey (current l) = Some old /\ activeKey s = Some new /\ key_id new = get n "key_id" /\
    maxKeyVersion (keys (current l)) < key_version new /\ state_version new = version s /\
    retiring ∈ keys s /\ key_id retiring = key_id old /\ u = JStr text /\ validIso text = Some t /\
    (forall now, isVerifiable retiring now = (now <? t)).
Proof.
  intros Hr Hp Hne. assert (lifecycle_ok o l) as [Hv _].
  { clear Hp Hne. induction Hr; [by apply initial_ok|by eapply operate_ok]. }
  apply perform_ok in Hp as (i & _ & [[-> _]|(_ & Hb & ->)]); [done|]. split; [done|].
  by eapply rotate_body_spec.
Qed.
End Lifecycle.

(** ** Witnesses *)

Module Sample.
#[local] Existing Instance iso_date_parse.
#[local] Existing Instance toy_sha256.
Definition no_keys : PublicKeys := {| createPublicKey := fun _ => None |}.
#[local] Existing Instance no_keys.

Definition fingerprint (c : string) : string := join "" (repeat c 64).

Definition key (id fp : string) (kv : Z) : jsval :=
  JObj [("key_id", JStr id); ("key_version", JNum (NInt kv)); ("purpose", JStr "agentpass.capability");
        ("algorithm", JStr "ed25519"); ("public_key_fingerprint", JStr (fingerprint fp));
        ("state", JStr "active"); ("state_version", JNum (NInt 1))].

Definition snapshot : jsval :=
  JObj [("version", JNum (NInt 1)); ("purpose", JStr "agentpass.capability"); ("algorithm", JStr "ed25519");
        ("keys", JArr [key "key-1" "a" 1])].

Definition options : Options := mkOptions "agentpass.capability" 86400000 4 512.
Definition key_1 : Key := mkKey (JStr "key-1") 1 (fingerprint "a") ACTIVE 1 None None.
Definition start : Lifecycle := mkLifecycle (mkSnapshot 1 [key_1]) [].
Definition clock : jsval := JNum (NInt 1000).
Definition rotation : Operation :=
  Rotate (JNum (NInt 1)) (key "key-2" "b" 2) (JStr (to_iso 3600000)).

Definition rotated : Lifecycle * Snapshot :=
  match perform options start (JStr "op-1") rotation clock clock with
  | Ok r => r
  | Throw _ => (start, current start)
  end.

Lemma started : initial options start.
Proof.
  exists (JStr "agentpass.capability"), (JStr "ed25519"), (JFun 0), (JNum (NInt 86400000)), (JNum (NInt 4)),
    (JNum (NInt 512)), snapshot, clock. vm_compute. reflexivity.
Qed.

Lemma rotates : perform options start (JStr "op-1") rotation clock clock = Ok (rotated.1, rotated.2).
Proof. vm_compute. reflexivity. Qed.

Lemma reach_start : reach (initial options) (operate options) start.
Proof. constructor. apply started. Qed.

Lemma reach_rotated : reach (initial options) (operate options) rotated.1.
Proof.
  econstructor; [apply reach_start|]. exists (JStr "op-1"), rotation, clock, clock, rotated.2. apply rotates.
Qed.
End Sample.

Lemma lifecycle_invariant_witness :
  @lifecycle_ok iso_date_parse toy_sha256 Sample.no_keys Sample.options Sample.rotated.1.
Proof.
  apply (@lifecycle_invariant iso_date_parse toy_sha256 Sample.no_keys Sample.options Sample.rotated.1).
  apply Sample.reach_rotated.
Defined.

Lemma retired_never_signs_witness :
  assertCanSign (current Sample.rotated.1) (JStr "key-1") <> Ok Sample.key_1.
Proof.
  refine (@retired_never_signs iso_date_parse toy_sha256 Sample.no_keys Sample.options Sample.rotated.1
    Sample.rotated.1 (mkKey (JStr "key-1") 1 (Sample.fingerprint "a") RETIRING 2 None (Some (to_iso 3600000)))
    Sample.key_1 Sample.reach_rotated _ _ (rtc_refl _ _)).
  - vm_compute. left.
  - discriminate.
Defined.

Lemma emergency_disable_terminal_witness :
  exists l', @perform iso_date_parse toy_sha256 Sample.no_keys Sample.options Sample.start (JStr "stop")
    (EmergencyDisable (JNum (NInt 1))) Sample.clock Sample.clock = Ok (l', disabled (current Sample.start)).
Proof.
  destruct (@emergency_disable_terminal iso_date_parse toy_sha256 Sample.no_keys Sample.options Sample.start
    (JStr "stop") "stop" Sample.clock Sample.clock 1000 Sample.reach_start) as (l' & H & _).
  - reflexivity.
  - reflexivity.
  - reflexivity.
  - exists Sample.key_1. split; [left|discriminate].
  - reflexivity.
  - exists l'. exact H.
Defined.

Lemma idempotent_replay_witness :
  @perform iso_date_parse toy_sha256 Sample.no_keys Sample.options Sample.rotated.1 (JStr "op-1") Sample.rotation
    JUndefined JUndefined = Ok (Sample.rotated.1, Sample.rotated.2).
Proof.
  apply (@idempotent_replay iso_date_parse toy_sha256 Sample.no_keys Sample.options Sample.start (JStr "op-1")
    Sample.rotation Sample.clock Sample.clock Sample.rotated.1 Sample.rotated.2 Sample.reach_start Sample.rotates).
Defined.

Lemma rotate_hands_over_witness : current Sample.rotated.1 = Sample.rotated.2.
Proof.
  apply (@rotate_hands_over iso_date_parse toy_sha256 Sample.no_keys Sample.options Sample.start (JStr "op-1")
    (JNum (NInt 1)) (Sample.key "key-2" "b" 2) (JStr (to_iso 3600000)) Sample.clock Sample.clock
    Sample.rotated.1 Sample.rotated.2 Sample.reach_start Sample.rotates).
  vm_compute. discriminate.
Defined.
