(* ===== verification/Reliability.v ===== *)
(** * Managed signer reliability (apps/cloud-api/src/managed-signer-reliability.mjs)

    The bounded circuit breaker in front of one managed signer.  [Circuit] is
    the closure's [state]; [acquire], [onSuccess] and [onFailure] are its
    functions, with the value the clock returns as an argument.  A call of the
    provider is outstanding between its [acquire] and its outcome, and other
    calls run meanwhile: [step] interleaves them, over a circuit and the list
    of outstanding permits. *)

From stdpp Require Import base tactics sets list strings relations.
From S2P Require Import Prelude JsValue Regex.
Local Open Scope string_scope.
Local Open Scope Z_scope.

(** ** Constants *)

Inductive Phase := CLOSED | OPEN | HALF_OPEN.

Inductive code := CONFIG | TIMEOUT | PROVIDER | THROTTLED | CIRCUIT_OPEN.

#[export] Instance Phase_eq_dec : EqDecision Phase.
Proof. solve_decision. Defined.
#[export] Instance code_eq_dec : EqDecision code.
Proof. solve_decision. Defined.

Definition code_name (c : code) : string :=
  match c with
  | CONFIG => "ERR_MANAGED_SIGNER_RELIABILITY_CONFIG"
  | TIMEOUT => "ERR_MANAGED_SIGNER_TIMEOUT"
  | PROVIDER => "ERR_MANAGED_SIGNER_PROVIDER"
  | THROTTLED => "ERR_MANAGED_SIGNER_THROTTLED"
  | CIRCUIT_OPEN => "ERR_MANAGED_SIGNER_CIRCUIT_OPEN"
  end.

Definition THROTTLE_CODES : list string :=
  ["429"; "ERR_REMOTE_KMS_THROTTLED"; "ERR_TOO_MANY_REQUESTS"; "RATE_LIMITED"; "RESOURCE_EXHAUSTED";
   "TOO_MANY_REQUESTS"; "THROTTLED"; "THROTTLINGEXCEPTION"].

(** The values of [MANAGED_SIGNER_KEY_LIFECYCLE_ERROR_CODES]. *)
Definition LIFECYCLE_CODES : list string :=
  map (String.append "ERR_MANAGED_SIGNER_KEY_LIFECYCLE_")
    ["CONFIG"; "PURPOSE"; "VERSION"; "TRANSITION"; "OVERLAP"; "DUPLICATE"; "NOT_ACTIVE"; "NOT_VERIFIABLE";
     "IDEMPOTENCY"].

(** [REMOTE_KMS_ERROR_CODES[name]] *)
Definition KMS (name : string) : string := "ERR_REMOTE_KMS_" +:+ name.

Definition REMOTE_KMS_ALGORITHM := "ed25519".
Definition KEY_ID : re := RSeq (one alnum) (upto (fun c => alnum c || in_chars "._:/-" c) 255).
Definition FINGERPRINT : re := times hex_lower 64.

(** ** Classification of failures *)

(** [toUpperCase] below code unit 256; the sharp s becomes two letters, and
    the two characters whose upper case is above are left. *)
Definition upper_char (c : Ascii.ascii) : string :=
  let n := Regex.code c in
  if lower c || (Nat.leb 224 n && Nat.leb n 254 && negb (Nat.eqb n 247))
  then String (Ascii.ascii_of_nat (n - 32)) ""
  else if Nat.eqb n 223 then "SS" else String c "".

Fixpoint toUpperCase (s : string) : string :=
  match s with EmptyString => "" | String c s => upper_char c +:+ toUpperCase s end.

Inductive Category := Permanent | Timeout | Throttle | Provider | Integrity.

#[export] Instance Category_eq_dec : EqDecision Category.
Proof. solve_decision. Defined.

Definition transient (c : Category) : bool := match c with Permanent => false | _ => true end.

Definition upper_text (v : jsval) : string :=
  match v with JStr s => toUpperCase s | _ => "" end.

Definition isThrottle (code name : string) (status : jsval) : bool :=
  includes THROTTLE_CODES code || includes THROTTLE_CODES name || is_int status 429.

(** The category and the code of [classifyManagedSignerFailure]. *)
Definition classifyManagedSignerFailure (error : jsval) : Category * string :=
  let raw := get error "code" in
  let code := upper_text raw in
  let name := upper_text (get error "name") in
  let status := nullish (nullish (get error "statusCode") (get error "status"))
                  (get (get error "$metadata") "httpStatusCode") in
  if one_of LIFECYCLE_CODES raw then (Permanent, default "" (as_str raw))
  else if is_str raw (KMS "TIMEOUT") || String.eqb code (code_name TIMEOUT) then (Timeout, code_name TIMEOUT)
  else if isThrottle code name status || is_str raw (KMS "THROTTLED") then (Throttle, code_name THROTTLED)
  else if is_str raw (KMS "PROVIDER") || String.eqb code (code_name PROVIDER) then (Provider, code_name PROVIDER)
  else if String.eqb code (KMS "INPUT") || String.eqb code (KMS "PURPOSE") || String.eqb code (KMS "ABORTED")
       then (Permanent, code)
  else if String.eqb code (KMS "METADATA") || String.eqb code (KMS "OUTPUT") || String.eqb code (KMS "SIGNATURE")
       then (Integrity, code_name PROVIDER)
  else (Provider, code_name PROVIDER).

(** What [invoke] throws: one of its own errors, or the error itself. *)
Inductive thrown := Reliability (c : code) | Original (error : jsval).

Definition sanitizeFailure (error : jsval) : thrown :=
  match fst (classifyManagedSignerFailure error) with
  | Timeout => Reliability TIMEOUT
  | Throttle => Reliability THROTTLED
  | Provider | Integrity => Reliability PROVIDER
  | Permanent => Original error
  end.

(** ** State and configuration *)

Record Config := mkConfig { failureThreshold : Z; cooldownMs : Z; maxInFlight : Z }.

Record Circuit := mkCircuit {
  phase : Phase;
  consecutiveFailures : Z;
  openedAt : option Z;
  active : Z;
  probeInFlight : bool
}.

#[export] Instance Circuit_eq_dec : EqDecision Circuit.
Proof. solve_decision. Defined.

Definition validateConfig (provider purpose failureThreshold cooldownMs maxInFlight clock : jsval)
  : result code Config :=
  match safe_integer failureThreshold, safe_integer cooldownMs, safe_integer maxInFlight, purpose with
  | Some ft, Some cd, Some mf, JStr p =>
      if negb (truthy provider) || negb (is_function (get provider "publicKeyMetadata"))
         || negb (is_function (get provider "sign"))
         || Nat.ltb (String.length p) 1 || Nat.ltb 128 (String.length p)
         || (ft <? 1) || (100 <? ft) || (cd <? 1) || (86400000 <? cd) || (mf <? 1) || (32 <? mf)
         || negb (is_function clock) || negb (is_str (get provider "purpose") p)
         || negb (str_test KEY_ID (get provider "key_id"))
         || negb (is_str (get provider "algorithm") REMOTE_KMS_ALGORITHM)
         || negb (integer_in 1 255 (get provider "version"))
         || negb (str_test FINGERPRINT (get provider "public_key_fingerprint"))
      then Throw CONFIG
      else Ok (mkConfig ft cd mf)
  | _, _, _, _ => Throw CONFIG
  end.

(** The state of a new provider. *)
Definition new_circuit : Circuit := mkCircuit CLOSED 0 None 0 false.

Definition readClock (v : jsval) : result code Z :=
  match safe_integer v with
  | Some z => if z <? 0 then Throw CONFIG else Ok z
  | None => Throw CONFIG
  end.

(** ** Operations

    Each returns the state it leaves, also when it throws.  A permit is its
    [probe] flag. *)

(** [now < state.openedAt + cooldownMs]; false when [openedAt] is undefined. *)
Definition cooling (cfg : Config) (st : Circuit) (now : Z) : bool :=
  match openedAt st with Some t => now <? t + cooldownMs cfg | None => false end.

Definition half_open (st : Circuit) : Circuit :=
  mkCircuit HALF_OPEN (consecutiveFailures st) (openedAt st) (active st) false.

Definition set_probe (st : Circuit) (b : bool) : Circuit :=
  mkCircuit (phase st) (consecutiveFailures st) (openedAt st) (active st) b.

Definition add_active (st : Circuit) (d : Z) : Circuit :=
  mkCircuit (phase st) (consecutiveFailures st) (openedAt st) (active st + d) (probeInFlight st).

Definition is_half_open (st : Circuit) : bool := bool_decide (phase st = HALF_OPEN).

(** The last part of [acquire]. *)
Definition admit_call (cfg : Config) (st : Circuit) : Circuit * result code bool :=
  if maxInFlight cfg <=? active st then
    ((if is_half_open st then set_probe st false else st), Throw THROTTLED)
  else (add_active st 1, Ok (is_half_open st)).

Definition acquire (cfg : Config) (st : Circuit) (clock : jsval) : Circuit * result code bool :=
  match readClock clock with
  | Throw e => (st, Throw e)
  | Ok now =>
      if bool_decide (phase st = OPEN) && cooling cfg st now then (st, Throw CIRCUIT_OPEN) else
      let st := if bool_decide (phase st = OPEN) then half_open st else st in
      if is_half_open st then
        if probeInFlight st || negb (active st =? 0) then (st, Throw THROTTLED)
        else admit_call cfg (set_probe st true)
      else admit_call cfg st
  end.

Definition onSuccess (st : Circuit) (probe : bool) : Circuit :=
  if probe then mkCircuit CLOSED 0 None (active st) (probeInFlight st)
  else if bool_decide (phase st = CLOSED) then
    mkCircuit (phase st) 0 (openedAt st) (active st) (probeInFlight st)
  else st.

Definition onFailure (cfg : Config) (st : Circuit) (probe : bool) (error clock : jsval)
  : Circuit * result code unit :=
  let category := fst (classifyManagedSignerFailure error) in
  if probe || transient category then
    let failures := if probe then failureThreshold cfg else consecutiveFailures st + 1 in
    if probe || (failureThreshold cfg <=? failures) then
      match readClock clock with
      | Ok t => (mkCircuit OPEN failures (Some t) (active st) (probeInFlight st), Ok tt)
      | Throw e => (mkCircuit OPEN failures (openedAt st) (active st) (probeInFlight st), Throw e)
      end
    else (mkCircuit (phase st) failures (openedAt st) (active st) (probeInFlight st), Ok tt)
  else (st, Ok tt).

(** The [finally] block of [invoke]. *)
Definition release (st : Circuit) (probe : bool) : Circuit :=
  let st := add_active st (-1) in if probe then set_probe st false else st.

(** The outcome of the provider's promise. *)
Inductive Outcome := Fulfilled (value : jsval) | Rejected (error : jsval).

(** The rest of [invoke] once the provider has answered. *)
Definition complete (cfg : Config) (st : Circuit) (probe : bool) (o : Outcome) (clock : jsval)
  : Circuit * result thrown jsval :=
  match o with
  | Fulfilled v => (release (onSuccess st probe) probe, Ok v)
  | Rejected error =>
      match onFailure cfg st probe error clock with
      | (st, Ok tt) => (release st probe, Throw (sanitizeFailure error))
      | (st, Throw e) => (release st probe, Throw (Reliability e))
      end
  end.

(** ** Interleaved calls *)

Record System := mkSystem { circuit : Circuit; pending : list bool }.

Inductive step (cfg : Config) : System -> System -> Prop :=
| step_admitted st ps clock st' probe :
    acquire cfg st clock = (st', Ok probe) ->
    step cfg (mkSystem st ps) (mkSystem st' (probe :: ps))
| step_refused st ps clock st' e :
    acquire cfg st clock = (st', Throw e) ->
    step cfg (mkSystem st ps) (mkSystem st' ps)
| step_completed st ps1 probe ps2 o clock st' r :
    complete cfg st probe o clock = (st', r) ->
    step cfg (mkSystem st (ps1 ++ probe :: ps2)) (mkSystem st' (ps1 ++ ps2)).

Definition initial (s : System) : Prop := s = mkSystem new_circuit [].

Definition valid_config (cfg : Config) : Prop :=
  1 <= failureThreshold cfg /\ 1 <= cooldownMs cfg /\ 1 <= maxInFlight cfg.

(** The invariant of a circuit with its outstanding permits. *)
Definition circuit_ok (cfg : Config) (s : System) : Prop :=
  let st := circuit s in
  active st = Z.of_nat (length (pending s)) /\ active st <= maxInFlight cfg /\
  (probeInFlight st = true <-> true ∈ pending s) /\
  (true ∈ pending s -> pending s = [true] /\ phase st = HALF_OPEN) /\
  (phase st = CLOSED -> 0 <= consecutiveFailures st < failureThreshold cfg /\ openedAt st = None) /\
  (phase st <> CLOSED -> failureThreshold cfg <= consecutiveFailures st).

(** ** Lemmas: the invariant *)

#[local] Ltac mem := rewrite ?elem_of_app, ?elem_of_cons, ?elem_of_nil in *; naive_solver.

Lemma new_circuit_ok cfg : valid_config cfg -> circuit_ok cfg (mkSystem new_circuit []).
Proof. intros (? & ? & ?). unfold circuit_ok. simpl. split_and!; try done; try lia; [mem..|intros _; split; [lia|done]]. Qed.

Lemma closed_no_probe cfg st ps :
  circuit_ok cfg (mkSystem st ps) -> phase st <> HALF_OPEN -> true ∉ ps.
Proof. intros (_ & _ & _ & Hp & _) Hne Hin. by destruct (Hp Hin) as [_ ?]. Qed.

(** What [acquire] does to a circuit, by cases. *)
Lemma acquire_cases cfg st clock st' r :
  acquire cfg st clock = (st', r) ->
  (st' = st /\ exists e, r = Throw e /\ (e = CONFIG \/ e = CIRCUIT_OPEN)) \/
  exists now, readClock clock = Ok now /\ (phase st = OPEN -> cooling cfg st now = false) /\
    let st1 := if bool_decide (phase st = OPEN) then half_open st else st in
    (is_half_open st1 = true /\ (probeInFlight st1 = true \/ active st1 <> 0) /\
     st' = st1 /\ r = Throw THROTTLED) \/
    (is_half_open st1 = true /\ probeInFlight st1 = false /\ active st1 = 0 /\
     (st', r) = admit_call cfg (set_probe st1 true)) \/
    (is_half_open st1 = false /\ st1 = st /\ (st', r) = admit_call cfg st).
Proof.
  unfold acquire. destruct (readClock clock) as [now|e] eqn:Ec.
  2:{ intros [= <- <-]. left. split; [done|]. exists e. split; [done|]. unfold readClock in Ec.
      repeat case_match; simplify_eq; auto. }
  destruct (bool_decide (phase st = OPEN) && cooling cfg st now) eqn:Eo.
  { intros [= <- <-]. left. eauto. }
  intros Ha. right. exists now. split; [done|]. split.
  { intros Hp. rewrite bool_decide_eq_true_2 in Eo by done. done. }
  cbv zeta. destruct (is_half_open _) eqn:Eh.
  - destruct (probeInFlight _ || _) eqn:Ep.
    + left. simplify_eq. apply orb_true_iff in Ep as [?|Hn%negb_true_iff%Z.eqb_neq]; auto.
    + right. left. apply orb_false_iff in Ep as [? Hn%negb_false_iff%Z.eqb_eq]. auto.
  - right. right. split; [done|]. case_bool_decide; [done|auto].
Qed.

Lemma half_open_ok cfg st ps :
  circuit_ok cfg (mkSystem st ps) -> phase st = OPEN -> circuit_ok cfg (mkSystem (half_open st) ps).
Proof.
  intros Hok Hp. assert (true ∉ ps) by (eapply closed_no_probe; [done|by rewrite Hp]).
  destruct Hok as (? & ? & ? & ? & Hc & Ho). unfold circuit_ok, half_open. simpl in *.
  split_and!; try done. intros _. apply Ho. by rewrite Hp.
Qed.

Lemma acquire_ok cfg st ps clock st' r :
  valid_config cfg -> circuit_ok cfg (mkSystem st ps) -> acquire cfg st clock = (st', r) ->
  match r with
  | Ok probe => circuit_ok cfg (mkSystem st' (probe :: ps))
  | Throw _ => circuit_ok cfg (mkSystem st' ps)
  end.
Proof.
  intros (Hft & Hcd & Hmf) Hok Ha. apply acquire_cases in Ha as [(-> & e & -> & _)|(now & _ & _ & Ha)]; [done|].
  assert (circuit_ok cfg (mkSystem (if bool_decide (phase st = OPEN) then half_open st else st) ps)) as Hok1.
  { case_bool_decide; [by apply half_open_ok|done]. }
  cbv zeta in Ha. set (st1 := if bool_decide (phase st = OPEN) then half_open st else st) in *.
  destruct Ha as [(_ & _ & -> & ->)|[(Hh & Hp & Hz & E)|(Hh & Est & E)]]; [done| |].
  - apply bool_decide_eq_true in Hh. unfold admit_call, set_probe in E. simpl in E.
    rewrite (proj2 (Z.leb_gt _ _)) in E by lia. injection E as -> ->.
    destruct Hok1 as (H1 & H2 & H3 & H4 & H5 & H6). simpl in *.
    destruct ps; [|simpl in H1; lia]. unfold is_half_open. simpl. rewrite bool_decide_eq_true_2 by done.
    unfold circuit_ok, add_active. simpl. rewrite Hh in *.
    split_and!; try done; try lia; try mem.
  - rewrite Est in *. unfold admit_call in E. rewrite Hh in E. unfold is_half_open in Hh.
    apply bool_decide_eq_false in Hh. pose proof (closed_no_probe _ _ _ Hok1 Hh) as Hn.
    destruct (Z.leb_spec (maxInFlight cfg) (active st)); injection E as -> ->; [done|].
    destruct Hok1 as (H1 & H2 & H3 & H4 & H5 & H6). unfold circuit_ok, add_active. simpl in *.
    split_and!; try done; try lia; mem.
Qed.

Lemma release_active st probe : active (release st probe) = active st - 1.
Proof. unfold release. by destruct probe. Qed.

Lemma complete_ok cfg st ps1 probe ps2 o clock st' r :
  valid_config cfg -> circuit_ok cfg (mkSystem st (ps1 ++ probe :: ps2)) ->
  complete cfg st probe o clock = (st', r) -> circuit_ok cfg (mkSystem st' (ps1 ++ ps2)).
Proof.
  intros (Hft & Hcd & Hmf) (H1 & H2 & H3 & H4 & H5 & H6) Hc. simpl in *.
  rewrite length_app in H1. simpl in H1.
  assert (probe = true -> ps1 = [] /\ ps2 = [] /\ phase st = HALF_OPEN) as Hprobe.
  { intros ->. destruct H4 as [E Hp]; [mem|]. destruct ps1 as [|x [|]], ps2; done. }
  assert (probe = false -> true ∉ (ps1 ++ ps2)%list /\ (probeInFlight st = false)) as Hplain.
  { intros ->. assert (true ∉ (ps1 ++ false :: ps2)%list) as Hn.
    { intros Hin. destruct (H4 Hin) as [E _]. destruct ps1 as [|x [|]], ps2; simplify_eq. }
    split; [mem|]. apply not_true_iff_false. tauto. }
  assert (forall st2, active st2 = active st -> probeInFlight st2 = probeInFlight st ->
    (phase st2 = CLOSED -> 0 <= consecutiveFailures st2 < failureThreshold cfg /\ openedAt st2 = None) ->
    (phase st2 <> CLOSED -> failureThreshold cfg <= consecutiveFailures st2) ->
    circuit_ok cfg (mkSystem (release st2 probe) (ps1 ++ ps2))) as Hrel.
  { intros st2 Ha Hp Hcl Hop. unfold circuit_ok. simpl. rewrite release_active, length_app, Ha.
    destruct probe; simpl.
    - destruct Hprobe as (-> & -> & _); [done|]. simpl in *. split_and!; try done; try lia; mem.
    - destruct Hplain as [Hn Hf]; [done|]. rewrite Hp, Hf. split_and!; try done; try lia. }
  unfold complete in Hc. destruct o as [v|error].
  - injection Hc as <- _. unfold onSuccess. destruct probe.
    + apply Hrel; simpl; try done. intros _. split; [lia|done].
    + case_bool_decide as Hcl; apply Hrel; simpl; try done. intros _. split; [lia|by apply H5].
  - destruct (onFailure cfg st probe error clock) as [st2 r2] eqn:Ef.
    assert (st' = release st2 probe) as -> by (destruct r2 as [[]|]; by simplify_eq).
    unfold onFailure in Ef. destruct (probe || transient _) eqn:Et; [|simplify_eq; by apply Hrel].
    cbv zeta in Ef. set (f := if probe then failureThreshold cfg else consecutiveFailures st + 1) in *.
    destruct (probe || (failureThreshold cfg <=? f)) eqn:Eth.
    + assert (failureThreshold cfg <= f) as Hf.
      { unfold f. destruct probe; [lia|]. simpl in Eth. apply Z.leb_le in Eth. unfold f in Eth. lia. }
      destruct (readClock clock); simplify_eq; by apply Hrel.
    + simplify_eq. apply orb_false_iff in Eth as [-> Hlt%Z.leb_gt]. unfold f in *.
      apply Hrel; simpl; try done.
      * intros Hcl. destruct (H5 Hcl). split; [lia|done].
      * intros Hne. specialize (H6 Hne). lia.
Qed.

Lemma step_ok cfg s s' : valid_config cfg -> circuit_ok cfg s -> step cfg s s' -> circuit_ok cfg s'.
Proof.
  intros Hcfg Hok Hs. destruct Hs as [st ps clock st' probe Ha|st ps clock st' e Ha|].
  - by apply (acquire_ok cfg st ps clock st' (Ok probe)).
  - by apply (acquire_ok cfg st ps clock st' (Throw e)).
  - by eapply complete_ok.
Qed.

(** ** Lemmas: calls one after the other *)

(** One call that the provider answers before the next one starts: the
    circuit, and whether the provider was called. *)
Definition call (cfg : Config) (st : Circuit) (now : Z) (o : Outcome) : Circuit * bool :=
  match acquire cfg st (JNum (NInt now)) with
  | (st, Throw _) => (st, false)
  | (st, Ok probe) => (fst (complete cfg st probe o (JNum (NInt now))), true)
  end.

Definition good_time (now : Z) : Prop := 0 <= now <= MAX_SAFE_INTEGER.

Lemma readClock_good now : good_time now -> readClock (JNum (NInt now)) = Ok now.
Proof.
  intros [? ?]. unfold readClock. simpl. rewrite (proj2 (Z.leb_le _ _)) by lia.
  by rewrite (proj2 (Z.ltb_ge _ _)) by lia.
Qed.

Definition transient_failure (o : Outcome) : Prop :=
  match o with Rejected e => transient (fst (classifyManagedSignerFailure e)) = true | Fulfilled _ => False end.

(** The state between sequential calls of a closed circuit. *)
Definition closed_idle (n : Z) : Circuit := mkCircuit CLOSED n None 0 false.

Lemma call_closed_failure cfg n now o :
  valid_config cfg -> good_time now -> transient_failure o ->
  call cfg (closed_idle n) now o =
    ((if failureThreshold cfg <=? n + 1 then mkCircuit OPEN (n + 1) (Some now) 0 false else closed_idle (n + 1)), true).
Proof.
  intros (_ & _ & Hm) Hg Ho. destruct o as [v|e]; [done|]. simpl in Ho.
  unfold call, acquire. rewrite readClock_good by done. simpl. unfold admit_call. simpl.
  rewrite (proj2 (Z.leb_gt _ _)) by lia. unfold complete, onFailure. rewrite Ho, readClock_good by done. simpl.
  by destruct (failureThreshold cfg <=? n + 1).
Qed.

Fixpoint calls (cfg : Config) (st : Circuit) (l : list (Z * Outcome)) : Circuit :=
  match l with [] => st | (now, o) :: l => calls cfg (fst (call cfg st now o)) l end.

Lemma calls_app cfg st l1 l2 : calls cfg st (l1 ++ l2)%list = calls cfg (calls cfg st l1) l2.
Proof. revert st. induction l1 as [|[now o] l1 IH]; intros st; simpl; auto. Qed.

Definition failing (l : list (Z * Outcome)) : Prop :=
  Forall (fun p => good_time p.1 /\ transient_failure p.2) l.

Lemma calls_below cfg l n :
  valid_config cfg -> failing l -> n + Z.of_nat (length l) < failureThreshold cfg ->
  calls cfg (closed_idle n) l = closed_idle (n + Z.of_nat (length l)).
Proof.
  intros Hcfg. revert n. induction l as [|[now o] l IH]; intros n Hl Hn; simpl.
  { f_equal. lia. }
  apply Forall_cons in Hl as [[Hg Ho] Hl]. simpl in *. rewrite call_closed_failure by done.
  rewrite (proj2 (Z.leb_gt _ _)) by lia. simpl. rewrite IH by (done || lia). f_equal. lia.
Qed.

(** ** Properties *)

(** C23: in every interleaving of calls, the number of outstanding calls is
    [active] and at most [maxInFlight]; a half-open probe is alone; a closed
    circuit has fewer consecutive failures than the threshold. *)
Theorem circuit_invariant cfg s :
  valid_config cfg -> reach initial (step cfg) s -> circuit_ok cfg s.
Proof.
  intros Hcfg Hr. induction Hr as [s ->|s s' _ IH Hs]; [by apply new_circuit_ok|by eapply step_ok].
Qed.

(** The decision of [acquire] on every branch of a circuit that satisfies
    the invariant. *)
Theorem acquire_spec cfg st ps clock now :
  valid_config cfg -> circuit_ok cfg (mkSystem st ps) -> readClock clock = Ok now ->
  acquire cfg st clock =
    match phase st with
    | CLOSED => if active st <? maxInFlight cfg then (add_active st 1, Ok false) else (st, Throw THROTTLED)
    | HALF_OPEN =>
        if active st =? 0 then (add_active (set_probe st true) 1, Ok true) else (st, Throw THROTTLED)
    | OPEN =>
        if cooling cfg st now then (st, Throw CIRCUIT_OPEN)
        else if active st =? 0 then (add_active (set_probe (half_open st) true) 1, Ok true)
        else (half_open st, Throw THROTTLED)
    end.
Proof.
  intros (_ & _ & Hm) (H1 & H2 & H3 & H4 & _) Hc. unfold acquire. rewrite Hc. simpl in *.
  destruct (phase st) eqn:Ep; simpl.
  - unfold is_half_open, admit_call. rewrite Ep. simpl.
    destruct (Z.ltb_spec (active st) (maxInFlight cfg)) as [Hlt|Hge].
    + rewrite (proj2 (Z.leb_gt _ _)) by lia. unfold is_half_open. by rewrite Ep.
    + rewrite (proj2 (Z.leb_le _ _)) by lia. unfold is_half_open. by rewrite Ep.
  - destruct (cooling cfg st now); simpl; [done|]. destruct (Z.eqb_spec (active st) 0) as [Ha|]; simpl; [|done].
    unfold admit_call. simpl. by rewrite (proj2 (Z.leb_gt _ _)) by lia.
  - unfold is_half_open. rewrite Ep. simpl. destruct (Z.eqb_spec (active st) 0) as [Ha|]; simpl.
    + assert (probeInFlight st = false) as ->.
      { apply not_true_iff_false. intros Hp%H3. destruct ps; [by apply elem_of_nil in Hp|simpl in H1; lia]. }
      simpl. unfold admit_call. simpl. rewrite (proj2 (Z.leb_gt _ _)) by lia. unfold is_half_open. simpl. by rewrite Ep.
    + by rewrite orb_true_r.
Qed.

(** [failureThreshold] transient failures in a row open the circuit at
    the time of the last one, one less leaves it closed; while it cools down
    no call reaches the provider; afterwards one probe does, and its success
    closes the circuit with a clean count. *)
Theorem circuit_trips_and_recovers cfg l t o :
  valid_config cfg -> failing l -> good_time t -> transient_failure o ->
  Z.of_nat (length l) + 1 = failureThreshold cfg ->
  let st := calls cfg new_circuit (l ++ [(t, o)])%list in
  phase (calls cfg new_circuit l) = CLOSED /\
  phase st = OPEN /\ openedAt st = Some t /\
  forall now o', good_time now ->
    (now < t + cooldownMs cfg -> call cfg st now o' = (st, false)) /\
    (t + cooldownMs cfg <= now -> forall v, call cfg st now (Fulfilled v) = (new_circuit, true)).
Proof.
  intros Hcfg Hl Ht Ho Hn. cbv zeta. change new_circuit with (closed_idle 0). rewrite calls_app.
  rewrite calls_below by (done || lia). split; [done|]. simpl. rewrite call_closed_failure by done.
  rewrite (proj2 (Z.leb_le _ _)) by lia. simpl. split; [done|]. split; [done|]. intros now o' Hg.
  unfold call, acquire. rewrite readClock_good by done. unfold cooling. simpl.
  split; intros Hnow; [by rewrite (proj2 (Z.ltb_lt _ _)) by lia|].
  intros v. rewrite (proj2 (Z.ltb_ge _ _)) by lia. simpl. unfold admit_call. simpl.
  destruct Hcfg as (_ & _ & Hm). by rewrite (proj2 (Z.leb_gt _ _)) by lia.
Qed.

(** When the clock fails at the moment the threshold is reached, the
    circuit is open without an opening time, and the next call is admitted at
    once: the cooldown is skipped. *)
Theorem clock_failure_skips_cooldown :
  let cfg := mkConfig 1 5000 8 in
  exists st, phase st = OPEN /\ openedAt st = None /\
    reach initial (step cfg) (mkSystem st []) /\
    forall now, good_time now -> exists st', acquire cfg st (JNum (NInt now)) = (st', Ok true).
Proof.
  cbv zeta. exists (mkCircuit OPEN 1 None 0 false). split; [done|]. split; [done|]. split.
  - set (cfg := mkConfig 1 5000 8).
    assert (reach initial (step cfg) (mkSystem (mkCircuit CLOSED 0 None 1 false) [false])) as Hr.
    { eapply reach_step; [by apply reach_init|]. by apply (step_admitted cfg new_circuit [] (JNum (NInt 0))). }
    eapply reach_step; [exact Hr|].
    by apply (step_completed cfg (mkCircuit CLOSED 0 None 1 false) [] false [] (Rejected JUndefined) JUndefined _
      (Throw (Reliability CONFIG))).
  - intros now Hg. unfold acquire. rewrite readClock_good by done. by eexists.
Qed.

(** ** Witnesses *)

Definition sample_config : Config := mkConfig 3 5000 8.

Lemma sample_config_ok : valid_config sample_config.
Proof. unfold valid_config, sample_config. simpl. lia. Qed.

Lemma circuit_invariant_witness : circuit_ok sample_config (mkSystem (closed_idle 0) []).
Proof.
  apply (circuit_invariant sample_config); [apply sample_config_ok|]. apply reach_init. reflexivity.
Defined.

Lemma acquire_spec_witness :
  acquire sample_config new_circuit (JNum (NInt 5)) = (mkCircuit CLOSED 0 None 1 false, Ok false).
Proof.
  refine (acquire_spec sample_config new_circuit [] (JNum (NInt 5)) 5 sample_config_ok _ eq_refl).
  apply new_circuit_ok, sample_config_ok.
Defined.

Lemma circuit_trips_and_recovers_witness :
  phase (calls sample_config new_circuit
    [(1, Rejected JUndefined); (2, Rejected JUndefined); (3, Rejected JUndefined)]) = OPEN.
Proof.
  refine (proj1 (proj2 (circuit_trips_and_recovers sample_config [(1, Rejected JUndefined); (2, Rejected JUndefined)]
    3 (Rejected JUndefined) sample_config_ok _ _ _ _))).
  - repeat constructor; done.
  - split; done.
  - reflexivity.
  - reflexivity.
Defined.
