(* ===== verification/Program.v ===== *)
(** * Asynchronous programs

    An asynchronous function is a program over the effects it performs: [Ask e
    k] awaits the answer to [e] and goes on with [k].  What is known of the
    answers is either a predicate on events ([ensures]) or a relation between
    worlds ([answers]); with a world, a run may stop anywhere, as the process
    may, and [safe] is its logic: an invariant that every crash leaves, and a
    postcondition of the runs that finish. *)

From stdpp Require Import base tactics list.
From S2P Require Import Prelude.

(** ** Programs *)

Section Programs.
Context {Effect : Type} (resp : Effect -> Type).

Inductive prog (A : Type) : Type :=
| Done (a : A)
| Ask (e : Effect) (k : resp e -> prog A).

(** A program that returns or throws. *)
Definition async (X A : Type) : Type := prog (result X A).

(** An effect with its answer. *)
Definition event : Type := { e : Effect & resp e }.
End Programs.
Arguments Done {Effect resp A} a.
Arguments Ask {Effect resp A} e k.

Section Composition.
Context {Effect : Type} {resp : Effect -> Type} {X : Type}.
Notation prog := (prog resp).
Notation async := (async resp X).

Fixpoint pbind {A B} (p : prog A) (f : A -> prog B) : prog B :=
  match p with Done a => f a | Ask e k => Ask e (fun r => pbind (k r) f) end.

Definition return_ {A} (a : A) : async A := Done (Ok a).
Definition throw {A} (e : X) : async A := Done (Throw e).
Definition sync {A} (r : result X A) : async A := Done r.
Definition ask (e : Effect) : async (resp e) := Ask e (fun r => Done (Ok r)).

(** [await p], then [f]. *)
Definition abind {A B} (p : async A) (f : A -> async B) : async B :=
  pbind p (fun r => match r with Ok a => f a | Throw e => Done (Throw e) end).

(** [try { p } catch (error) { h(error) }] *)
Definition catch {A} (p : async A) (h : X -> async A) : async A :=
  pbind p (fun r => match r with Ok a => Done (Ok a) | Throw e => h e end).

(** [for (const a of l) bs.push(await f(a))] *)
Fixpoint for_each {A B} (f : A -> async B) (l : list A) : async (list B) :=
  match l with
  | [] => return_ []
  | a :: l => abind (f a) (fun b => abind (for_each f l) (fun bs => return_ (b :: bs)))
  end.
End Composition.

Notation "'await' x ':=' p 'in' k" := (abind p (fun x => k))
  (at level 200, x name, p at level 100, k at level 200, right associativity).

(** ** Runs *)

Section Runs.
Context {Effect : Type} {resp : Effect -> Type} {X : Type}.
Notation prog := (prog resp).
Notation async := (async resp X).
Notation event := (event resp).

Definition ev (e : Effect) (r : resp e) : event := existT e r.

(** A run of a program: the effects with their answers, and the result. *)
Fixpoint runs {A} (p : prog A) (t : list event) (a : A) : Prop :=
  match p with
  | Done a' => t = [] /\ a = a'
  | Ask e k => exists r t', t = ev e r :: t' /\ runs (k r) t' a
  end.

Lemma runs_pbind {A B} (p : prog A) (f : A -> prog B) t b :
  runs (pbind p f) t b <-> exists t1 t2 a, t = (t1 ++ t2)%list /\ runs p t1 a /\ runs (f a) t2 b.
Proof.
  revert t. induction p as [a|e k IH]; intros t; simpl.
  - split; [intros H; by exists [], t, a|]. by intros (? & t2 & ? & -> & [-> ->] & H).
  - split.
    + intros (r & t' & -> & (t1 & t2 & a & -> & H1 & H2)%IH). exists (ev e r :: t1), t2, a.
      split_and!; [done| |done]. by exists r, t1.
    + intros (? & t2 & a & -> & (r & t1 & -> & H1) & H2). exists r, (t1 ++ t2)%list.
      split; [done|]. apply IH. by exists t1, t2, a.
Qed.

Lemma runs_abind {A B} (p : async A) (f : A -> async B) t r :
  runs (abind p f) t r <->
  (exists e, runs p t (Throw e) /\ r = Throw e) \/
  exists t1 t2 a, t = (t1 ++ t2)%list /\ runs p t1 (Ok a) /\ runs (f a) t2 r.
Proof.
  unfold abind. rewrite runs_pbind. split.
  - intros (t1 & t2 & [a|e] & -> & H1 & H2); [right; eauto 6|]. destruct H2 as [-> ->].
    rewrite app_nil_r. left. eauto.
  - intros [(e & H & ->)|(t1 & t2 & a & -> & H1 & H2)].
    + exists t, [], (Throw e). by rewrite app_nil_r.
    + by exists t1, t2, (Ok a).
Qed.

Lemma runs_catch {A} (p : async A) (h : X -> async A) t r :
  runs (catch p h) t r <->
  (exists a, runs p t (Ok a) /\ r = Ok a) \/
  exists t1 t2 e, t = (t1 ++ t2)%list /\ runs p t1 (Throw e) /\ runs (h e) t2 r.
Proof.
  unfold catch. rewrite runs_pbind. split.
  - intros (t1 & t2 & [a|e] & -> & H1 & H2); [|right; eauto 6]. destruct H2 as [-> ->].
    rewrite app_nil_r. left. eauto.
  - intros [(a & H & ->)|(t1 & t2 & e & -> & H1 & H2)].
    + exists t, [], (Ok a). by rewrite app_nil_r.
    + by exists t1, t2, (Throw e).
Qed.

(** ** What programs that return guarantee *)

Section Ensures.
(** What is assumed of the answers of the environment. *)
Variable env : event -> Prop.

Definition ensures {A} (p : async A) (Q : A -> Prop) : Prop :=
  forall t a, Forall env t -> runs p t (Ok a) -> Q a.

Lemma ensures_return {A} (a : A) (Q : A -> Prop) : Q a -> ensures (return_ a) Q.
Proof. intros H t a' _ [_ E]. by injection E as ->. Qed.

Lemma ensures_throw {A} e (Q : A -> Prop) : ensures (throw e) Q.
Proof. by intros t a _ [_ E]. Qed.

Lemma ensures_sync {A} (m : result X A) (Q : A -> Prop) : (forall a, m = Ok a -> Q a) -> ensures (sync m) Q.
Proof. intros H t a _ [_ E]. by apply H. Qed.

Lemma ensures_abind {A B} (p : async A) (f : A -> async B) P Q :
  ensures p P -> (forall a, P a -> ensures (f a) Q) -> ensures (abind p f) Q.
Proof.
  intros Hp H t b He [(? & _ & ?)|(t1 & t2 & a & -> & Ha & Hb)]%runs_abind; [done|].
  apply Forall_app in He as [He1 He2]. exact (H a (Hp t1 a He1 Ha) t2 b He2 Hb).
Qed.

Lemma ensures_any {A B} (p : async A) (f : A -> async B) Q :
  (forall a, ensures (f a) Q) -> ensures (abind p f) Q.
Proof. intros H. apply (ensures_abind p f (fun _ => True)); [by intros t a|auto]. Qed.

Lemma ensures_catch {A} (p : async A) h Q :
  ensures p Q -> (forall e, ensures (h e) Q) -> ensures (catch p h) Q.
Proof.
  intros Hp Hh t a He [(? & H & E)|(t1 & t2 & e & -> & _ & H)]%runs_catch; [injection E as ->; exact (Hp t _ He H)|].
  apply Forall_app in He as [_ He]. exact (Hh e t2 a He H).
Qed.

Lemma ensures_ask e (Q : resp e -> Prop) : (forall r, env (ev e r) -> Q r) -> ensures (ask e) Q.
Proof. intros H t a He (r & t' & -> & _ & E). injection E as ->. apply H. by apply Forall_cons in He as [He _]. Qed.
End Ensures.

(** ** Programs that do not perform certain effects *)

Section Avoids.
Variable bad : Effect -> bool.

Fixpoint avoids {A} (p : prog A) : Prop :=
  match p with Done _ => True | Ask e k => bad e = false /\ forall r, avoids (k r) end.

Lemma avoids_pbind {A B} (p : prog A) (f : A -> prog B) :
  avoids p -> (forall a, avoids (f a)) -> avoids (pbind p f).
Proof. induction p as [a|e k IH]; simpl; [auto|]. intros [He Hk] Hf. split; auto. Qed.

Lemma avoids_abind {A B} (p : async A) (f : A -> async B) :
  avoids p -> (forall a, avoids (f a)) -> avoids (abind p f).
Proof. intros. apply avoids_pbind; [done|]. by intros [|]. Qed.

Lemma avoids_catch {A} (p : async A) h : avoids p -> (forall e, avoids (h e)) -> avoids (catch p h).
Proof. intros. apply avoids_pbind; [done|]. by intros [|]. Qed.

Lemma avoids_for_each {A B} (f : A -> async B) l : (forall a, avoids (f a)) -> avoids (for_each f l).
Proof.
  intros Hf. induction l as [|a l IH]; [exact I|]. apply avoids_abind; [apply Hf|]. intros b. by apply avoids_abind; [|intros bs].
Qed.

Lemma avoids_runs {A} (p : prog A) t a : avoids p -> runs p t a -> Forall (fun x => bad (projT1 x) = false) t.
Proof.
  revert t. induction p as [a'|e k IH]; intros t; simpl; [by intros _ [-> _]|].
  intros [He Hk] (r & t' & -> & H). constructor; [done|]. by eapply IH.
Qed.
End Avoids.

(** ** What programs ask, and what they return *)

Section Emits.
Variable P : Effect -> Prop.

Fixpoint emits {A} (p : prog A) (Q : A -> Prop) : Prop :=
  match p with Done a => Q a | Ask e k => P e /\ forall r, emits (k r) Q end.

Definition returns {A} (Q : A -> Prop) (r : result X A) : Prop := match r with Ok a => Q a | Throw _ => True end.

Lemma emits_pbind {A B} (p : prog A) (f : A -> prog B) R Q :
  emits p R -> (forall a, R a -> emits (f a) Q) -> emits (pbind p f) Q.
Proof. induction p as [a|e k IH]; cbn [emits pbind]; [auto|]. intros [He Hk] Hf. split; auto. Qed.

Lemma emits_abind {A B} (p : async A) (f : A -> async B) R Q :
  emits p (returns R) -> (forall a, R a -> emits (f a) (returns Q)) -> emits (abind p f) (returns Q).
Proof. intros Hp Hf. apply (emits_pbind _ _ _ _ Hp). intros [a|e] Ha; [by apply Hf|exact I]. Qed.

Lemma emits_catch {A} (p : async A) h Q :
  emits p (returns Q) -> (forall e, emits (h e) (returns Q)) -> emits (catch p h) (returns Q).
Proof. intros Hp Hh. apply (emits_pbind _ _ _ _ Hp). intros [a|e] Ha; [exact Ha|apply Hh]. Qed.

Lemma emits_sync {A} (m : result X A) (Q : A -> Prop) : (forall a, m = Ok a -> Q a) -> emits (sync m : async A) (returns Q).
Proof. intros H. destruct m; cbn; auto. Qed.

Lemma emits_ask e (Q : resp e -> Prop) : P e -> (forall r, Q r) -> emits (ask e : async (resp e)) (returns Q).
Proof. intros He Hq. split; [done|]. intros r. apply Hq. Qed.

Lemma emits_runs {A} (p : prog A) Q t a : emits p Q -> runs p t a -> Forall (fun x => P (projT1 x)) t /\ Q a.
Proof.
  revert t. induction p as [b|e k IH]; intros t; cbn [emits runs]; [by intros H [-> ->]|].
  intros [He Hk] (r & t' & -> & H). destruct (IH r t' (Hk r) H). by split; [constructor|].
Qed.
End Emits.
End Runs.

(** ** Programs in a world, and crashes *)

Section Worlds.
Context {Effect : Type} {resp : Effect -> Type} {X W : Type}.
Notation prog := (prog resp).
Notation async := (async resp X).

(** How the world may answer an effect, and what it becomes. *)
Variable answers : W -> forall e : Effect, resp e -> W -> Prop.

(** An execution: it finishes with a result, or the process dies ([None]). *)
Inductive exec {A} : W -> prog A -> W -> option A -> Prop :=
| exec_done w a : exec w (Done a) w (Some a)
| exec_crash w p : exec w p w None
| exec_ask w e k r w1 w2 o : answers w e r w1 -> exec w1 (k r) w2 o -> exec w (Ask e k) w2 o.

(** The same for executions that finish, by recursion on the program. *)
Fixpoint finishes {A} (w : W) (p : prog A) (w' : W) (a : A) : Prop :=
  match p with
  | Done b => a = b /\ w' = w
  | Ask e k => exists r w1, answers w e r w1 /\ finishes w1 (k r) w' a
  end.

Lemma exec_finishes {A} w (p : prog A) w' a : exec w p w' (Some a) -> finishes w p w' a.
Proof.
  remember (Some a) as o eqn:Eo. intros H. induction H as [w b|w p|w e k r w1 w2 o Ha H IH]; try done.
  - by injection Eo as ->.
  - exists r, w1. auto.
Qed.

Lemma finishes_pbind {A B} w (p : prog A) (f : A -> prog B) w' b :
  finishes w (pbind p f) w' b <-> exists a w1, finishes w p w1 a /\ finishes w1 (f a) w' b.
Proof.
  revert w. induction p as [a|e k IH]; intros w; cbn [pbind finishes].
  - split; [intros H; by exists a, w|]. by intros (a' & w1 & [-> ->] & H).
  - split.
    + intros (r & w1 & Ha & (a & w2 & H1 & H2)%IH). exists a, w2. split; [by exists r, w1|done].
    + intros (a & w2 & (r & w1 & Ha & H1) & H2). exists r, w1. split; [done|]. apply IH. by exists a, w2.
Qed.

Fixpoint safe {A} (I : W -> Prop) (p : prog A) (w : W) (Q : A -> W -> Prop) : Prop :=
  I w /\ match p with Done a => Q a w | Ask e k => forall r w', answers w e r w' -> safe I (k r) w' Q end.

Lemma safe_inv {A} I (p : prog A) w Q : safe I p w Q -> I w.
Proof. destruct p; intros [H _]; exact H. Qed.

Lemma safe_exec {A} I (p : prog A) w Q w' o :
  safe I p w Q -> exec w p w' o -> I w' /\ forall a, o = Some a -> Q a w'.
Proof.
  intros Hs H. induction H as [w a|w p|w e k r w1 w2 o Ha H IH].
  - destruct Hs as [HI HQ]. split; [done|]. by intros ? [= <-].
  - split; [exact (safe_inv _ _ _ _ Hs)|done].
  - destruct Hs as [_ Hs]. exact (IH (Hs r w1 Ha)).
Qed.

Lemma safe_done {A} (I : W -> Prop) (a : A) w (Q : A -> W -> Prop) : I w -> Q a w -> safe I (Done a) w Q.
Proof. by split. Qed.

Lemma safe_mono {A} (I : W -> Prop) (p : prog A) w (Q Q' : A -> W -> Prop) :
  safe I p w Q -> (forall a w', I w' -> Q a w' -> Q' a w') -> safe I p w Q'.
Proof.
  revert w. induction p as [a|e k IH]; intros w [HI H] HQ; (split; [done|]); [auto|].
  intros r w' Ha. apply IH; auto.
Qed.

Lemma safe_pbind {A B} I (p : prog A) (f : A -> prog B) w P Q :
  safe I p w P -> (forall a w', I w' -> P a w' -> safe I (f a) w' Q) -> safe I (pbind p f) w Q.
Proof.
  revert w. induction p as [a|e k IH]; intros w [HI H] Hf; [simpl; auto|]. simpl.
  split; [done|]. intros r w' Ha. apply (IH r w' (H r w' Ha) Hf).
Qed.

(** The postcondition of an asynchronous function: of its results and of its
    errors. *)
Definition post {A} (Q : A -> W -> Prop) (E : X -> W -> Prop) (r : result X A) (w : W) : Prop :=
  match r with Ok a => Q a w | Throw e => E e w end.

Lemma safe_abind {A B} I (p : async A) (f : A -> async B) w P Q E :
  safe I p w (post P E) -> (forall a w', I w' -> P a w' -> safe I (f a) w' (post Q E)) ->
  safe I (abind p f) w (post Q E).
Proof.
  intros Hp Hf. apply (safe_pbind _ _ _ _ _ _ Hp). intros [a|e] w' HI H; [by apply Hf|]. by apply safe_done.
Qed.

Lemma safe_catch {A} I (p : async A) h w Q E E' :
  safe I p w (post Q E) -> (forall e w', I w' -> E e w' -> safe I (h e) w' (post Q E')) ->
  safe I (catch p h) w (post Q E').
Proof.
  intros Hp Hh. apply (safe_pbind _ _ _ _ _ _ Hp). intros [a|e] w' HI H; [by apply safe_done|by apply Hh].
Qed.

Lemma safe_return {A} (I : W -> Prop) (a : A) w (Q : A -> W -> Prop) E : I w -> Q a w -> safe I (return_ a) w (post Q E).
Proof. by split. Qed.

Lemma safe_throw {A} (I : W -> Prop) e w (Q : A -> W -> Prop) (E : X -> W -> Prop) : I w -> E e w -> safe I (throw e) w (post Q E).
Proof. by split. Qed.

Lemma safe_sync {A} (I : W -> Prop) (m : result X A) w (Q : A -> W -> Prop) (E : X -> W -> Prop) :
  I w -> (forall a, m = Ok a -> Q a w) -> (forall e, m = Throw e -> E e w) -> safe I (sync m) w (post Q E).
Proof. intros HI HQ HE. split; [done|]. destruct m; simpl; auto. Qed.

Lemma safe_ask (I : W -> Prop) e w (Q : resp e -> W -> Prop) E :
  I w -> (forall r w', answers w e r w' -> I w' /\ Q r w') -> safe I (ask e) w (post Q E).
Proof. intros HI H. split; [done|]. intros r w' Ha. destruct (H r w' Ha). by split. Qed.

(** A loop, with an invariant of its iterations. *)
Lemma safe_for_each {A B} (I : W -> Prop) (f : A -> async B) l w (L : list A -> list B -> W -> Prop) E :
  I w -> L [] [] w ->
  (forall done bs a w', done ++ [a] `prefix_of` l -> I w' -> L done bs w' ->
     safe I (f a) w' (post (fun b => L (done ++ [a]) (bs ++ [b])) E)) ->
  safe I (for_each f l) w (post (L l) E).
Proof.
  intros HI HL Hf.
  assert (forall rest done bs w', done ++ rest = l -> I w' -> L done bs w' ->
            safe I (for_each f rest) w' (post (fun out => L l (bs ++ out)) E)) as Hgo.
  { induction rest as [|a rest IH]; intros done bs w' El HI' HL'; simpl.
    - refine (safe_return I [] w' (fun out => L l (bs ++ out)) E HI' _). rewrite app_nil_r in *. by subst.
    - refine (safe_abind I _ _ _ (fun b => L (done ++ [a]) (bs ++ [b])) _ _ _ _); [apply (Hf done bs); [|done|done]|].
      { exists rest. by rewrite <- app_assoc. }
      intros b w1 HI1 HL1. refine (safe_abind I _ _ _ (fun out => L l ((bs ++ [b]) ++ out)) _ _ _ _); [apply (IH (done ++ [a]) (bs ++ [b])); [by rewrite <- app_assoc|done..]|].
      intros out w2 HI2 HL2. refine (safe_return I _ w2 (fun out => L l (bs ++ out)) E HI2 _). by rewrite <- app_assoc in HL2. }
  exact (Hgo l [] [] w eq_refl HI HL).
Qed.

(** A world that answers by a function runs programs to their end. *)
Section Interpreter.
Variable handler : W -> forall e : Effect, resp e * W.

Fixpoint interpret {A} (p : prog A) (w : W) : A * W :=
  match p with
  | Done a => (a, w)
  | Ask e k => interpret (k (fst (handler w e))) (snd (handler w e))
  end.

(** The effects of that run, with their answers. *)
Fixpoint trace {A} (p : prog A) (w : W) : list (event resp) :=
  match p with
  | Done _ => []
  | Ask e k => ev e (fst (handler w e)) :: trace (k (fst (handler w e))) (snd (handler w e))
  end.

Lemma interpret_runs {A} (p : prog A) w : runs p (trace p w) (fst (interpret p w)).
Proof. revert w. induction p as [a|e k IH]; intros w; cbn [runs trace interpret]; [done|]. eauto. Qed.

Lemma interpret_exec {A} (p : prog A) w :
  (forall w e, answers w e (fst (handler w e)) (snd (handler w e))) -> exec w p (snd (interpret p w)) (Some (fst (interpret p w))).
Proof.
  intros H. revert w. induction p as [a|e k IH]; intros w; cbn [interpret]; [constructor|].
  econstructor; [apply H|apply IH].
Qed.
End Interpreter.
End Worlds.
