(* ===== verification/SignerRegistry.v ===== *)
(** * The signer purpose registry (apps/cloud-api/src/signer-purpose-registry.mjs)

    The frozen table of the eight signing purposes and the validation of a
    complete set of hosted key bindings against it.  Errors are the codes of
    [SignerPurposeRegistryError], or the [TypeError] of a binding name that
    has no string conversion. *)

From stdpp Require Import base tactics sets list strings.
From Stdlib Require Import Ascii.
From S2P Require Import Prelude JsValue Regex Json.
Local Open Scope string_scope.
Local Open Scope js_scope.

(** ** The registry *)

Definition SIGNER_PURPOSE_REGISTRY_VERSION : Z := 1.

Definition nul : string := String (ascii_of_nat 0) "".

Record PurposeDefinition := mkPurposeDefinition {
  name : string; purpose : string; domain : string; allowed_algorithms : list string;
  protocol_version : Z; signing_version : Z; hosted_status : string
}.

Definition definitions : list PurposeDefinition := [
  mkPurposeDefinition "capability" "agentpass.capability" ("AgentPass-Capability-v1" +:+ nul)
    ["ed25519"] 1 1 "managed_kms_integrated";
  mkPurposeDefinition "control_bundle" "agentpass.control-bundle" ("AgentPass-Control-Bundle-v2" +:+ nul)
    ["ed25519"] 2 2 "managed_kms_integrated";
  mkPurposeDefinition "refresh_hint" "agentpass.refresh-hint" ("AgentPass-Refresh-Hint-v1" +:+ nul)
    ["ed25519"] 1 1 "managed_kms_integrated";
  mkPurposeDefinition "possession_receipt" "device-enrollment-possession-receipt"
    ("AgentPass-Cloud-Possession-Receipt-v1" +:+ nul) ["ed25519"; "p256-sha256"] 1 1 "managed_kms_integrated";
  mkPurposeDefinition "agent_session_grant" "agentpass.agent-session-grant"
    ("AgentPass-Agent-Session-Grant-v1" +:+ nul) ["ed25519"] 1 1 "managed_kms_integrated";
  mkPurposeDefinition "qualification_manifest" "agentpass.qualification-grant-batch-manifest"
    ("AgentPass-Qualification-Grant-Batch-v2" +:+ nul) ["ed25519"] 2 2 "managed_kms_integrated";
  mkPurposeDefinition "audit_anchor" "agentpass.audit-anchor" ("AgentPass-Audit-Anchor-v1" +:+ nul)
    ["ed25519"] 1 1 "managed_kms_integrated";
  mkPurposeDefinition "promotion_evidence" "agentpass.promotion-evidence"
    ("AgentPass-Promotion-Evidence-v3" +:+ nul) ["ed25519"] 3 3 "managed_kms_integrated" ].

Definition HOSTED_STATUSES :=
  ["file_backed_hosted"; "managed_kms_integrated"; "migration_required"; "primitive_only"; "schema_only"].

Definition LEGACY_BINDING_FIELDS :=
  ["algorithm"; "domain"; "key_id"; "key_version"; "name"; "provider"; "provider_resource_id";
   "public_key_fingerprint"; "purpose"; "version"].

Definition CURRENT_BINDING_FIELDS :=
  ["algorithm"; "domain"; "hosted_status"; "key_id"; "key_version"; "name"; "provider"; "provider_resource_id";
   "public_key_fingerprint"; "protocol_version"; "purpose"; "registry_version"; "signing_version"; "version"].

(** The fields of a registry entry, by name. *)
Definition entry_field (d : PurposeDefinition) (field : string) : jsval :=
  default JUndefined (assoc field
    [("version", JNum (NInt SIGNER_PURPOSE_REGISTRY_VERSION));
     ("registry_version", JNum (NInt SIGNER_PURPOSE_REGISTRY_VERSION));
     ("protocol_version", JNum (NInt (protocol_version d))); ("signing_version", JNum (NInt (signing_version d)));
     ("name", JStr (name d)); ("purpose", JStr (purpose d)); ("domain", JStr (domain d));
     ("managed_algorithm", JStr "ed25519"); ("hosted_status", JStr (hosted_status d))]).

Fixpoint find_definition (n : string) (ds : list PurposeDefinition) : option PurposeDefinition :=
  match ds with [] => None | d :: ds => if String.eqb (name d) n then Some d else find_definition n ds end.

(** [SIGNER_PURPOSE_REGISTRY[name]], as the function of its fields. *)
Definition registry (n : string) : option (string -> jsval) :=
  match find_definition n definitions with
  | Some d => Some (entry_field d)
  | None => if includes OBJECT_PROTOTYPE n then Some (fun _ => JUndefined) else None
  end.

(** ** Errors *)

Inductive registry_exn :=
| ERR_INPUT | ERR_INCOMPLETE | ERR_DUPLICATE | ERR_PURPOSE | ERR_STATE | ERR_SUBSTITUTION | ERR_KEY
| ERR_PROVIDER | ERR_KEY_REUSE | NameTypeError.

#[export] Instance registry_exn_eq_dec : EqDecision registry_exn.
Proof. solve_decision. Defined.

(** ** Validation *)

Definition sameKeys (v : jsval) (keys : list string) : bool :=
  String.eqb (join nul (sort_strings (own_keys v))) (join nul (sort_strings keys)).

Definition validVersion (v : jsval) : bool :=
  match safe_integer v with Some z => (1 <=? z)%Z | None => false end.

Definition managedProvider (v : jsval) : bool := one_of ["aws-kms"; "gcp-cloud-kms"; "hsm"] v.

Definition id_char (c : ascii) : bool := alnum c || in_chars "._:/-" c.
Definition IDENTIFIER : re := RSeq (one alnum) (upto id_char 255).
Definition identifier (v : jsval) : bool := str_test IDENTIFIER v.

Definition RESOURCE : re :=
  seqs [alts [lit "arn:aws:kms:"; lit "projects/"; lit "hsm:"]; one alnum; Regex.some id_char].

Definition any_char (_ : ascii) : bool := true.

(** A forbidden path segment, between separators or ends of the text. *)
Definition FORBIDDEN_SEGMENT : re :=
  seqs [opt (RSeq (many any_char) (one (in_chars "/:")));
        alts [lit_i "file"; lit_i "local"; lit_i "pem"; lit_i "private-key"];
        opt (RSeq (one (in_chars "/:")) (many any_char))].

Definition resourceId (v : jsval) : bool :=
  match v with
  | JStr s => Nat.leb (String.length s) 1024 && re_test RESOURCE s && negb (re_test FORBIDDEN_SEGMENT s)
  | _ => false
  end.

(** A normalized binding: the own fields of the input, with the four fields
    that a legacy binding takes from its version and the registry. *)
Definition field_of (v : jsval) (expected : string -> jsval) (field : string) : jsval :=
  if sameKeys v LEGACY_BINDING_FIELDS then
    if String.eqb field "registry_version" then get v "version"
    else if one_of ["protocol_version"; "signing_version"; "hosted_status"] (JStr field) then expected field
    else get v field
  else get v field.

(** The fields of the normalized binding that the rest of the system reads. *)
Record Binding := mkBinding {
  b_name : jsval; b_purpose : jsval; b_domain : jsval; b_algorithm : jsval;
  b_provider : string; b_resource : string; b_key_id : string; b_key_version : string; b_fingerprint : string;
  b_protocol_version : jsval; b_signing_version : jsval; b_hosted_status : jsval
}.

Definition FINGERPRINT : re := times hex_lower 64.

Definition REGISTRY_FIELDS :=
  ["version"; "registry_version"; "protocol_version"; "signing_version"; "purpose"; "domain"].

(** The checks of one binding that involve no other. *)
Definition validateBinding (v : jsval) (expected : string -> jsval) : result registry_exn Binding :=
  let f := field_of v expected in
  throw_if negb (forallb (fun k => validVersion (f k))
                   ["version"; "registry_version"; "protocol_version"; "signing_version"]) with ERR_STATE ;;
  throw_if negb (forallb (fun k => bool_decide (f k = expected k)) REGISTRY_FIELDS) with ERR_SUBSTITUTION ;;
  throw_if negb (one_of HOSTED_STATUSES (f "hosted_status"))
           || negb (bool_decide (f "hosted_status" = expected "hosted_status")) with ERR_STATE ;;
  throw_if negb (bool_decide (f "algorithm" = expected "managed_algorithm")) with ERR_SUBSTITUTION ;;
  throw_if negb (identifier (f "key_id")) || negb (identifier (f "key_version")) with ERR_KEY ;;
  throw_if negb (managedProvider (f "provider")) || negb (resourceId (f "provider_resource_id"))
    with ERR_PROVIDER ;;
  match f "provider", f "provider_resource_id", f "key_id", f "key_version", f "public_key_fingerprint" with
  | JStr provider, JStr resource, JStr key_id, JStr key_version, JStr fingerprint =>
      throw_if negb (re_test FINGERPRINT fingerprint) with ERR_KEY ;;
      Ok (mkBinding (f "name") (f "purpose") (f "domain") (f "algorithm") provider resource key_id key_version
            fingerprint (f "protocol_version") (f "signing_version") (f "hosted_status"))
  | _, _, _, _, _ => Throw ERR_KEY
  end.

Definition identity (b : Binding) : string :=
  b_provider b +:+ nul +:+ b_resource b +:+ nul +:+ b_key_id b +:+ nul +:+ b_key_version b.

(** One iteration of the loop, with the bindings accepted so far. *)
Definition validate_one (accepted : list Binding) (v : jsval) : result registry_exn Binding :=
  throw_if negb (is_plain v) || (negb (sameKeys v LEGACY_BINDING_FIELDS) && negb (sameKeys v CURRENT_BINDING_FIELDS))
    with ERR_INPUT ;;
  throw_if includes (map b_name accepted) (get v "name") with ERR_DUPLICATE ;;
  key ← of_option NameTypeError (to_string (get v "name"));
  match registry key with
  | None => Throw ERR_PURPOSE
  | Some expected =>
      binding ← validateBinding v expected;
      throw_if includes (map identity accepted) (identity binding) with ERR_KEY_REUSE ;;
      throw_if includes (map b_fingerprint accepted) (b_fingerprint binding) with ERR_KEY_REUSE ;;
      Ok binding
  end.

Fixpoint validate_all (accepted : list Binding) (input : list jsval) : result registry_exn (list Binding) :=
  match input with
  | [] => Ok accepted
  | v :: input => b ← validate_one accepted v; validate_all (accepted ++ [b])%list input
  end.

(** The accepted bindings, in the order of the input (the object that the
    function returns lists them by name). *)
Definition validateSignerPurposeBindings (input : jsval) : result registry_exn (list Binding) :=
  match input with
  | JArr input =>
      throw_if negb (Nat.eqb (length input) (length definitions)) with ERR_INCOMPLETE ;;
      bindings ← validate_all [] input;
      throw_if negb (forallb (fun d => includes (map b_name bindings) (JStr (name d))) definitions)
        with ERR_INCOMPLETE ;;
      Ok bindings
  | _ => Throw ERR_INPUT
  end.

(** ** Lemmas *)

(** What one accepted binding says, against the entry of its name. *)
Definition matches_entry (b : Binding) : Prop :=
  exists key expected, to_string (b_name b) = Some key /\ registry key = Some expected /\
    b_purpose b = expected "purpose" /\ b_domain b = expected "domain" /\
    b_protocol_version b = expected "protocol_version" /\ b_signing_version b = expected "signing_version" /\
    b_hosted_status b = expected "hosted_status" /\ b_algorithm b = expected "managed_algorithm".

(** The key material of a binding. *)
Definition well_keyed (b : Binding) : Prop :=
  re_test IDENTIFIER (b_key_id b) = true /\ re_test IDENTIFIER (b_key_version b) = true /\
  b_provider b ∈ ["aws-kms"; "gcp-cloud-kms"; "hsm"] /\ resourceId (JStr (b_resource b)) = true /\
  re_test FINGERPRINT (b_fingerprint b) = true.

Lemma field_of_name v expected : field_of v expected "name" = get v "name".
Proof. unfold field_of. by destruct (sameKeys v LEGACY_BINDING_FIELDS). Qed.

Lemma validateBinding_ok v expected b :
  validateBinding v expected = Ok b ->
  b_name b = get v "name" /\ well_keyed b /\
  b_purpose b = expected "purpose" /\ b_domain b = expected "domain" /\
  b_protocol_version b = expected "protocol_version" /\ b_signing_version b = expected "signing_version" /\
  b_hosted_status b = expected "hosted_status" /\ b_algorithm b = expected "managed_algorithm".
Proof.
  unfold validateBinding. cbv zeta. intros Hb. inv_result.
  destruct (field_of v expected "provider") as [ | | | |p| | | | | ]; try done.
  destruct (field_of v expected "provider_resource_id") as [ | | | |r| | | | | ]; try done.
  destruct (field_of v expected "key_id") as [ | | | |k| | | | | ]; try done.
  destruct (field_of v expected "key_version") as [ | | | |kv| | | | | ]; try done.
  destruct (field_of v expected "public_key_fingerprint") as [ | | | |fp| | | | | ]; try done.
  inv_result. guards. unfold well_keyed. simpl b_name. rewrite field_of_name. simpl in *.
  guards.
  match goal with H : includes [_; _; _] _ = true |- _ => apply includes_true in H end.
  split_and!; try done. rewrite !andb_true_iff, negb_true_iff. done.
Qed.

Lemma validate_one_ok acc v b :
  validate_one acc v = Ok b ->
  matches_entry b /\ well_keyed b /\ b_name b ∉ map b_name acc /\ identity b ∉ map identity acc /\
  b_fingerprint b ∉ map b_fingerprint acc.
Proof.
  unfold validate_one. intros Hv. inv_result.
  destruct (registry _) as [expected|] eqn:Er; [|done]. inv_result.
  match goal with H : validateBinding _ _ = Ok _ |- _ =>
    apply validateBinding_ok in H as (Hn & Hk & Hrest) end.
  repeat match goal with H : includes _ _ = false |- _ => apply includes_false in H end.
  rewrite Hn. split_and!; try done. eexists _, expected. rewrite Hn. done.
Qed.

Definition accepted_ok (acc : list Binding) : Prop :=
  Forall (fun b => matches_entry b /\ well_keyed b) acc /\ NoDup (map b_name acc) /\
  NoDup (map identity acc) /\ NoDup (map b_fingerprint acc).

Lemma NoDup_map_snoc {A B} (f : A -> B) l x : NoDup (map f l) -> f x ∉ map f l -> NoDup (map f (l ++ [x])).
Proof.
  intros Hd Hx. rewrite map_app. apply NoDup_app. split_and!; [done| |apply NoDup_singleton]. set_solver.
Qed.

Lemma validate_all_ok input acc bs :
  accepted_ok acc -> validate_all acc input = Ok bs ->
  accepted_ok bs /\ length bs = (length acc + length input)%nat.
Proof.
  revert acc. induction input as [|v input IH]; intros acc Hacc Hv; simpl in Hv.
  { inv_result. split; [done|simpl; lia]. }
  apply bind_ok in Hv as (b & (Hm & Hk & H1 & H2 & H3)%validate_one_ok & Hv).
  destruct Hacc as (Hf & Hd1 & Hd2 & Hd3). apply IH in Hv as [Hok Hl].
  - split; [done|]. rewrite Hl, length_app. simpl. lia.
  - split_and!; [|by apply NoDup_map_snoc..]. apply Forall_app. split; [done|].
    constructor; [done|constructor].
Qed.

Lemma registry_entries d : d ∈ definitions -> registry (name d) = Some (entry_field d).
Proof. intros Hd. unfold definitions in Hd. repeat (apply elem_of_cons in Hd as [->|Hd]; [done|]). by apply elem_of_nil in Hd. Qed.

#[local] Arguments forallb : simpl never.

Lemma definition_names : NoDup (map (fun d => JStr (name d)) definitions).
Proof. apply all_distinct_true. vm_compute. reflexivity. Qed.

(** ** Properties *)

(** What it means that a binding is for a purpose of the registry. *)
Definition binds (b : Binding) (d : PurposeDefinition) : Prop :=
  b_name b = JStr (name d) /\ b_purpose b = JStr (purpose d) /\ b_domain b = JStr (domain d) /\
  b_protocol_version b = JNum (NInt (protocol_version d)) /\
  b_signing_version b = JNum (NInt (signing_version d)) /\
  b_hosted_status b = JStr (hosted_status d) /\ b_algorithm b = JStr "ed25519".

(** An accepted set of bindings binds every purpose of the registry
    exactly once, with the registry's own purpose, domain, versions and
    status, to well-formed keys of managed providers; no key (provider,
    resource, id and version) and no public key serves two purposes. *)
Theorem bindings_complete_and_separate input bs :
  validateSignerPurposeBindings input = Ok bs ->
  map b_name bs ≡ₚ map (fun d => JStr (name d)) definitions /\
  (forall b, b ∈ bs -> well_keyed b /\ exists d, d ∈ definitions /\ binds b d) /\
  NoDup (map (fun b => (b_provider b, b_resource b, b_key_id b, b_key_version b)) bs) /\
  NoDup (map b_fingerprint bs).
Proof.
  unfold validateSignerPurposeBindings. intros Hv. destruct input as [ | | | | |l| | | | ]; try done.
  inv_result.
  repeat match goal with H : negb _ = false |- _ => apply negb_false_iff in H end.
  match goal with H : Nat.eqb _ _ = true |- _ => apply Nat.eqb_eq in H as Hl end.
  match goal with H : validate_all _ _ = Ok _ |- _ =>
    apply validate_all_ok in H as [(Hf & Hn & Hi & Hfp) Hlen]; [|by split_and!; constructor] end.
  match goal with H : forallb _ definitions = true |- _ => rename H into Hall end.
  assert (map b_name bs ≡ₚ map (fun d => JStr (name d)) definitions) as Hp.
  { symmetry. apply submseteq_length_Permutation; [|rewrite !length_map; simpl in Hlen; lia].
    apply NoDup_submseteq; [apply definition_names|]. intros x (d & -> & Hd)%list_elem_of_fmap.
    rewrite forallb_elem_of in Hall. by apply includes_true, (Hall d). }
  split; [done|]. split; [|split; [|done]].
  - intros b Hb. rewrite Forall_forall in Hf. destruct (Hf b Hb) as [(key & expected & Hkey & Hreg & Hrest) Hk].
    split; [done|]. assert (b_name b ∈ map (fun d => JStr (name d)) definitions) as (d & Ed & Hd)%list_elem_of_fmap.
    { rewrite <- Hp. apply list_elem_of_fmap. eauto. }
    exists d. split; [done|]. rewrite Ed in Hkey. simpl in Hkey. injection Hkey as <-.
    rewrite registry_entries in Hreg by done. injection Hreg as <-. unfold binds. rewrite Ed. naive_solver.
  - eapply (NoDup_fmap_1 (fun t => t.1.1.1 +:+ nul +:+ t.1.1.2 +:+ nul +:+ t.1.2 +:+ nul +:+ t.2)).
    change (NoDup (map (fun t => t.1.1.1 +:+ nul +:+ t.1.1.2 +:+ nul +:+ t.1.2 +:+ nul +:+ t.2)
      (map (fun b => (b_provider b, b_resource b, b_key_id b, b_key_version b)) bs))).
    by rewrite map_map.
Qed.

(** ** Witnesses *)

Definition sample_binding (d : PurposeDefinition) (c : string) : jsval :=
  JObj [("algorithm", JStr "ed25519"); ("domain", JStr (domain d)); ("key_id", JStr "key");
        ("key_version", JStr c); ("name", JStr (name d)); ("provider", JStr "aws-kms");
        ("provider_resource_id", JStr "arn:aws:kms:eu-west-1:1:key/k");
        ("public_key_fingerprint", JStr (join "" (repeat c 64))); ("purpose", JStr (purpose d));
        ("version", JNum (NInt 1))].

Definition sample_bindings : jsval :=
  JArr (zip_with sample_binding definitions ["1"; "2"; "3"; "4"; "5"; "6"; "7"; "8"]).

Lemma bindings_complete_and_separate_witness :
  exists bs, validateSignerPurposeBindings sample_bindings = Ok bs /\ NoDup (map b_fingerprint bs).
Proof.
  eexists. split; [vm_compute; reflexivity|].
  apply (bindings_complete_and_separate sample_bindings). vm_compute. reflexivity.
Defined.
