(* ===== verification/ProviderContract.v ===== *)
(** * The managed signer provider contract
    (apps/cloud-api/src/managed-signer-provider-contract.mjs)

    A provider is created for one request binding, one text to sign and one
    pinned public key; what its adapter returns is checked before it is
    returned.  [Binding], [Receipt] and [Signature] are the normalized
    objects; an adapter is a pair of functions whose answers are untyped
    values or exceptions. *)

From stdpp Require Import base tactics sets list strings.
From Stdlib Require Import Ascii.
From S2P Require Import Prelude JsValue Regex Json Crypto SignerRegistry.
Local Open Scope string_scope.
Local Open Scope js_scope.

(** ** Constants and errors *)

Definition MANAGED_SIGNER_ALGORITHM := "ed25519".
Definition REQUEST_DIGEST_ALGORITHM := "SHA-256".

Definition SIGNER_PURPOSES : list string := sort_strings (map purpose definitions).

Fixpoint protocol_of (p : string) (ds : list PurposeDefinition) : option Z :=
  match ds with
  | [] => None
  | d :: ds => if String.eqb (purpose d) p then Some (protocol_version d) else protocol_of p ds
  end.

(** [SIGNER_PROTOCOL_VERSIONS[purpose]] *)
Definition SIGNER_PROTOCOL_VERSIONS (p : string) : option Z := protocol_of p definitions.

Definition LOOKUP_STATES := ["accepted"; "committed"; "unknown"; "rejected"; "failed"].

Definition b64url_char (c : ascii) : bool := alnum c || in_chars "-_" c.
Definition BASE64URL : re := Regex.some b64url_char.
Definition HEX_SHA256 : re := times hex_lower 64.
Definition token_char (c : ascii) : bool := alnum c || in_chars "._:-" c.
Definition TOKEN : re := RSeq (one alnum) (upto token_char 127).
Definition RECEIPT_PROVIDER : re := RSeq (one alnum) (upto token_char 63).

Inductive contract_exn :=
| ContractError (code : string)
| Unsupported (provider : string).

#[export] Instance contract_exn_eq_dec : EqDecision contract_exn.
Proof. solve_decision. Defined.

Notation contract A := (result contract_exn A).

Definition fail {A} (code : string) : contract A := Throw (ContractError code).

(** ** Data *)

(** The normalized binding; [algorithm] is [MANAGED_SIGNER_ALGORITHM] and the
    request digest is a SHA-256 value. *)
Record Binding := mkBinding {
  operation_id : string; purpose : string; key_id : string; key_version : string;
  protocol_version : Z; request_digest : string
}.

Record Receipt := mkReceipt {
  provider : string; receipt_id : string; r_operation_id : string; r_key_id : string; r_key_version : string
}.

(** The text of the signature and of the public key it came with, both
    base64url. *)
Record Signature := mkSignature { value : string; public_key : string }.

#[export] Instance Binding_eq_dec : EqDecision Binding.
Proof. solve_decision. Defined.
#[export] Instance Receipt_eq_dec : EqDecision Receipt.
Proof. solve_decision. Defined.
#[export] Instance Signature_eq_dec : EqDecision Signature.
Proof. solve_decision. Defined.

(** The results of [signOnce] and [lookup]; both carry the binding. *)
Record SignOnceResult := mkSignOnceResult {
  so_binding : Binding; so_receipt : Receipt; so_signature : Signature
}.

Record LookupResult := mkLookupResult {
  lr_binding : Binding; lr_state : string; lr_receipt : option Receipt; lr_signature : option Signature
}.

(** ** Helpers *)

Definition assertExactKeys (v : jsval) (keys : list string) (code : string) : contract unit :=
  throw_if negb (is_object v) with ContractError code ;;
  throw_if negb (bool_decide (sort_strings (own_keys v) = sort_strings keys)) with ContractError code ;;
  Ok tt.

Definition assertString (v : jsval) (code : string) (pattern : option re) : contract string :=
  match v with
  | JStr s =>
      throw_if String.eqb s "" || match pattern with Some p => negb (re_test p s) | None => false end
        with ContractError code ;;
      Ok s
  | _ => fail code
  end.

Definition FORBIDDEN : re :=
  somewhere (alts (map lit_i
    ["private"; "secret"; "credential"; "diagnostic"; "debug"; "trace"; "token"; "pem"])).

Definition rejectForbiddenString (v : jsval) (code : string) : contract unit :=
  throw_if str_test FORBIDDEN v with ContractError code ;; Ok tt.

Fixpoint reject_all (vs : list jsval) (code : string) : contract unit :=
  match vs with [] => Ok tt | v :: vs => _ ← rejectForbiddenString v code; reject_all vs code end.

(** [Object.values(v)] *)
Definition object_values (v : jsval) : list jsval := match v with JObj fs => map snd fs | _ => [] end.

(** [Buffer.from(text, "base64url")] of a text over the alphabet: six bits a
    character, the bits of an incomplete last byte dropped. *)
Definition b64_value (c : ascii) : nat :=
  if upper c then code c - 65
  else if lower c then code c - 71
  else if digit c then code c + 4
  else if Ascii.eqb c "-" then 62 else 63.

Definition byte (n : nat) : ascii := ascii_of_nat (n mod 256).

Fixpoint b64_bytes (s : string) : string :=
  match s with
  | String a (String b (String c (String d s))) =>
      String (byte (b64_value a * 4 + b64_value b / 16))
        (String (byte (b64_value b mod 16 * 16 + b64_value c / 4))
          (String (byte (b64_value c mod 4 * 64 + b64_value d)) (b64_bytes s)))
  | String a (String b (String c EmptyString)) =>
      String (byte (b64_value a * 4 + b64_value b / 16)) (String (byte (b64_value b mod 16 * 16 + b64_value c / 4)) "")
  | String a (String b EmptyString) => String (byte (b64_value a * 4 + b64_value b / 16)) ""
  | _ => ""
  end.

Definition decodeBase64url (v : jsval) (code : string) : contract string :=
  s ← assertString v code None;
  throw_if negb (re_test BASE64URL s) with ContractError code ;;
  Ok (b64_bytes s).

(** [/PRIVATE\s+KEY/iu.test(value)] *)
Definition space_char (c : ascii) : bool :=
  match Regex.code c with 9 | 10 | 11 | 12 | 13 | 32 | 160 => true | _ => false end.
Definition PRIVATE_KEY_TEXT : re := somewhere (seqs [lit_i "PRIVATE"; Regex.some space_char; lit_i "KEY"]).

(** ** The binding *)

Definition validateRequestDigest (v : jsval) : contract string :=
  _ ← assertExactKeys v ["algorithm"; "value"] "INVALID_REQUEST_DIGEST";
  throw_if negb (is_str (get v "algorithm") REQUEST_DIGEST_ALGORITHM)
    with ContractError "INVALID_REQUEST_DIGEST" ;;
  assertString (get v "value") "INVALID_REQUEST_DIGEST" (Some HEX_SHA256).

Definition BINDING_KEYS :=
  ["operation_id"; "purpose"; "key_id"; "key_version"; "algorithm"; "protocol_version"; "request_digest"].

Definition createManagedSignerBinding (input : jsval) : contract Binding :=
  _ ← assertExactKeys input BINDING_KEYS "INVALID_BINDING";
  operation_id ← assertString (get input "operation_id") "INVALID_OPERATION_ID" (Some TOKEN);
  throw_if negb (one_of SIGNER_PURPOSES (get input "purpose")) with ContractError "INVALID_PURPOSE" ;;
  key_id ← assertString (get input "key_id") "INVALID_KEY_ID" (Some TOKEN);
  key_version ← assertString (get input "key_version") "INVALID_KEY_VERSION" (Some TOKEN);
  throw_if negb (is_str (get input "algorithm") MANAGED_SIGNER_ALGORITHM)
    with ContractError "INVALID_ALGORITHM" ;;
  match get input "purpose" with
  | JStr purpose =>
      match SIGNER_PROTOCOL_VERSIONS purpose with
      | Some protocol =>
          throw_if negb (is_int (get input "protocol_version") protocol)
            with ContractError "INVALID_PROTOCOL_VERSION" ;;
          digest ← validateRequestDigest (get input "request_digest");
          Ok (mkBinding operation_id purpose key_id key_version protocol digest)
      | None => fail "INVALID_PROTOCOL_VERSION"
      end
  | _ => fail "INVALID_PURPOSE"
  end.

(** The object that a normalized binding is, and its JSON text. *)
Definition binding_js (b : Binding) : jsval :=
  JObj [("operation_id", JStr (operation_id b)); ("purpose", JStr (purpose b)); ("key_id", JStr (key_id b));
        ("key_version", JStr (key_version b)); ("algorithm", JStr MANAGED_SIGNER_ALGORITHM);
        ("protocol_version", JNum (NInt (protocol_version b)));
        ("request_digest", JObj [("algorithm", JStr REQUEST_DIGEST_ALGORITHM); ("value", JStr (request_digest b))])].

Definition canonicalizeManagedSignerBinding (input : jsval) : contract string :=
  b ← createManagedSignerBinding input;
  Ok ("{" +:+ join "," (map (fun kt => quote (fst kt) +:+ ":" +:+ snd kt)
        [("operation_id", quote (operation_id b)); ("purpose", quote (purpose b)); ("key_id", quote (key_id b));
         ("key_version", quote (key_version b)); ("algorithm", quote MANAGED_SIGNER_ALGORITHM);
         ("protocol_version", stringify_scalar (JNum (NInt (protocol_version b))));
         ("request_digest",
          "{" +:+ quote "algorithm" +:+ ":" +:+ quote REQUEST_DIGEST_ALGORITHM +:+ "," +:+ quote "value" +:+ ":"
          +:+ quote (request_digest b) +:+ "}")]) +:+ "}").

(** ** Receipts and signatures *)

Definition validateProviderReceipt (v : jsval) (binding : Binding) : contract Receipt :=
  _ ← assertExactKeys v ["provider"; "receipt_id"; "operation_id"; "key_id"; "key_version"]
        "INVALID_PROVIDER_RECEIPT";
  provider ← assertString (get v "provider") "INVALID_PROVIDER_RECEIPT" (Some RECEIPT_PROVIDER);
  receipt_id ← assertString (get v "receipt_id") "INVALID_PROVIDER_RECEIPT" (Some TOKEN);
  throw_if negb (is_str (get v "operation_id") (operation_id binding))
    with ContractError "RECEIPT_BINDING_MISMATCH" ;;
  throw_if negb (is_str (get v "key_id") (key_id binding)) with ContractError "RECEIPT_BINDING_MISMATCH" ;;
  throw_if negb (is_str (get v "key_version") (key_version binding))
    with ContractError "RECEIPT_BINDING_MISMATCH" ;;
  _ ← reject_all (object_values v) "FORBIDDEN_RECEIPT_FIELD";
  Ok (mkReceipt provider receipt_id (operation_id binding) (key_id binding) (key_version binding)).

Section Contract.
Context `{HSha : Sha256} `{HKeys : KeyObjects}.

(** The base64url text of an Ed25519 public key in SPKI DER. *)
Definition validatePublicKey (v : jsval) : contract string :=
  _ ← assertExactKeys v ["algorithm"; "encoding"; "value"] "INVALID_PUBLIC_KEY";
  throw_if negb (is_str (get v "algorithm") MANAGED_SIGNER_ALGORITHM)
           || negb (is_str (get v "encoding") "base64url") with ContractError "INVALID_PUBLIC_KEY" ;;
  der ← decodeBase64url (get v "value") "INVALID_PUBLIC_KEY";
  throw_if Nat.ltb (String.length der) 32 with ContractError "INVALID_PUBLIC_KEY" ;;
  match import_der der with
  | Some key =>
      throw_if negb (String.eqb (asymmetricKeyType key) "ed25519") with ContractError "INVALID_PUBLIC_KEY" ;;
      match get v "value" with JStr s => Ok s | _ => fail "INVALID_PUBLIC_KEY" end
  | None => fail "INVALID_PUBLIC_KEY"
  end.

(** [Object.keys(value).sort().join(",") === "algorithm,encoding,value"] *)
Definition has_key_shape (v : jsval) : bool :=
  is_object v && String.eqb (join "," (sort_strings (own_keys v))) "algorithm,encoding,value".

Definition normalizeExpectedPublicKey (v : jsval) : contract KeyDescription :=
  throw_if bool_decide (value_type v = Some "private") || str_test PRIVATE_KEY_TEXT v
    with ContractError "INVALID_PUBLIC_KEY" ;;
  shape ← (if has_key_shape v then s ← validatePublicKey v; Ok (Some s) else Ok None);
  key ← of_option (ContractError "INVALID_PUBLIC_KEY")
          (if bool_decide (value_type v = Some "public") then object_key v
           else match shape with
                | Some s => import_der (b64_bytes s)
                | None => import_value v
                end);
  throw_if negb (String.eqb (key_type key) "public")
           || negb (String.eqb (asymmetricKeyType key) MANAGED_SIGNER_ALGORITHM)
    with ContractError "INVALID_PUBLIC_KEY" ;;
  Ok key.

Definition validateSignature (v : jsval) (expected : KeyDescription) : contract Signature :=
  _ ← assertExactKeys v ["algorithm"; "encoding"; "value"; "public_key"] "INVALID_SIGNATURE";
  throw_if negb (is_str (get v "algorithm") MANAGED_SIGNER_ALGORITHM)
           || negb (is_str (get v "encoding") "base64url") with ContractError "INVALID_SIGNATURE" ;;
  signature ← decodeBase64url (get v "value") "INVALID_SIGNATURE";
  throw_if negb (Nat.eqb (String.length signature) 64) with ContractError "INVALID_SIGNATURE" ;;
  publicKey ← validatePublicKey (get v "public_key");
  throw_if negb (String.eqb (b64_bytes publicKey) (spki_der expected)) with ContractError "PUBLIC_KEY_MISMATCH" ;;
  match get v "value" with
  | JStr s => Ok (mkSignature s publicKey)
  | _ => fail "INVALID_SIGNATURE"
  end.

Definition normalizeSigningBytes (v : jsval) : contract string :=
  match v with
  | JBytes b => throw_if String.eqb b "" with ContractError "INVALID_SIGNING_BYTES" ;; Ok b
  | _ => fail "INVALID_SIGNING_BYTES"
  end.

Definition assertSigningDigest (b : Binding) (bytes : string) : contract unit :=
  throw_if negb (String.eqb (sha256 bytes) (request_digest b)) with ContractError "REQUEST_DIGEST_MISMATCH" ;;
  Ok tt.

Definition validateAndVerifySignature (v : jsval) (bytes : string) (expected : KeyDescription)
  : contract Signature :=
  signature ← validateSignature v expected;
  throw_if negb (default false (verify_with expected bytes (b64_bytes (value signature))))
    with ContractError "INVALID_SIGNATURE" ;;
  Ok signature.

(** ** The provider *)

Definition validateSignOnceResult (v : jsval) (b : Binding) (bytes : string) (expected : KeyDescription)
  : contract SignOnceResult :=
  _ ← assertExactKeys v ["provider_receipt"; "signature"] "INVALID_SIGN_ONCE_RESULT";
  receipt ← validateProviderReceipt (get v "provider_receipt") b;
  signature ← validateAndVerifySignature (get v "signature") bytes expected;
  Ok (mkSignOnceResult b receipt signature).

Definition lookup_keys (state : string) : list string :=
  if String.eqb state "committed" then ["state"; "provider_receipt"; "signature"]
  else if String.eqb state "accepted" then ["state"; "provider_receipt"]
  else ["state"].

Definition validateLookupResult (v : jsval) (b : Binding) (bytes : string) (expected : KeyDescription)
  : contract LookupResult :=
  throw_if negb (is_object v) with ContractError "INVALID_LOOKUP_RESULT" ;;
  state ← assertString (get v "state") "INVALID_LOOKUP_STATE" None;
  throw_if negb (includes LOOKUP_STATES state) with ContractError "INVALID_LOOKUP_STATE" ;;
  _ ← assertExactKeys v (lookup_keys state) "INVALID_LOOKUP_RESULT";
  receipt ← (if String.eqb state "accepted" || String.eqb state "committed"
             then r ← validateProviderReceipt (get v "provider_receipt") b; Ok (Some r) else Ok None);
  signature ← (if String.eqb state "committed"
               then s ← validateAndVerifySignature (get v "signature") bytes expected; Ok (Some s) else Ok None);
  Ok (mkLookupResult b state receipt signature).

(** What the promise of an adapter gives. *)
Inductive Answer :=
| Resolved (v : jsval)
| RejectedUnsupported (provider : string)
| RejectedOther.

(** [adapter_keys] are the own keys of the adapter object. *)
Record Adapter := mkAdapter {
  adapter_keys : list string;
  adapter_signOnce : Binding -> string -> Answer;
  adapter_lookup : Binding -> string -> Answer
}.

(** The constants of a provider's closure. *)
Record Provider := mkProvider {
  fixedBinding : Binding; fixedSigningBytes : string; expectedPublicKey : KeyDescription; adapter : Adapter
}.

(** The two functions of an [Adapter] are functions; no other key is allowed. *)
Definition assertAdapter (keys : list string) : contract unit :=
  throw_if negb (bool_decide (sort_strings keys = sort_strings ["signOnce"; "lookup"]))
    with ContractError "INVALID_ADAPTER" ;;
  Ok tt.

(** [createManagedSignerProvider] on the four fields of its options. *)
Definition createManagedSignerProvider (binding signingBytes publicKey : jsval) (a : Adapter) : contract Provider :=
  b ← createManagedSignerBinding binding;
  bytes ← normalizeSigningBytes signingBytes;
  _ ← assertSigningDigest b bytes;
  key ← normalizeExpectedPublicKey publicKey;
  _ ← assertAdapter (adapter_keys a);
  Ok (mkProvider b bytes key a).

Definition assertNoCallArguments (args : list jsval) : contract unit :=
  match args with [] => Ok tt | _ => fail "CALLER_INPUT_NOT_ALLOWED" end.

Definition answered (a : Answer) (code : string) : contract jsval :=
  match a with
  | Resolved v => Ok v
  | RejectedUnsupported p => Throw (Unsupported p)
  | RejectedOther => fail code
  end.

Definition signOnce (p : Provider) (args : list jsval) : contract SignOnceResult :=
  _ ← assertNoCallArguments args;
  v ← answered (adapter_signOnce (adapter p) (fixedBinding p) (fixedSigningBytes p)) "SIGN_ONCE_FAILED";
  validateSignOnceResult v (fixedBinding p) (fixedSigningBytes p) (expectedPublicKey p).

Definition lookup (p : Provider) (args : list jsval) : contract LookupResult :=
  _ ← assertNoCallArguments args;
  v ← answered (adapter_lookup (adapter p) (fixedBinding p) (fixedSigningBytes p)) "LOOKUP_FAILED";
  validateLookupResult v (fixedBinding p) (fixedSigningBytes p) (expectedPublicKey p).

Definition verifyManagedSignerSignature (binding signature signingBytes publicKey : jsval) : contract bool :=
  b ← createManagedSignerBinding binding;
  bytes ← normalizeSigningBytes signingBytes;
  _ ← assertSigningDigest b bytes;
  key ← normalizeExpectedPublicKey publicKey;
  _ ← validateAndVerifySignature signature bytes key;
  Ok true.

(** [createUnsupportedDirectSignAdapter] *)
Definition createUnsupportedDirectSignAdapter (provider : string) : Adapter :=
  mkAdapter ["signOnce"; "lookup"] (fun _ _ => RejectedUnsupported provider) (fun _ _ => RejectedUnsupported provider).

Definition createAwsDirectSignAdapter : Adapter := createUnsupportedDirectSignAdapter "aws-direct-sign".
Definition createGcpDirectSignAdapter : Adapter := createUnsupportedDirectSignAdapter "gcp-direct-sign".

(** ** Lemmas *)

Lemma assertString_ok v code p s :
  assertString v code p = Ok s ->
  v = JStr s /\ s <> "" /\ match p with Some p => re_test p s = true | None => True end.
Proof.
  unfold assertString, fail. destruct v as [ | | | |t| | | | | ]; try done. intros H. inv_result. guards.
  destruct p; guards; done.
Qed.

Definition valid_binding (b : Binding) : Prop :=
  re_test TOKEN (operation_id b) = true /\ re_test TOKEN (key_id b) = true /\
  re_test TOKEN (key_version b) = true /\ re_test HEX_SHA256 (request_digest b) = true /\
  exists d, d ∈ definitions /\ purpose b = SignerRegistry.purpose d /\
            SIGNER_PROTOCOL_VERSIONS (purpose b) = Some (protocol_version b).

Lemma createManagedSignerBinding_valid v b : createManagedSignerBinding v = Ok b -> valid_binding b.
Proof.
  unfold createManagedSignerBinding. intros H. inv_result.
  repeat match goal with H : assertString _ _ _ = Ok _ |- _ => apply assertString_ok in H as (? & ? & ?) end.
  destruct (get v "purpose") as [ | | | |p| | | | | ] eqn:Ep; try done.
  destruct (SIGNER_PROTOCOL_VERSIONS p) as [n|] eqn:En; [|done]. inv_result. guards.
  match goal with H : validateRequestDigest _ = Ok _ |- _ => rename H into Hd end.
  unfold validateRequestDigest in Hd. inv_result. apply assertString_ok in Hd as (_ & _ & ?).
  match goal with H : one_of _ _ = true |- _ => apply one_of_true in H as (q & [= <-] & Hq) end.
  unfold SIGNER_PURPOSES in Hq. rewrite sort_strings_perm in Hq. apply list_elem_of_fmap in Hq as (d & Hd1 & Hd2).
  split_and!; simpl; try done. by exists d.
Qed.

Lemma token_nonempty r s : re_test (RSeq (one alnum) r) s = true -> String.eqb s "" = false.
Proof. destruct s; [|done]. intros H%re_test_spec%matches_min_len. simpl in H. lia. Qed.

Lemma assertString_token s code p :
  re_test (RSeq (one alnum) p) s = true -> assertString (JStr s) code (Some (RSeq (one alnum) p)) = Ok s.
Proof. intros H. unfold assertString. by rewrite (token_nonempty _ _ H), H. Qed.

#[local] Arguments assertString : simpl never.

Lemma createManagedSignerBinding_js b : valid_binding b -> createManagedSignerBinding (binding_js b) = Ok b.
Proof.
  intros (Ho & Hk & Hv & Hd & d & Hin & Hp & Hproto). unfold createManagedSignerBinding.
  assert (assertExactKeys (binding_js b) BINDING_KEYS "INVALID_BINDING" = Ok tt) as -> by done. simpl.
  assert (includes SIGNER_PURPOSES (purpose b) = true) as ->.
  { apply includes_true. unfold SIGNER_PURPOSES. rewrite sort_strings_perm, Hp. apply list_elem_of_fmap. eauto. }
  unfold TOKEN in *. rewrite !assertString_token by done. simpl. rewrite Hproto. simpl.
  rewrite Z.eqb_refl. simpl. unfold validateRequestDigest, assertExactKeys, assertString. simpl.
  assert (String.eqb (request_digest b) "" = false) as E.
  { destruct (request_digest b); [|done]. by vm_compute in Hd. }
  rewrite E, Hd. by destruct b.
Qed.

(** What the receipt of an accepted result says. *)
Definition receipt_for (r : Receipt) (b : Binding) : Prop :=
  r_operation_id r = operation_id b /\ r_key_id r = key_id b /\ r_key_version r = key_version b /\
  re_test FORBIDDEN (provider r) = false /\ re_test FORBIDDEN (receipt_id r) = false.

Lemma reject_all_ok vs code v : reject_all vs code = Ok tt -> v ∈ vs -> str_test FORBIDDEN v = false.
Proof.
  induction vs as [|w vs IH]; simpl; [set_solver|]. unfold rejectForbiddenString. intros H Hv. inv_result.
  apply elem_of_cons in Hv as [->|Hv]; [done|by apply IH].
Qed.

Lemma get_values v k : get v k <> JUndefined -> get v k ∈ object_values v.
Proof.
  destruct v as [ | | | | | |fs| | | ]; try done. simpl. intros H.
  destruct (assoc k fs) as [x|] eqn:E; [|done]. apply assoc_Some_elem in E. simpl.
  apply list_elem_of_fmap. by exists (k, x).
Qed.

Lemma validateProviderReceipt_ok v b r : validateProviderReceipt v b = Ok r -> receipt_for r b.
Proof.
  unfold validateProviderReceipt. intros H. inv_result.
  match goal with H : assertString _ _ (Some RECEIPT_PROVIDER) = Ok _ |- _ => apply assertString_ok in H as (Hp & _ & _) end.
  match goal with H : assertString _ _ (Some TOKEN) = Ok _ |- _ => apply assertString_ok in H as (Hr & _ & _) end.
  match goal with H : reject_all _ _ = Ok ?u |- _ => destruct u; rename H into Hall end.
  assert (forall k s, get v k = JStr s -> re_test FORBIDDEN s = false) as Hf.
  { intros k s Ek. change (str_test FORBIDDEN (JStr s) = false). rewrite <- Ek.
    eapply reject_all_ok; [exact Hall|]. apply get_values. by rewrite Ek. }
  unfold receipt_for. simpl. split_and!; try done; by eapply Hf.
Qed.

(** A signature that verifies the provider's bytes under its pinned key. *)
Definition verified (p : Provider) (s : Signature) : Prop :=
  b64_bytes (public_key s) = spki_der (expectedPublicKey p) /\
  String.length (b64_bytes (value s)) = 64 /\
  verify_with (expectedPublicKey p) (fixedSigningBytes p) (b64_bytes (value s)) = Some true.

Lemma validateAndVerifySignature_ok v p s :
  validateAndVerifySignature v (fixedSigningBytes p) (expectedPublicKey p) = Ok s -> verified p s.
Proof.
  unfold validateAndVerifySignature. intros H. inv_result. guards.
  match goal with H : validateSignature _ _ = Ok _ |- _ => unfold validateSignature in H; rename H into Hs end.
  inv_result. guards.
  destruct (get v "value") as [ | | | |t| | | | | ] eqn:Et; try done. inv_result.
  match goal with H : decodeBase64url _ _ = Ok _ |- _ => unfold decodeBase64url in H; rename H into Hd end.
  inv_result. guards.
  match goal with H : assertString _ _ _ = Ok _ |- _ => apply assertString_ok in H as ([= <-] & _) end.
  match goal with H : Nat.eqb _ _ = true |- _ => apply Nat.eqb_eq in H end.
  unfold verified. simpl in *. split_and!; try done. by destruct (verify_with _ _ _) as [[]|].
Qed.

Lemma created_digest b y k a p :
  createManagedSignerProvider b y k a = Ok p ->
  valid_binding (fixedBinding p) /\ sha256 (fixedSigningBytes p) = request_digest (fixedBinding p) /\
  key_type (expectedPublicKey p) = "public" /\ asymmetricKeyType (expectedPublicKey p) = "ed25519" /\
  adapter p = a.
Proof.
  unfold createManagedSignerProvider. intros H. inv_result. simpl.
  match goal with H : createManagedSignerBinding _ = Ok _ |- _ => apply createManagedSignerBinding_valid in H end.
  match goal with H : assertSigningDigest _ _ = Ok _ |- _ => unfold assertSigningDigest in H; inv_result; guards end.
  match goal with H : normalizeExpectedPublicKey _ = Ok _ |- _ => unfold normalizeExpectedPublicKey in H; inv_result; guards end.
  done.
Qed.

(** ** Properties *)

(** Nothing leaves a provider unverified.  A signature returned by
    [signOnce], or by [lookup] (which returns one only for the committed
    state), verifies under the pinned key over the exact bytes whose digest
    the binding names; the result carries the caller's binding and a receipt
    for its operation and key, never a text that looks like a secret. *)
Theorem provider_results_verified b y k a p :
  createManagedSignerProvider b y k a = Ok p ->
  sha256 (fixedSigningBytes p) = request_digest (fixedBinding p) /\
  (forall args r, signOnce p args = Ok r ->
     args = [] /\ so_binding r = fixedBinding p /\ receipt_for (so_receipt r) (fixedBinding p) /\
     verified p (so_signature r)) /\
  (forall args r, lookup p args = Ok r ->
     args = [] /\ lr_binding r = fixedBinding p /\ lr_state r ∈ LOOKUP_STATES /\
     (forall t, lr_receipt r = Some t -> receipt_for t (fixedBinding p)) /\
     (forall s, lr_signature r = Some s -> lr_state r = "committed" /\ verified p s) /\
     (lr_state r = "committed" -> is_Some (lr_signature r))).
Proof.
  intros (_ & Hd & _)%created_digest. split; [done|]. split; intros args r H.
  - unfold signOnce in H. destruct args; simpl in H; [|done]. inv_result.
    unfold validateSignOnceResult in H. inv_result. simpl. split_and!; try done.
    + by eapply validateProviderReceipt_ok.
    + by eapply validateAndVerifySignature_ok.
  - unfold lookup in H. destruct args; simpl in H; [|done]. inv_result.
    unfold validateLookupResult in H. inv_result. guards. simpl.
    match goal with H : includes _ _ = true |- _ => apply includes_true in H end.
    split_and!; try done.
    + intros t ->. destruct (_ || _); inv_result; [|done]. simplify_eq. by eapply validateProviderReceipt_ok.
    + intros s ->. match goal with |- ?x = _ /\ _ => destruct (String.eqb_spec x "committed") end; inv_result; [|done]. simplify_eq. split; [done|].
      by eapply validateAndVerifySignature_ok.
    + intros ->. simpl in *. inv_result. done.
Qed.

(** C33: an accepted binding is well formed, speaks the protocol version that
    the registry fixes for its purpose, and is a fixed point: validating the
    object it denotes gives it back, with the same canonical text. *)
Theorem binding_normal_form v b :
  createManagedSignerBinding v = Ok b ->
  valid_binding b /\ createManagedSignerBinding (binding_js b) = Ok b /\
  canonicalizeManagedSignerBinding (binding_js b) = canonicalizeManagedSignerBinding v.
Proof.
  intros H. pose proof (createManagedSignerBinding_valid _ _ H) as Hv. split; [done|].
  pose proof (createManagedSignerBinding_js b Hv) as Hj. split; [done|].
  unfold canonicalizeManagedSignerBinding. by rewrite H, Hj.
Qed.

(** A provider over a direct AWS or GCP adapter never returns a result:
    both operations fail as unsupported. *)
Theorem direct_adapters_fail_closed b y k p :
  (createManagedSignerProvider b y k createAwsDirectSignAdapter = Ok p ->
   signOnce p [] = Throw (Unsupported "aws-direct-sign") /\ lookup p [] = Throw (Unsupported "aws-direct-sign")) /\
  (createManagedSignerProvider b y k createGcpDirectSignAdapter = Ok p ->
   signOnce p [] = Throw (Unsupported "gcp-direct-sign") /\ lookup p [] = Throw (Unsupported "gcp-direct-sign")).
Proof. split; intros (_ & _ & _ & _ & Ha)%created_digest; unfold signOnce, lookup; by rewrite Ha. Qed.
End Contract.

(** ** Witnesses *)

Module Sample.
#[local] Existing Instance toy_sha256.

Definition ed25519_key : KeyDescription := mkKeyDescription "public" "ed25519" "pem" "0123456789abcdef0123456789abcdef".
Definition signed_text : string := "bytes".

(** The key accepts one signature text of 64 bytes over one text. *)
Definition signature_text : string := join "" (repeat "s" 86).

Definition keys : KeyObjects := {|
  value_type := fun _ => None;
  object_key := fun _ => None;
  import_value := fun _ => Some ed25519_key;
  import_der := fun _ => Some ed25519_key;
  verify_with := fun _ bytes s => Some (String.eqb bytes signed_text && String.eqb s (b64_bytes signature_text))
|}.
#[local] Existing Instance keys.

Definition binding_value : jsval :=
  binding_js (mkBinding "op-1" "agentpass.capability" "key-1" "1" 1 (sha256 signed_text)).

(** base64url of the key's DER text. *)
Definition key_text : string := "MDEyMzQ1Njc4OWFiY2RlZjAxMjM0NTY3ODlhYmNkZWY".

Definition key_value : jsval :=
  JObj [("algorithm", JStr "ed25519"); ("encoding", JStr "base64url"); ("value", JStr key_text)].

Definition honest_answer : jsval :=
  JObj [("provider_receipt",
         JObj [("provider", JStr "hsm"); ("receipt_id", JStr "r-1"); ("operation_id", JStr "op-1");
               ("key_id", JStr "key-1"); ("key_version", JStr "1")]);
        ("signature",
         JObj [("algorithm", JStr "ed25519"); ("encoding", JStr "base64url"); ("value", JStr signature_text);
               ("public_key", key_value)])].

Definition honest : Adapter := mkAdapter ["signOnce"; "lookup"] (fun _ _ => Resolved honest_answer) (fun _ _ => RejectedOther).

Definition create (a : Adapter) : contract Provider :=
  createManagedSignerProvider binding_value (JBytes signed_text) (JStr "pem") a.
End Sample.

Lemma provider_results_verified_witness :
  exists p r, @createManagedSignerProvider toy_sha256 Sample.keys Sample.binding_value (JBytes Sample.signed_text)
    (JStr "pem") Sample.honest = Ok p /\ @signOnce Sample.keys p [] = Ok r /\
    @verified Sample.keys p (so_signature r).
Proof.
  eexists _, _. split; [vm_compute; reflexivity|]. split; [vm_compute; reflexivity|].
  refine (proj2 (proj2 (proj2 (proj1 (proj2 (@provider_results_verified toy_sha256 Sample.keys Sample.binding_value
    (JBytes Sample.signed_text) (JStr "pem") Sample.honest _ _)) [] _ _)))); vm_compute; reflexivity.
Defined.

Lemma binding_normal_form_witness :
  exists b, createManagedSignerBinding Sample.binding_value = Ok b /\ valid_binding b.
Proof.
  eexists. split; [vm_compute; reflexivity|]. apply (binding_normal_form Sample.binding_value). vm_compute. reflexivity.
Defined.

Lemma direct_adapters_fail_closed_witness :
  exists p, @createManagedSignerProvider toy_sha256 Sample.keys Sample.binding_value (JBytes Sample.signed_text)
    (JStr "pem") createAwsDirectSignAdapter = Ok p /\ @signOnce Sample.keys p [] = Throw (Unsupported "aws-direct-sign").
Proof.
  eexists. split; [vm_compute; reflexivity|].
  refine (proj1 (proj1 (@direct_adapters_fail_closed toy_sha256 Sample.keys Sample.binding_value
    (JBytes Sample.signed_text) (JStr "pem") _) _)). vm_compute. reflexivity.
Defined.
