(* ===== verification/DurableSigner.v ===== *)
(** * The durable managed signer (apps/cloud-api/src/durable-managed-signer-provider.mjs)

    The signer that fences every provider call with a durable reservation and
    releases only verified, committed signatures.  Its asynchronous functions
    are programs over the effects it performs on its environment (the
    operation gate, the repository, the provider or adapter, and the shared
    variable [verificationKey] of the closure): [Ask e k] awaits the answer to
    [e] and goes on with [k].  The environment may answer anything, so what is
    proved of every run holds for every repository, provider and interleaving
    with other operations.  Abort signals are passed on by the code and not
    modelled. *)

From stdpp Require Import base tactics sets list strings.
From Stdlib Require Import Ascii.
From S2P Require Import Prelude JsValue Regex Json Crypto Program SignerRegistry ProviderContract.
Local Open Scope string_scope.
Local Open Scope js_scope.

(** ** Constants and errors *)

Inductive code :=
| CONFIG | INPUT | BINDING | METADATA | PROVIDER | REPOSITORY | INACTIVE | PENDING | UNCERTAIN | DRAINING
| CONFLICT | COMMIT | OUTPUT.

#[export] Instance code_eq_dec : EqDecision code.
Proof. solve_decision. Defined.

(** The exceptions of the code: its own, those of the contract, and any
    other value, of which only [error?.code] is read. *)
Inductive exn :=
| Durable (c : code)
| Contract (e : contract_exn)
| Foreign (error_code : jsval).

Definition id_char (c : ascii) : bool := alnum c || in_chars "._:/-" c.
Definition PURPOSE : re := RSeq (one alnum) (upto id_char 127).
Definition KEY_ID : re := RSeq (one alnum) (upto id_char 255).
Definition ALGORITHM := "ed25519".
Definition SIGNATURE_BYTES : nat := 64.
Definition OPERATION_PREFIX := "managed-signer-v1-".
Definition REQUEST_FIELDS := ["algorithm"; "bytes"; "key_id"; "purpose"; "version"].
Definition METADATA_FIELDS := ["algorithm"; "key_id"; "purpose"; "version"].

(** Error codes of the repository. *)
Definition REPOSITORY_CODE (name : string) : string := "ERR_MANAGED_SIGNER_KEY_LIFECYCLE_REPOSITORY_" +:+ name.

(** ** Data *)

(** The constants of the closure: the binding, the protocol version, the
    adapter's own keys when there is one, and whether there is a gate. *)
Record Config := mkConfig {
  purpose : string; keyId : string; keyVersion : Z; version : Z; protocolVersion : jsval;
  adapter_keys : option (list string); gated : bool
}.

(** The request of [normalizeSignRequest]; the other fields are the binding's. *)
Record Request := mkRequest { bytes : string; requestDigest : string; operationId : string }.

(** ** Effects *)

Inductive Effect :=
(** [operationGate.assertAccepting()]: whether it returns *)
| AssertAccepting
(** the shared variable [verificationKey] *)
| ReadKey
| WriteKey (key : KeyDescription)
(** [provider.publicKeyMetadata], [provider.sign], [adapter.signOnce], [adapter.lookup] *)
| FetchMetadata
| ProviderSign (text : string)
| AdapterSignOnce (b : ProviderContract.Binding) (text : string)
| AdapterLookup (b : ProviderContract.Binding) (text : string)
(** the repository; the durable input is the request's, with the claim token *)
| Snapshot
| ReserveSignature
| StartSignature (token : string)
| FenceSignature (token : string)
| CommitSignature (token : string) (signature : string) (receipt : option Receipt)
| MarkSignatureUncertain (token : string)
| ReconcileSignature (signature : string) (receipt : Receipt).

(** The answers; a rejection is by its [code]. *)
Definition resp (e : Effect) : Type :=
  match e with
  | AssertAccepting => bool
  | ReadKey => option KeyDescription
  | WriteKey _ | MarkSignatureUncertain _ => unit
  | AdapterSignOnce _ _ | AdapterLookup _ _ => Answer
  | _ => result jsval jsval
  end.

Notation prog := (prog resp).
Notation async := (async resp exn).
Notation event := (event resp).

Definition durable {A} (c : code) : async A := throw (Durable c).

(** An awaited call that may reject. *)
Definition call_ (e : Effect) (E : resp e = result jsval jsval) : async jsval :=
  Ask e (fun r => match eq_rect _ (fun T => T) r _ E with Ok v => Done (Ok v) | Throw c => Done (Throw (Foreign c)) end).

Notation call e := (call_ e eq_refl).

(** ** Errors *)

Definition error_code (e : exn) : jsval := match e with Foreign c => c | _ => JUndefined end.

Definition mapReserveError (e : exn) : exn :=
  let c := error_code e in
  if is_str c (REPOSITORY_CODE "SIGNING_PENDING") then Durable PENDING
  else if is_str c (REPOSITORY_CODE "SIGNING_UNCERTAIN") then Durable UNCERTAIN
  else if is_str c (REPOSITORY_CODE "SIGNING_CONFLICT") then Durable CONFLICT
  else Durable REPOSITORY.

Definition mapCommitError (e : exn) : exn :=
  if is_str (error_code e) (REPOSITORY_CODE "SIGNING_CONFLICT") then Durable CONFLICT else Durable COMMIT.

(** [if (error instanceof DurableManagedSignerError) throw error; throw other] *)
Definition rethrow_durable {A} (e : exn) (other : exn) : async A :=
  match e with Durable c => durable c | _ => throw other end.

(** ** Validation *)

Definition assertExactFields (v : jsval) (allowed : list string) : result exn unit :=
  throw_if negb (forallb (includes allowed) (own_keys v)) with Durable INPUT ;; Ok tt.

(** The loop over the required fields. *)
Definition require_fields (v : jsval) (fields : list string) : result exn unit :=
  throw_if negb (forallb (fun f => has_own v f && negb (is_undefined (get v f))) fields) with Durable INPUT ;; Ok tt.

Definition assertBinding (v : jsval) (c : Config) : result exn unit :=
  throw_if negb (is_str (get v "key_id") (keyId c)) || negb (is_str (get v "algorithm") ALGORITHM)
           || negb (is_str (get v "purpose") (purpose c)) || negb (is_int (get v "version") (version c))
    with Durable BINDING ;;
  Ok tt.

Definition normalizeBytes (v : jsval) : result exn string :=
  match v with JBytes b => Ok b | _ => Throw (Durable INPUT) end.

(** An [AbortSignal] is a host object. *)
Definition normalizeSignal (v : jsval) : result exn unit :=
  match v with JUndefined | JHost _ => Ok tt | _ => Throw (Durable INPUT) end.

Section Signer.
Context `{HSha : Sha256} `{HKeys : KeyObjects}.

(** [canonicalManagedSignerRequestDigest] of the bound request. *)
Definition request_digest_of (c : Config) (bytes : string) : string :=
  sha256 (canonicalJson (JObj [("algorithm", JStr ALGORITHM); ("bytes", JStr (base64 bytes));
    ("key_id", JStr (keyId c)); ("purpose", JStr (purpose c)); ("version", JNum (NInt (version c)));
    ("key_version", JNum (NInt (keyVersion c)))])).

Definition normalizeSignRequest (c : Config) (input : jsval) : result exn Request :=
  throw_if negb (is_plain input) with Durable INPUT ;;
  _ ← assertExactFields input (REQUEST_FIELDS ++ ["signal"])%list;
  _ ← require_fields input REQUEST_FIELDS;
  b ← normalizeBytes (get input "bytes");
  _ ← assertBinding input c;
  _ ← normalizeSignal (get input "signal");
  let digest := request_digest_of c b in
  Ok (mkRequest b digest (OPERATION_PREFIX +:+ digest)).

Definition normalizeMetadataRequest (c : Config) (input : jsval) : result exn unit :=
  if is_undefined input then Ok tt else
  throw_if negb (is_plain input) with Durable INPUT ;;
  _ ← assertExactFields input (METADATA_FIELDS ++ ["signal"])%list;
  _ ← require_fields input METADATA_FIELDS;
  _ ← assertBinding input c;
  normalizeSignal (get input "signal").

(** [parsePublicEd25519Key]; its own errors have no code. *)
Definition parsePublicEd25519Key (v : jsval) : result exn KeyDescription :=
  throw_if bool_decide (value_type v = Some "private") || str_test PRIVATE_KEY_TEXT v with Foreign JUndefined ;;
  key ← of_option (Foreign JUndefined)
          (if bool_decide (value_type v = Some "public") then object_key v else import_value v);
  throw_if negb (String.eqb (key_type key) "public") || negb (String.eqb (asymmetricKeyType key) ALGORITHM)
    with Foreign JUndefined ;;
  Ok key.

(** The PEM text of the validated key. *)
Definition validatePublicKeyMetadata (c : Config) (v : jsval) : result exn string :=
  or_throw
    (throw_if negb (is_plain v) with Durable METADATA ;;
     _ ← assertExactFields v ["key_id"; "algorithm"; "public_key"];
     throw_if negb (is_str (get v "key_id") (keyId c)) || negb (is_str (get v "algorithm") ALGORITHM)
       with Durable METADATA ;;
     key ← parsePublicEd25519Key (get v "public_key");
     Ok (spki_pem key))
    (Durable METADATA).

Definition normalizeSignature (v : jsval) : result exn string :=
  match v with
  | JBytes s => throw_if negb (Nat.eqb (String.length s) SIGNATURE_BYTES) with Durable OUTPUT ;; Ok s
  | _ => Throw (Durable OUTPUT)
  end.

Definition verifySignature (v : jsval) (text : string) (key : KeyDescription) : result exn string :=
  s ← normalizeSignature v;
  throw_if negb (default false (verify_with key text s)) with Durable OUTPUT ;; Ok s.

(** ** Steps of the operations *)

Definition assertOperationGate (c : Config) : async unit :=
  if gated c then
    await ok := ask AssertAccepting in if (ok : bool) then return_ tt else durable DRAINING
  else return_ tt.

Definition markUncertainBestEffort (token : string) : async unit :=
  await _ := ask (MarkSignatureUncertain token) in return_ tt.

Definition fenceBeforeProviderBoundary (c : Config) (token : string) : async unit :=
  catch (assertOperationGate c) (fun e => await _ := markUncertainBestEffort token in throw e).

Definition loadVerificationKey (c : Config) : async KeyDescription :=
  await known := ask ReadKey in
  match known with
  | Some key => return_ key
  | None =>
      await _ := assertOperationGate c in
      await metadata := catch (call FetchMetadata) (fun _ => durable PROVIDER) in
      await pem := sync (validatePublicKeyMetadata c metadata) in
      await key := sync (parsePublicEd25519Key (JStr pem)) in
      await _ := ask (WriteKey key) in
      return_ key
  end.

Definition assertActiveLifecycle (c : Config) : async unit :=
  await snapshot := catch (call Snapshot) (fun _ => durable REPOSITORY) in
  let active := match get snapshot "keys" with
                | JArr ks => filter (fun k => is_str (get k "state") "active" = true) ks
                | _ => []
                end in
  match active with
  | [k] =>
      if is_str (get snapshot "purpose") (purpose c) && is_str (get snapshot "algorithm") ALGORITHM
         && is_str (get k "key_id") (keyId c) && is_int (get k "key_version") (keyVersion c)
      then return_ tt else durable INACTIVE
  | _ => durable INACTIVE
  end.

(** The method [publicKeyMetadata]: the PEM text of the key. *)
Definition publicKeyMetadata (c : Config) (input : jsval) : async string :=
  await _ := sync (normalizeMetadataRequest c input) in
  await _ := assertOperationGate c in
  await _ := assertActiveLifecycle c in
  await metadata := catch (call FetchMetadata) (fun _ => durable PROVIDER) in
  await pem := sync (validatePublicKeyMetadata c metadata) in
  await candidate := sync (parsePublicEd25519Key (JStr pem)) in
  await known := ask ReadKey in
  match known with
  | Some key => if String.eqb (spki_der key) (spki_der candidate) then return_ pem else durable METADATA
  | None => await _ := ask (WriteKey candidate) in return_ pem
  end.

(** The binding of [createProviderContract]; the pinned key, a public Ed25519
    [KeyObject], is accepted as it is. *)
Definition createProviderContract (c : Config) (r : Request) (keys : list string)
  : result exn ProviderContract.Binding :=
  or_throw
    (b ← createManagedSignerBinding
           (JObj [("operation_id", JStr (operationId r)); ("purpose", JStr (purpose c)); ("key_id", JStr (keyId c));
                  ("key_version", JStr (num_to_string (NInt (keyVersion c)))); ("algorithm", JStr ALGORITHM);
                  ("protocol_version", protocolVersion c);
                  ("request_digest", JObj [("algorithm", JStr "SHA-256"); ("value", JStr (sha256 (bytes r)))])]);
     text ← normalizeSigningBytes (JBytes (bytes r));
     _ ← assertSigningDigest b text;
     _ ← assertAdapter keys;
     Ok b)
    (Durable OUTPUT).

(** [contract.signOnce()] and [contract.lookup()] *)
Definition contract_result {A} (m : contract A) : result exn A :=
  match m with Ok a => Ok a | Throw e => Throw (Contract e) end.

Definition contract_signOnce (b : ProviderContract.Binding) (r : Request) (key : KeyDescription)
  : async SignOnceResult :=
  await answer := ask (AdapterSignOnce b (bytes r)) in
  await v := sync (contract_result (answered answer "SIGN_ONCE_FAILED")) in
  sync (contract_result (validateSignOnceResult v b (bytes r) key)).

Definition contract_lookup (b : ProviderContract.Binding) (r : Request) (key : KeyDescription)
  : async LookupResult :=
  await answer := ask (AdapterLookup b (bytes r)) in
  await v := sync (contract_result (answered answer "LOOKUP_FAILED")) in
  sync (contract_result (validateLookupResult v b (bytes r) key)).

(** ** Key versions as numbers *)

Definition digit_value (c : ascii) : N :=
  N.of_nat (if digit c then nat_of_ascii c - 48 else if upper c then nat_of_ascii c - 55 else if lower c then nat_of_ascii c - 87 else 99).

Fixpoint read_radix (base acc : N) (s : string) : option N :=
  match s with
  | EmptyString => Some acc
  | String c s => if (digit_value c <? base)%N then read_radix base (base * acc + digit_value c) s else None
  end.

Fixpoint span_digits (s : string) : string * string :=
  match s with
  | String c r => if digit c then let '(d, r) := span_digits r in (String c d, r) else (EmptyString, s)
  | EmptyString => (EmptyString, EmptyString)
  end.

(** The exponent part of a numeral, 0 when there is none. *)
Definition read_exponent (s : string) : option Z :=
  match s with
  | EmptyString => Some 0%Z
  | String c s =>
      if in_chars "eE" c then
        match s with
        | EmptyString => None
        | String "+" EmptyString | String "-" EmptyString => None
        | String "+" s => option_map Z.of_N (read_digits 0 s)
        | String "-" s => option_map (fun n => - Z.of_N n)%Z (read_digits 0 s)
        | _ => option_map Z.of_N (read_digits 0 s)
        end
      else None
  end.

(** The value of an unsigned decimal numeral is [n]. *)
Definition decimal_is (s : string) (n : Z) : bool :=
  let '(whole, r) := span_digits s in
  let '(fraction, r) := match r with String "." r => span_digits r | _ => (EmptyString, r) end in
  match read_digits 0 (whole +:+ fraction), read_exponent r with
  | Some m, Some e =>
      let e := (e - Z.of_nat (String.length fraction))%Z in
      negb (String.eqb (whole +:+ fraction) "") && if (0 <=? e)%Z then (Z.of_N m * 10 ^ e =? n)%Z else (Z.of_N m =? n * 10 ^ (- e))%Z
  | _, _ => false
  end.

(** [Number(text) === n] for [n > 0]: white space around a numeral of radix 16,
    8 or 2, or a decimal one.  A decimal is compared by its exact value: one that
    is no integer, but is rounded to [n], is taken as different. *)
Definition text_is_number (text : string) (n : Z) : bool :=
  let in_radix base digits :=
    negb (String.eqb digits "") && match read_radix base 0 digits with Some m => (Z.of_N m =? n)%Z | None => false end in
  match trim text with
  | String "0" (String c digits) =>
      if in_chars "xX" c then in_radix 16%N digits
      else if in_chars "oO" c then in_radix 8%N digits
      else if in_chars "bB" c then in_radix 2%N digits
      else decimal_is (trim text) n
  | String "+" s => decimal_is s n
  | s => decimal_is s n
  end.

(** [Number(value) === n] for [n > 0]; an array or an object is read as its text. *)
Definition is_number_value (v : jsval) (n : Z) : bool :=
  match v with
  | JNum x => bool_decide (x = NInt n)
  | JBool b => b && (n =? 1)%Z
  | JUndefined | JNull => false
  | v => match to_string v with Some s => text_is_number s n | None => false end
  end.

(** [Number(left) === Number(right)] for key versions: [right] is the decimal
    text of the configured version. *)
Definition same_version (left : jsval) (c : Config) : bool := is_number_value left (keyVersion c).

Example same_versions :
  map (fun v => is_number_value v 10)
    [JNum (NInt 10); JStr "10"; JStr "10.0"; JStr " 010 "; JStr "+1e1"; JStr "0xA"; JStr "100e-1"; JArr [JStr "10"]]
  = [true; true; true; true; true; true; true; true] /\
  map (fun v => is_number_value v 10) [JStr ""; JStr "1"; JStr "10.5"; JStr "-10"; JStr "1e"; JStr "0x"; JBool true; JNull]
  = [false; false; false; false; false; false; false; false].
Proof. vm_compute. done. Qed.

Definition sameReceipt (c : Config) (left : jsval) (right : Receipt) : bool :=
  is_str (get left "provider") (provider right) && is_str (get left "receipt_id") (receipt_id right)
  && is_str (get left "operation_id") (r_operation_id right) && is_str (get left "key_id") (r_key_id right)
  && same_version (get left "key_version") c.

(** A committed record returned by the repository: its verified signature. *)
Definition replay_committed (c : Config) (r : Request) (v : jsval) : async string :=
  await key := loadVerificationKey c in
  if bool_decide (is_Some (adapter_keys c)) && negb (truthy (get v "provider_receipt")) then durable COMMIT
  else sync (verifySignature (get v "signature") (bytes r) key).

(** The provider call itself: the signature and the adapter's receipt. *)
Definition provider_boundary (c : Config) (r : Request) (token : string) : async (string * option Receipt) :=
  await key := loadVerificationKey c in
  await _ := fenceBeforeProviderBoundary c token in
  match adapter_keys c with
  | Some keys =>
      await b := sync (createProviderContract c r keys) in
      await output := contract_signOnce b r key in
      return_ (b64_bytes (value (so_signature output)), Some (so_receipt output))
  | None =>
      await output := call (ProviderSign (bytes r)) in
      await s := sync (verifySignature output (bytes r) key) in
      return_ (s, None)
  end.

(** Quarantine the operation, then throw. *)
Definition quarantine {A} (token : string) (e : exn) : async A :=
  await _ := markUncertainBestEffort token in throw e.

(** The checks of [signReserved] on what the commit returned. *)
Definition check_committed (c : Config) (r : Request) (token signature : string) (receipt : option Receipt)
    (committed : jsval) : async string :=
  if negb (is_str (get committed "state") "committed") then quarantine token (Durable COMMIT) else
  await committedSignature := catch (await key := loadVerificationKey c in
                              sync (verifySignature (get committed "signature") (bytes r) key))
                             (fun _ => quarantine token (Durable COMMIT)) in
  if negb (String.eqb signature committedSignature) then quarantine token (Durable COMMIT) else
  match receipt with
  | Some rc =>
      if sameReceipt c (get committed "provider_receipt") rc then return_ signature
      else quarantine token (Durable COMMIT)
  | None => return_ signature
  end.

Definition is_string (v : jsval) : bool := match v with JStr _ => true | _ => false end.

(** The check of the record that [fenceSignature] returns. *)
Definition admitted_ok (v : jsval) : bool :=
  one_of ["pending"; "committed"] (get v "state")
  && (negb (is_str (get v "state") "pending") || is_string (get v "provider_started_at")).

Definition start_signature (token : string) : async unit :=
  catch (await started := call (StartSignature token) in
         if is_str (get started "state") "pending" && is_string (get started "provider_started_at")
         then return_ tt else durable COMMIT)
        (fun e => rethrow_durable e (mapCommitError e)).

Definition fence_signature (token : string) : async jsval :=
  catch (await admitted := call (FenceSignature token) in
         if admitted_ok admitted then return_ admitted else durable COMMIT)
        (fun e => await _ := markUncertainBestEffort token in rethrow_durable e (mapCommitError e)).

Definition provider_failure (token : string) (e : exn) : async (string * option Receipt) :=
  await _ := markUncertainBestEffort token in
  match e with Durable OUTPUT => durable OUTPUT | _ => durable PROVIDER end.

Definition signReserved (c : Config) (r : Request) (token : string) : async string :=
  await _ := fenceBeforeProviderBoundary c token in
  await _ := start_signature token in
  await _ := fenceBeforeProviderBoundary c token in
  await admitted := fence_signature token in
  if is_str (get admitted "state") "committed" then replay_committed c r admitted else
  await output := catch (provider_boundary c r token) (provider_failure token) in
  await committed := catch (call (CommitSignature token output.1 output.2))
                    (fun e => quarantine token (mapCommitError e)) in
  check_committed c r token output.1 output.2 committed.

Definition reconcile_error (e : exn) : exn :=
  match e with
  | Durable _ => e
  | Contract (ContractError "LOOKUP_FAILED") => Durable UNCERTAIN
  | Contract _ => Durable OUTPUT
  | Foreign _ => mapCommitError e
  end.

Definition reconcileUncertain (c : Config) (r : Request) (keys : list string) : async string :=
  catch
    (await _ := assertOperationGate c in
     await key := loadVerificationKey c in
     await _ := assertOperationGate c in
     await b := sync (createProviderContract c r keys) in
     await found := contract_lookup b r key in
     if negb (String.eqb (lr_state found) "committed") then durable UNCERTAIN else
     match lr_signature found, lr_receipt found with
     | Some s, Some receipt =>
         let signature := b64_bytes (value s) in
         await committed := call (ReconcileSignature signature receipt) in
         if negb (is_str (get committed "state") "committed")
            || negb (sameReceipt c (get committed "provider_receipt") receipt) then durable COMMIT else
         await committedSignature := sync (verifySignature (get committed "signature") (bytes r) key) in
         if String.eqb signature committedSignature then return_ committedSignature else durable COMMIT
     | _, _ => durable UNCERTAIN
     end)
    (fun e => throw (reconcile_error e)).

(** What [executeSign] does after the reservation. *)
Definition reserved (c : Config) (r : Request) (reservation : jsval) : async string :=
  if is_str (get reservation "state") "committed" then replay_committed c r reservation
  else if is_str (get reservation "state") "pending" then
    match get reservation "claim_token" with
    | JStr token => if String.eqb token "" then durable REPOSITORY else signReserved c r token
    | _ => durable REPOSITORY
    end
  else if is_str (get reservation "state") "uncertain" then
    match adapter_keys c with Some keys => reconcileUncertain c r keys | None => durable UNCERTAIN end
  else durable REPOSITORY.

Definition executeSign (c : Config) (r : Request) : async string :=
  await _ := assertOperationGate c in
  Ask ReserveSignature (fun answer =>
    match answer with
    | Ok reservation => reserved c r reservation
    | Throw e =>
        match adapter_keys c with
        | Some keys =>
            if is_str e (REPOSITORY_CODE "SIGNING_UNCERTAIN") then reconcileUncertain c r keys
            else throw (mapReserveError (Foreign e))
        | None => throw (mapReserveError (Foreign e))
        end
    end).

(** The method [sign] over the operations in flight: the operation joined or
    started; [settle] removes a settled one. *)
Inductive Started := Joined (operationId : string) | Running (p : async string).

Definition sign (c : Config) (inFlight : list string) (input : jsval) : result exn (list string * Started) :=
  r ← normalizeSignRequest c input;
  if includes inFlight (operationId r) then Ok (inFlight, Joined (operationId r))
  else Ok (operationId r :: inFlight, Running (executeSign c r)).

Definition settle (inFlight : list string) (id : string) : list string := filter (fun x => x <> id) inFlight.
End Signer.

(** ** Runs *)

(** The calls that make the provider sign. *)
Definition is_sign (e : Effect) : bool :=
  match e with ProviderSign _ | AdapterSignOnce _ _ => true | _ => false end.

Definition signs (t : list event) : nat := length (filter (fun x => is_sign (projT1 x) = true) t).

(** ** Lemmas: programs that do not make the provider sign *)

Notation silent := (avoids is_sign).

Lemma silent_signs {A} (p : prog A) t a : silent p -> runs p t a -> signs t = 0.
Proof.
  intros Hp H. unfold signs. apply (avoids_runs _ _ _ _ Hp) in H. induction H as [|[e r] t Hx _ IH]; [done|].
  cbn in Hx. rewrite filter_cons_False by (cbn; by rewrite Hx). exact IH.
Qed.

Lemma signs_app t1 t2 : signs (t1 ++ t2)%list = signs t1 + signs t2.
Proof. unfold signs. by rewrite filter_app, length_app. Qed.

Create HintDb silent.
#[local] Hint Resolve avoids_abind avoids_catch : silent.

(** Structural proof that a program is silent. *)
Ltac silent :=
  repeat first
    [ done
    | apply (avoids_abind is_sign); [|intros ?]
    | apply (avoids_catch is_sign); [|intros ?]
    | progress (auto with silent nocore)
    | progress (unfold return_, throw, durable, sync, ask, call_, quarantine, rethrow_durable; simpl)
    | split; [done|intros ?]
    | case_match ].

Section Silent.
Context `{HSha : Sha256} `{HKeys : KeyObjects}.

Lemma silent_gate c : silent (assertOperationGate c).
Proof. unfold assertOperationGate. silent. Qed.
Lemma silent_mark token : silent (markUncertainBestEffort token).
Proof. unfold markUncertainBestEffort. silent. Qed.
#[local] Hint Resolve silent_gate silent_mark : silent.
Lemma silent_fence c token : silent (fenceBeforeProviderBoundary c token).
Proof. unfold fenceBeforeProviderBoundary. silent. Qed.
Lemma silent_load c : silent (loadVerificationKey c).
Proof. unfold loadVerificationKey. silent. Qed.
#[local] Hint Resolve silent_fence silent_load : silent.
Lemma silent_replay c r v : silent (replay_committed c r v).
Proof. unfold replay_committed. silent. Qed.
Lemma silent_start token : silent (start_signature token).
Proof. unfold start_signature. silent. Qed.
Lemma silent_fence_signature token : silent (fence_signature token).
Proof. unfold fence_signature. silent. Qed.
Lemma silent_check c r token s rc v : silent (check_committed c r token s rc v).
Proof. unfold check_committed. silent. Qed.
Lemma silent_quarantine {A} token e : silent (quarantine (A := A) token e).
Proof. unfold quarantine. silent. Qed.
Lemma silent_provider_failure token e : silent (provider_failure token e).
Proof. unfold provider_failure. silent. Qed.
Lemma silent_reconcile c r keys : silent (reconcileUncertain c r keys).
Proof. unfold reconcileUncertain, contract_lookup. silent. Qed.
End Silent.

(** ** Lemmas: returned signatures are verified *)

Section Verified.
Context `{HSha : Sha256} `{HKeys : KeyObjects}.
Variable env : event -> Prop.

(** The keys that the closure's variable may hold. *)
Variable trusted : KeyDescription -> Prop.
Hypothesis reads_trusted : forall k, env (ev ReadKey (Some k)) -> trusted k.
Variable c : Config.
Hypothesis fetched_trusted : forall metadata pem k, env (ev ReadKey None) -> env (ev FetchMetadata (Ok metadata)) ->
  validatePublicKeyMetadata c metadata = Ok pem -> parsePublicEd25519Key (JStr pem) = Ok k -> trusted k.

Definition verified (r : Request) (s : string) : Prop :=
  String.length s = SIGNATURE_BYTES /\ exists key, trusted key /\ verify_with key (bytes r) s = Some true.

Lemma verifySignature_ok v text key s :
  verifySignature v text key = Ok s ->
  v = JBytes s /\ String.length s = SIGNATURE_BYTES /\ verify_with key text s = Some true.
Proof.
  unfold verifySignature, normalizeSignature. intros H. inv_result. guards.
  destruct v as [ | | | | | | |b| | ]; try done. inv_result. guards.
  match goal with H : Nat.eqb _ _ = true |- _ => apply Nat.eqb_eq in H end.
  split_and!; try done. by destruct (verify_with _ _ _) as [[]|].
Qed.

Lemma ensures_load : ensures env (loadVerificationKey c) trusted.
Proof.
  unfold loadVerificationKey. eapply (ensures_abind env _ _ (fun o => env (ev ReadKey o))); [by refine (ensures_ask env ReadKey _ _)|].
  intros [k|] Hk; [apply ensures_return; by apply reads_trusted|]. apply ensures_any. intros _.
  eapply (ensures_abind env _ _ (fun metadata => env (ev FetchMetadata (Ok metadata)))).
  { apply ensures_catch; [|intros; apply ensures_throw]. intros t v He (r & t' & -> & Hr). apply Forall_cons in He as [He _].
    unfold sync in Hr. destruct r as [w|]; destruct Hr as [_ Hr]; [injection Hr as ->; exact He|done]. }
  intros metadata Hm. eapply (ensures_abind env _ _ (fun pem => validatePublicKeyMetadata c metadata = Ok pem)); [by apply ensures_sync|].
  intros pem Hp. eapply (ensures_abind env _ _ (fun key => parsePublicEd25519Key (JStr pem) = Ok key)); [by apply ensures_sync|].
  intros key Hkey. apply ensures_any. intros _. apply ensures_return. by eapply fetched_trusted.
Qed.

Lemma ensures_verify r v key :
  trusted key -> ensures env (sync (verifySignature v (bytes r) key)) (verified r).
Proof. intros Hk. apply ensures_sync. intros s (_ & ? & ?)%verifySignature_ok. split; eauto. Qed.

Lemma ensures_replay r v : ensures env (replay_committed c r v) (verified r).
Proof.
  unfold replay_committed. eapply ensures_abind; [apply ensures_load|]. intros key Hk.
  case_match; [apply ensures_throw|by apply ensures_verify].
Qed.

Lemma ensures_quarantine token e Q : ensures env (quarantine (A := string) token e) Q.
Proof. unfold quarantine. apply ensures_any. intros _. apply ensures_throw. Qed.

Lemma ensures_check r token s rc v : ensures env (check_committed c r token s rc v) (verified r).
Proof.
  unfold check_committed. case_match; [apply ensures_quarantine|].
  eapply (ensures_abind env _ _ (verified r)).
  { apply ensures_catch; [|intros; apply ensures_quarantine].
    eapply ensures_abind; [apply ensures_load|]. intros key Hk. by apply ensures_verify. }
  intros s' Hs. destruct (String.eqb_spec s s') as [->|]; [|apply ensures_quarantine]. simpl.
  repeat case_match; first [by apply ensures_return|apply ensures_quarantine].
Qed.

Lemma ensures_signReserved r token : ensures env (signReserved c r token) (verified r).
Proof.
  unfold signReserved. do 4 (apply ensures_any; intros ?). case_match; [apply ensures_replay|].
  do 2 (apply ensures_any; intros ?). apply ensures_check.
Qed.

Lemma ensures_reconcile r keys : ensures env (reconcileUncertain c r keys) (verified r).
Proof.
  unfold reconcileUncertain. apply ensures_catch; [|intros; apply ensures_throw].
  apply ensures_any; intros _. eapply ensures_abind; [apply ensures_load|]. intros key Hk.
  do 3 (apply ensures_any; intros ?). repeat case_match; try apply ensures_throw.
  apply ensures_any; intros ?. case_match; [apply ensures_throw|].
  eapply ensures_abind; [by apply ensures_verify|]. intros sg Hsg.
  case_match; [by apply ensures_return|apply ensures_throw].
Qed.

Lemma ensures_executeSign r : ensures env (executeSign c r) (verified r).
Proof.
  unfold executeSign. apply ensures_any. intros _. intros t s He (answer & t' & -> & H).
  apply Forall_cons in He as [_ He]. destruct answer as [v|e].
  - unfold reserved in H. repeat case_match; try (by destruct H as [_ H]).
    + by eapply ensures_replay.
    + by eapply ensures_signReserved.
    + by eapply ensures_reconcile.
  - repeat case_match; try (by destruct H as [_ H]). by eapply ensures_reconcile.
Qed.
End Verified.

(** ** Lemmas: what a run that reaches the provider looks like *)

Section Boundary.
Context `{HSha : Sha256} `{HKeys : KeyObjects}.

#[local] Hint Resolve silent_gate silent_mark silent_fence silent_load silent_replay silent_start
  silent_fence_signature silent_check silent_quarantine silent_provider_failure silent_reconcile : silent.

(** One signing event, everything around it silent. *)
Definition one_sign (t t1 : list event) (x : event) (t2 : list event) : Prop :=
  t = (t1 ++ x :: t2)%list /\ is_sign (projT1 x) = true /\ signs t1 = 0 /\ signs t2 = 0.

Lemma one_sign_app_l t0 t t1 x t2 :
  signs t0 = 0 -> one_sign t t1 x t2 -> one_sign (t0 ++ t)%list (t0 ++ t1)%list x t2.
Proof. intros H0 (-> & Hx & H1 & H2). split_and!; [by rewrite app_assoc|done| |done]. rewrite signs_app. lia. Qed.

Lemma one_sign_app_r t t' t1 x t2 :
  signs t' = 0 -> one_sign t t1 x t2 -> one_sign (t ++ t')%list t1 x (t2 ++ t')%list.
Proof. intros H0 (-> & Hx & H1 & H2). split_and!; [by rewrite <- app_assoc|done..|]. rewrite signs_app. lia. Qed.

Lemma one_sign_signs t t1 x t2 : one_sign t t1 x t2 -> signs t = 1.
Proof.
  intros (-> & Hx & H1 & H2). change (x :: t2) with ([x] ++ t2)%list. rewrite !signs_app.
  assert (signs [x] = 1) as ->; [|lia]. unfold signs. by rewrite filter_cons_True.
Qed.

Lemma quarantine_marks {A} token e t (res : result exn A) :
  runs (quarantine token e) t res -> res = Throw e /\ ev (MarkSignatureUncertain token) tt ∈ t.
Proof.
  unfold quarantine, markUncertainBestEffort. intros H. simpl in H. destruct H as ([] & t' & -> & _ & ->).
  split; [done|left].
Qed.

Lemma provider_boundary_sign c r token t res :
  runs (provider_boundary c r token) t res -> signs t = 0 \/ exists t1 x t2, one_sign t t1 x t2.
Proof.
  unfold provider_boundary. intros [(e & H & _)|(ta & t' & key & -> & Ha & H)]%runs_abind.
  { left. eapply silent_signs; [|done]. auto with silent. }
  assert (signs ta = 0) as Sa by (eapply silent_signs; [|done]; auto with silent).
  apply runs_abind in H as [(e & H & _)|(tb & t'' & [] & -> & Hb & H)].
  { left. rewrite signs_app, Sa. eapply silent_signs; [|done]. auto with silent. }
  assert (signs tb = 0) as Sb by (eapply silent_signs; [|done]; auto with silent).
  assert (signs t'' = 0 \/ exists t1 x t2, one_sign t'' t1 x t2) as [S|(t1 & x & t2 & S)].
  3:{ right. exists (ta ++ (tb ++ t1))%list, x, t2. by repeat apply one_sign_app_l. }
  2:{ left. rewrite !signs_app. lia. }
  destruct (adapter_keys c) as [keys|].
  - apply runs_abind in H as [(e & [-> _] & _)|(tc & t3 & b & -> & [-> _] & H)]; [by left|].
    unfold contract_signOnce in H. simpl in H. destruct H as (answer & t4 & -> & H). right.
    exists [], (ev (AdapterSignOnce b (bytes r)) answer), t4. split_and!; [done..|].
    eapply silent_signs; [|done]. simpl. silent.
  - simpl in H. destruct H as (answer & t4 & -> & H). right.
    exists [], (ev (ProviderSign (bytes r)) answer), t4. split_and!; [done..|].
    eapply silent_signs; [|done]. simpl. silent.
Qed.

Lemma start_signature_started token t :
  runs (start_signature token) t (Ok tt) ->
  exists v, ev (StartSignature token) (Ok v) ∈ t /\ get v "state" = JStr "pending".
Proof.
  unfold start_signature. intros [(? & H & _)|(t1 & t2 & e & -> & _ & H)]%runs_catch.
  - simpl in H. destruct H as ([v|e] & t' & -> & H); simpl in H; [|by destruct H].
    destruct (is_str (get v "state") "pending") eqn:E; simpl in H; [|by destruct H].
    apply is_str_true in E. exists v. split; [left|done].
  - exfalso. destruct e; by destruct H.
Qed.

Lemma fence_signature_admitted token t v :
  runs (fence_signature token) t (Ok v) -> ev (FenceSignature token) (Ok v) ∈ t /\ admitted_ok v = true.
Proof.
  unfold fence_signature. intros [(? & H & E)|(t1 & t2 & e & -> & _ & H)]%runs_catch.
  - injection E as <-. simpl in H. destruct H as ([v'|e] & t' & -> & H); simpl in H; [|by destruct H].
    destruct (admitted_ok v') eqn:Ea; simpl in H; [|by destruct H]. destruct H as [-> [= ->]].
    split; [left|done].
  - exfalso. simpl in H. destruct H as (? & t' & _ & H). destruct e; by destruct H.
Qed.

(** The outcome of the commit's checks. *)
Lemma check_committed_outcome c r token s rc v t res :
  runs (check_committed c r token s rc v) t res ->
  (res = Ok s /\ get v "state" = JStr "committed" /\ get v "signature" = JBytes s) \/
  (exists e, res = Throw e /\ ev (MarkSignatureUncertain token) tt ∈ t).
Proof.
  unfold check_committed. destruct (is_str (get v "state") "committed") eqn:E; simpl negb; cbv iota.
  2:{ intros H%quarantine_marks. right. naive_solver. }
  apply is_str_true in E.
  intros [(e & H & ->)|(t1 & t2 & s' & -> & H1 & H)]%runs_abind.
  { apply runs_catch in H as [(? & _ & [=])|(t1 & t2 & e' & -> & _ & H)].
    apply quarantine_marks in H as [_ H]. right. eexists. split; [done|]. set_solver. }
  apply runs_catch in H1 as [(? & H1 & [= <-])|(t3 & t4 & e' & -> & _ & H1)].
  2:{ apply quarantine_marks in H1 as [H1 _]. done. }
  destruct (String.eqb_spec s s') as [<-|]; simpl in H.
  2:{ apply quarantine_marks in H as [-> H]. right. eexists. split; [done|]. set_solver. }
  assert (get v "signature" = JBytes s) as Es.
  { apply runs_abind in H1 as [(? & _ & [=])|(t3 & t4 & key & -> & _ & [_ H1])].
    symmetry in H1. by apply verifySignature_ok in H1 as [? _]. }
  destruct rc as [rc|]; [destruct (sameReceipt _ _ _)|].
  - destruct H as [_ ->]. by left.
  - apply quarantine_marks in H as [-> H]. right. eexists. split; [done|]. set_solver.
  - destruct H as [_ ->]. by left.
Qed.

Definition durable_outcome (token : string) (t2 : list event) (res : result exn string) : Prop :=
  (exists s rc v, res = Ok s /\ ev (CommitSignature token s rc) (Ok v) ∈ t2 /\
     get v "state" = JStr "committed" /\ get v "signature" = JBytes s) \/
  (exists e, res = Throw e /\ ev (MarkSignatureUncertain token) tt ∈ t2).

Lemma outcome_app token t t' res : durable_outcome token t res -> durable_outcome token (t' ++ t)%list res.
Proof.
  intros [(s & rc & v & ? & ? & ?)|(e & ? & ?)]; [left; exists s, rc, v|right; exists e]; split_and!; try done;
    try tauto; apply elem_of_app; auto.
Qed.

(** From the provider's answer to the end of [signReserved]. *)
Lemma boundary_outcome c r token t4 res (o : result exn (string * option Receipt)) :
  match o with
  | Ok out =>
      runs (abind (catch (call (CommitSignature token out.1 out.2)) (fun e => quarantine token (mapCommitError e)))
              (fun committed => check_committed c r token out.1 out.2 committed)) t4 res
  | Throw e => exists e', runs (provider_failure token e) t4 (Throw e') /\ res = Throw e'
  end ->
  signs t4 = 0 /\ durable_outcome token t4 res.
Proof.
  destruct o as [[s rc]|e].
  - intros H. split.
    { eapply silent_signs; [|exact H]. apply (avoids_abind is_sign); [|intros; apply silent_check].
      apply (avoids_catch is_sign); [|intros; apply silent_quarantine]. silent. }
    apply runs_abind in H as [(e & H & ->)|(ta & tb & v & -> & Ha & H)].
    + apply runs_catch in H as [(? & _ & [=])|(ta & tb & e' & -> & _ & H)].
      apply quarantine_marks in H as [_ H]. right. eexists. split; [done|]. set_solver.
    + apply runs_catch in Ha as [(? & Ha & [= <-])|(tc & td & e' & -> & _ & Ha)].
      2:{ by apply quarantine_marks in Ha as [Ha _]. }
      simpl in Ha. destruct Ha as ([v'|] & t' & -> & Ha); [|by destruct Ha]. destruct Ha as [-> [= ->]].
      apply check_committed_outcome in H as [(-> & Hs & Hsig)|(e & -> & H)].
      * left. exists s, rc, v'. split_and!; try done. left.
      * right. eexists. split; [done|]. set_solver.
  - intros (e' & H & ->). split; [eapply silent_signs; [|done]; apply silent_provider_failure|].
    right. eexists. split; [done|]. unfold provider_failure, markUncertainBestEffort in H. simpl in H.
    destruct H as ([] & t' & -> & _). left.
Qed.

(** The part of [signReserved] before the provider: the claim is started, and
    after that the durable fence admits it. *)
Definition fenced (token : string) (t : list event) : Prop :=
  exists t1 v t2 w t3, t = (t1 ++ ev (StartSignature token) (Ok v) :: t2 ++ ev (FenceSignature token) (Ok w) :: t3)%list /\
    get v "state" = JStr "pending" /\ admitted_ok w = true /\ get w "state" <> JStr "committed".

Lemma fenced_parts token ta tb tc td te v w :
  ev (StartSignature token) (Ok v) ∈ tb -> get v "state" = JStr "pending" ->
  ev (FenceSignature token) (Ok w) ∈ td -> admitted_ok w = true -> get w "state" <> JStr "committed" ->
  fenced token (ta ++ tb ++ tc ++ td ++ te).
Proof.
  intros (b1 & b2 & ->)%list_elem_of_split Hv (d1 & d2 & ->)%list_elem_of_split Hw Hc.
  exists (ta ++ b1)%list, v, (b2 ++ tc ++ d1)%list, w, (d2 ++ te)%list. split; [|done].
  repeat (rewrite <- app_assoc || rewrite <- app_comm_cons). done.
Qed.

(** A part of the program that is silent adds no signing event. *)
Ltac quiet :=
  rewrite ?Nat.add_0_l;
  match goal with H : runs _ ?t _ |- signs ?t = 0 => eapply silent_signs; [|exact H]; auto with silent end.

Lemma signReserved_run c r token t res :
  runs (signReserved c r token) t res ->
  signs t = 0 \/
  exists t1 x t2, one_sign t t1 x t2 /\ fenced token t1 /\ durable_outcome token t2 res.
Proof.
  unfold signReserved. intros [(e & H & _)|(ta & t' & [] & -> & Ha & H)]%runs_abind; [left; quiet|].
  assert (signs ta = 0) as Sa by quiet.
  apply runs_abind in H as [(e & H & _)|(tb & t'' & [] & -> & Hb & H)].
  { left. rewrite signs_app, Sa. quiet. }
  assert (signs tb = 0) as Sb by quiet. apply start_signature_started in Hb as (v & Hv & Hvs).
  apply runs_abind in H as [(e & H & _)|(tc & t3 & [] & -> & Hc & H)].
  { left. rewrite !signs_app, Sa, Sb. quiet. }
  assert (signs tc = 0) as Sc by quiet.
  apply runs_abind in H as [(e & H & _)|(td & t4 & admitted & -> & Hd & H)].
  { left. rewrite !signs_app, Sa, Sb, Sc. quiet. }
  assert (signs td = 0) as Sd by quiet. apply fence_signature_admitted in Hd as [Hd Hok].
  destruct (is_str (get admitted "state") "committed") eqn:Ec.
  { left. rewrite !signs_app, Sa, Sb, Sc, Sd. quiet. }
  assert (get admitted "state" <> JStr "committed") as Hnc by (intros E; by rewrite E in Ec).
  assert (forall o t5 t6, t4 = (t5 ++ t6)%list -> runs (provider_boundary c r token) t5 o ->
    signs t6 = 0 /\ durable_outcome token t6 res ->
    signs (ta ++ tb ++ tc ++ td ++ t4) = 0 \/
    exists t1 x t2, one_sign (ta ++ tb ++ tc ++ td ++ t4) t1 x t2 /\ fenced token t1 /\ durable_outcome token t2 res)
    as Hfin.
  { intros o t5 t6 -> H5 [S6 H6]. destruct (provider_boundary_sign _ _ _ _ _ H5) as [S5|(t1 & x & t2 & H1)].
    { left. rewrite !signs_app. lia. }
    right. exists (ta ++ tb ++ tc ++ td ++ t1)%list, x, (t2 ++ t6)%list. split_and!.
    - repeat (apply one_sign_app_l; [done|]). by apply one_sign_app_r.
    - by apply (fenced_parts _ _ _ _ _ _ v admitted).
    - by apply outcome_app. }
  apply runs_abind in H as [(e & H & ->)|(t5 & t6 & out & -> & H5 & H6)].
  - apply runs_catch in H as [(? & _ & [=])|(t5 & t6 & e' & -> & H5 & H6)].
    eapply (Hfin _ t5 t6); [done|exact H5|]. eapply (boundary_outcome c r _ _ _ (Throw e')). eauto.
  - apply runs_catch in H5 as [(? & H5 & [= <-])|(t7 & t8 & e' & -> & H5 & H7)].
    + eapply (Hfin _ t5 t6); [done|exact H5|]. by eapply (boundary_outcome c r _ _ _ (Ok out)).
    + exfalso. unfold provider_failure, markUncertainBestEffort in H7. simpl in H7.
      destruct H7 as ([] & t' & _ & H7). destruct e' as [[]| |]; by destruct H7.
Qed.
End Boundary.

(** ** Properties *)

Section Properties.
Context `{HSha : Sha256} `{HKeys : KeyObjects}.

(** Where a verification key may come from: the signer's variable, or, when it
    holds none, the key of the metadata that the provider was asked for, which
    names the signer's key, version and algorithm ([validatePublicKeyMetadata]). *)
Definition key_source (c : Config) (t : list event) (key : KeyDescription) : Prop :=
  ev ReadKey (Some key) ∈ t \/
  exists metadata pem, ev ReadKey None ∈ t /\ ev FetchMetadata (Ok metadata) ∈ t /\
    validatePublicKeyMetadata c metadata = Ok pem /\ parsePublicEd25519Key (JStr pem) = Ok key.

(** C14: a signature is only ever returned after it verified, over the bytes of
    the request, under a key that this execution read from the signer's variable
    or, when that was empty, fetched as the provider's metadata and validated;
    with a pinned key, which every read answers, under that key. *)
Theorem returned_signature_verified c r t s :
  runs (executeSign c r) t (Ok s) ->
  String.length s = SIGNATURE_BYTES /\
  (exists key, key_source c t key /\ verify_with key (bytes r) s = Some true) /\
  forall pinned, (forall k, ev ReadKey k ∈ t -> k = Some pinned) -> verify_with pinned (bytes r) s = Some true.
Proof.
  intros H. destruct (ensures_executeSign (fun x => x ∈ t) (key_source c t) ltac:(intros k Hk; by left) c
    ltac:(intros m p k Hk Hm Hp Hq; right; by exists m, p) r t s) as (Hl & key & Hk & Hv); [by apply Forall_forall|done|].
  split_and!; [done|by exists key|]. intros pinned Hp.
  destruct Hk as [Hk|(m & p & Hk & _)]; apply Hp in Hk; [by injection Hk as ->|done].
Qed.

(** C13: in one execution the provider is made to sign at most once, and what
    happens around it is in this order: a reservation answers pending with a
    claim token; that claim is started; the durable fence admits it, still
    uncommitted; the provider signs; and after that either the repository
    commits the signature, which is the result, or the claim is marked uncertain
    and the execution fails. *)
Theorem provider_signs_once_fenced c r t res :
  runs (executeSign c r) t res ->
  signs t <= 1 /\
  (signs t = 1 ->
   exists t0 reservation token t1 x t2, one_sign t (t0 ++ ev ReserveSignature (Ok reservation) :: t1) x t2 /\
     get reservation "state" = JStr "pending" /\
     get reservation "claim_token" = JStr token /\ fenced token t1 /\ durable_outcome token t2 res).
Proof.
  unfold executeSign. intros [(e & H & _)|(t0 & t' & [] & -> & Hg & (answer & t'' & -> & H))]%runs_abind.
  { assert (signs t = 0) by (eapply silent_signs; [apply silent_gate|done]). split; lia. }
  assert (signs t0 = 0) as S0 by (eapply silent_signs; [apply silent_gate|done]).
  assert (forall A (p : async A) o, silent p -> runs p t'' o ->
    signs (t0 ++ ev ReserveSignature answer :: t'') = 0) as Hquiet.
  { intros A p o Hp Ho. change (ev ReserveSignature answer :: t'') with ([ev ReserveSignature answer] ++ t'')%list.
    rewrite !signs_app, S0. rewrite (silent_signs _ _ _ Hp Ho). done. }
  assert (forall n, n = 0 -> n <= 1 /\ (n = 1 -> exists t3 reservation token t1 x t2,
    one_sign (t0 ++ ev ReserveSignature answer :: t'') (t3 ++ ev ReserveSignature (Ok reservation) :: t1) x t2 /\
    get reservation "state" = JStr "pending" /\
    get reservation "claim_token" = JStr token /\ fenced token t1 /\ durable_outcome token t2 res)) as Hzero.
  { intros n ->. split; [lia|done]. }
  destruct answer as [v|e].
  2:{ apply Hzero. destruct (adapter_keys c) as [keys|]; [destruct (is_str e _)|];
        (eapply Hquiet; [|exact H]); [apply silent_reconcile|done..]. }
  unfold reserved in H. destruct (is_str (get v "state") "committed").
  { apply Hzero. eapply Hquiet; [|exact H]. apply silent_replay. }
  destruct (is_str (get v "state") "pending") eqn:Ep.
  2:{ apply Hzero. destruct (is_str (get v "state") "uncertain"); [destruct (adapter_keys c) as [keys|]|];
        (eapply Hquiet; [|exact H]); [apply silent_reconcile|done..]. }
  apply is_str_true in Ep.
  destruct (get v "claim_token") as [ | | | |token| | | | | ] eqn:Et;
    try (apply Hzero; eapply Hquiet; [|exact H]; done).
  destruct (String.eqb token ""); [apply Hzero; eapply Hquiet; [|exact H]; done|].
  apply signReserved_run in H as [S|(t1 & x & t2 & H1 & Hf & Ho)].
  { apply Hzero. change (ev ReserveSignature (Ok v) :: t'') with ([ev ReserveSignature (Ok v)] ++ t'')%list.
    by rewrite !signs_app, S0, S. }
  assert (one_sign (t0 ++ ev ReserveSignature (Ok v) :: t'') (t0 ++ ev ReserveSignature (Ok v) :: t1) x t2) as H2.
  { apply one_sign_app_l; [done|]. by apply (one_sign_app_l [ev ReserveSignature (Ok v)]). }
  split; [by rewrite (one_sign_signs _ _ _ _ H2)|]. intros _. by exists t0, v, token, t1, x, t2.
Qed.

Lemma bad_adapter_contract c r keys :
  sort_strings keys <> sort_strings ["signOnce"; "lookup"] -> createProviderContract c r keys = Throw (Durable OUTPUT).
Proof.
  intros Hk. unfold createProviderContract, assertAdapter. rewrite bool_decide_eq_false_2 by done. simpl.
  destruct (createManagedSignerBinding _); simpl; [|done]. destruct (String.eqb (bytes r) ""); simpl; [done|].
  by destruct (assertSigningDigest _ _).
Qed.

Lemma silent_bad_adapter c r keys :
  adapter_keys c = Some keys -> sort_strings keys <> sort_strings ["signOnce"; "lookup"] ->
  silent (executeSign c r).
Proof.
  intros Ek Hk. pose proof (bad_adapter_contract c r keys Hk) as Hc.
  assert (forall token, silent (provider_boundary c r token)) as Hb.
  { intros token. unfold provider_boundary. apply (avoids_abind is_sign); [apply silent_load|intros key].
    apply (avoids_abind is_sign); [apply silent_fence|intros _]. by rewrite Ek, Hc. }
  assert (forall token, silent (signReserved c r token)) as Hs.
  { intros token. unfold signReserved. repeat (apply (avoids_abind is_sign); [auto using silent_fence, silent_start, silent_fence_signature|intros ?]).
    case_match; [apply silent_replay|].
    apply (avoids_abind is_sign); [apply (avoids_catch is_sign); [auto|intros; apply silent_provider_failure]|intros ?].
    apply (avoids_abind is_sign); [apply (avoids_catch is_sign); [silent|intros; apply silent_quarantine]|intros; apply silent_check]. }
  unfold executeSign. apply (avoids_abind is_sign); [apply silent_gate|intros _]. simpl. split; [done|].
  intros [v|e]; [|rewrite Ek; case_match; [apply silent_reconcile|done]].
  unfold reserved. rewrite Ek. repeat case_match; try done; try apply silent_replay; try apply Hs. apply silent_reconcile.
Qed.

(** An adapter object with any other own key than its two methods (such
    as a provider used as its own adapter, which also has
    [publicKeyMetadata]) never signs: the contract refuses it only after the
    claim has been started and admitted, so the operation ends quarantined. *)
Theorem provider_as_adapter_never_signs c r keys :
  adapter_keys c = Some keys -> sort_strings keys <> sort_strings ["signOnce"; "lookup"] -> gated c = false ->
  (forall t res, runs (executeSign c r) t res -> signs t = 0) /\
  forall token key, token <> "" ->
    exists t, runs (executeSign c r) t (Throw (Durable OUTPUT)) /\
      ev (StartSignature token)
        (Ok (JObj [("state", JStr "pending"); ("provider_started_at", JStr "t")])) ∈ t /\
      ev (MarkSignatureUncertain token) tt ∈ t /\ ev ReadKey (Some key) ∈ t.
Proof.
  intros Ek Hk Hg. split.
  { intros t res H. eapply silent_signs; [|done]. by eapply silent_bad_adapter. }
  intros token key Ht. apply String.eqb_neq in Ht.
  set (pending := JObj [("state", JStr "pending"); ("provider_started_at", JStr "t")]).
  exists [ev ReserveSignature (Ok (JObj [("state", JStr "pending"); ("claim_token", JStr token)]));
          ev (StartSignature token) (Ok pending); ev (FenceSignature token) (Ok pending);
          ev ReadKey (Some key); ev (MarkSignatureUncertain token) tt].
  split; [|split_and!; set_solver].
  unfold executeSign, assertOperationGate. rewrite Hg. simpl.
  eexists _, _. split; [reflexivity|]. unfold reserved. simpl. rewrite Ht. unfold signReserved, fenceBeforeProviderBoundary, assertOperationGate. rewrite Hg. simpl.
  do 2 (eexists _, _; split; [reflexivity|]; simpl).
  unfold provider_boundary, fenceBeforeProviderBoundary, assertOperationGate. rewrite Hg, Ek, (bad_adapter_contract c r keys Hk).
  simpl. do 2 (eexists _, _; split; [reflexivity|]; simpl). done.
Qed.

(** A request in flight is joined, never executed twice: [sign] starts an
    execution exactly when no operation with the digest of the same bound
    request is running, and the identity of the operation is that digest. *)
Theorem sign_joins_in_flight c inFlight input l st :
  NoDup inFlight -> sign c inFlight input = Ok (l, st) ->
  NoDup l /\
  exists r, normalizeSignRequest c input = Ok r /\ operationId r = OPERATION_PREFIX +:+ request_digest_of c (bytes r) /\
    (operationId r ∈ inFlight -> l = inFlight /\ st = Joined (operationId r)) /\
    (operationId r ∉ inFlight -> l = operationId r :: inFlight /\ st = Running (executeSign c r)) /\
    operationId r ∉ settle l (operationId r).
Proof.
  unfold sign. intros Hd H. inv_result.
  match goal with H : normalizeSignRequest _ _ = Ok ?r |- _ => rename r into rq; rename H into Hr end.
  assert (operationId rq = OPERATION_PREFIX +:+ request_digest_of c (bytes rq)) as Hid.
  { unfold normalizeSignRequest in Hr. by inv_result. }
  assert (forall l, operationId rq ∉ settle l (operationId rq)) as Hs.
  { intros l' Hin. unfold settle in Hin. apply list_elem_of_filter in Hin as [? _]. done. }
  destruct (includes inFlight (operationId rq)) eqn:E.
  - apply includes_true in E. injection H as <- <-. split; [done|]. exists rq. split_and!; try done.
  - apply includes_false in E. injection H as <- <-. split; [by constructor|]. exists rq. split_and!; try done.
Qed.
End Properties.

(** ** Witnesses *)

Module SampleRun.
#[local] Existing Instance toy_sha256.
#[local] Existing Instance ProviderContract.Sample.keys.

Definition config : Config := mkConfig "agentpass.capability" "key-1" 1 1 (JNum (NInt 1)) None false.

Definition input : jsval :=
  JObj [("algorithm", JStr "ed25519"); ("bytes", JBytes ProviderContract.Sample.signed_text);
        ("key_id", JStr "key-1"); ("purpose", JStr "agentpass.capability"); ("version", JNum (NInt 1))].

Definition digest : string := request_digest_of config ProviderContract.Sample.signed_text.
Definition request : Request :=
  mkRequest ProviderContract.Sample.signed_text digest (OPERATION_PREFIX +:+ digest).

Definition signature : string := b64_bytes ProviderContract.Sample.signature_text.
Definition pending : jsval := JObj [("state", JStr "pending"); ("provider_started_at", JStr "t")].

(** A run in which everything succeeds. *)
Definition trace : list event :=
  [ev ReserveSignature (Ok (JObj [("state", JStr "pending"); ("claim_token", JStr "c")]));
   ev (StartSignature "c") (Ok pending); ev (FenceSignature "c") (Ok pending);
   ev ReadKey (Some ProviderContract.Sample.ed25519_key);
   ev (ProviderSign ProviderContract.Sample.signed_text) (Ok (JBytes signature));
   ev (CommitSignature "c" signature None) (Ok (JObj [("state", JStr "committed"); ("signature", JBytes signature)]));
   ev ReadKey (Some ProviderContract.Sample.ed25519_key)].

Lemma run : runs (executeSign config request) trace (Ok signature).
Proof. repeat (eexists _, _; split; [reflexivity|]). split; vm_compute; reflexivity. Qed.
End SampleRun.

Lemma trace_key k : ev ReadKey k ∈ SampleRun.trace -> k = Some ProviderContract.Sample.ed25519_key.
Proof.
  intros Hk. assert (Forall (fun x : event => match x with existT ReadKey r => r = Some ProviderContract.Sample.ed25519_key | _ => True end)
    SampleRun.trace) as Hf by (repeat constructor).
  rewrite Forall_forall in Hf. exact (Hf _ Hk).
Qed.

Lemma returned_signature_verified_witness :
  @key_source ProviderContract.Sample.keys SampleRun.config SampleRun.trace ProviderContract.Sample.ed25519_key /\
  @verify_with ProviderContract.Sample.keys ProviderContract.Sample.ed25519_key
    (bytes SampleRun.request) SampleRun.signature = Some true.
Proof.
  split; [left; do 3 right; left|].
  exact (proj2 (proj2 (@returned_signature_verified toy_sha256 ProviderContract.Sample.keys SampleRun.config SampleRun.request
    SampleRun.trace SampleRun.signature SampleRun.run)) _ trace_key).
Defined.

Lemma provider_signs_once_fenced_witness :
  signs SampleRun.trace = 1 /\
  exists t0 reservation token t1 x t2, one_sign SampleRun.trace (t0 ++ ev ReserveSignature (Ok reservation) :: t1) x t2 /\
    get reservation "claim_token" = JStr token /\ fenced token t1 /\ durable_outcome token t2 (Ok SampleRun.signature).
Proof.
  split; [reflexivity|].
  destruct (proj2 (@provider_signs_once_fenced toy_sha256 ProviderContract.Sample.keys SampleRun.config SampleRun.request
    SampleRun.trace (Ok SampleRun.signature) SampleRun.run) eq_refl) as (t0 & v & token & t1 & x & t2 & H1 & _ & H3 & H4 & H5).
  exists t0, v, token, t1, x, t2. split; [exact H1|]. split; [exact H3|]. split; [exact H4|exact H5].
Defined.

Definition bad_config : Config :=
  mkConfig "agentpass.capability" "key-1" 1 1 (JNum (NInt 1)) (Some ["publicKeyMetadata"; "signOnce"; "lookup"]) false.

Lemma provider_as_adapter_never_signs_witness :
  exists t, runs (@executeSign toy_sha256 ProviderContract.Sample.keys bad_config SampleRun.request) t
    (Throw (Durable OUTPUT)) /\ ev (MarkSignatureUncertain "c") tt ∈ t.
Proof.
  destruct (@provider_as_adapter_never_signs toy_sha256 ProviderContract.Sample.keys bad_config SampleRun.request
    ["publicKeyMetadata"; "signOnce"; "lookup"] eq_refl ltac:(vm_compute; discriminate) eq_refl) as [_ H].
  destruct (H "c" ProviderContract.Sample.ed25519_key ltac:(discriminate)) as (t & Hr & _ & Hm & _).
  exists t. split; [exact Hr|exact Hm].
Defined.

Lemma sign_joins_in_flight_witness :
  @sign toy_sha256 ProviderContract.Sample.keys SampleRun.config [operationId SampleRun.request] SampleRun.input
    = Ok ([operationId SampleRun.request], Joined (operationId SampleRun.request)) /\
  NoDup [operationId SampleRun.request].
Proof.
  assert (@sign toy_sha256 ProviderContract.Sample.keys SampleRun.config [operationId SampleRun.request] SampleRun.input
    = Ok ([operationId SampleRun.request], Joined (operationId SampleRun.request))) as E by (vm_compute; reflexivity).
  split; [exact E|].
  refine (proj1 (@sign_joins_in_flight toy_sha256 ProviderContract.Sample.keys SampleRun.config
    [operationId SampleRun.request] SampleRun.input _ _ _ E)).
  apply NoDup_singleton.
Defined.
