(* ===== verification/FileSystem.v ===== *)
(** * Files

    What the storage modules see of the file system: the fields of a [Stat]
    that they test, and files with the JSON value they hold ([None] when their
    text is not JSON).  An operation on storage is a result with the list of
    the writes it made, each of which is atomic; a crash keeps a prefix. *)

From stdpp Require Import base tactics numbers list.
From S2P Require Import Prelude JsValue.
Local Open Scope Z_scope.

Record Stat := mkStat {
  isFile : bool; isDirectory : bool; isSymbolicLink : bool; owned : bool; mode : Z; nlink : Z; byte_size : Z
}.

(** What [lstat] finds: nothing, an error other than [ENOENT], or an entry. *)
Inductive Entry (A : Type) := Missing | Denied | Present (a : A).
Arguments Missing {A}.
Arguments Denied {A}.
Arguments Present {A} a.

Record File := mkFile { stat : Stat; content : option jsval }.

(** [(stat.mode & 0o077) !== 0] *)
Definition permissive (s : Stat) : bool := negb (Z.eqb (Z.land (mode s) 63) 0).

(** What [writeFileSync] with mode [0o600] and [mkdirSync] with [0o700]
    create. *)
Definition private_file (bytes : Z) : Stat := mkStat true false false true 384 1 bytes.
Definition private_directory : Stat := mkStat false true false true 448 2 0.

(** ** Operations that write *)

(** A result and the writes made on the way to it. *)
Definition logged (E W A : Type) : Type := result E A * list W.

Section Logged.
Context {E W : Type}.

Definition lift {A} (r : result E A) : logged E W A := (r, []).

Definition obind {A B} (m : logged E W A) (f : A -> logged E W B) : logged E W B :=
  match m with
  | (Ok a, ws) => let '(r, ws') := f a in (r, (ws ++ ws')%list)
  | (Throw e, ws) => (Throw e, ws)
  end.

Lemma obind_ok {A B} (m : logged E W A) (f : A -> logged E W B) b ws :
  obind m f = (Ok b, ws) -> exists a ws1 ws2, m = (Ok a, ws1) /\ f a = (Ok b, ws2) /\ ws = (ws1 ++ ws2)%list.
Proof.
  destruct m as [[a|e] ws1]; [|done]. simpl. destruct (f a) as [r ws2] eqn:Ef. intros [= -> <-]. eauto 10.
Qed.

(** A run that may fail: it failed at once, or went on. *)
Lemma obind_inv {A B} (m : logged E W A) (f : A -> logged E W B) r ws :
  obind m f = (r, ws) ->
  (exists e, m = (Throw e, ws) /\ r = Throw e) \/
  exists a ws1 ws2, m = (Ok a, ws1) /\ f a = (r, ws2) /\ ws = (ws1 ++ ws2)%list.
Proof.
  destruct m as [[a|e] ws1]; simpl; [|intros [= <- <-]; eauto]. destruct (f a) as [r' ws2] eqn:Ef. intros [= -> <-]. eauto 10.
Qed.

Lemma lift_inv {A} (r r' : result E A) ws : lift r = (r', ws) -> r' = r /\ ws = [].
Proof. unfold lift. by intros [= -> <-]. Qed.

Lemma lift_ok {A} (r : result E A) a ws : lift r = (Ok a, ws) -> r = Ok a /\ ws = [].
Proof. unfold lift. by intros [= -> <-]. Qed.
End Logged.

Notation "'let*' x ':=' p 'in' k" := (obind p (fun x => k))
  (at level 200, x name, p at level 100, k at level 200, right associativity).
