(* ===== verification/SetupJournal.v ===== *)
(** * The setup journal (lib/setup-journal.mjs)

    The durable journal of the local setup protocol, its anchor, and the lock
    that serializes the processes using them.  The directory is a record of
    three files, each with what [lstat] says of it and the JSON value it holds
    ([None] when its text is not JSON).  An operation reads the directory and
    yields a result and the writes it performs, in order: a crash leaves a
    prefix of them applied.  Writes themselves are atomic ([atomicWrite] of
    lib/config.mjs renames a synced temporary file); its own checks repeat
    those the operation has made.  The size of a file's text, the liveness of
    processes and the clock are parameters. *)

From stdpp Require Import base tactics sets list strings.
From Stdlib Require Import Ascii.
From S2P Require Import Prelude JsValue Regex IsoTime Json Crypto FileSystem.
Local Open Scope string_scope.
Local Open Scope js_scope.

(** ** Constants *)

Definition SETUP_JOURNAL_VERSION : Z := 1.
Definition SETUP_JOURNAL_KIND := "agentpass.setup-journal".
Definition SETUP_JOURNAL_ANCHOR_KIND := "agentpass.setup-journal-anchor".

Definition SETUP_STATES :=
  ["not_started"; "app_verified"; "local_config_initialized"; "native_bridge_selected"; "service_registered";
   "bootstrap_started"; "approval_key_enrolled"; "service_keys_activated"; "device_enrolled"; "editor_connected";
   "test_commit_verified"; "complete"].

(** [STATE_INDEX.get(state)] *)
Fixpoint index_in (l : list string) (s : string) : option nat :=
  match l with [] => None | x :: l => if String.eqb x s then Some 0 else option_map S (index_in l s) end.

Definition state_index (v : jsval) : option nat :=
  match v with JStr s => index_in SETUP_STATES s | _ => None end.

Record Action := mkAction { id : string; target_state : string; command : string; description : string }.

Definition CONTINUE := "agentpass setup continue".

(** [NEXT_ACTIONS], by the index of the state. *)
Definition ACTIONS : list Action :=
  [mkAction "verify_app" "app_verified" CONTINUE "Verify the signed AgentPass application";
   mkAction "initialize_local_config" "local_config_initialized" CONTINUE "Initialize user-owned local configuration";
   mkAction "select_native_bridge" "native_bridge_selected" CONTINUE "Select and verify the native bridge";
   mkAction "register_service" "service_registered" CONTINUE "Register the background native service";
   mkAction "start_bootstrap" "bootstrap_started" CONTINUE "Start the native bootstrap ceremony";
   mkAction "enroll_approval_key" "approval_key_enrolled" CONTINUE "Enroll the approval key";
   mkAction "activate_service_keys" "service_keys_activated" CONTINUE "Activate the non-exportable service keys";
   mkAction "enroll_device" "device_enrolled"
     "agentpass setup continue --execute --browser --console-url HTTPS_CONSOLE --enrollment-url HTTPS_API/v1"
     "Open Console and enroll this device through the one-time local handoff";
   mkAction "connect_editor" "editor_connected" CONTINUE "Connect a coding agent integration";
   mkAction "verify_test_commit" "test_commit_verified" CONTINUE "Verify a policy-compliant test commit";
   mkAction "complete_setup" "complete" CONTINUE "Record setup completion"].

Definition NEXT_ACTIONS (state : nat) : list Action :=
  match ACTIONS !! state with Some a => [a] | None => [] end.

Definition JOURNAL_KEYS := ["kind"; "version"; "journal_id"; "revision"; "state"; "updated_at"; "history"; "integrity"].
Definition HISTORY_KEYS := ["revision"; "state"; "completed_at"; "details"].
Definition INTEGRITY_KEYS := ["algorithm"; "previous_hash"; "hash"].
Definition ANCHOR_KEYS := ["kind"; "version"; "journal_id"; "revision"; "tip_hash"; "previous_tip"; "tip"].

Definition UUID_PATTERN : re :=
  seqs [times hex_any 8; lit "-"; times hex_any 4; lit "-"; one (between "1" "5"); times hex_any 3; lit "-";
        one (in_chars "89abAB"); times hex_any 3; lit "-"; times hex_any 12].
Definition HASH_PATTERN : re := times hex_lower 64.
Definition SAFE_DETAIL_KEY : re := RSeq (one lower) (upto (fun c => lower c || digit c || Ascii.eqb c "_") 63).
Definition SENSITIVE_DETAIL_KEY : re :=
  somewhere (alts (map lit_i ["token"; "secret"; "password"; "private"; "credential"; "authorization"; "capability";
                              "signature"; "assertion"; "payload"; "key_material"])).
Definition MAX_DETAIL_FIELDS : nat := 32.
Definition MAX_DETAIL_LENGTH : nat := 512.
Definition MAX_FILE_BYTES : Z := 262144.

Inductive code :=
| INVALID_TIME | NOT_INITIALIZED | UNSAFE_STORAGE | JOURNAL_BUSY | TAMPERED_JOURNAL | TAMPERED_ANCHOR
| UNKNOWN_STATE | ROLLBACK_DETECTED | ROLLBACK_REJECTED | INVALID_TRANSITION | INVALID_DETAILS.

#[export] Instance code_eq_dec : EqDecision code.
Proof. solve_decision. Defined.

(** ** Validation *)

Section Validation.
Context `{HParse : DateParse} `{HSha : Sha256}.

(** [canonicalize] of the unsigned journal; the values it meets come from
    [JSON.parse] or were validated, so that its failing branch is not met. *)
Definition hashUnsignedJournal (journal : jsval) : string :=
  sha256 (canonicalJson
    (JObj (map (fun k => (k, get journal k)) ["kind"; "version"; "journal_id"; "revision"; "state"; "updated_at"; "history"]))).

Definition sameJson (left right : jsval) : bool := String.eqb (canonicalJson left) (canonicalJson right).

Definition assertObject (v : jsval) (c : code) : result code unit :=
  throw_if negb (is_object v) with c ;; Ok tt.

Definition assertExactKeys (v : jsval) (keys : list string) (c : code) : result code unit :=
  throw_if negb (forallb (includes keys) (own_keys v)) || negb (forallb (has_own v) keys) with c ;; Ok tt.

Definition assertUuid (v : jsval) (c : code) : result code unit :=
  throw_if negb (str_test UUID_PATTERN v) with c ;; Ok tt.

Definition assertHash (v : jsval) (c : code) : result code unit :=
  throw_if negb (str_test HASH_PATTERN v) with c ;; Ok tt.

(** The time value of an ISO text. *)
Definition iso_time (v : jsval) : option Z :=
  match v with JStr s => if re_test ISO s then date_parse s else None | _ => None end.

Definition assertIso (v : jsval) (c : code) : result code Z := of_option c (iso_time v).

Definition scalar (v : jsval) : bool :=
  match v with JNull | JBool _ => true | JStr s => Nat.leb (String.length s) MAX_DETAIL_LENGTH | _ => finite_number v end.

Definition validateDetails (details : jsval) (c : code) : result code unit :=
  _ ← assertObject details c;
  throw_if Nat.ltb MAX_DETAIL_FIELDS (length (own_keys details)) with c ;;
  throw_if negb (forallb (fun k => re_test SAFE_DETAIL_KEY k && negb (re_test SENSITIVE_DETAIL_KEY k) && scalar (get details k))
                   (own_keys details)) with c ;;
  Ok tt.

Definition validateEntry (entry : jsval) (index : nat) (c : code) : result code unit :=
  _ ← assertObject entry c;
  _ ← assertExactKeys entry HISTORY_KEYS c;
  throw_if negb (is_int (get entry "revision") (Z.of_nat index))
           || negb (bool_decide (SETUP_STATES !! index = as_str (get entry "state") /\ is_Some (SETUP_STATES !! index)))
    with ROLLBACK_DETECTED ;;
  _ ← assertIso (get entry "completed_at") c;
  validateDetails (get entry "details") c.

Fixpoint validate_entries (history : list jsval) (index : nat) (c : code) : result code unit :=
  match history with
  | [] => Ok tt
  | entry :: history => _ ← validateEntry entry index c; validate_entries history (S index) c
  end.

Definition validateHistory (v : jsval) (c : code) : result code (list jsval) :=
  match v with
  | JArr history =>
      throw_if Nat.eqb (length history) 0 || Nat.ltb (length SETUP_STATES) (length history) with c ;;
      _ ← validate_entries history 0 c; Ok history
  | _ => Throw c
  end.

(** [Number.isInteger(v) && 0 <= v && v < SETUP_STATES.length] *)
Definition revision_of (v : jsval) (c : code) : result code nat :=
  match js_integer v with
  | Some z => throw_if (z <? 0)%Z || (Z.of_nat (length SETUP_STATES) <=? z)%Z with c ;; Ok (Z.to_nat z)
  | None => Throw c
  end.

Definition validateIntegrity (v : jsval) (c : code) : result code unit :=
  _ ← assertObject v c;
  _ ← assertExactKeys v INTEGRITY_KEYS c;
  throw_if negb (is_str (get v "algorithm") "sha256") with c ;;
  _ ← (match get v "previous_hash" with JNull => Ok tt | h => assertHash h c end);
  assertHash (get v "hash") c.

Definition integrity_hash (v : jsval) : jsval := get (get v "integrity") "hash".

(** The last entry of the history agrees with the journal. *)
Definition tip_matches (v : jsval) (history : list jsval) (revision : nat) : bool :=
  let last := List.last history JUndefined in
  Nat.eqb (length history) (S revision) && bool_decide (get last "state" = get v "state")
  && bool_decide (get last "completed_at" = get v "updated_at").

Definition validateJournal (v : jsval) (c : code) : result code unit :=
  _ ← assertObject v c;
  _ ← assertExactKeys v JOURNAL_KEYS c;
  throw_if negb (is_str (get v "kind") SETUP_JOURNAL_KIND) || negb (is_int (get v "version") SETUP_JOURNAL_VERSION) with c ;;
  _ ← assertUuid (get v "journal_id") c;
  revision ← revision_of (get v "revision") c;
  throw_if negb (bool_decide (is_Some (state_index (get v "state")))) with UNKNOWN_STATE ;;
  _ ← assertIso (get v "updated_at") c;
  _ ← validateIntegrity (get v "integrity") c;
  throw_if negb (is_str (integrity_hash v) (hashUnsignedJournal v)) with TAMPERED_JOURNAL ;;
  history ← validateHistory (get v "history") c;
  throw_if negb (tip_matches v history revision) with ROLLBACK_DETECTED ;;
  Ok tt.

Definition int_of (v : jsval) : Z := default 0%Z (js_integer v).
Definition next_revision (v : jsval) : Z := (int_of (get v "revision") + 1)%Z.

Definition validateAnchor (v : jsval) : result code unit :=
  let c := TAMPERED_ANCHOR in
  let tip := get v "tip" in
  let previous := get v "previous_tip" in
  _ ← assertObject v c;
  _ ← assertExactKeys v ANCHOR_KEYS c;
  throw_if negb (is_str (get v "kind") SETUP_JOURNAL_ANCHOR_KIND) || negb (is_int (get v "version") SETUP_JOURNAL_VERSION) with c ;;
  _ ← assertUuid (get v "journal_id") c;
  _ ← revision_of (get v "revision") c;
  _ ← assertHash (get v "tip_hash") c;
  _ ← (match previous with JNull => Ok tt | p => validateJournal p c end);
  _ ← validateJournal tip c;
  throw_if negb (bool_decide (get tip "journal_id" = get v "journal_id")) || negb (bool_decide (get tip "revision" = get v "revision"))
           || negb (bool_decide (integrity_hash tip = get v "tip_hash")) with c ;;
  throw_if truthy previous
           && (negb (is_int (get tip "revision") (next_revision previous))
               || negb (bool_decide (get previous "journal_id" = get v "journal_id"))
               || negb (bool_decide (get (get tip "integrity") "previous_hash" = integrity_hash previous))) with c ;;
  throw_if negb (truthy previous) && negb (is_int (get tip "revision") 0) with c ;;
  Ok tt.

(** ** Building journals *)

Definition makeJournal (journal_id revision state updated_at : jsval) (history : list jsval) (previous_hash : jsval) : jsval :=
  let fields := [("kind", JStr SETUP_JOURNAL_KIND); ("version", JNum (NInt SETUP_JOURNAL_VERSION)); ("journal_id", journal_id);
                 ("revision", revision); ("state", state); ("updated_at", updated_at); ("history", JArr history)] in
  JObj (fields ++ [("integrity", JObj [("algorithm", JStr "sha256"); ("previous_hash", previous_hash);
                                       ("hash", JStr (hashUnsignedJournal (JObj fields)))])])%list.

Definition makeAnchor (tip previousTip : jsval) : jsval :=
  JObj [("kind", JStr SETUP_JOURNAL_ANCHOR_KIND); ("version", JNum (NInt SETUP_JOURNAL_VERSION));
        ("journal_id", get tip "journal_id"); ("revision", get tip "revision"); ("tip_hash", integrity_hash tip);
        ("previous_tip", previousTip); ("tip", tip)].

Definition history_entry (revision : Z) (state : string) (completed_at details : jsval) : jsval :=
  JObj [("revision", JNum (NInt revision)); ("state", JStr state); ("completed_at", completed_at); ("details", details)].

Definition makeInitialJournal (journalId at_ : jsval) : jsval :=
  makeJournal journalId (JNum (NInt 0)) (JStr "not_started") at_ [history_entry 0 "not_started" at_ (JObj [])] JNull.

Definition action_js (a : Action) : jsval :=
  JObj [("id", JStr (id a)); ("target_state", JStr (target_state a)); ("command", JStr (command a));
        ("description", JStr (description a))].

Definition nextActionsForState (state : jsval) : result code (list Action) :=
  i ← of_option UNKNOWN_STATE (state_index state); Ok (NEXT_ACTIONS i).

(** [statusFromJournal]: the status of a journal, whether it changed, and the
    transition made. *)
Record Status := mkStatus {
  journal_id : jsval; revision : jsval; state : jsval; updated_at : jsval; setup_complete : bool;
  next_actions : list Action; history_length : nat; changed : option bool; transition_made : option (jsval * jsval * jsval)
}.

Definition statusFromJournal (journal : jsval) (changed : option bool) (transition : option (jsval * jsval * jsval)) : Status :=
  mkStatus (get journal "journal_id") (get journal "revision") (get journal "state") (get journal "updated_at")
    (is_str (get journal "state") "complete")
    (match state_index (get journal "state") with Some i => NEXT_ACTIONS i | None => [] end)
    (match get journal "history" with JArr l => length l | _ => 0 end) changed transition.
End Validation.

(** ** Storage *)

Record Disk := mkDisk {
  directory : Entry Stat; journal_file : Entry File; anchor_file : Entry File; lock_file : Entry File
}.

(** The writes of the operations; the lock is created empty, then filled. *)
Inductive Write := MakeDirectory | OpenLock | FillLock (pid : Z) | RemoveLock | PutAnchor (v : jsval) | PutJournal (v : jsval).

(** The process that runs an operation: its identifier and the processes it
    can signal. *)
Record Process := mkProcess { pid : Z; alive : Z -> bool }.

#[local] Notation outcome := (logged code Write).

Section Storage.
Context `{HParse : DateParse} `{HSha : Sha256}.
(** The size of the text written for a value. *)
Variable text_size : jsval -> Z.

Definition lock_content (p : Z) : jsval := JObj [("pid", JNum (NInt p))].
Definition LOCK_BYTES : Z := 64.

Definition apply_write (w : Write) (d : Disk) : Disk :=
  let '(mkDisk dir j a l) := d in
  match w with
  | MakeDirectory => mkDisk (Present private_directory) j a l
  | OpenLock => mkDisk dir j a (Present (mkFile (private_file 0) None))
  | FillLock p => mkDisk dir j a (Present (mkFile (private_file LOCK_BYTES) (Some (lock_content p))))
  | RemoveLock => mkDisk dir j a Missing
  | PutAnchor v => mkDisk dir j (Present (mkFile (private_file (text_size v)) (Some v))) l
  | PutJournal v => mkDisk dir (Present (mkFile (private_file (text_size v)) (Some v))) a l
  end.

Definition apply (ws : list Write) (d : Disk) : Disk := fold_left (fun d w => apply_write w d) ws d.

Definition assertSecureDirectory (d : Entry Stat) : result code unit :=
  match d with
  | Missing => Throw NOT_INITIALIZED
  | Denied => Throw UNSAFE_STORAGE
  | Present s =>
      throw_if negb (isDirectory s) || isSymbolicLink s with UNSAFE_STORAGE ;;
      throw_if negb (owned s) with UNSAFE_STORAGE ;;
      throw_if permissive s with UNSAFE_STORAGE ;;
      Ok tt
  end.

(** The checked file, if there is one. *)
Definition assertSecureFile (f : Entry File) (c : code) : result code (option File) :=
  match f with
  | Missing => Ok None
  | Denied => Throw UNSAFE_STORAGE
  | Present f =>
      let s := stat f in
      throw_if negb (isFile s) || isSymbolicLink s with c ;;
      throw_if negb (owned s) with c ;;
      throw_if permissive s with c ;;
      throw_if negb (Z.eqb (nlink s) 1) with c ;;
      throw_if (MAX_FILE_BYTES <? byte_size s)%Z with c ;;
      Ok (Some f)
  end.

Definition readJsonFile (f : File) (c : code) : result code jsval := of_option c (content f).

(** [writeJson]: the write, then the check of the new file. *)
Definition write_checked (w : Write) (v : jsval) : outcome unit :=
  (if (MAX_FILE_BYTES <? text_size v)%Z then Throw UNSAFE_STORAGE else Ok tt, [w]).
Definition writeJournal (v : jsval) : outcome unit := write_checked (PutJournal v) v.
Definition writeAnchor (v : jsval) : outcome unit := write_checked (PutAnchor v) v.

Definition pidIsAlive (p : Process) (v : jsval) : bool :=
  match js_integer v with Some z => (0 <? z)%Z && alive p z | None => false end.

(** [acquireLock]; removing a stale lock is followed by the same attempt on
    the directory without it. *)
Definition acquireLock (p : Process) (d : Disk) : outcome unit :=
  let* _ := lift (assertSecureDirectory (directory d)) in
  match lock_file d with
  | Missing => (Ok tt, [OpenLock; FillLock (pid p)])
  | l =>
      let* lock := lift (f ← assertSecureFile l JOURNAL_BUSY;
                         match f with Some f => readJsonFile f JOURNAL_BUSY | None => Throw JOURNAL_BUSY end) in
      if negb (bool_decide (get lock "pid" = JNum (NInt (pid p)))) && negb (pidIsAlive p (get lock "pid"))
      then (Ok tt, [RemoveLock; OpenLock; FillLock (pid p)])
      else lift (Throw JOURNAL_BUSY)
  end.

(** [runLocked]: the operation, then the release, whatever its result. *)
Definition runLocked {A} (p : Process) (d : Disk) (operation : outcome A) : outcome A :=
  let* _ := acquireLock p d in
  (operation.1, operation.2 ++ [RemoveLock])%list.

(** ** Operations *)

(** What the two files say: the tip, and the file that has to be rewritten. *)
Definition settle (journal anchor : jsval) : outcome jsval :=
  let tip := get anchor "tip" in
  if negb (bool_decide (get journal "journal_id" = get anchor "journal_id")) then lift (Throw ROLLBACK_DETECTED)
  else if sameJson journal tip then lift (Ok journal)
  else if sameJson journal (get anchor "previous_tip") then let* _ := writeJournal tip in lift (Ok tip)
  else if is_int (get journal "revision") (next_revision tip)
          && bool_decide (get (get journal "integrity") "previous_hash" = get anchor "tip_hash")
  then let* _ := writeAnchor (makeAnchor journal tip) in lift (Ok journal)
  else if (int_of (get journal "revision") <? int_of (get tip "revision"))%Z
          || (next_revision tip <? int_of (get journal "revision"))%Z
  then lift (Throw ROLLBACK_DETECTED)
  else lift (Throw TAMPERED_JOURNAL).

(** [None] when nothing is stored and that is allowed. *)
Definition loadPair (d : Disk) (allowMissing : bool) : outcome (option jsval) :=
  let* _ := lift (assertSecureDirectory (directory d)) in
  let* journal := lift (assertSecureFile (journal_file d) TAMPERED_JOURNAL) in
  let* anchor := lift (assertSecureFile (anchor_file d) TAMPERED_ANCHOR) in
  match journal, anchor with
  | None, None => if allowMissing then lift (Ok None) else lift (Throw NOT_INITIALIZED)
  | _, None => lift (Throw TAMPERED_ANCHOR)
  | journal, Some anchor =>
      let* a := lift (v ← readJsonFile anchor TAMPERED_ANCHOR; _ ← validateAnchor v; Ok v) in
      match journal with
      | None =>
          if truthy (get a "previous_tip") && negb (is_int (get (get a "tip") "revision") (next_revision (get a "previous_tip")))
          then lift (Throw ROLLBACK_DETECTED)
          else let* _ := writeJournal (get a "tip") in lift (Ok (Some (get a "tip")))
      | Some journal =>
          let* j := lift (v ← readJsonFile journal TAMPERED_JOURNAL; _ ← validateJournal v TAMPERED_JOURNAL; Ok v) in
          let* v := settle j a in lift (Ok (Some v))
      end
  end.

Definition secureMkdir (d : Entry Stat) : outcome unit :=
  match d with
  | Present s =>
      if negb (isDirectory s) || isSymbolicLink s || negb (owned s) then lift (Throw UNSAFE_STORAGE)
      else (Ok tt, [MakeDirectory])
  | Missing => (Ok tt, [MakeDirectory])
  | Denied => lift (Throw UNSAFE_STORAGE)
  end.

(** [initialize] with the random identifier and the clock's value. *)
Definition initialize_locked (d : Disk) (uuid : string) (clock : jsval) : outcome Status :=
  let* existing := loadPair d true in
  match existing with
  | Some j => lift (Ok (statusFromJournal j (Some false) None))
  | None =>
      let* _ := lift (assertIso clock INVALID_TIME) in
      let journal := makeInitialJournal (JStr uuid) clock in
      let* _ := writeAnchor (makeAnchor journal JNull) in
      let* _ := writeJournal journal in
      lift (Ok (statusFromJournal journal (Some true) None))
  end.

Definition initialize (p : Process) (d : Disk) (uuid : string) (clock : jsval) : outcome Status :=
  let* _ := secureMkdir (directory d) in
  let d := apply [MakeDirectory] d in
  runLocked p d (initialize_locked d uuid clock).

Definition load_current (d : Disk) : outcome jsval :=
  let* j := loadPair d false in
  match j with Some j => lift (Ok j) | None => lift (Throw NOT_INITIALIZED) end.

Definition read (p : Process) (d : Disk) : outcome jsval := runLocked p d (load_current d).

Definition status (p : Process) (d : Disk) : outcome Status :=
  let* j := read p d in lift (Ok (statusFromJournal j None None)).

(** The next journal of a transition from [current], validated. *)
Definition next_journal (current : jsval) (targetState : string) (details at_ clock : jsval) : result code jsval :=
  current_index ← of_option UNKNOWN_STATE (state_index (get current "state"));
  target_index ← of_option UNKNOWN_STATE (state_index (JStr targetState));
  throw_if Nat.ltb target_index current_index with ROLLBACK_REJECTED ;;
  throw_if negb (Nat.eqb target_index (S current_index)) with INVALID_TRANSITION ;;
  let completedAt := if truthy at_ then at_ else clock in
  completed ← assertIso completedAt INVALID_TIME;
  throw_if match iso_time (get current "updated_at") with Some t => (completed <? t)%Z | None => false end with INVALID_TIME ;;
  let revision := next_revision current in
  let history := match get current "history" with JArr l => l | _ => [] end in
  let next := makeJournal (get current "journal_id") (JNum (NInt revision)) (JStr targetState) completedAt
                (history ++ [history_entry revision targetState completedAt details]) (integrity_hash current) in
  _ ← validateJournal next TAMPERED_JOURNAL;
  _ ← validateAnchor (makeAnchor next current);
  Ok next.

Definition transition_locked (d : Disk) (targetState : string) (details at_ clock : jsval) : outcome Status :=
  let* current := load_current d in
  if bool_decide (state_index (get current "state") = state_index (JStr targetState))
  then lift (Ok (statusFromJournal current (Some false) None))
  else
    let* next := lift (next_journal current targetState details at_ clock) in
    let* _ := writeAnchor (makeAnchor next current) in
    let* _ := writeJournal next in
    lift (Ok (statusFromJournal next (Some true)
                (Some (get current "state", JStr targetState, get next "revision")))).

Definition transition (p : Process) (d : Disk) (targetState details at_ clock : jsval) : outcome Status :=
  match targetState with
  | JStr target =>
      let* _ := lift (_ ← of_option UNKNOWN_STATE (state_index targetState); validateDetails details INVALID_DETAILS) in
      runLocked p d (transition_locked d target details at_ clock)
  | _ => lift (Throw UNKNOWN_STATE)
  end.

(** [continue]: a status, then a transition on the directory it leaves. *)
Definition continue_ (p : Process) (d : Disk) (details at_ clock : jsval) : outcome Status :=
  let '(r, ws) := status p d in
  let* current := (r, ws) in
  match next_actions current with
  | a :: _ => transition p (apply ws d) (JStr (target_state a)) details at_ clock
  | [] => lift (Ok (mkStatus (journal_id current) (revision current) (state current) (updated_at current)
                     (setup_complete current) (next_actions current) (history_length current) (Some false)
                     (transition_made current)))
  end.
End Storage.

(** ** Valid journals *)

Section Valid.
Context `{HParse : DateParse} `{HSha : Sha256}.

Definition valid_details (v : jsval) : Prop :=
  is_object v = true /\ length (own_keys v) <= MAX_DETAIL_FIELDS /\
  forall k, k ∈ own_keys v ->
    re_test SAFE_DETAIL_KEY k = true /\ re_test SENSITIVE_DETAIL_KEY k = false /\ scalar (get v k) = true.

(** Entry [i] records that the [i]-th state was reached. *)
Definition valid_entry (i : nat) (e : jsval) : Prop :=
  get e "revision" = JNum (NInt (Z.of_nat i)) /\
  (exists s, SETUP_STATES !! i = Some s /\ get e "state" = JStr s) /\
  is_Some (iso_time (get e "completed_at")) /\ valid_details (get e "details").

(** A journal at revision [n]: its history is the first [n + 1] states, its
    hash that of its contents. *)
Definition valid_journal (n : nat) (v : jsval) : Prop :=
  get v "kind" = JStr SETUP_JOURNAL_KIND /\ str_test UUID_PATTERN (get v "journal_id") = true /\
  get v "revision" = JNum (NInt (Z.of_nat n)) /\
  integrity_hash v = JStr (hashUnsignedJournal v) /\
  exists history last, get v "history" = JArr history /\ length history = S n /\
    (forall i e, history !! i = Some e -> valid_entry i e) /\
    history !! n = Some last /\ get v "state" = get last "state" /\ get v "updated_at" = get last "completed_at".

Lemma validateDetails_ok v c : validateDetails v c = Ok tt -> valid_details v.
Proof.
  unfold validateDetails, assertObject. intros H. inv_result. guards.
  match goal with H : Nat.ltb _ _ = false |- _ => apply Nat.ltb_ge in H end.
  match goal with H : forallb _ _ = true |- _ => rewrite forallb_elem_of in H; rename H into Hf end.
  split_and!; [done|done|]. intros k Hk. specialize (Hf k Hk). guards. done.
Qed.

Lemma validateEntry_ok e i c : validateEntry e i c = Ok tt -> valid_entry i e.
Proof.
  unfold validateEntry, assertIso. intros H. inv_result. guards.
  repeat match goal with H : _ /\ _ |- _ => destruct H end.
  repeat match goal with H : is_int _ _ = true |- _ => apply is_int_true in H end.
  match goal with H : is_Some (SETUP_STATES !! i) |- _ => destruct H as [s Hs] end.
  match goal with H : SETUP_STATES !! i = as_str _ |- _ => rewrite Hs in H end.
  unfold valid_entry. split_and!; [done| | |by eapply validateDetails_ok].
  - exists s. split; [done|]. by destruct (get e "state"); simplify_eq/=.
  - match goal with H : iso_time _ = Some _ |- _ => by rewrite H end.
Qed.

Lemma validate_entries_ok hs i c :
  validate_entries hs i c = Ok tt -> forall j e, hs !! j = Some e -> valid_entry (i + j) e.
Proof.
  revert i. induction hs as [|h hs IH]; intros i H j e Hj; [done|]. cbn [validate_entries] in H.
  apply bind_ok in H as ([] & Hh%validateEntry_ok & H). destruct j as [|j]; cbn in Hj.
  - injection Hj as <-. by rewrite Nat.add_0_r.
  - rewrite Nat.add_succ_r. by apply (IH (S i)).
Qed.

Lemma lookup_last (l : list jsval) n d : length l = S n -> l !! n = Some (List.last l d).
Proof.
  revert n. induction l as [|x l IH]; intros n H; [done|]. destruct l as [|y l]; injection H as <-; [done|].
  exact (IH _ eq_refl).
Qed.

Lemma revision_of_ok v c n : revision_of v c = Ok n -> v = JNum (NInt (Z.of_nat n)) /\ n < length SETUP_STATES.
Proof.
  unfold revision_of. destruct v as [ | | |[z|?| |?]| | | | | | ]; try done. cbn [js_integer]. intros H. inv_result. guards.
  split; [by rewrite Z2Nat.id by lia|lia].
Qed.

Lemma validateJournal_ok v c : validateJournal v c = Ok tt -> exists n, valid_journal n v.
Proof.
  unfold validateJournal, assertUuid. intros H. inv_result. guards.
  match goal with H : revision_of _ _ = Ok ?r |- _ => apply revision_of_ok in H as [Hr _]; exists r; rename r into n end.
  match goal with H : tip_matches _ ?h _ = true |- _ => unfold tip_matches in H; guards; rename h into hs end.
  repeat match goal with H : is_str _ _ = true |- _ => apply is_str_true in H end.
  match goal with H : Nat.eqb _ _ = true |- _ => apply Nat.eqb_eq in H; rename H into Hl end.
  match goal with H : validateHistory _ _ = Ok _ |- _ => rename H into Hh end.
  unfold validateHistory in Hh. destruct (get v "history") as [ | | | | |l| | | | ] eqn:Eh; try done. inv_result.
  unfold valid_journal. split_and!; [done..|]. exists hs, (List.last hs JUndefined). split_and!; try done.
  - intros i e Hi. match goal with H : validate_entries _ _ _ = Ok ?u |- _ =>
      destruct u; exact (validate_entries_ok _ _ _ H i e Hi) end.
  - by apply lookup_last.
Qed.

(** Validation accepts the same values whatever error it is asked to raise. *)
Lemma validateEntry_code e i c c' u : validateEntry e i c = Ok u -> validateEntry e i c' = Ok u.
Proof. unfold validateEntry, validateDetails, assertObject, assertExactKeys, assertIso. intros H. same_ok. Qed.

Lemma validate_entries_code hs i c c' u : validate_entries hs i c = Ok u -> validate_entries hs i c' = Ok u.
Proof.
  revert i u. induction hs as [|h hs IH]; intros i u H; cbn [validate_entries] in *; [done|].
  eapply bind_same; [exact H|intros a; apply validateEntry_code|intros a b Hb; by apply IH].
Qed.

Lemma validateHistory_code v c c' hs : validateHistory v c = Ok hs -> validateHistory v c' = Ok hs.
Proof.
  unfold validateHistory. destruct v; try done. intros H. destruct (_ || _); [done|].
  eapply bind_same; [exact H| |done]. intros a. apply validate_entries_code.
Qed.

Lemma validateJournal_code v c c' u : validateJournal v c = Ok u -> validateJournal v c' = Ok u.
Proof.
  unfold validateJournal, assertObject, assertExactKeys, assertUuid, assertIso. intros H. same_ok.
  - unfold revision_of in *. same_ok.
  - unfold validateIntegrity, assertObject, assertExactKeys, assertHash in *. same_ok.
  - by eapply validateHistory_code.
Qed.
End Valid.

(** ** Recovery *)

Section Recovery.
Context `{HParse : DateParse} `{HSha : Sha256}.
Variable text_size : jsval -> Z.
#[local] Notation load_now := (load_current text_size).
#[local] Notation settle_now := (settle text_size).
#[local] Notation apply := (apply text_size).
#[local] Notation apply_write := (apply_write text_size).

(** Two directories that differ in the lock only. *)
Definition same_files (d d' : Disk) : Prop :=
  directory d = directory d' /\ journal_file d = journal_file d' /\ anchor_file d = anchor_file d'.

#[export] Instance same_files_equivalence : Equivalence same_files.
Proof. unfold same_files. split; [intros d; by split_and!|intros ?? (-> & -> & ->); done|intros ??? (-> & -> & ->); done]. Qed.

#[export] Instance apply_write_proper w : Proper (same_files ==> same_files) (apply_write w).
Proof.
  intros [dir j a l] [dir' j' a' l'] H. unfold same_files in *. simpl in H. destruct H as (-> & -> & ->).
  destruct w; simpl; done.
Qed.

#[export] Instance apply_proper ws : Proper (same_files ==> same_files) (apply ws).
Proof.
  induction ws as [|w ws IH]; intros d d' H; [done|]. change (same_files (apply ws (apply_write w d)) (apply ws (apply_write w d'))).
  apply IH. by rewrite H.
Qed.

#[export] Instance load_current_proper : Proper (same_files ==> eq) load_now.
Proof. intros d d' (H1 & H2 & H3). unfold load_current, loadPair. by rewrite H1, H2, H3. Qed.

Lemma apply_app ws ws' d : apply (ws ++ ws')%list d = apply ws' (apply ws d).
Proof. apply fold_left_app. Qed.

(** The anchor [a] or the journal [j] is stored, readable and valid. *)
Definition stored_anchor (d : Disk) (a : jsval) : Prop :=
  assertSecureDirectory (directory d) = Ok tt /\
  exists f, assertSecureFile (anchor_file d) TAMPERED_ANCHOR = Ok (Some f) /\ content f = Some a /\ validateAnchor a = Ok tt.

Definition stored_journal (d : Disk) (j : jsval) : Prop :=
  exists f, assertSecureFile (journal_file d) TAMPERED_JOURNAL = Ok (Some f) /\ content f = Some j /\
    validateJournal j TAMPERED_JOURNAL = Ok tt.

(** Nothing is left to recover: the journal is the tip of its anchor. *)
Definition settled (d : Disk) (v : jsval) : Prop :=
  exists a, stored_anchor d a /\ stored_journal d v /\ get v "journal_id" = get a "journal_id" /\
    sameJson v (get a "tip") = true.

Lemma write_ok w v u ws :
  write_checked text_size w v = (Ok u, ws) -> ws = [w] /\ (text_size v <= MAX_FILE_BYTES)%Z.
Proof. unfold write_checked. destruct (_ <? _)%Z eqn:E; intros [= <- <-]. guards. done. Qed.

Lemma sameJson_refl v : sameJson v v = true.
Proof. apply String.eqb_refl. Qed.

Lemma validateAnchor_ok a :
  validateAnchor a = Ok tt ->
  validateJournal (get a "tip") TAMPERED_ANCHOR = Ok tt /\ get (get a "tip") "journal_id" = get a "journal_id" /\
  integrity_hash (get a "tip") = get a "tip_hash".
Proof.
  unfold validateAnchor. intros H. inv_result. guards.
  match goal with H : validateJournal (get a "tip") _ = Ok ?u |- _ => destruct u end. done.
Qed.

Lemma settle_cases j a v ws :
  settle_now j a = (Ok v, ws) ->
  get j "journal_id" = get a "journal_id" /\
  ((v = j /\ ws = [] /\ sameJson j (get a "tip") = true) \/
   (v = get a "tip" /\ ws = [PutJournal v] /\ (text_size v <= MAX_FILE_BYTES)%Z) \/
   (v = j /\ ws = [PutAnchor (makeAnchor j (get a "tip"))] /\ (text_size (makeAnchor j (get a "tip")) <= MAX_FILE_BYTES)%Z /\
    get j "revision" = JNum (NInt (next_revision (get a "tip"))) /\
    get (get j "integrity") "previous_hash" = get a "tip_hash")).
Proof.
  unfold settle. intros H. destruct (negb _) eqn:Eid; [done|]. guards. split; [done|].
  destruct (sameJson j (get a "tip")) eqn:Et; [left; by apply lift_ok in H as [[= <-] ->]|right].
  destruct (sameJson j (get a "previous_tip")).
  { left. apply obind_ok in H as (u & ws1 & ws2 & [-> Hs]%write_ok & [[= <-] ->]%lift_ok & ->). done. }
  destruct (is_int _ _ && _) eqn:Ef.
  { right. guards. apply obind_ok in H as (u & ws1 & ws2 & [-> Hs]%write_ok & [[= <-] ->]%lift_ok & ->).
    split_and!; try done. by apply is_int_true. }
  by destruct (_ || _).
Qed.

Lemma load_cases d v ws :
  load_now d = (Ok v, ws) ->
  exists a, stored_anchor d a /\
    ((v = get a "tip" /\ ws = [PutJournal v] /\ (text_size v <= MAX_FILE_BYTES)%Z) \/
     exists j, stored_journal d j /\ settle_now j a = (Ok v, ws)).
Proof.
  unfold load_current, loadPair. intros (o & ws1 & ws2 & H & H2 & ->)%obind_ok.
  destruct o as [v0|]; [|done]. apply lift_ok in H2 as [[= <-] ->]. rewrite app_nil_r.
  apply obind_ok in H as ([] & w1 & ws' & [Hd ->]%lift_ok & H & ->).
  apply obind_ok in H as (fj & w2 & w3 & [Hj ->]%lift_ok & H & ->).
  apply obind_ok in H as (fa & w4 & w5 & [Ha ->]%lift_ok & H & ->). simpl.
  destruct fa as [fa|]; [|by destruct fj].
  assert (forall a, (v0 ← readJsonFile fa TAMPERED_ANCHOR; _ ← validateAnchor v0; Ok v0) = Ok a -> stored_anchor d a) as Hst.
  { intros a (x & Hx%of_option_ok & ([] & Hv & [= <-])%bind_ok)%bind_ok. split; [done|]. eauto. }
  destruct fj as [fj|]; apply obind_ok in H as (a & w6 & w7 & [Hra ->]%lift_ok & H & ->); simpl; exists a; (split; [by apply Hst|]).
  - right. apply obind_ok in H as (j & w8 & w9 & [Hrj ->]%lift_ok & H & ->).
    apply bind_ok in Hrj as (x & Hx%of_option_ok & ([] & Hv & [= <-])%bind_ok).
    apply obind_ok in H as (v & w10 & w11 & H & [[= <-] ->]%lift_ok & ->). rewrite app_nil_r. exists x. split; [|done].
    unfold stored_journal. eauto.
  - left. destruct (_ && _); [done|]. apply obind_ok in H as (u & w10 & w11 & [-> Hs]%write_ok & [[= <-] ->]%lift_ok & ->). done.
Qed.

Lemma valid_object v c : validateJournal v c = Ok tt -> is_object v = true /\ v <> JNull /\ truthy v = true.
Proof. intros H. destruct v; try discriminate H; split_and!; done. Qed.

Lemma valid_hash v c : validateJournal v c = Ok tt -> assertHash (integrity_hash v) TAMPERED_ANCHOR = Ok tt.
Proof.
  unfold validateJournal, validateIntegrity. intros H. inv_result.
  match goal with H : assertHash (get (get v "integrity") "hash") _ = Ok _ |- _ => revert H end.
  unfold assertHash, integrity_hash. destruct (str_test HASH_PATTERN _); intros; [done|discriminate].
Qed.

Lemma valid_id v c : validateJournal v c = Ok tt -> assertUuid (get v "journal_id") TAMPERED_ANCHOR = Ok tt.
Proof.
  unfold validateJournal. intros H. inv_result.
  match goal with H : assertUuid _ _ = Ok _ |- _ => revert H end.
  unfold assertUuid. destruct (str_test UUID_PATTERN _); intros; [done|discriminate].
Qed.

Lemma valid_revision v c : validateJournal v c = Ok tt -> exists n, revision_of (get v "revision") TAMPERED_ANCHOR = Ok n.
Proof.
  unfold validateJournal. intros H. inv_result.
  match goal with H : revision_of _ _ = Ok ?n |- _ => exists n; unfold revision_of in *; same_ok end.
Qed.

(** A journal that continues a valid tip has a valid anchor. *)
Lemma reanchor_valid j tip :
  validateJournal j TAMPERED_JOURNAL = Ok tt -> validateJournal tip TAMPERED_ANCHOR = Ok tt ->
  get j "journal_id" = get tip "journal_id" -> get j "revision" = JNum (NInt (next_revision tip)) ->
  get (get j "integrity") "previous_hash" = integrity_hash tip ->
  validateAnchor (makeAnchor j tip) = Ok tt.
Proof.
  intros Hj Ht Hid Hrev Hprev. unfold validateAnchor.
  change (get (makeAnchor j tip) "kind") with (JStr SETUP_JOURNAL_ANCHOR_KIND).
  change (get (makeAnchor j tip) "version") with (JNum (NInt SETUP_JOURNAL_VERSION)).
  change (get (makeAnchor j tip) "journal_id") with (get j "journal_id").
  change (get (makeAnchor j tip) "revision") with (get j "revision").
  change (get (makeAnchor j tip) "tip_hash") with (integrity_hash j).
  change (get (makeAnchor j tip) "previous_tip") with tip. change (get (makeAnchor j tip) "tip") with j.
  change (assertObject (makeAnchor j tip) TAMPERED_ANCHOR) with (Ok (E := code) tt).
  change (assertExactKeys (makeAnchor j tip) ANCHOR_KEYS TAMPERED_ANCHOR) with (Ok (E := code) tt).
  change (is_str (JStr ?s) ?s) with (String.eqb s s).
  destruct (valid_revision _ _ Hj) as [n Hn]. destruct (valid_object _ _ Ht) as (_ & Hnull & Htruthy).
  rewrite String.eqb_refl. cbn [negb orb is_int]. rewrite Z.eqb_refl. cbn [negb mbind result_bind].
  rewrite (valid_id _ _ Hj). cbn [mbind result_bind]. rewrite Hn. cbn [mbind result_bind]. rewrite (valid_hash _ _ Hj).
  cbn [mbind result_bind]. assert (match tip with JNull => Ok tt | p => validateJournal p TAMPERED_ANCHOR end = Ok tt) as ->.
  { destruct tip; done. }
  cbn [mbind result_bind]. rewrite (validateJournal_code _ _ TAMPERED_ANCHOR _ Hj). cbn [mbind result_bind].
  rewrite !bool_decide_eq_true_2 by done. rewrite Htruthy. cbn [negb orb andb].
  rewrite Hrev. cbn [is_int]. by rewrite Z.eqb_refl.
Qed.

Lemma private_file_secure v c :
  (text_size v <= MAX_FILE_BYTES)%Z ->
  assertSecureFile (Present (mkFile (private_file (text_size v)) (Some v))) c
    = Ok (Some (mkFile (private_file (text_size v)) (Some v))).
Proof. intros H. simpl. destruct (_ <? _)%Z eqn:E; [guards; lia|done]. Qed.

Lemma put_journal_stored d v :
  (text_size v <= MAX_FILE_BYTES)%Z -> validateJournal v TAMPERED_JOURNAL = Ok tt ->
  stored_journal (apply [PutJournal v] d) v /\ forall a, stored_anchor d a -> stored_anchor (apply [PutJournal v] d) a.
Proof.
  intros Hs Hv. destruct d as [dir j a l]. split; [|done]. eexists. split; [by apply private_file_secure|done].
Qed.

Lemma put_anchor_stored d a :
  (text_size a <= MAX_FILE_BYTES)%Z -> validateAnchor a = Ok tt -> assertSecureDirectory (directory d) = Ok tt ->
  stored_anchor (apply [PutAnchor a] d) a /\ forall v, stored_journal d v -> stored_journal (apply [PutAnchor a] d) v.
Proof.
  intros Hs Hv Hd. destruct d as [dir j an l]. split; [|done]. split; [done|]. eexists. split; [by apply private_file_secure|done].
Qed.

(** What a stored pair loads. *)
Lemma load_stored d a j :
  stored_anchor d a -> stored_journal d j -> load_now d = settle_now j a.
Proof.
  intros (Hd & fa & Ha & Hca & Hva) (fj & Hj & Hcj & Hvj). unfold load_current, loadPair, lift.
  rewrite Hd, Hj, Ha. simpl. unfold readJsonFile. rewrite Hca, Hcj. simpl. rewrite Hva, Hvj. simpl.
  destruct (settle_now j a) as [[v|e] ws]; simpl; by rewrite ?app_nil_r.
Qed.

Lemma settled_load d v : settled d v -> load_now d = (Ok v, []).
Proof.
  intros (a & Ha & Hj & Hid & Hsame). rewrite (load_stored _ _ _ Ha Hj). unfold settle.
  rewrite bool_decide_eq_true_2 by done. by rewrite Hsame.
Qed.

Lemma stored_valid d j : stored_journal d j -> validateJournal j TAMPERED_JOURNAL = Ok tt.
Proof. by intros (f & _ & _ & ?). Qed.

(** Loading leaves nothing to recover, and what it returns is valid. *)
Lemma load_settles d v ws :
  load_now d = (Ok v, ws) -> settled (apply ws d) v /\ validateJournal v TAMPERED_JOURNAL = Ok tt.
Proof.
  intros (a & Ha & [(-> & -> & Hs)|(j & Hj & H)])%load_cases; pose proof Ha as (Hd & fa & _ & _ & Hva);
    destruct (validateAnchor_ok _ Hva) as (Htip & Hid & Hhash).
  - apply validateJournal_code with (c' := TAMPERED_JOURNAL) in Htip. split; [|done]. exists a.
    destruct (put_journal_stored d _ Hs Htip) as [H1 H2]. split_and!; auto using sameJson_refl.
  - apply settle_cases in H as [Hid' [(-> & -> & Hsame)|[(-> & -> & Hs)|(-> & -> & Hs & Hrev & Hprev)]]].
    + split; [|by eapply stored_valid]. exists a. done.
    + apply validateJournal_code with (c' := TAMPERED_JOURNAL) in Htip. split; [|done]. exists a.
      destruct (put_journal_stored d _ Hs Htip) as [H1 H2]. split_and!; auto using sameJson_refl.
    + split; [|by eapply stored_valid]. exists (makeAnchor j (get a "tip")).
      destruct (put_anchor_stored d _ Hs) as [H1 H2]; [|done|].
      { apply reanchor_valid; [by eapply stored_valid|done|congruence|done|congruence]. }
      split_and!; [done|by apply H2|done|apply sameJson_refl].
Qed.

(** Recovery interrupted anywhere recovers to the same journal. *)
Lemma load_prefix d v ws1 ws2 :
  load_now d = (Ok v, (ws1 ++ ws2)%list) -> exists ws, load_now (apply ws1 d) = (Ok v, ws).
Proof.
  intros H. destruct (load_settles _ _ _ H) as [Hs _].
  assert (length (ws1 ++ ws2) <= 1) as Hl.
  { apply load_cases in H as (a & _ & [(_ & -> & _)|(j & _ & H)]); [done|].
    by apply settle_cases in H as [_ [(_ & -> & _)|[(_ & -> & _)|(_ & -> & _)]]]; simpl; lia. }
  rewrite length_app in Hl. destruct ws1 as [|w ws1]; [by eexists|]. destruct ws1; [|simpl in Hl; lia].
  destruct ws2; [|simpl in Hl; lia]. rewrite app_nil_r in Hs. exists []. by apply settled_load.
Qed.

(** ** Transitions *)

(** [next] continues [cur] by one state. *)
Definition continues (cur next : jsval) (target : string) (details : jsval) : Prop :=
  get next "journal_id" = get cur "journal_id" /\ get next "revision" = JNum (NInt (next_revision cur)) /\
  get next "state" = JStr target /\ get (get next "integrity") "previous_hash" = integrity_hash cur /\
  (exists i, state_index (get cur "state") = Some i /\ state_index (JStr target) = Some (S i)) /\
  (exists history at_, get next "history" =
     JArr (history ++ [history_entry (next_revision cur) target at_ details])%list /\
     (forall l, get cur "history" = JArr l -> history = l)) /\
  (forall t t', iso_time (get cur "updated_at") = Some t -> iso_time (get next "updated_at") = Some t' -> (t <= t')%Z).

Lemma next_journal_ok cur target details at_ clock next :
  next_journal cur target details at_ clock = Ok next ->
  continues cur next target details /\ validateJournal next TAMPERED_JOURNAL = Ok tt /\
  validateAnchor (makeAnchor next cur) = Ok tt.
Proof.
  unfold next_journal. intros H.
  apply bind_ok in H as (i & Hi%of_option_ok & H). apply bind_ok in H as (t & Ht%of_option_ok & H).
  destruct (Nat.ltb t i); [done|]. destruct (Nat.eqb t (S i)) eqn:Est; [|done]. apply Nat.eqb_eq in Est as ->. cbn [negb] in H.
  apply bind_ok in H as (z & Hz%of_option_ok & H). cbv zeta in H.
  destruct (match iso_time (get cur "updated_at") with Some _ => _ | None => _ end) eqn:Etime; [done|].
  apply bind_ok in H as ([] & Hv & H). apply bind_ok in H as ([] & Ha & [= <-]).
  split; [|done]. unfold continues. split_and!; try done.
  - by exists i.
  - eexists _, _. split; [reflexivity|]. intros l Hl. by rewrite Hl.
  - intros t t' Ht1 Ht2. rewrite Ht1 in Etime.
    match type of Ht2 with iso_time ?v = _ => change v with (if truthy at_ then at_ else clock) in Ht2 end.
    rewrite Ht2 in Hz. injection Hz as ->. by guards.
Qed.

(** Between the two writes of a transition, one of its ends is loaded. *)
Lemma half_written d cur next :
  settled d cur -> validateAnchor (makeAnchor next cur) = Ok tt -> get next "journal_id" = get cur "journal_id" ->
  (text_size (makeAnchor next cur) <= MAX_FILE_BYTES)%Z -> (text_size next <= MAX_FILE_BYTES)%Z ->
  exists v ws, load_now (apply [PutAnchor (makeAnchor next cur)] d) = (Ok v, ws) /\ (v = cur \/ v = next).
Proof.
  intros (a & (Hd & Ha) & Hj & Hid & Hsame) Hv Hn Hs Hs'. destruct (put_anchor_stored d _ Hs Hv Hd) as [H1 H2].
  rewrite (load_stored _ _ _ H1 (H2 _ Hj)). unfold settle.
  change (get (makeAnchor next cur) "journal_id") with (get next "journal_id").
  change (get (makeAnchor next cur) "tip") with next. change (get (makeAnchor next cur) "previous_tip") with cur.
  rewrite bool_decide_eq_true_2 by done. cbn [negb]. destruct (sameJson cur next); [eexists _, _; split; [done|by left]|].
  rewrite sameJson_refl. unfold writeJournal, write_checked. destruct (_ <? _)%Z eqn:E; [guards; lia|].
  eexists _, _. split; [done|by right].
Qed.

Lemma fully_written d cur next :
  settled d cur -> validateAnchor (makeAnchor next cur) = Ok tt -> validateJournal next TAMPERED_JOURNAL = Ok tt ->
  (text_size (makeAnchor next cur) <= MAX_FILE_BYTES)%Z -> (text_size next <= MAX_FILE_BYTES)%Z ->
  load_now (apply [PutAnchor (makeAnchor next cur); PutJournal next] d) = (Ok next, []).
Proof.
  intros (a & (Hd & Ha) & Hj & Hid & Hsame) Hv Hn Hs Hs'. apply settled_load.
  change (apply [PutAnchor (makeAnchor next cur); PutJournal next] d)
    with (apply [PutJournal next] (apply [PutAnchor (makeAnchor next cur)] d)).
  destruct (put_anchor_stored d _ Hs Hv Hd) as [H1 _].
  destruct (put_journal_stored (apply [PutAnchor (makeAnchor next cur)] d) _ Hs' Hn) as [H2 H3].
  exists (makeAnchor next cur). split_and!; [by apply H3|done|done|apply sameJson_refl].
Qed.

(** The writes of a successful transition. *)
Lemma transition_locked_ok d target details at_ clock st ws :
  transition_locked text_size d target details at_ clock = (Ok st, ws) ->
  exists cur ws0, load_now d = (Ok cur, ws0) /\
    ((changed st = Some false /\ ws = ws0 /\ state_index (get cur "state") = state_index (JStr target)) \/
     exists next, next_journal cur target details at_ clock = Ok next /\ changed st = Some true /\
       state st = JStr target /\ ws = (ws0 ++ [PutAnchor (makeAnchor next cur); PutJournal next])%list /\
       (text_size (makeAnchor next cur) <= MAX_FILE_BYTES)%Z /\ (text_size next <= MAX_FILE_BYTES)%Z).
Proof.
  unfold transition_locked. intros (cur & ws0 & ws' & Hl & H & ->)%obind_ok. exists cur, ws0. split; [done|].
  destruct (bool_decide _) eqn:Es.
  { guards. apply lift_ok in H as [[= <-] ->]. left. by rewrite app_nil_r. }
  right. apply obind_ok in H as (next & w1 & w2 & [Hn ->]%lift_ok & H & ->).
  apply obind_ok in H as (u & w3 & w4 & [-> Hs]%write_ok & H & ->).
  apply obind_ok in H as (u' & w5 & w6 & [-> Hs']%write_ok & [[= <-] ->]%lift_ok & ->).
  exists next. split_and!; try done. by apply next_journal_ok in Hn as [(_ & _ & ? & _) _].
Qed.

Lemma transition_prefix d target details at_ clock st ws1 ws2 :
  transition_locked text_size d target details at_ clock = (Ok st, (ws1 ++ ws2)%list) ->
  exists cur ws0 v ws, load_now d = (Ok cur, ws0) /\ load_now (apply ws1 d) = (Ok v, ws) /\
    (v = cur \/ next_journal cur target details at_ clock = Ok v) /\
    (ws2 = [] -> changed st = Some true -> next_journal cur target details at_ clock = Ok v).
Proof.
  intros (cur & ws0 & Hl & [(Hc & <- & _)|(next & Hn & Hc & Hst & Hw & Hs & Hs')])%transition_locked_ok.
  { destruct (load_prefix _ _ _ _ Hl) as [ws Hv]. exists cur. do 3 eexists. split; [done|]. split; [done|].
    split; [by left|]. intros _ ?. congruence. }
  destruct (load_settles _ _ _ Hl) as [Hset _]. pose proof (next_journal_ok _ _ _ _ _ _ Hn) as [(Hid & _) [Hv Ha]].
  apply app_eq_inv in Hw as [(k & -> & Hk)|(k & -> & Hk)].
  - rewrite apply_app. destruct k as [|w1 k]; [|injection Hk as <- Hk; destruct k as [|w2 k]; [|injection Hk as <- Hk; destruct k; [|done]]].
    + exists cur. do 3 eexists. split; [done|]. split; [by apply settled_load|]. split; [by left|]. by intros ->.
    + destruct (half_written _ _ _ Hset Ha Hid Hs Hs') as (v & ws & Hload & Hcases). exists cur. do 3 eexists.
      split; [done|]. split; [done|]. split; [destruct Hcases as [->| ->]; auto|]. by intros ->.
    + exists cur. do 3 eexists. split; [done|]. split; [by apply fully_written|]. split; [by right|done].
  - destruct (load_prefix _ _ _ _ Hl) as [ws Hp]. exists cur. do 3 eexists. split; [done|]. split; [done|].
    split; [by left|]. intros ->. by destruct k.
Qed.

(** ** The lock *)

Definition locked_by (p : Z) : Entry File := Present (mkFile (private_file LOCK_BYTES) (Some (lock_content p))).

(** Nobody holds the lock that [q] finds. *)
Definition lock_free (q : Process) (d : Disk) : Prop :=
  lock_file d = Missing \/ exists p, lock_file d = locked_by p /\ p <> pid q /\ alive q p = false.

Lemma acquire_free q d :
  assertSecureDirectory (directory d) = Ok tt -> lock_free q d -> exists ws, acquireLock q d = (Ok tt, ws).
Proof.
  intros Hd [Hl|(p & Hl & Hp & Ha)]; unfold acquireLock, lift; rewrite Hd, Hl; simpl; [by eexists|].
  unfold pidIsAlive, get. simpl. rewrite bool_decide_eq_false_2 by (intros [= ?]; done). simpl.
  rewrite Ha, andb_false_r. by eexists.
Qed.

Lemma runLocked_free {A} q d (m : outcome A) :
  assertSecureDirectory (directory d) = Ok tt -> lock_free q d -> exists ws, runLocked q d m = (m.1, ws).
Proof. intros Hd Hf. destruct (acquire_free _ _ Hd Hf) as [ws Hw]. unfold runLocked. rewrite Hw. by eexists. Qed.

Definition keeps_lock (w : Write) : bool := match w with PutAnchor _ | PutJournal _ => true | _ => false end.

Lemma apply_keeps_lock ws d :
  forallb keeps_lock ws = true -> lock_file (apply ws d) = lock_file d /\ directory (apply ws d) = directory d.
Proof.
  revert d. induction ws as [|w ws IH]; intros d H; [done|]. cbn [forallb] in H. guards.
  change (apply (w :: ws) d) with (apply ws (apply_write w d)). destruct (IH (apply_write w d)) as [-> ->]; [done|].
  destruct d, w; done.
Qed.

Lemma load_keeps_lock d v ws : load_now d = (Ok v, ws) -> forallb keeps_lock ws = true.
Proof.
  intros (a & _ & [(_ & -> & _)|(j & _ & H)])%load_cases; [done|].
  by apply settle_cases in H as [_ [(_ & -> & _)|[(_ & -> & _)|(_ & -> & _)]]].
Qed.

Lemma load_directory d v ws : load_now d = (Ok v, ws) -> assertSecureDirectory (directory d) = Ok tt.
Proof. by intros (a & (Hd & _) & _)%load_cases. Qed.

Lemma transition_keeps_lock d target details at_ clock st ws :
  transition_locked text_size d target details at_ clock = (Ok st, ws) -> forallb keeps_lock ws = true.
Proof.
  intros (cur & ws0 & Hl%load_keeps_lock & [[_ [-> _]]|(next & _ & _ & _ & -> & _)])%transition_locked_ok; [done|].
  by rewrite forallb_app, Hl.
Qed.

(** The files are those of [d], the lock free for [q]: [q] reads what is
    loaded from [d]. *)
Lemma read_free q d d' v ws :
  same_files d d' -> lock_free q d' -> load_now d = (Ok v, ws) -> exists ws', read text_size q d' = (Ok v, ws').
Proof.
  intros Hs Hf Hl. unfold read. destruct (runLocked_free q d' (load_now d')) as [ws' Hw].
  - destruct Hs as (<- & _). by eapply load_directory.
  - done.
  - rewrite Hw. exists ws'. by rewrite <- Hs, Hl.
Qed.

Lemma lock_writes_same_files p d : same_files d (apply [OpenLock; FillLock p] d) /\ same_files d (apply [OpenLock] d).
Proof. by destruct d. Qed.

Lemma release_same_files d : same_files d (apply [RemoveLock] d) /\ lock_file (apply [RemoveLock] d) = Missing.
Proof. by destruct d. Qed.

(** A transition from a directory without lock: what it writes. *)
Lemma transition_writes p d target details at_ clock st ws :
  lock_file d = Missing -> transition text_size p d (JStr target) details at_ clock = (Ok st, ws) ->
  exists wl, transition_locked text_size d target details at_ clock = (Ok st, wl) /\
    ws = ([OpenLock; FillLock (pid p)] ++ wl ++ [RemoveLock])%list.
Proof.
  intros Hl H. unfold transition in H. apply obind_ok in H as (u & w1 & w2 & [_ ->]%lift_ok & H & ->).
  unfold runLocked in H. apply obind_ok in H as (u' & w3 & w4 & H1 & H2 & ->).
  unfold acquireLock in H1. apply obind_ok in H1 as (u'' & w5 & w6 & [_ ->]%lift_ok & H1 & ->).
  rewrite Hl in H1. injection H1 as _ <-. destruct (transition_locked _ _ _ _ _ _) as [r wl]. injection H2 as -> <-.
  by exists wl.
Qed.
Lemma runLocked_ok {A} q d (m : outcome A) a ws :
  runLocked q d m = (Ok a, ws) ->
  exists wl ws1, m = (Ok a, ws1) /\ acquireLock q d = (Ok tt, wl) /\ ws = (wl ++ ws1 ++ [RemoveLock])%list.
Proof.
  unfold runLocked. intros ([] & wl & w & Ha & H & ->)%obind_ok. destruct m as [r ws1]. injection H as -> <-. eauto.
Qed.

Lemma acquire_same_files q d wl : acquireLock q d = (Ok tt, wl) -> same_files d (apply wl d).
Proof.
  unfold acquireLock. intros ([] & w1 & w2 & [_ ->]%lift_ok & H & ->)%obind_ok. destruct (lock_file d) as [| |f] eqn:El.
  - injection H as <-. by destruct d.
  - done.
  - apply obind_ok in H as (x & w3 & w4 & [_ ->]%lift_ok & H & ->). destruct (_ && _); [|done]. injection H as <-.
    by destruct d.
Qed.

(** A transition that is not to the next state. *)
Lemma transition_rejected d target details at_ clock cur ws0 i t :
  load_now d = (Ok cur, ws0) -> state_index (get cur "state") = Some i -> state_index (JStr target) = Some t -> t <> i ->
  t <> S i ->
  transition_locked text_size d target details at_ clock
    = (Throw (if Nat.ltb t i then ROLLBACK_REJECTED else INVALID_TRANSITION), ws0).
Proof.
  intros Hl Hc Ht H1 H2. unfold transition_locked. rewrite Hl. cbn [obind]. rewrite bool_decide_eq_false_2 by congruence.
  unfold next_journal. rewrite Hc, Ht. cbn [of_option mbind result_bind]. rewrite (proj2 (Nat.eqb_neq _ _) H2).
  destruct (Nat.ltb t i); simpl; by rewrite app_nil_r.
Qed.

Lemma transition_stored d target details at_ clock st ws cur ws0 :
  load_now d = (Ok cur, ws0) -> transition_locked text_size d target details at_ clock = (Ok st, ws) ->
  state_index (get cur "state") <> state_index (JStr target) ->
  exists next, continues cur next target details /\ state st = JStr target /\ load_now (apply ws d) = (Ok next, []).
Proof.
  intros Hl H Hne. pose proof H as (cur' & ws0' & Hl' & Hcase)%transition_locked_ok. rewrite Hl in Hl'. injection Hl' as <- <-.
  destruct Hcase as [(_ & _ & ?)|(next & Hn & Hc & Hst & -> & Hs & Hs')]; [done|].
  destruct (next_journal_ok _ _ _ _ _ _ Hn) as (Hk & Hv & Ha). exists next. split; [done|]. split; [done|].
  rewrite apply_app. apply fully_written; try done. by apply load_settles.
Qed.

(** Reading twice: the second time nothing is written. *)
Lemma settled_read q d v :
  settled d v -> lock_file d = Missing -> read text_size q d = (Ok v, [OpenLock; FillLock (pid q); RemoveLock]).
Proof.
  intros Hs Hl. unfold read, runLocked, acquireLock, lift. destruct (Hs) as (a & (Hd & _) & _). rewrite Hd, Hl. simpl.
  by rewrite (settled_load _ _ Hs).
Qed.

#[export] Instance settled_proper : Proper (same_files ==> eq ==> iff) settled.
Proof. intros d d' (H1 & H2 & H3) v v' <-. unfold settled, stored_anchor, stored_journal. by rewrite H1, H2, H3. Qed.

Lemma read_ok q d v ws :
  read text_size q d = (Ok v, ws) ->
  exists w, load_now d = (Ok v, w) /\ settled (apply ws d) v /\ lock_file (apply ws d) = Missing.
Proof.
  intros (wl & w & Hm & Ha & ->)%runLocked_ok. exists w. split; [done|]. apply acquire_same_files in Ha.
  rewrite !apply_app. destruct (release_same_files (apply w (apply wl d))) as [Hs Hr]. split; [|done].
  rewrite <- Hs, <- Ha. by apply load_settles.
Qed.

(** A successful transition, whoever held the lock before. *)
Lemma transition_ok p d target details at_ clock st ws :
  transition text_size p d (JStr target) details at_ clock = (Ok st, ws) ->
  exists wl, transition_locked text_size d target details at_ clock = (Ok st, wl) /\ same_files (apply wl d) (apply ws d).
Proof.
  intros H. unfold transition in H. apply obind_ok in H as (u & w1 & w2 & [_ ->]%lift_ok & H & ->).
  apply runLocked_ok in H as (wa & wl & Hl & Ha%acquire_same_files & ->). exists wl. split; [done|].
  simpl. rewrite !apply_app, <- (proj1 (release_same_files _)). by rewrite <- Ha.
Qed.

(** When it has changed the state, the next journal is stored. *)
Lemma transition_advances p d target details at_ clock st ws :
  transition text_size p d (JStr target) details at_ clock = (Ok st, ws) -> changed st = Some true ->
  exists cur ws0 next, load_now d = (Ok cur, ws0) /\ continues cur next target details /\ state st = JStr target /\
    load_now (apply ws d) = (Ok next, []).
Proof.
  intros (wl & H & Hs)%transition_ok Hc. pose proof H as (cur & ws0 & Hl & [(? & _)|(next & Hn & _)])%transition_locked_ok;
    [congruence|]. destruct (next_journal_ok _ _ _ _ _ _ Hn) as ((_ & _ & _ & _ & (i & Hi & Ht) & _) & _).
  destruct (transition_stored _ _ _ _ _ _ _ _ _ Hl H) as (next' & Hk & Hst & Hload); [rewrite Hi, Ht; intros [=]; lia|].
  exists cur, ws0, next'. split_and!; try done. by rewrite <- Hs.
Qed.

Lemma index_in_elem l s n : index_in l s = Some n -> s ∈ l.
Proof.
  revert n. induction l as [|x l IH]; intros n H; [done|]. cbn [index_in] in H. destruct (String.eqb_spec x s) as [->|]; [left|right].
  destruct (index_in l s) as [m|]; [|done]. by eapply IH.
Qed.

(** An empty lock is never taken over. *)
Lemma acquire_empty_lock q d :
  assertSecureDirectory (directory d) = Ok tt -> acquireLock q (apply [OpenLock] d) = (Throw JOURNAL_BUSY, []).
Proof. intros Hd. destruct d as [dir j a l]. unfold acquireLock, lift. simpl in *. by rewrite Hd. Qed.

(** An anchor that is too large is stored all the same. *)
Lemma oversized_anchor d target details at_ clock cur next :
  settled d cur -> state_index (get cur "state") <> state_index (JStr target) ->
  next_journal cur target details at_ clock = Ok next -> (MAX_FILE_BYTES < text_size (makeAnchor next cur))%Z ->
  exists ws, transition_locked text_size d target details at_ clock = (Throw UNSAFE_STORAGE, ws) /\
    load_now (apply ws d) = (Throw TAMPERED_ANCHOR, []).
Proof.
  intros Hset Hi Hn Hs. exists [PutAnchor (makeAnchor next cur)]. unfold transition_locked.
  rewrite (settled_load _ _ Hset). cbn [obind]. rewrite bool_decide_eq_false_2, Hn by done. cbn [obind lift].
  unfold writeAnchor, write_checked. rewrite (proj2 (Z.ltb_lt _ _) Hs). split; [done|].
  destruct Hset as (a & (Hd & _) & (fj & Hj & _) & _). destruct d as [dir j an l]. simpl in *.
  unfold load_current, loadPair, lift. simpl. rewrite Hd, Hj. simpl. by rewrite (proj2 (Z.ltb_lt _ _) Hs).
Qed.
End Recovery.

(** ** Properties *)

Section Properties.
Context `{HParse : DateParse} `{HSha : Sha256}.
Variable text_size : jsval -> Z.

(** C15: a transition that would succeed, started when there is no lock file, is
    atomic across crashes: if the process stops after any prefix of its writes
    (except just after creating the lock, when the lock is empty) and is dead,
    another process, under another id, reads a journal, which is the one the
    transition started from or its successor; after all the writes of a
    transition that changed the state it is the successor.  Transitions that
    fail are not covered: [oversized_anchor] is one that stores an anchor too
    large to be read, and leaves no journal that can be loaded; nor is one that
    takes over the lock of a dead process. *)
Theorem crash_atomic p q d target details at_ clock st ws1 ws2
  (Hrun : transition text_size p d (JStr target) details at_ clock = (Ok st, (ws1 ++ ws2)%list))
  (Hfree : lock_file d = Missing) (Hlock : ws1 <> [OpenLock]) (Hother : pid p <> pid q) (Hdead : alive q (pid p) = false) :
  exists cur ws0 v ws, load_current text_size d = (Ok cur, ws0) /\ read text_size q (apply text_size ws1 d) = (Ok v, ws) /\
    (v = cur \/ next_journal cur target details at_ clock = Ok v) /\
    (ws2 = [] -> changed st = Some true -> next_journal cur target details at_ clock = Ok v).
Proof.
  destruct (transition_writes _ _ _ _ _ _ _ _ _ Hfree Hrun) as (wl & Ht & Hw).
  assert (forall k k', wl = (k ++ k')%list -> lock_file (apply text_size k d) = Missing) as Hkeep.
  { intros k k' ->. apply transition_keeps_lock in Ht. rewrite forallb_app in Ht. guards.
    destruct (apply_keeps_lock text_size k d) as [-> _]; done. }
  destruct ws1 as [|w ws1]; [|injection Hw as -> Hw; destruct ws1 as [|w ws1]; [done|injection Hw as -> Hw]].
  { destruct (transition_prefix _ _ _ _ _ _ _ [] wl Ht) as (cur & ws0 & v & ws & Hl & Hl' & Hv & _).
    destruct (read_free text_size q d d _ _ ltac:(done) (or_introl Hfree) Hl') as [ws' Hr].
    exists cur. do 3 eexists. split_and!; [done|exact Hr|done|]. intros ->. by destruct wl. }
  set (d1 := apply text_size [OpenLock; FillLock (pid p)] d).
  change (apply text_size (OpenLock :: FillLock (pid p) :: ws1) d) with (apply text_size ws1 d1).
  destruct (lock_writes_same_files text_size (pid p) d) as [Hsame _]. fold d1 in Hsame.
  assert (ws1 = (wl ++ [RemoveLock])%list /\ ws2 = [] \/ exists k, wl = (ws1 ++ k)%list /\ ws2 = (k ++ [RemoveLock])%list) as
    [[-> ->]|(k & Hk & ->)].
  { symmetry in Hw. apply app_eq_inv in Hw as [(k & Hk & Hk')|(k & Hk & Hk')]; [by right; exists k|].
    destruct k as [|w k]; [right; exists []; by rewrite Hk, !app_nil_r in *|].
    destruct k; [|by destruct k]. injection Hk' as <- <-. by left. }
  - destruct (transition_prefix _ _ _ _ _ _ _ wl [] ltac:(by rewrite app_nil_r)) as (cur & ws0 & v & ws & Hl & Hl' & Hv & Hc).
    rewrite apply_app. destruct (release_same_files text_size (apply text_size wl d1)) as [Hs Hm].
    destruct (read_free text_size q (apply text_size wl d) (apply text_size [RemoveLock] (apply text_size wl d1)) v ws) as [ws' Hr];
      [by rewrite <- Hs, <- Hsame|by left|done|]. exists cur. do 3 eexists. split_and!; [done|exact Hr|done|auto].
  - rewrite Hk in Ht. destruct (transition_prefix _ _ _ _ _ _ _ _ _ Ht) as (cur & ws0 & v & ws & Hl & Hl' & Hv & _).
    destruct (read_free text_size q (apply text_size ws1 d) (apply text_size ws1 d1) v ws) as [ws' Hr]; [by rewrite <- Hsame| |done|].
    { right. exists (pid p). destruct (apply_keeps_lock text_size ws1 d1) as [-> _].
      - apply transition_keeps_lock in Ht. rewrite forallb_app in Ht. by guards.
      - by destruct d. }
    exists cur. do 3 eexists. split_and!; [done|exact Hr|done|]. intros H. by destruct k.
Qed.

(** Whatever the directory holds, a journal that is read is valid (its
    hash is that of its contents, its history the first states in order up to
    its own), and afterwards the lock is free, the two files agree, and any
    process reads the same journal without writing to them. *)
Theorem read_journal_valid q d v ws
  (Hread : read text_size q d = (Ok v, ws)) :
  (exists n, valid_journal n v) /\ settled (apply text_size ws d) v /\
  forall q', read text_size q' (apply text_size ws d) = (Ok v, [OpenLock; FillLock (pid q'); RemoveLock]).
Proof.
  destruct (read_ok _ _ _ _ _ Hread) as (w & Hl & Hs & Hm). destruct (load_settles _ _ _ _ Hl) as [_ Hv].
  split_and!; [by eapply validateJournal_ok|done|]. intros q'. by apply settled_read.
Qed.

(** The state moves forward by one: towards the state it is in a
    transition changes nothing, towards an earlier one it is rejected, beyond
    the next one it is rejected, and to the next one, when it succeeds, the
    directory holds the extended journal, which keeps the history. *)
Theorem transition_forward p d target details at_ clock cur ws0 i t
  (Hlock : lock_file d = Missing) (Hload : load_current text_size d = (Ok cur, ws0))
  (Hcur : state_index (get cur "state") = Some i) (Htarget : state_index (JStr target) = Some t)
  (Hdetails : validateDetails details INVALID_DETAILS = Ok tt) :
  let '(r, ws) := transition text_size p d (JStr target) details at_ clock in
  (t = i -> r = Ok (statusFromJournal cur (Some false) None)) /\
  (t < i -> r = Throw ROLLBACK_REJECTED) /\
  (S i < t -> r = Throw INVALID_TRANSITION) /\
  (t = S i -> forall st, r = Ok st ->
     exists next, continues cur next target details /\ state st = JStr target /\
       load_current text_size (apply text_size ws d) = (Ok next, [])).
Proof.
  unfold transition. rewrite Htarget. cbn [of_option mbind result_bind]. rewrite Hdetails. cbn [lift obind].
  assert (assertSecureDirectory (directory d) = Ok tt) as Hd by by eapply load_directory.
  unfold runLocked, acquireLock, lift. rewrite Hd, Hlock. cbn [obind]. split_and!.
  - intros ->. unfold transition_locked. rewrite Hload. cbn [obind].
    by rewrite Hcur, Htarget, bool_decide_eq_true_2 by done.
  - intros H. rewrite (transition_rejected _ _ _ _ _ _ _ _ _ _ Hload Hcur Htarget) by lia.
    by rewrite (proj2 (Nat.ltb_lt _ _) H).
  - intros H. rewrite (transition_rejected _ _ _ _ _ _ _ _ _ _ Hload Hcur Htarget) by lia.
    by rewrite (proj2 (Nat.ltb_ge _ _)) by lia.
  - intros -> st Hst. destruct (transition_locked _ _ _ _ _ _) as [r wl] eqn:Et. simpl in Hst. subst r.
    destruct (transition_stored _ _ _ _ _ _ _ _ _ _ Hload Et) as (next & Hk & Hs & Hn).
    { rewrite Hcur, Htarget. intros [=]. lia. }
    exists next. split; [done|]. split; [done|]. change (apply text_size _ d) with
      (apply text_size (wl ++ [RemoveLock])%list (apply text_size [OpenLock; FillLock (pid p)] d)).
    rewrite apply_app, <- (proj1 (release_same_files text_size (apply text_size wl (apply text_size _ d)))).
    by rewrite <- (proj1 (lock_writes_same_files text_size (pid p) d)).
Qed.

(** The exception of C30: a process that stops between creating the lock
    and writing its identifier into it leaves an empty lock, with which every
    operation of every process fails with [JOURNAL_BUSY] and changes neither
    the files nor the lock, so that the journal is out of use until the lock
    is removed by hand. *)
Theorem empty_lock_blocks q d uuid target details at_ clock
  (Hdir : assertSecureDirectory (directory d) = Ok tt) (Hlock : lock_file d = Missing)
  (Htarget : is_Some (state_index target)) (Hdetails : validateDetails details INVALID_DETAILS = Ok tt) :
  (exists ws, acquireLock q d = (Ok tt, OpenLock :: ws)) /\
  let crashed := apply text_size [OpenLock] d in
  read text_size q crashed = (Throw JOURNAL_BUSY, []) /\
  transition text_size q crashed target details at_ clock = (Throw JOURNAL_BUSY, []) /\
  initialize text_size q crashed uuid clock = (Throw JOURNAL_BUSY, [MakeDirectory]).
Proof.
  pose proof (acquire_empty_lock text_size q d Hdir) as Hbusy. split; [|split; [|split]].
  - unfold acquireLock, lift. rewrite Hdir, Hlock. by eexists.
  - unfold read, runLocked. by rewrite Hbusy.
  - destruct Htarget as [i Hi]. destruct target; try done. unfold transition. rewrite Hi. cbn [of_option mbind result_bind].
    rewrite Hdetails. cbn [lift obind]. unfold runLocked. by rewrite Hbusy.
  - destruct d as [[| |s] j a l]; try done. unfold initialize, secureMkdir. simpl.
    simpl in Hdir. destruct (negb (isDirectory s) || isSymbolicLink s); [done|]. destruct (negb (owned s)); [done|]. done.
Qed.
End Properties.

(** ** Examples *)

Module Sample.
#[local] Existing Instance iso_date_parse.
#[local] Existing Instance toy_sha256.

Definition uuid : string := "0b54e0c0-3f0a-4d5b-9a0e-1234567890ab".
Definition at_0 : jsval := JStr "2024-05-01T10:00:00.000Z".
Definition at_1 : jsval := JStr "2024-05-01T10:05:00.000Z".
Definition details : jsval := JObj [("bundle_id", JStr "dev.agentpass.app")].
Definition small (v : jsval) : Z := 1000.

Definition first : Process := mkProcess 100 (fun _ => false).
Definition second : Process := mkProcess 200 (fun _ => false).

Definition empty : Disk := mkDisk Missing Missing Missing Missing.
Definition fresh : Disk := apply small (initialize small first empty uuid at_0).2 empty.

Definition verified : outcome Status := transition small first fresh (JStr "app_verified") details JUndefined at_1.

Definition cur : jsval := makeInitialJournal (JStr uuid) at_0.
Definition next : jsval :=
  match next_journal cur "app_verified" details JUndefined at_1 with Ok v => v | Throw _ => JUndefined end.
End Sample.

Example initialize_sample :
  @initialize iso_date_parse toy_sha256 Sample.small Sample.first Sample.empty Sample.uuid Sample.at_0
    = (Ok (statusFromJournal Sample.cur (Some true) None),
       [MakeDirectory; OpenLock; FillLock 100; PutAnchor (makeAnchor Sample.cur JNull); PutJournal Sample.cur; RemoveLock]).
Proof. vm_compute. reflexivity. Qed.

Example transition_sample :
  Sample.verified.2 = [OpenLock; FillLock 100; PutAnchor (makeAnchor Sample.next Sample.cur); PutJournal Sample.next; RemoveLock].
Proof. vm_compute. reflexivity. Qed.

(** Stopped between the two writes, the next process completes the
    transition. *)
Example recovered_sample :
  @read iso_date_parse toy_sha256 Sample.small Sample.second
    (apply Sample.small [OpenLock; FillLock 100; PutAnchor (makeAnchor Sample.next Sample.cur)] Sample.fresh)
    = (Ok Sample.next, [RemoveLock; OpenLock; FillLock 200; PutJournal Sample.next; RemoveLock]).
Proof. vm_compute. reflexivity. Qed.

Definition half : list Write := [OpenLock; FillLock 100; PutAnchor (makeAnchor Sample.next Sample.cur)].
Definition rest : list Write := [PutJournal Sample.next; RemoveLock].

Lemma sample_run :
  @transition iso_date_parse toy_sha256 Sample.small Sample.first Sample.fresh (JStr "app_verified") Sample.details
    JUndefined Sample.at_1
  = (Ok (statusFromJournal Sample.next (Some true) (Some (JStr "not_started", JStr "app_verified", JNum (NInt 1)))),
     (half ++ rest)%list).
Proof. vm_compute. reflexivity. Qed.

Lemma sample_load : @load_current iso_date_parse toy_sha256 Sample.small Sample.fresh = (Ok Sample.cur, []).
Proof. vm_compute. reflexivity. Qed.

Lemma sample_read :
  @read iso_date_parse toy_sha256 Sample.small Sample.second Sample.fresh = (Ok Sample.cur, [OpenLock; FillLock 200; RemoveLock]).
Proof. vm_compute. reflexivity. Qed.

Lemma sample_details : validateDetails Sample.details INVALID_DETAILS = Ok tt.
Proof. vm_compute. reflexivity. Qed.

Lemma sample_disk : assertSecureDirectory (directory Sample.fresh) = Ok tt /\ lock_file Sample.fresh = Missing.
Proof. vm_compute. done. Qed.

Lemma sample_index : state_index (get Sample.cur "state") = Some 0.
Proof. vm_compute. done. Qed.

Lemma crash_atomic_witness :
  exists cur ws0 v ws,
    @load_current iso_date_parse toy_sha256 Sample.small Sample.fresh = (Ok cur, ws0) /\
    @read iso_date_parse toy_sha256 Sample.small Sample.second (apply Sample.small half Sample.fresh) = (Ok v, ws) /\
    (v = cur \/ @next_journal iso_date_parse toy_sha256 cur "app_verified" Sample.details JUndefined Sample.at_1 = Ok v).
Proof.
  destruct (@crash_atomic iso_date_parse toy_sha256 Sample.small Sample.first Sample.second Sample.fresh "app_verified"
    Sample.details JUndefined Sample.at_1 _ half rest sample_run (proj2 sample_disk) ltac:(discriminate) ltac:(discriminate)
    eq_refl) as (cur & ws0 & v & ws & H1 & H2 & H3 & _). exists cur, ws0, v, ws. exact (conj H1 (conj H2 H3)).
Defined.

Lemma read_journal_valid_witness : exists n, @valid_journal iso_date_parse toy_sha256 n Sample.cur.
Proof.
  exact (proj1 (@read_journal_valid iso_date_parse toy_sha256 Sample.small Sample.second Sample.fresh Sample.cur _ sample_read)).
Defined.

Lemma transition_forward_witness :
  let '(r, ws) := @transition iso_date_parse toy_sha256 Sample.small Sample.first Sample.fresh (JStr "app_verified")
    Sample.details JUndefined Sample.at_1 in
  forall st, r = Ok st ->
    exists next, @continues iso_date_parse Sample.cur next "app_verified" Sample.details /\ state st = JStr "app_verified" /\
      @load_current iso_date_parse toy_sha256 Sample.small (apply Sample.small ws Sample.fresh) = (Ok next, []).
Proof.
  pose proof (@transition_forward iso_date_parse toy_sha256 Sample.small Sample.first Sample.fresh "app_verified"
    Sample.details JUndefined Sample.at_1 Sample.cur [] 0 1 (proj2 sample_disk) sample_load sample_index eq_refl
    sample_details) as H. destruct (transition _ _ _ _ _ _ _). exact (proj2 (proj2 (proj2 H)) eq_refl).
Defined.

Lemma empty_lock_blocks_witness :
  @read iso_date_parse toy_sha256 Sample.small Sample.second (apply Sample.small [OpenLock] Sample.fresh) = (Throw JOURNAL_BUSY, []).
Proof.
  exact (proj1 (proj2 (@empty_lock_blocks iso_date_parse toy_sha256 Sample.small Sample.second Sample.fresh Sample.uuid
    (JStr "app_verified") Sample.details JUndefined Sample.at_1 (proj1 sample_disk) (proj2 sample_disk)
    (ltac:(by eexists)) sample_details))).
Defined.
