(* ===== verification/SetupOrchestrator.v ===== *)
(** * The setup orchestrator (lib/setup-orchestrator.mjs)

    The orchestrator asks its journal for the next action, runs the handler of
    that action, checks the evidence that the handler returns, and commits the
    transition.  It uses the journal through the interface [JournalService];
    an [execute] is a computation over the state of the journal that records
    the calls it makes, so that theorems can speak of the commits whatever
    the outcome.  The handlers, which may change anything while they run, and
    the other processes that run between two calls of the journal are
    parameters. *)

From stdpp Require Import base tactics sets list strings pretty.
From Stdlib Require Import Ascii.
From S2P Require Import Prelude JsValue Regex IsoTime Json Crypto FileSystem SetupJournal.
Local Open Scope string_scope.
Local Open Scope js_scope.

(** ** Constants *)

Definition SETUP_ORCHESTRATOR_VERSION : Z := 1.
Definition SETUP_EVIDENCE_VERSION : Z := 1.

(** [ACTIONS]: every state's next action, with the state it leaves. *)
Definition ACTION_TABLE : list (Action * string) :=
  flat_map (fun state => match nextActionsForState (JStr state) with Ok (a :: _) => [(a, state)] | _ => [] end) SETUP_STATES.

Definition action_ids : list string := map (fun a => SetupJournal.id a.1) ACTION_TABLE.

(** [table[k]] for a frozen table. *)
Fixpoint lookup_key {A} (table : list (string * A)) (k : string) : option A :=
  match table with [] => None | (k', a) :: table => if String.eqb k' k then Some a else lookup_key table k end.

(** A contract of [EVIDENCE_CONTRACTS]; the fields a contract does not have
    are empty. *)
Record Contract := mkContract {
  keys : list string; strings : list string; integers : list string; allowed : list (string * list string);
  exact_values : list (string * Z); ranges : list (string * (Z * Z)); roles : option string
}.

Definition EVIDENCE_CONTRACTS : list (string * Contract) :=
  [("app_verified", (mkContract ["application"; "verification"] ["application"; "verification"] [] [] [] [] None));
   ("local_config_initialized", (mkContract ["directory"; "config_version"] ["directory"] ["config_version"] [] [] [] None));
   ("native_bridge_selected", (mkContract ["bridge"; "client"; "manager"] ["bridge"; "client"; "manager"] [] [] [] [] None));
   ("service_registered", (mkContract ["service"; "status"] ["service"; "status"] [] [("status", ["enabled"])] [] [] None));
   ("bootstrap_started", (mkContract ["approval_fingerprint"; "lifecycle_head"; "sequence"] ["approval_fingerprint"; "lifecycle_head"] ["sequence"] [] [] [("sequence", (1, 6)%Z)] None));
   ("approval_key_enrolled", (mkContract ["fingerprint"; "generation"; "lifecycle_head"; "sequence"] ["fingerprint"; "lifecycle_head"] ["generation"; "sequence"] [] [("generation", 1%Z)] [("sequence", (2, 6)%Z)] None));
   ("service_keys_activated", (mkContract ["roles"; "generation"; "lifecycle_head"; "sequence"] ["lifecycle_head"] ["generation"; "sequence"] [] [("generation", 1%Z); ("sequence", 6%Z)] [] (Some "roles")));
   ("device_enrolled", (mkContract ["organization_id"; "device_id"; "enrollment_id"; "key_fingerprint"] ["organization_id"; "device_id"; "enrollment_id"; "key_fingerprint"] [] [] [] [] None));
   ("editor_connected", (mkContract ["client"; "project"] ["client"; "project"] [] [] [] [] None));
   ("test_commit_verified", (mkContract ["commit"; "verification"] ["commit"; "verification"] [] [] [] [] None));
   ("complete", (mkContract ["completion"] ["completion"] [] [] [] [] None))].

Definition ENVELOPE_KEYS := ["version"; "from_state"; "to_state"; "action"; "operation_id"; "outcome"; "proof"].
Definition OUTCOMES := ["completed"; "already_completed"].
Definition printable (c : ascii) : bool := Nat.leb 32 (Regex.code c) && negb (Nat.eqb (Regex.code c) 127).
Definition SAFE_STRING : re := RClass printable 1 (Some 1024).
Definition HASH : re := times hex_lower 64.
Definition FINGERPRINT : re := RSeq (lit "SHA256:") (times (fun c => alnum c || in_chars "_-" c) 43).
Definition UUID : re :=
  seqs [times hex_any 8; lit "-"; times hex_any 4; lit "-"; one (between "1" "8"); times hex_any 3; lit "-";
        one (in_chars "89abAB"); times hex_any 3; lit "-"; times hex_any 12].

Inductive orchestrator_code :=
| INVALID_EVIDENCE | UNSUPPORTED_STATE | EVIDENCE_STATE_MISMATCH | EVIDENCE_ACTION_MISMATCH | EVIDENCE_OPERATION_MISMATCH
| INVALID_HANDLERS | UNKNOWN_HANDLER | INVALID_HANDLER | INVALID_REQUEST | HANDLER_MISSING | HANDLER_FAILED
| AMBIGUOUS_HANDLER_RESPONSE.

(** An error of the orchestrator or one of the journal. *)
Inductive error := Orchestrator (c : orchestrator_code) | Journal (c : SetupJournal.code).

(** ** Evidence *)

Definition exactKeys (v : jsval) (keys : list string) : result orchestrator_code unit :=
  throw_if negb (is_object v) with INVALID_EVIDENCE ;;
  throw_if negb (same_keys v keys) with INVALID_EVIDENCE ;;
  Ok tt.

Definition safeString (v : jsval) : bool := str_test SAFE_STRING v.

(** [name.endsWith(suffix)] *)
Definition ends_with (suffix name : string) : bool :=
  Nat.leb (String.length suffix) (String.length name)
  && String.eqb (String.substring (String.length name - String.length suffix) (String.length suffix) name) suffix.

(** The checks of the keys whose names have one form. *)
Definition named_check (r : re) (named : string -> bool) (proof : jsval) : bool :=
  forallb (fun k => negb (named k) || coerced_test r (get proof k)) (own_keys proof).

Definition positive (v : jsval) : bool := match safe_integer v with Some z => (1 <=? z)%Z | None => false end.

(** [!(v < minimum || v > maximum)]; of the values whose field has a range,
    integers are left. *)
Definition in_range (v : jsval) (r : Z * Z) : bool :=
  match js_integer v with Some z => (r.1 <=? z)%Z && (z <=? r.2)%Z | None => true end.

Definition valid_roles (v : jsval) : bool :=
  match v with
  | JArr l =>
      Nat.eqb (length l) 2 && forallb safeString l && all_distinct l
      && includes l (JStr "git_signing") && includes l (JStr "audit_checkpoint")
  | _ => false
  end.

Definition validateProof (proof : jsval) (targetState : string) : result orchestrator_code unit :=
  contract ← of_option UNSUPPORTED_STATE (lookup_key EVIDENCE_CONTRACTS targetState);
  _ ← exactKeys proof (keys contract);
  throw_if negb (forallb (fun k => safeString (get proof k)) (strings contract)) with INVALID_EVIDENCE ;;
  throw_if negb (named_check FINGERPRINT (fun k => String.eqb k "fingerprint" || ends_with "_fingerprint" k) proof)
    with INVALID_EVIDENCE ;;
  throw_if negb (named_check UUID (ends_with "_id") proof) with INVALID_EVIDENCE ;;
  throw_if negb (named_check HASH (ends_with "_head") proof) with INVALID_EVIDENCE ;;
  throw_if negb (forallb (fun k => positive (get proof k)) (integers contract)) with INVALID_EVIDENCE ;;
  throw_if negb (forallb (fun kv => one_of kv.2 (get proof kv.1)) (allowed contract)) with INVALID_EVIDENCE ;;
  throw_if negb (forallb (fun kv => is_int (get proof kv.1) kv.2) (exact_values contract)) with INVALID_EVIDENCE ;;
  throw_if negb (forallb (fun kr => in_range (get proof kr.1) kr.2) (ranges contract)) with INVALID_EVIDENCE ;;
  throw_if match roles contract with Some k => negb (valid_roles (get proof k)) | None => false end with INVALID_EVIDENCE ;;
  Ok tt.

(** [validateEvidence]; the copy it returns equals the evidence, which is made
    of plain values. *)
Definition validateEvidence (v : jsval) (action : Action) (operationId : string) (currentState : jsval)
    : result orchestrator_code jsval :=
  _ ← exactKeys v ENVELOPE_KEYS;
  throw_if negb (is_int (get v "version") SETUP_EVIDENCE_VERSION) with INVALID_EVIDENCE ;;
  throw_if negb (bool_decide (get v "from_state" = currentState)) with EVIDENCE_STATE_MISMATCH ;;
  throw_if negb (is_str (get v "to_state") (target_state action)) with EVIDENCE_STATE_MISMATCH ;;
  throw_if negb (is_str (get v "action") (SetupJournal.id action)) with EVIDENCE_ACTION_MISMATCH ;;
  throw_if negb (is_str (get v "operation_id") operationId) with EVIDENCE_OPERATION_MISMATCH ;;
  throw_if negb (one_of OUTCOMES (get v "outcome")) with INVALID_EVIDENCE ;;
  _ ← validateProof (get v "proof") (target_state action);
  Ok v.

(** The identifier of a status is a string, its revision an integer. *)
Definition operationId (status : Status) (action : Action) : string :=
  "setup:" +:+ default "" (as_str (journal_id status)) +:+ ":" +:+ pretty (int_of (revision status) + 1)%Z +:+ ":"
  +:+ SetupJournal.id action.

Definition evidenceHash `{HSha : Sha256} (evidence : jsval) : string := sha256 (canonicalJson evidence).

Definition publicAction (status : Status) (action : Action) (operationIdValue : string) : jsval :=
  JObj [("id", JStr (SetupJournal.id action)); ("from_state", state status); ("target_state", JStr (target_state action));
        ("command", JStr (command action)); ("description", JStr (description action));
        ("operation_id", JStr operationIdValue)].

(** [setupEvidenceContract]: the contract of a state; the names of
    [Object.prototype] pass the check and give no contract. *)
Definition setupEvidenceContract (targetState : string) : result orchestrator_code (option Contract) :=
  let contract := lookup_key EVIDENCE_CONTRACTS targetState in
  throw_if negb (bool_decide (is_Some contract)) && negb (includes OBJECT_PROTOTYPE targetState) with UNSUPPORTED_STATE ;;
  Ok contract.

(** ** Handlers *)

Inductive Handlers := NoHandlers | MapHandlers (entries : list (jsval * jsval)) | ValueHandlers (v : jsval).

Definition normalize_entry (e : jsval * jsval) : result orchestrator_code (string * nat) :=
  throw_if negb (one_of action_ids e.1) with UNKNOWN_HANDLER ;;
  match e with
  | (JStr id, JFun f) => Ok (id, f)
  | _ => Throw INVALID_HANDLER
  end.

(** The handlers as a map, its keys distinct as those of the argument are. *)
Definition normalizeHandlers (handlers : Handlers) : result orchestrator_code (list (string * nat)) :=
  match handlers with
  | NoHandlers => Ok []
  | MapHandlers entries => map_result normalize_entry entries
  | ValueHandlers v =>
      throw_if negb (is_object v) with INVALID_HANDLERS ;;
      map_result normalize_entry (map (fun k => (JStr k, get v k)) (own_keys v))
  end.

Fixpoint handler_of (id : string) (handlers : list (string * nat)) : option nat :=
  match handlers with
  | [] => None
  | (k, f) :: handlers => if String.eqb k id then Some f else handler_of id handlers
  end.

(** ** The journal, as the orchestrator uses it *)

Class JournalService (J : Type) := {
  service_status : J -> result SetupJournal.code Status * J;
  service_transition : J -> string -> jsval -> result SetupJournal.code Status * J
}.

(** What runs besides the orchestrator: a handler is called on the journal and
    leaves another (its answer is [None] when it throws); other processes may
    use the journal between two calls. *)
Class Environment (J : Type) := {
  run_handler : nat -> jsval -> J -> option jsval * J;
  interleaved : J -> J
}.

(** The calls that an operation makes. *)
Inductive Call := CallStatus | CallHandler (f : nat) (context : jsval) | CallTransition (target : string) (details : jsval).

Inductive Response :=
| Preview (status : Status) (action : option (jsval * bool))
| Complete (status : Status)
| Stale (action : jsval) (latest : Status)
| Committed (changed : option bool) (action evidence : jsval) (transition : Status).

Section Orchestrator.
Context {J : Type} `{HSha : Sha256} `{HJournal : JournalService J} `{HEnv : Environment J}.

(** A computation over the journal that may fail and records its calls. *)
Definition run (A : Type) : Type := J -> result error A * list Call * J.

Definition ret {A} (a : A) : run A := fun j => (Ok a, [], j).
Definition fail {A} (c : orchestrator_code) : run A := fun j => (Throw (Orchestrator c), [], j).
Definition bind {A B} (m : run A) (f : A -> run B) : run B := fun j =>
  match m j with
  | (Ok a, calls, j) => let '(r, calls', j) := f a j in (r, (calls ++ calls')%list, j)
  | (Throw e, calls, j) => (Throw e, calls, j)
  end.

Notation "x <-- m ; k" := (bind m (fun x => k)) (at level 100, m at next level, right associativity).

Definition of_result {A} (r : result orchestrator_code A) : run A := match r with Ok a => ret a | Throw c => fail c end.

Definition journal_call (r : result SetupJournal.code Status * J) (c : Call) : result error Status * list Call * J :=
  match r with (Ok s, j) => (Ok s, [c], j) | (Throw e, j) => (Throw (Journal e), [c], j) end.

Definition call_status : run Status := fun j => journal_call (service_status j) CallStatus.
Definition call_transition (target : string) (details : jsval) : run Status :=
  fun j => journal_call (service_transition (interleaved j) target details) (CallTransition target details).

Definition call_handler (f : nat) (context : jsval) : run jsval := fun j =>
  match run_handler f context j with
  | (Some response, j) => (Ok response, [CallHandler f context], j)
  | (None, j) => (Throw (Orchestrator HANDLER_FAILED), [CallHandler f context], j)
  end.

Definition preview (handlers : list (string * nat)) : run Response :=
  status <-- call_status;
  ret (match next_actions status with
       | [] => Preview status None
       | action :: _ =>
           Preview status (Some (publicAction status action (operationId status action),
                                 bool_decide (is_Some (handler_of (SetupJournal.id action) handlers))))
       end).

Definition context_of (status : Status) (action : Action) (opId : string) : jsval :=
  JObj [("version", JNum (NInt SETUP_ORCHESTRATOR_VERSION)); ("execute", JBool true); ("dry_run", JBool false);
        ("journal_id", journal_id status); ("revision", revision status); ("current_state", state status);
        ("target_state", JStr (target_state action)); ("operation_id", JStr opId);
        ("action", publicAction status action opId)].

Definition evidence_of (response : jsval) : result orchestrator_code jsval :=
  throw_if negb (is_object response) || negb (Nat.eqb (length (own_keys response)) 1) || negb (has_own response "evidence")
    with AMBIGUOUS_HANDLER_RESPONSE ;;
  Ok (get response "evidence").

Definition commit_details (action : Action) (opId : string) (evidence : jsval) : jsval :=
  JObj [("action", JStr (SetupJournal.id action)); ("operation_id", JStr opId); ("outcome", get evidence "outcome");
        ("evidence_hash", JStr (evidenceHash evidence))].

(** [latest.state !== status.state || latest.revision !== status.revision] *)
Definition stale (latest status : Status) : bool :=
  negb (bool_decide (state latest = state status)) || negb (bool_decide (revision latest = revision status)).

Definition execute (handlers : list (string * nat)) : run Response :=
  status <-- call_status;
  match next_actions status with
  | [] => ret (Complete status)
  | action :: _ =>
      let opId := operationId status action in
      let actionView := publicAction status action opId in
      handler <-- of_result (of_option HANDLER_MISSING (handler_of (SetupJournal.id action) handlers));
      response <-- call_handler handler (context_of status action opId);
      value <-- of_result (evidence_of response);
      evidence <-- of_result (validateEvidence value action opId (state status));
      latest <-- call_status;
      if stale latest status then ret (Stale actionView latest)
      else
        transition <-- call_transition (target_state action) (commit_details action opId evidence);
        ret (Committed (changed transition) actionView evidence transition)
  end.

(** [continue({ execute })] *)
Definition continue_ (handlers : list (string * nat)) (execute_option : jsval) : run Response :=
  match execute_option with
  | JUndefined | JBool false => preview handlers
  | JBool true => execute handlers
  | _ => fail INVALID_REQUEST
  end.
End Orchestrator.

(** ** What a proof has to be

    The meaning of the contracts: for every state the form of each field. *)

Inductive Form := Text | Fingerprint | Uuid | Sha | AtLeastOne | Exactly (n : Z) | Between (lo hi : Z) | Word (s : string) | Roles.

Definition has_form (f : Form) (v : jsval) : Prop :=
  match f with
  | Text => exists s, v = JStr s /\ re_test SAFE_STRING s = true
  | Fingerprint => exists s, v = JStr s /\ re_test FINGERPRINT s = true
  | Uuid => exists s, v = JStr s /\ re_test UUID s = true
  | Sha => exists s, v = JStr s /\ re_test HASH s = true
  | AtLeastOne => exists z, v = JNum (NInt z) /\ (1 <= z <= MAX_SAFE_INTEGER)%Z
  | Exactly n => v = JNum (NInt n)
  | Between lo hi => exists z, v = JNum (NInt z) /\ (lo <= z <= hi)%Z
  | Word s => v = JStr s
  | Roles => v = JArr [JStr "git_signing"; JStr "audit_checkpoint"] \/ v = JArr [JStr "audit_checkpoint"; JStr "git_signing"]
  end.

Definition proof_forms : list (string * list (string * Form)) :=
  [("app_verified", [("application", Text); ("verification", Text)]);
   ("local_config_initialized", [("directory", Text); ("config_version", AtLeastOne)]);
   ("native_bridge_selected", [("bridge", Text); ("client", Text); ("manager", Text)]);
   ("service_registered", [("service", Text); ("status", Word "enabled")]);
   ("bootstrap_started", [("approval_fingerprint", Fingerprint); ("lifecycle_head", Sha); ("sequence", Between 1 6)]);
   ("approval_key_enrolled", [("fingerprint", Fingerprint); ("generation", Exactly 1); ("lifecycle_head", Sha); ("sequence", Between 2 6)]);
   ("service_keys_activated", [("roles", Roles); ("generation", Exactly 1); ("lifecycle_head", Sha); ("sequence", Exactly 6)]);
   ("device_enrolled", [("organization_id", Uuid); ("device_id", Uuid); ("enrollment_id", Uuid); ("key_fingerprint", Fingerprint)]);
   ("editor_connected", [("client", Text); ("project", Text)]);
   ("test_commit_verified", [("commit", Text); ("verification", Text)]);
   ("complete", [("completion", Text)])].

(** The object has exactly the fields, each of its form. *)
Definition has_fields (v : jsval) (forms : list (string * Form)) : Prop :=
  is_object v = true /\ same_keys v (map fst forms) = true /\ Forall (fun kf => has_form kf.2 (get v kf.1)) forms.

Definition valid_proof (proof : jsval) (targetState : string) : Prop :=
  exists forms, lookup_key proof_forms targetState = Some forms /\ has_fields proof forms.

Lemma lookup_key_elem {A} (table : list (string * A)) k a : lookup_key table k = Some a -> (k, a) ∈ table.
Proof.
  induction table as [|[k' a'] table IH]; simpl; [done|]. destruct (String.eqb_spec k' k) as [->|]; intros H.
  - injection H as ->. left.
  - right. auto.
Qed.

Lemma named_check_keys r named proof ks :
  same_keys proof ks = true -> NoDup (own_keys proof) ->
  named_check r named proof = forallb (fun k => negb (named k) || coerced_test r (get proof k)) ks.
Proof.
  intros Hs Hd. unfold named_check. apply eq_true_iff_eq. rewrite !forallb_elem_of.
  pose proof (same_keys_all _ _ Hs Hd). apply same_keys_true in Hs as [_ Hs]. naive_solver.
Qed.

(** The checks of a contract, on an object with exactly its keys. *)
Definition contract_checks (c : Contract) (proof : jsval) : bool :=
  let named r p := forallb (fun k => negb (p k) || coerced_test r (get proof k)) (keys c) in
  forallb (fun k => safeString (get proof k)) (strings c)
  && named FINGERPRINT (fun k => String.eqb k "fingerprint" || ends_with "_fingerprint" k)
  && named UUID (ends_with "_id") && named HASH (ends_with "_head")
  && forallb (fun k => positive (get proof k)) (integers c)
  && forallb (fun kv => one_of kv.2 (get proof kv.1)) (allowed c)
  && forallb (fun kv => is_int (get proof kv.1) kv.2) (exact_values c)
  && forallb (fun kr => in_range (get proof kr.1) kr.2) (ranges c)
  && match roles c with Some k => valid_roles (get proof k) | None => true end.

Lemma validateProof_checks proof target :
  NoDup (own_keys proof) ->
  validateProof proof target = Ok tt <->
  exists c, lookup_key EVIDENCE_CONTRACTS target = Some c /\ is_object proof = true /\ same_keys proof (keys c) = true /\
    contract_checks c proof = true.
Proof.
  intros Hd. unfold validateProof, exactKeys, contract_checks. split.
  - intros H. inv_result. match goal with H : lookup_key _ _ = Some ?c |- _ => exists c; split; [done|] end.
    guards. rewrite !(named_check_keys _ _ _ _ ltac:(eassumption) Hd) in *.
    split; [done|]. split; [done|]. rewrite !andb_true_iff. split_and!; try done.
    by match goal with |- match ?r with _ => _ end = _ => destruct r; guards end.
  - intros (c & Hc & Ho & Hs & Hk). rewrite Hc. cbn [of_option mbind result_bind]. rewrite Ho, Hs.
    rewrite !(named_check_keys _ _ _ _ Hs Hd). cbn [negb mbind result_bind].
    rewrite !andb_true_iff in Hk. repeat match goal with H : _ /\ _ |- _ => destruct H end.
    repeat match goal with H : forallb _ _ = true |- _ => rewrite H; clear H end. cbn [negb].
    destruct (roles c); [|done]. match goal with H : valid_roles _ = true |- _ => by rewrite H end.
Qed.

(** *** The forms and the checks *)

Lemma safe_of r s :
  only_chars printable r = true -> Nat.leb 1 (min_len r) = true ->
  match max_len r with Some n => Nat.leb n 1024 | None => false end = true -> re_test r s = true -> re_test SAFE_STRING s = true.
Proof.
  intros Hc Hl Hm Hr%re_test_spec. apply re_test_spec. destruct (max_len r) as [n|] eqn:En; [|done].
  apply Nat.leb_le in Hl, Hm. pose proof (matches_min_len _ _ Hr). pose proof (matches_max_len _ _ _ En Hr).
  constructor; [by eapply matches_only_chars|lia..].
Qed.

Lemma form_text v : has_form Text v <-> safeString v = true.
Proof. unfold safeString. destruct v; simpl; naive_solver. Qed.

Lemma form_named f r v :
  (f, r) ∈ [(Fingerprint, FINGERPRINT); (Uuid, UUID); (Sha, HASH)] ->
  has_form f v <-> safeString v = true /\ coerced_test r v = true.
Proof.
  intros Hf. assert (has_form f v <-> exists s, v = JStr s /\ re_test r s = true) as ->.
  { repeat (apply elem_of_cons in Hf as [[= -> ->]|Hf]; [done|]). by apply not_elem_of_nil in Hf. }
  assert (forall s, re_test r s = true -> re_test SAFE_STRING s = true) as Hsafe.
  { repeat (apply elem_of_cons in Hf as [[= -> ->]|Hf]; [intros s; by apply safe_of; vm_compute|]). by apply not_elem_of_nil in Hf. }
  unfold safeString, coerced_test. destruct v; simpl; naive_solver.
Qed.

Lemma form_positive v : has_form AtLeastOne v <-> positive v = true.
Proof.
  unfold positive. destruct (safe_integer v) as [z|] eqn:E; simpl.
  - apply safe_integer_Some in E as [-> Hz]. rewrite Z.leb_le. split; [intros (z' & [= <-] & ?); lia|].
    intros ?. exists z. split; [done|lia].
  - split; [|done]. intros (z & -> & Hz). assert (safe_integer (JNum (NInt z)) = Some z) by (apply safe_integer_Some; split; [done|lia]).
    congruence.
Qed.

Lemma form_between lo hi v :
  (1 <= lo)%Z -> (hi <= MAX_SAFE_INTEGER)%Z ->
  has_form (Between lo hi) v <-> positive v = true /\ in_range v (lo, hi) = true.
Proof.
  intros Hlo Hhi. rewrite <- form_positive. unfold in_range. simpl. split.
  - intros (z & -> & Hz). simpl. rewrite andb_true_iff, !Z.leb_le. split; [exists z; split; [done|lia]|lia].
  - intros [(z & -> & Hz) Hr]. simpl in Hr. rewrite andb_true_iff, !Z.leb_le in Hr. by exists z.
Qed.

Lemma form_exactly n v :
  (1 <= n <= MAX_SAFE_INTEGER)%Z -> has_form (Exactly n) v <-> positive v = true /\ is_int v n = true.
Proof.
  intros Hn. rewrite <- form_positive, is_int_true. simpl. split; [|by intros [_ ?]]. intros ->. split; [by exists n|done].
Qed.

Lemma form_word s v : re_test SAFE_STRING s = true -> has_form (Word s) v <-> safeString v = true /\ one_of [s] v = true.
Proof.
  intros Hs. unfold safeString. rewrite one_of_true. simpl. split; [intros ->; split; [done|]|intros [_ (s' & -> & H)]].
  - exists s. split; [done|]. by left.
  - by apply list_elem_of_singleton in H as ->.
Qed.

Lemma form_roles v : has_form Roles v <-> valid_roles v = true.
Proof.
  split; [by intros [-> | ->]|]. destruct v as [ | | | | |l| | | | ]; try done. unfold valid_roles. intros H. guards.
  match goal with H : Nat.eqb _ _ = true |- _ => apply Nat.eqb_eq in H end. destruct l as [|a [|b [|? ?]]]; try done.
  repeat match goal with H : includes _ _ = true |- _ => apply includes_true in H end.
  match goal with H : all_distinct _ = true |- _ => apply all_distinct_true in H end. simpl. set_solver.
Qed.

(** A field's checks, in the order the contract makes them. *)
Lemma proof_form_checks proof target :
  (exists c, lookup_key EVIDENCE_CONTRACTS target = Some c /\ same_keys proof (keys c) = true /\ contract_checks c proof = true) <->
  exists forms, lookup_key proof_forms target = Some forms /\ same_keys proof (map fst forms) = true /\
    Forall (fun kf => has_form kf.2 (get proof kf.1)) forms.
Proof.
  assert (forall c forms, map fst forms = keys c ->
            (contract_checks c proof = true <-> Forall (fun kf => has_form kf.2 (get proof kf.1)) forms) ->
            (exists c', Some c = Some c' /\ same_keys proof (keys c') = true /\ contract_checks c' proof = true) <->
            exists forms', Some forms = Some forms' /\ same_keys proof (map fst forms') = true /\
              Forall (fun kf => has_form kf.2 (get proof kf.1)) forms') as Hcase.
  { intros c forms Hk [H1 H2]. split.
    - intros (c' & [= <-] & Hs & Hc). exists forms. rewrite Hk. auto.
    - intros (forms' & [= <-] & Hs & Hf). exists c. rewrite <- Hk. auto. }
  unfold EVIDENCE_CONTRACTS, proof_forms. cbn [lookup_key].
  repeat (match goal with |- context [String.eqb ?s target] => destruct (String.eqb s target) end;
    [apply Hcase; [reflexivity|]; clear Hcase; unfold contract_checks;
     cbn -[safeString coerced_test get positive in_range one_of is_int valid_roles has_form];
     rewrite ?andb_true_r, ?andb_true_iff, ?Forall_cons, ?Forall_nil; cbn [fst snd];
     rewrite ?form_roles, ?form_text, ?form_positive, ?(form_named Fingerprint FINGERPRINT),
       ?(form_named Uuid UUID), ?(form_named Sha HASH), ?form_word, ?form_between, ?form_exactly by (done || set_solver);
     tauto|]).
  naive_solver.
Qed.

(** ** What an execution does *)

(** The evidence of an operation: it names the operation, the state and the
    action exactly, and its proof has the form of the target state. *)
Definition evidence_for (status : Status) (action : Action) (evidence : jsval) : Prop :=
  same_keys evidence ENVELOPE_KEYS = true /\ get evidence "version" = JNum (NInt 1) /\
  get evidence "from_state" = state status /\ get evidence "to_state" = JStr (target_state action) /\
  get evidence "action" = JStr (SetupJournal.id action) /\
  get evidence "operation_id" = JStr (operationId status action) /\
  (get evidence "outcome" = JStr "completed" \/ get evidence "outcome" = JStr "already_completed") /\
  valid_proof (get evidence "proof") (target_state action).

Lemma valid_proof_checks proof target :
  NoDup (own_keys proof) -> validateProof proof target = Ok tt <-> valid_proof proof target.
Proof.
  intros Hd. rewrite validateProof_checks by done. unfold valid_proof, has_fields. split.
  - intros (c & Hc & Ho & Hs & Hk). destruct (proj1 (proof_form_checks proof target)) as (forms & Hf & H); [eauto|].
    exists forms. naive_solver.
  - intros (forms & Hf & Ho & Hs & Hk). destruct (proj2 (proof_form_checks proof target)) as (c & Hc & H); [eauto|].
    exists c. naive_solver.
Qed.

(** A plain value: what a handler returns has no two properties of one name. *)
Lemma well_formed_get v k : well_formed v = true -> well_formed (get v k) = true.
Proof.
  destruct v as [ | | | | | |fs| | | ]; try done. cbn [well_formed get]. intros H. guards.
  match goal with H : forallb _ _ = true |- _ => rewrite forallb_elem_of in H; rename H into Hf end.
  destruct (assoc k fs) as [v|] eqn:E; [|done]. exact (Hf _ (assoc_Some_elem _ _ _ E)).
Qed.

Lemma well_formed_keys v : well_formed v = true -> NoDup (own_keys v).
Proof.
  destruct v as [ | | | | | |fs|b| | ]; try (intros; apply NoDup_nil_2). cbn [well_formed own_keys].
  - intros H. guards. by apply all_distinct_true.
  - intros _. cbn [own_keys]. apply NoDup_fmap; [|apply NoDup_seq]. intros i j H.
    apply (inj pretty) in H. by apply Nat2Z.inj.
Qed.

Lemma validateEvidence_ok v action status e :
  well_formed v = true -> validateEvidence v action (operationId status action) (state status) = Ok e ->
  e = v /\ evidence_for status action v.
Proof.
  intros Hw H. unfold validateEvidence, exactKeys in H. inv_result. guards. split; [done|]. unfold evidence_for.
  repeat match goal with
  | H : is_str _ _ = true |- _ => apply is_str_true in H
  | H : is_int _ _ = true |- _ => apply is_int_true in H
  | H : one_of _ _ = true |- _ => apply one_of_true in H as (o & Ho & Hin)
  | H : validateProof _ _ = Ok ?u |- _ => destruct u; rename H into Hp
  end.
  apply valid_proof_checks in Hp; [|by apply well_formed_keys, well_formed_get].
  split_and!; try done. rewrite Ho. unfold OUTCOMES in Hin. set_solver.
Qed.

Section Execution.
Context {J : Type} `{HSha : Sha256} `{HJournal : JournalService J} `{HEnv : Environment J}.

Lemma bind_inv {A B} (m : run A) (f : A -> run B) (j : J) r calls j' :
  bind m f j = (r, calls, j') ->
  (exists e, m j = (Throw e, calls, j') /\ r = Throw e) \/
  exists a c1 j1 c2, m j = (Ok a, c1, j1) /\ f a j1 = (r, c2, j') /\ calls = (c1 ++ c2)%list.
Proof.
  unfold bind. destruct (m j) as [[[a|e] c1] j1].
  - destruct (f a j1) as [[r' c2] j2] eqn:E. intros [= <- <- <-]. right. eauto 10.
  - intros [= <- <- <-]. left. eauto.
Qed.

Lemma call_status_inv (j : J) r calls j' :
  call_status j = (r, calls, j') -> calls = [CallStatus] /\ forall s, r = Ok s -> service_status j = (Ok s, j').
Proof.
  unfold call_status, journal_call. destruct (service_status j) as [[s|e] j1]; intros [= <- <- <-]; split; try done.
  by intros ? [= ->].
Qed.

Lemma of_result_inv {A} (m : result orchestrator_code A) (j : J) r calls j' :
  of_result m j = (r, calls, j') -> calls = [] /\ j' = j /\ forall a, r = Ok a -> m = Ok a.
Proof. unfold of_result, ret, fail. destruct m; intros [= <- <- <-]; split_and!; try done. by intros ? [= ->]. Qed.

(** What leads to the call of a transition: a status of the journal with its
    next action, evidence for exactly them from the handler of the action, and
    a status after the handler that has not moved.  [j] is the journal at the
    call. *)
Definition justified (handlers : list (string * nat)) (start : J) (target : string) (details : jsval)
    (action : Action) (evidence : jsval) (j : J) : Prop :=
  exists status j1 f response j2 latest j3,
    service_status start = (Ok status, j1) /\ head (next_actions status) = Some action /\
    handler_of (SetupJournal.id action) handlers = Some f /\
    run_handler f (context_of status action (operationId status action)) j1 = (Some response, j2) /\
    own_keys response = ["evidence"] /\ get response "evidence" = evidence /\
    evidence_for status action evidence /\ service_status j2 = (Ok latest, j3) /\
    state latest = state status /\ revision latest = revision status /\
    target = target_state action /\ details = commit_details action (operationId status action) evidence /\
    j = interleaved j3.

Lemma evidence_of_ok response e :
  evidence_of response = Ok e -> own_keys response = ["evidence"] /\ get response "evidence" = e.
Proof.
  unfold evidence_of. intros H. inv_result. guards. split; [|done].
  match goal with H : Nat.eqb _ _ = true |- _ => apply Nat.eqb_eq in H; rename H into Hl end.
  destruct response as [ | | | | | |[|[k v] [|? ?]]| | | ]; try done. unfold own_keys. simpl.
  match goal with H : has_own _ _ = true |- _ => unfold has_own in H; apply bool_decide_eq_true in H as [x Hx] end.
  cbn [assoc] in Hx. by destruct (String.eqb_spec "evidence" k) as [<-|].
Qed.

Lemma call_handler_inv f context (j : J) r calls j' :
  call_handler f context j = (r, calls, j') ->
  calls = [CallHandler f context] /\ forall v, r = Ok v -> run_handler f context j = (Some v, j').
Proof.
  unfold call_handler. destruct (run_handler f context j) as [[v|] j1]; intros [= <- <- <-]; split; try done.
  by intros ? [= ->].
Qed.

Definition plain_handlers : Prop := forall f context (j : J) v j', run_handler f context j = (Some v, j') -> well_formed v = true.

(** Calls none of which is a transition. *)
Definition no_transition (calls : list Call) : Prop :=
  Forall (fun c => match c with CallTransition _ _ => False | _ => True end) calls.

Definition not_committed (r : result error Response) : Prop :=
  match r with Ok (Committed _ _ _ _) => False | _ => True end.

(** The outcome of an execution whose last call is a justified transition. *)
Definition commits (handlers : list (string * nat)) (start : J) (r : result error Response) (calls : list Call) (j' : J) : Prop :=
  exists action evidence target details before jt,
    calls = (before ++ [CallTransition target details])%list /\ no_transition before /\
    justified handlers start target details action evidence jt /\
    match service_transition jt target details with
    | (Ok st, jf) => j' = jf /\ exists view, r = Ok (Committed (changed st) view evidence st)
    | (Throw e, jf) => j' = jf /\ r = Throw (Journal e)
    end.

Lemma execute_cases handlers (j : J) r calls j' :
  plain_handlers -> execute handlers j = (r, calls, j') ->
  (no_transition calls /\ not_committed r) \/ commits handlers j r calls j'.
Proof.
  intros Hplain H. unfold execute in H.
  apply bind_inv in H as [(e & [-> _]%call_status_inv & ->)|(status & c1 & j1 & c2 & [-> Hs]%call_status_inv & H & ->)];
    [left; by repeat constructor|]. specialize (Hs _ eq_refl).
  destruct (next_actions status) as [|action rest] eqn:Ea.
  { injection H as <- <- <-. left. by repeat constructor. }
  apply bind_inv in H as [(e & (-> & _)%of_result_inv & ->)|(f & c3 & j2 & c4 & (-> & -> & Hf)%of_result_inv & H & ->)];
    [left; by repeat constructor|]. specialize (Hf _ eq_refl). apply of_option_ok in Hf.
  apply bind_inv in H as [(e & [-> _]%call_handler_inv & ->)|(response & c5 & j3 & c6 & [-> Hh]%call_handler_inv & H & ->)];
    [left; by repeat constructor|]. specialize (Hh _ eq_refl).
  apply bind_inv in H as [(e & (-> & _)%of_result_inv & ->)|(value & c7 & j4 & c8 & (-> & -> & Hv)%of_result_inv & H & ->)];
    [left; by repeat constructor|]. specialize (Hv _ eq_refl). apply evidence_of_ok in Hv as [Hk Hv].
  apply bind_inv in H as [(e & (-> & _)%of_result_inv & ->)|(ev & c9 & j5 & c10 & (-> & -> & He)%of_result_inv & H & ->)];
    [left; by repeat constructor|]. specialize (He _ eq_refl).
  assert (well_formed value = true) as Hw by (subst value; apply well_formed_get; by eapply Hplain).
  destruct (validateEvidence_ok _ _ _ _ Hw He) as [-> Hev].
  apply bind_inv in H as [(e & [-> _]%call_status_inv & ->)|(latest & c11 & j6 & c12 & [-> Hl]%call_status_inv & H & ->)];
    [left; by repeat constructor|]. specialize (Hl _ eq_refl).
  destruct (stale latest status) eqn:Est; [injection H as <- <- <-; left; by repeat constructor|right].
  unfold stale in Est. guards. unfold bind, call_transition, journal_call in H.
  eexists action, value, _, _, [CallStatus; CallHandler _ _; CallStatus], (interleaved j6).
  split; [|split; [by repeat constructor|split]].
  - destruct (service_transition _ _ _) as [[st|e] jf]; injection H as <- <- <-; reflexivity.
  - exists status, j1, f, response, j3, latest, j6. rewrite Ea. split_and!; done.
  - destruct (service_transition _ _ _) as [[st|e] jf]; injection H as <- <- <-; [|done]. split; [done|]. by eexists.
Qed.

Lemma preview_calls handlers (j : J) r calls j' : preview handlers j = (r, calls, j') -> no_transition calls /\ not_committed r.
Proof.
  unfold preview. intros [(e & [-> _]%call_status_inv & ->)|(status & c1 & j1 & c2 & [-> _]%call_status_inv & H & ->)]%bind_inv;
    [by repeat constructor|]. destruct (next_actions status); injection H as <- <- <-; by repeat constructor.
Qed.
End Execution.

(** ** On the setup journal *)

(** The journal of a process [p], at a time given by [clock]. *)
Definition journal_service `{HParse : DateParse} `{HSha : Sha256} (text_size : jsval -> Z) (p : Process) (clock : jsval)
    : JournalService Disk := {|
  service_status := fun d => let '(r, ws) := status text_size p d in (r, apply text_size ws d);
  service_transition := fun d target details =>
    let '(r, ws) := transition text_size p d (JStr target) details JUndefined clock in (r, apply text_size ws d)
|}.

(** ** Properties *)

Section Properties.
Context `{HParse : DateParse} `{HSha : Sha256}.

(** C21: whatever the journal and the handlers do, a request changes the state
    at most once, as its last call, only when asked to execute, and only on
    evidence that the handler of the next action returned for exactly that
    operation (its state, action and identifier, with a proof of the form the
    target state requires), when the state read again after the handler has
    not moved; without such evidence nothing is committed. *)
Theorem commits_are_justified {J : Type} `{HJournal : JournalService J} `{HEnv : Environment J}
    handlers request (j : J) r calls j'
  (Hplain : plain_handlers (J := J)) (Hrun : continue_ handlers request j = (r, calls, j')) :
  (no_transition calls /\ not_committed r) \/ (request = JBool true /\ commits handlers j r calls j').
Proof.
  unfold continue_ in Hrun.
  destruct request as [| |[]| | | | | | | ]; try (injection Hrun as <- <- <-; left; by repeat constructor);
    try (left; by eapply preview_calls).
  destruct (execute_cases _ _ _ _ _ Hplain Hrun); auto.
Qed.

(** [validateProof] accepts exactly the objects that have the fields
    listed for the state, each of the form written there (the generic checks
    by key name and by contract together are equivalent to that table). *)
Theorem validateProof_spec proof targetState (Hplain : well_formed proof = true) :
  validateProof proof targetState = Ok tt <-> valid_proof proof targetState.
Proof. by apply valid_proof_checks, well_formed_keys. Qed.

(** On the setup journal, a request that reports a change leaves a
    journal that extends the one it found by the target state, in an entry
    that records the action, the operation, the outcome and the hash of the
    evidence checked, and that any process then reads. *)
Theorem committed_evidence_recorded text_size p clock `{HEnv : Environment Disk}
    handlers d calls view evidence st d'
  (Hplain : plain_handlers (J := Disk))
  (Hrun : continue_ (HJournal := journal_service text_size p clock) handlers (JBool true) d
            = (Ok (Committed (Some true) view evidence st), calls, d')) :
  exists action opId cur next, target_state action ∈ SETUP_STATES /\ valid_proof (get evidence "proof") (target_state action) /\
    get evidence "operation_id" = JStr opId /\
    continues cur next (target_state action) (commit_details action opId evidence) /\
    load_current text_size d' = (Ok next, []).
Proof.
  destruct (execute_cases (HJournal := journal_service text_size p clock) _ _ _ _ _ Hplain Hrun)
    as [[_ []]|(action & ev & target & details & before & jt & _ & _ & Hj & Hst)].
  destruct Hj as (status & j1 & f & response & j2 & latest & j3 & _ & _ & _ & _ & _ & _ & Hev & _ & _ & _ & -> & -> & _).
  cbn [service_transition journal_service] in Hst. destruct (transition text_size p jt _ _ _ _) as [[st'|e] ws] eqn:Et; [|by destruct Hst].
  destruct Hst as [-> (view' & Hr)]. injection Hr as Hc -> -> ->.
  destruct (transition_advances _ _ _ _ _ _ _ _ _ Et (eq_sym Hc)) as (cur & ws0 & next & _ & Hk & _ & Hload).
  destruct Hev as (_ & _ & _ & _ & _ & Ho & _ & Hp). exists action, (operationId status action), cur, next.
  split_and!; try done. destruct Hk as (_ & _ & _ & _ & (i & _ & Hi) & _).
  by eapply index_in_elem.
Qed.
End Properties.

(** ** Examples *)

Module Example.
#[local] Existing Instance iso_date_parse.
#[local] Existing Instance toy_sha256.

Definition service : JournalService Disk := journal_service Sample.small Sample.second Sample.at_1.

(** Handler 1 verifies the application; nothing else runs. *)
Definition proof_value : jsval := JObj [("application", JStr "AgentPass.app"); ("verification", JStr "notarized")].
Definition envelope (context : jsval) : jsval :=
  JObj [("version", JNum (NInt 1)); ("from_state", get context "current_state"); ("to_state", get context "target_state");
        ("action", get (get context "action") "id"); ("operation_id", get context "operation_id");
        ("outcome", JStr "completed"); ("proof", proof_value)].
Definition handler (f : nat) (context : jsval) (d : Disk) : option jsval * Disk :=
  if well_formed (envelope context) then (Some (JObj [("evidence", envelope context)]), d) else (None, d).
Definition alone : Environment Disk := {| run_handler := handler; interleaved := fun d => d |}.
Definition handlers : list (string * nat) := [("verify_app", 1)].

Definition executed : result error Response * list Call * Disk :=
  @continue_ Disk toy_sha256 service alone handlers (JBool true) Sample.fresh.
Definition outcome_ : result error Response := executed.1.1.
Definition calls : list Call := executed.1.2.
Definition after : Disk := executed.2.

(** A handler that answers with the evidence of another operation. *)
Definition wrong (f : nat) (context : jsval) (d : Disk) : option jsval * Disk :=
  (Some (JObj [("evidence", JObj [("version", JNum (NInt 1)); ("from_state", JStr "not_started"); ("to_state", JStr "app_verified");
     ("action", JStr "verify_app"); ("operation_id", JStr "setup:other:1:verify_app"); ("outcome", JStr "completed");
     ("proof", proof_value)])]), d).
Definition mistaken : Environment Disk := {| run_handler := wrong; interleaved := fun d => d |}.
End Example.

Example rejected_sample :
  (@continue_ Disk toy_sha256 Example.service Example.mistaken Example.handlers (JBool true) Sample.fresh).1.1
    = Throw (Orchestrator EVIDENCE_OPERATION_MISMATCH).
Proof. vm_compute. reflexivity. Qed.

Lemma sample_plain : @plain_handlers Disk Example.alone.
Proof.
  intros f context d v d'. cbn [run_handler Example.alone]. unfold Example.handler.
  destruct (well_formed (Example.envelope context)) eqn:E; [|done]. intros [= <- _]. cbn [well_formed forallb]. cbn [map fst snd].
  by rewrite E.
Qed.

(** The parts of a response that reports a change. *)
Definition parts (r : result error Response) : jsval * jsval * Status :=
  match r with
  | Ok (Committed (Some true) view evidence st) => (view, evidence, st)
  | _ => (JUndefined, JUndefined, statusFromJournal JUndefined None None)
  end.

Definition sample_view : jsval := (parts Example.outcome_).1.1.
Definition sample_evidence : jsval := (parts Example.outcome_).1.2.
Definition sample_status : Status := (parts Example.outcome_).2.

Lemma sample_executed :
  @continue_ Disk toy_sha256 Example.service Example.alone Example.handlers (JBool true) Sample.fresh
    = (Ok (Committed (Some true) sample_view sample_evidence sample_status), Example.calls, Example.after).
Proof. vm_compute. reflexivity. Qed.

Lemma commits_are_justified_witness :
  (no_transition Example.calls /\
   not_committed (Ok (Committed (Some true) sample_view sample_evidence sample_status))) \/
  (JBool true = JBool true /\
   @commits Disk toy_sha256 Example.service Example.alone Example.handlers Sample.fresh
     (Ok (Committed (Some true) sample_view sample_evidence sample_status)) Example.calls Example.after).
Proof.
  exact (@commits_are_justified toy_sha256 Disk Example.service Example.alone Example.handlers (JBool true) Sample.fresh _ _ _
    sample_plain sample_executed).
Defined.

Lemma validateProof_spec_witness :
  validateProof Example.proof_value "app_verified" = Ok tt <-> valid_proof Example.proof_value "app_verified".
Proof. exact (validateProof_spec Example.proof_value "app_verified" eq_refl). Defined.

Lemma committed_evidence_recorded_witness :
  exists action opId cur next, get sample_evidence "operation_id" = JStr opId /\
    @continues iso_date_parse cur next (target_state action) (@commit_details toy_sha256 action opId sample_evidence) /\
    @load_current iso_date_parse toy_sha256 Sample.small Example.after = (Ok next, []).
Proof.
  destruct (@committed_evidence_recorded iso_date_parse toy_sha256 Sample.small Sample.second Sample.at_1 Example.alone
    Example.handlers Sample.fresh Example.calls sample_view sample_evidence sample_status Example.after sample_plain sample_executed)
    as (action & opId & cur & next & _ & _ & H1 & H2 & H3).
  exists action, opId, cur, next. exact (conj H1 (conj H2 H3)).
Defined.
