(* ===== verification/CapabilityState.v ===== *)
(** * The durable capability ledger (lib/capability-state.mjs)

    The ledger records, for every agent, the highest sequence accepted with
    the hash of its capability, and for every capability in use the request
    that consumed it.  The state is kept as two finite maps; the file holds
    its JSON form, read back through [validateState].  The ledger is
    serialized by a lock file, modelled twice: as the outcome of an
    acquisition on what it finds, and as a transition system of several
    processes whose file operations interleave. *)

From stdpp Require Import base tactics sets list gmap strings.
From Stdlib Require Import Ascii.
From S2P Require Import Prelude JsValue Regex IsoTime Json Crypto Scope Capability FileSystem.
Local Open Scope string_scope.
Local Open Scope js_scope.

(** ** Data *)

Definition VERSION : Z := 1.
Definition MAX_BYTES : Z := 1048576.
Definition MAX_CONSUMED : nat := 4096.
Definition UUID : re :=
  seqs [times hex_any 8; lit "-"; times hex_any 4; lit "-"; one (between "1" "8"); times hex_any 3; lit "-";
        one (in_chars "89abAB"); times hex_any 3; lit "-"; times hex_any 12].
Definition SHA256 : re := times hex_lower 64.

(** The fields that are tested by an expression are kept as they are: the
    test converts them to text. *)
Record Head := mkHead { highest_sequence : Z; highest_capability_hash : jsval }.

Record Consumed := mkConsumed {
  agent_id : jsval; request_id : jsval; sequence : Z; envelope_hash : jsval; expires_at : jsval
}.

#[export] Instance consumed_eq_dec : EqDecision Consumed.
Proof. solve_decision. Defined.

Record State := mkState { agents : gmap string Head; consumed : gmap string Consumed }.

Inductive ledger_error :=
| INPUT | EVIDENCE | CLOCK | CONSUMED | ROLLED_BACK | CONFLICT | FULL | NOT_CANONICAL
| STATE_INVALID | LEDGER_TOO_LARGE | SEQUENCE_INVALID | REPLAY_INVALID
| PATH_INVALID | PARENT_UNSAFE | FILE_UNSAFE | STORAGE_UNSAFE
| LOCK_INVALID | LOCK_UNSAFE | LOCKED | LOCK_FAILED | LOCK_CHANGED | LOCK_OWNERSHIP.

#[export] Instance ledger_error_eq_dec : EqDecision ledger_error.
Proof. solve_decision. Defined.

Definition emptyState : State := mkState ∅ ∅.

(** ** The JSON form *)

Definition head_js (h : Head) : jsval :=
  JObj [("highest_sequence", JNum (NInt (highest_sequence h))); ("highest_capability_hash", highest_capability_hash h)].

Definition consumed_js (r : Consumed) : jsval :=
  JObj [("agent_id", agent_id r); ("request_id", request_id r); ("sequence", JNum (NInt (sequence r)));
        ("envelope_hash", envelope_hash r); ("expires_at", expires_at r)].

Definition state_js (s : State) : jsval :=
  JObj [("version", JNum (NInt VERSION)); ("agents", JObj (map_to_list (head_js <$> agents s)));
        ("consumed", JObj (map_to_list (consumed_js <$> consumed s)))].

Section Ledger.
Context `{HParse : DateParse} `{HSha : Sha256}.

(** [Date.parse(value)], which converts its argument to text. *)
Definition parse_date (v : jsval) : option Z := match to_string v with Some s => date_parse s | None => None end.

Definition validate_head (kv : string * jsval) : result ledger_error (string * Head) :=
  let '(agentId, head) := kv in
  throw_if negb (re_test UUID agentId) || negb (is_plain head)
           || negb (same_keys head ["highest_sequence"; "highest_capability_hash"]) with SEQUENCE_INVALID ;;
  n ← of_option SEQUENCE_INVALID (safe_integer (get head "highest_sequence"));
  let hash := get head "highest_capability_hash" in
  throw_if (n <? 0)%Z || (negb (bool_decide (hash = JNull)) && negb (coerced_test SHA256 hash)) with SEQUENCE_INVALID ;;
  Ok (agentId, mkHead n hash).

Definition validate_consumed (kv : string * jsval) : result ledger_error (string * Consumed) :=
  let '(capabilityId, record) := kv in
  throw_if negb (re_test UUID capabilityId) || negb (is_plain record)
           || negb (same_keys record ["agent_id"; "request_id"; "sequence"; "envelope_hash"; "expires_at"])
           || negb (coerced_test UUID (get record "agent_id")) || negb (coerced_test UUID (get record "request_id"))
    with REPLAY_INVALID ;;
  n ← of_option REPLAY_INVALID (safe_integer (get record "sequence"));
  throw_if (n <? 1)%Z || negb (coerced_test SHA256 (get record "envelope_hash"))
           || negb (bool_decide (is_Some (parse_date (get record "expires_at")))) with REPLAY_INVALID ;;
  Ok (capabilityId, mkConsumed (get record "agent_id") (get record "request_id") n (get record "envelope_hash")
                      (get record "expires_at")).

(** [Object.entries(value)] of a plain object. *)
Definition entries (v : jsval) : list (string * jsval) := match v with JObj fs => fs | _ => [] end.

Definition validateState (v : jsval) : result ledger_error State :=
  throw_if negb (is_plain v) || negb (same_keys v ["version"; "agents"; "consumed"]) || negb (is_int (get v "version") VERSION)
           || negb (is_plain (get v "agents")) || negb (is_plain (get v "consumed")) with STATE_INVALID ;;
  throw_if Nat.ltb MAX_CONSUMED (length (own_keys (get v "consumed"))) with LEDGER_TOO_LARGE ;;
  heads ← map_result validate_head (entries (get v "agents"));
  records ← map_result validate_consumed (entries (get v "consumed"));
  Ok (mkState (list_to_map heads) (list_to_map records)).

(** ** Reserving a use *)

(** A value used as a property name. *)
Definition key (v : jsval) : string := default "" (to_string v).

Definition no_head : Head := mkHead 0 JNull.

(** [Date.parse(record.expires_at) <= nowMs]; [NaN] is not. *)
Definition expired (nowMs : Z) (r : Consumed) : bool :=
  match parse_date (expires_at r) with Some t => (t <=? nowMs)%Z | None => false end.

Definition prune (nowMs : Z) (m : gmap string Consumed) : gmap string Consumed :=
  filter (fun kr => expired nowMs kr.2 = false) m.

(** The arguments after the checks of their form: the key of the capability,
    its sequence, and the clock. *)
Definition check_input (capability agentId requestId : jsval) (now : jsnum) : result ledger_error (string * Z * Z) :=
  throw_if negb (truthy capability && (is_object capability || match capability with JArr _ => true | _ => false end))
           || negb (coerced_test UUID (nullish (get capability "capability_id") (JStr "")))
           || negb (coerced_test UUID (nullish agentId (JStr ""))) || negb (coerced_test UUID (nullish requestId (JStr "")))
    with INPUT ;;
  n ← of_option EVIDENCE (safe_integer (get capability "sequence"));
  throw_if (n <? 1)%Z || negb (bool_decide (is_Some (as_str (get capability "expires_at")))) with EVIDENCE ;;
  nowMs ← of_option CLOCK (safe_integer (JNum now));
  throw_if (nowMs <? 0)%Z with CLOCK ;;
  Ok (key (get capability "capability_id"), n, nowMs).

(** The checks made before the file is written, and the state written. *)
Definition reserve_in (state : State) (capability agentId requestId : jsval) (now : jsnum)
    : result ledger_error (bool * State) :=
  '(id, n, nowMs) ← check_input capability agentId requestId now;
  match consumed state !! id with
  | Some existing =>
      if bool_decide (request_id existing = requestId) && bool_decide (agent_id existing = agentId)
      then Ok (true, state)
      else Throw CONSUMED
  | None =>
      envelope ← or_throw (canonicalValue capability) NOT_CANONICAL;
      let envelopeHash := JStr (sha256 envelope) in
      let previous := default no_head (agents state !! key agentId) in
      throw_if (n <? highest_sequence previous)%Z with ROLLED_BACK ;;
      throw_if Z.eqb n (highest_sequence previous) && negb (bool_decide (highest_capability_hash previous = envelopeHash))
        with CONFLICT ;;
      let agents' := <[key agentId := mkHead n envelopeHash]> (agents state) in
      let live := prune nowMs (consumed state) in
      throw_if Nat.leb MAX_CONSUMED (size live) with FULL ;;
      let record := mkConsumed agentId requestId n envelopeHash (get capability "expires_at") in
      let next := mkState agents' (<[id := record]> live) in
      _ ← validateState (state_js next);
      Ok (false, next)
  end.
End Ledger.

(** ** The file and its lock *)

(** An entry of the directory; [resolves] says that [existsSync], which follows
    links, finds something. *)
Record Node := mkNode { resolves : bool; node : File }.

(** The parent is a symbolic link; the ledger; its lock. *)
Record Store := mkStore { linked_parent : bool; ledger : option Node; lock : option File }.

(** [process.kill(pid, 0)] *)
Inductive Probe := Alive | ESRCH | OtherError.

(** The process: its identifier, the token it draws, and what it learns of
    other processes. *)
Record Owner := mkOwner { pid : Z; token : string; probe : Z -> Probe }.

Section Storage.
Context `{HParse : DateParse} `{HSha : Sha256}.
(** The bytes of the text written for a value: one per character, the values
    written being ASCII, and a line feed. *)
Definition text_size (v : jsval) : Z := Z.of_nat (S (String.length (canonicalJson v))).

Definition is_absolute (s : string) : bool := match s with String c _ => Ascii.eqb c "/" | EmptyString => false end.

Definition existing (s : Store) : option File :=
  match ledger s with Some n => if resolves n then Some (node n) else None | None => None end.

Definition assertPath (file : jsval) (s : Store) : result ledger_error unit :=
  throw_if negb (match file with JStr p => is_absolute p | _ => false end) with PATH_INVALID ;;
  throw_if linked_parent s with PARENT_UNSAFE ;;
  throw_if match existing s with Some f => isSymbolicLink (stat f) | None => false end with FILE_UNSAFE ;;
  Ok tt.

Definition loadCapabilityState (file : jsval) (s : Store) : result ledger_error State :=
  _ ← assertPath file s;
  match existing s with
  | None => Ok emptyState
  | Some f =>
      throw_if negb (isFile (stat f)) || isSymbolicLink (stat f) || (MAX_BYTES <? byte_size (stat f))%Z
               || negb (owned (stat f)) || permissive (stat f) with STORAGE_UNSAFE ;;
      parsed ← of_option STATE_INVALID (content f);
      validateState parsed
  end.

(** [atomicWrite] of the validated state. *)
Definition write_state (v : jsval) (s : Store) : Store :=
  mkStore (linked_parent s) (Some (mkNode true (mkFile (private_file (text_size v)) (Some v)))) (lock s).

Definition saveCapabilityState (state : State) (s : Store) : result ledger_error Store :=
  _ ← validateState (state_js state); Ok (write_state (state_js state) s).

Definition lock_record (p : Owner) : jsval := JObj [("pid", JNum (NInt (pid p))); ("token", JStr (token p))].
Definition with_lock (l : option File) (s : Store) : Store := mkStore (linked_parent s) (ledger s) l.

(** One attempt: the lock taken ([true]), or a dead owner's lock removed. *)
Definition attempt (p : Owner) (s : Store) : result ledger_error (bool * Store) :=
  match lock s with
  | None => Ok (true, with_lock (Some (mkFile (private_file (text_size (lock_record p))) (Some (lock_record p)))) s)
  | Some f =>
      record ← of_option LOCK_INVALID (content f);
      throw_if negb (isFile (stat f)) || isSymbolicLink (stat f) || negb (Z.eqb (nlink (stat f)) 1) || permissive (stat f)
               || negb (owned (stat f)) || negb (bool_decide (is_Some (as_str (get record "token")))) with LOCK_UNSAFE ;;
      holder ← of_option LOCK_UNSAFE (safe_integer (get record "pid"));
      match probe p holder with
      | ESRCH => Ok (false, with_lock None s)
      | Alive | OtherError => Throw LOCKED
      end
  end.

(** [others] is what other processes do between two attempts. *)
Fixpoint acquire_attempts (n : nat) (others : Store -> Store) (p : Owner) (s : Store) : result ledger_error Store :=
  match n with
  | 0 => Throw LOCK_FAILED
  | S n =>
      match attempt p s with
      | Ok (true, s) => Ok s
      | Ok (false, s) => acquire_attempts n others p (others s)
      | Throw e => Throw e
      end
  end.

Definition acquireCapabilityLock := acquire_attempts 2.

Definition releaseCapabilityLock (p : Owner) (s : Store) : result ledger_error Store :=
  record ← of_option LOCK_CHANGED (match lock s with Some f => content f | None => None end);
  throw_if negb (is_int (get record "pid") (pid p)) || negb (is_str (get record "token") (token p)) with LOCK_OWNERSHIP ;;
  Ok (with_lock None s).

(** [reserveCapabilityUse]: the result and the store it leaves; whatever
    happens after the lock is taken, it is released, and an error of the
    release replaces the result. *)
Definition locked_reserve (file capability agentId requestId : jsval) (now : jsnum) (s : Store)
    : result ledger_error (bool * State) * Store :=
  let r := state ← loadCapabilityState file s; reserve_in state capability agentId requestId now in
  match r with
  | Ok (true, state) => (Ok (true, state), s)
  | Ok (false, state) => (Ok (false, state), write_state (state_js state) s)
  | Throw e => (Throw e, s)
  end.

Definition reserveCapabilityUse (p : Owner) (others : Store -> Store) (file capability agentId requestId : jsval) (now : jsnum)
    (s : Store) : result ledger_error (bool * State) * Store :=
  let acquired := _ ← check_input capability agentId requestId now; acquireCapabilityLock others p s in
  match acquired with
  | Throw e => (Throw e, s)
  | Ok s =>
      let '(r, s) := locked_reserve file capability agentId requestId now s in
      match releaseCapabilityLock p s with
      | Ok s => (r, s)
      | Throw e => (Throw e, s)
      end
  end.
End Storage.

(** ** Round trip of the state *)

Section RoundTrip.
Context `{HParse : DateParse}.


Lemma validate_consumed_js k r kr : validate_consumed (k, consumed_js r) = Ok kr -> kr = (k, r).
Proof.
  unfold validate_consumed. intros H. inv_result. match goal with H : safe_integer _ = Some _ |- _ => apply safe_integer_Some in H as [H _] end.
  destruct r. cbn in *. by simplify_eq.
Qed.



(** A state of valid entries is read back. *)
Lemma validateState_valid (s : State) :
  (forall k h, agents s !! k = Some h -> validate_head (k, head_js h) = Ok (k, h)) ->
  (forall k r, consumed s !! k = Some r -> validate_consumed (k, consumed_js r) = Ok (k, r)) ->
  size (consumed s) <= MAX_CONSUMED -> validateState (state_js s) = Ok s.
Proof.
  intros Ha Hc Hs.
  assert (forall A (js : A -> jsval) f (m : gmap string A), (forall k a, m !! k = Some a -> f (k, js a) = Ok (k, a)) ->
            map_result (E := ledger_error) f (map_to_list (js <$> m)) = Ok (map_to_list m)) as Hmap.
  { intros A js f m Hf. apply map_result_ok. rewrite map_to_list_fmap. apply Forall2_fmap_l, Forall_Forall2_diag, Forall_forall.
    intros [k a] Hk%elem_of_map_to_list. by apply Hf. }
  unfold validateState. change (own_keys (get (state_js s) "consumed")) with (map fst (map_to_list (consumed_js <$> consumed s))).
  change (entries (get (state_js s) "agents")) with (map_to_list (head_js <$> agents s)).
  change (entries (get (state_js s) "consumed")) with (map_to_list (consumed_js <$> consumed s)).
  rewrite (Hmap _ _ _ _ Ha), (Hmap _ _ _ _ Hc), length_map, length_map_to_list, map_size_fmap, (proj2 (Nat.ltb_ge _ _) Hs).
  cbn. rewrite !list_to_map_to_list. by destruct s.
Qed.
End RoundTrip.

(** ** Reservations *)

Section Reservations.
Context `{HParse : DateParse} `{HSha : Sha256}.

#[local] Arguments validateState : simpl never.
#[local] Arguments check_input : simpl never.
#[local] Arguments canonicalValue : simpl never.
#[local] Arguments coerced_test : simpl never.
#[local] Arguments safe_integer : simpl never.


















(** *** Properties *)


End Reservations.

(** ** The size of the file *)

Section Size.
Context `{HParse : DateParse} `{HSha : Sha256}.

(** A record whose fields are strings, its expiry in the form with
    milliseconds that verified capabilities have. *)
Definition text_record (r : Consumed) : Prop :=
  (exists s, agent_id r = JStr s) /\ (exists s, request_id r = JStr s) /\ (exists s, envelope_hash r = JStr s) /\
  (exists s, expires_at r = JStr s /\ 24 <= String.length s).

Lemma pattern_length r n v s : v = JStr s -> coerced_test r v = true -> min_len r = n -> n <= String.length s.
Proof.
  intros ->. unfold coerced_test. cbn [to_string]. intros H%re_test_spec <-. rewrite <- length_chars. by apply matches_min_len.
Qed.

Lemma length_string s : String.length s + 2 <= String.length (canonicalJson (JStr s)).
Proof. apply length_quote. Qed.

Lemma length_integer z : 1 <= String.length (canonicalJson (JNum (NInt z))).
Proof.
  cbn [canonicalJson stringify_scalar num_to_string].
  destruct (pretty_Z_cases z) as [(n & _ & ->)|(n & _ & _ & ->)]; [|cbn [String.length]; lia].
  destruct (pretty_N_numeral n) as [[->|(c & r & -> & _)] _]; cbn [String.length]; lia.
Qed.

Lemma consumed_length k r :
  validate_consumed (k, consumed_js r) = Ok (k, r) -> text_record r ->
  279 <= String.length k + 4 + String.length (canonicalJson (consumed_js r)).
Proof.
  unfold validate_consumed. intros H ((sa & Ha) & (sq & Hq) & (sh & Hh) & (se & He & Hel)). inv_result. guards.
  assert (36 <= String.length k) as Hk by (eapply (pattern_length UUID 36 (JStr k)); done).
  assert (36 <= String.length sa) by (eapply (pattern_length UUID 36); [exact Ha|done|done]).
  assert (36 <= String.length sq) by (eapply (pattern_length UUID 36); [exact Hq|done|done]).
  assert (64 <= String.length sh) by (eapply (pattern_length SHA256 64); [exact Hh|done|done]).
  destruct r as [ag rq n ha ex]. simpl in Ha, Hq, Hh, He. subst.
  etransitivity; [|apply Nat.add_le_mono_l, length_object].
  cbn [total fst snd]. pose proof (length_string sa). pose proof (length_string sq). pose proof (length_string sh).
  pose proof (length_string se). pose proof (length_integer n).
  cbn [String.length agent_id request_id sequence envelope_hash expires_at]. lia.
Qed.

Lemma consumed_entries (s : State) :
  validateState (state_js s) = Ok s ->
  forall k r, consumed s !! k = Some r -> validate_consumed (k, consumed_js r) = Ok (k, r).
Proof.
  unfold validateState. intros H k r Hk. do 2 (match type of H with (if ?b then _ else _) = _ => destruct b; [done|] end).
  apply bind_ok in H as (heads & _ & H). apply bind_ok in H as (records & Hf%map_result_ok & _).
  assert ((k, consumed_js r) ∈ entries (get (state_js s) "consumed")) as Hin.
  { cbn. apply elem_of_map_to_list. by rewrite lookup_fmap, Hk. }
  apply list_elem_of_lookup in Hin as [i Hi]. destruct (Forall2_lookup_l _ _ _ _ _ Hf Hi) as (kr & _ & Hkr).
  by rewrite Hkr, (validate_consumed_js _ _ _ Hkr).
Qed.

(** The file can outgrow the limit it is read with before the ledger is
    full: every state with 3759 records of verified capabilities (the limit is
    4096) passes the checks made before it is written, but its text exceeds a
    mebibyte, and from then on every load fails with [STORAGE_UNSAFE]. *)
Theorem ledger_outgrows_file state file s
  (Hvalid : validateState (state_js state) = Ok state) (Hrecords : map_Forall (fun _ => text_record) (consumed state))
  (Hsize : (3759 <= Z.of_nat (size (consumed state)))%Z) (Hpath : assertPath file (write_state (state_js state) s) = Ok tt) :
  saveCapabilityState state s = Ok (write_state (state_js state) s) /\
  (MAX_BYTES < text_size (state_js state))%Z /\
  loadCapabilityState file (write_state (state_js state) s) = Throw STORAGE_UNSAFE.
Proof.
  assert (279 * size (consumed state) <= String.length (canonicalJson (state_js state))) as Hlen.
  { unfold state_js.
    etransitivity; [|apply length_object]. cbn [total fst snd].
    pose proof (length_object (map_to_list (consumed_js <$> consumed state))) as Ho.
    assert (279 * size (consumed state) <= total (fun kv => String.length kv.1 + 4 + String.length (canonicalJson kv.2))
              (map_to_list (consumed_js <$> consumed state))) as Ht; [|lia].
    replace (size (consumed state)) with (length (map_to_list (consumed_js <$> consumed state))).
    2: { rewrite length_map_to_list. apply map_size_fmap. }
    apply total_le. intros [k v] Hkv%elem_of_map_to_list. rewrite lookup_fmap in Hkv.
    destruct (consumed state !! k) as [r|] eqn:Er; [|done]. injection Hkv as <-.
    exact (consumed_length _ _ (consumed_entries _ Hvalid _ _ Er) (Hrecords _ _ Er)). }
  assert (MAX_BYTES < text_size (state_js state))%Z as Hbig.
  { unfold MAX_BYTES, text_size. lia. }
  split; [unfold saveCapabilityState; by rewrite Hvalid|]. split; [done|].
  unfold loadCapabilityState. rewrite Hpath. cbn. by rewrite (proj2 (Z.ltb_lt _ _) Hbig).
Qed.
End Size.

(** ** The lock under interleaving

    The file operations of [acquireCapabilityLock] and [releaseCapabilityLock],
    one per step: the lock file is created empty and then filled, read, and
    removed; a process that has seen the record of a dead owner removes
    whatever the lock file is by then. *)

Module Protocol.
Section Protocol.
(** The processes that are running. *)
Variable alive : Z -> bool.

Inductive Phase :=
| Trying (attempts : nat) | Filling | Inspecting (attempts : nat) (holder : Z) | Unlinking (attempts : nat)
| Holding | Released | Failed.

(** The lock file: who created it, and whether its record is written. *)
Record System := mkSystem { cell : option (Z * bool); phase : Z -> Phase }.

Definition set_phase (s : System) (c : option (Z * bool)) (p : Z) (ph : Phase) : System :=
  mkSystem c (fun q => if Z.eqb q p then ph else phase s q).

Inductive step (s : System) : System -> Prop :=
| s_create p n : phase s p = Trying (S n) -> cell s = None -> step s (set_phase s (Some (p, false)) p Filling)
| s_fill p : phase s p = Filling -> cell s = Some (p, false) -> step s (set_phase s (Some (p, true)) p Holding)
| s_fill_orphan p : phase s p = Filling -> cell s <> Some (p, false) -> step s (set_phase s (cell s) p Holding)
| s_read p n q : phase s p = Trying (S n) -> cell s = Some (q, true) -> step s (set_phase s (cell s) p (Inspecting n q))
| s_read_empty p n q : phase s p = Trying (S n) -> cell s = Some (q, false) -> step s (set_phase s (cell s) p Failed)
| s_live p n q : phase s p = Inspecting n q -> alive q = true -> step s (set_phase s (cell s) p Failed)
| s_dead p n q : phase s p = Inspecting n q -> alive q = false -> step s (set_phase s (cell s) p (Unlinking n))
| s_unlink p n c : phase s p = Unlinking n -> cell s = Some c -> step s (set_phase s None p (Trying n))
| s_unlink_missing p n : phase s p = Unlinking n -> cell s = None -> step s (set_phase s None p Failed)
| s_exhausted p : phase s p = Trying 0 -> step s (set_phase s (cell s) p Failed)
| s_release p : phase s p = Holding -> cell s = Some (p, true) -> step s (set_phase s None p Released)
| s_release_lost p : phase s p = Holding -> cell s <> Some (p, true) -> step s (set_phase s (cell s) p Failed).

(** The running processes are about to try; the lock is as found. *)
Definition initial (c : option (Z * bool)) (s : System) : Prop :=
  cell s = c /\ forall p, phase s p = (if alive p then Trying 2 else Released).

Definition inside (ph : Phase) : bool := match ph with Filling | Holding => true | _ => false end.

(** Who is inside has its own lock file in place, and nobody removes one. *)
Definition orderly (s : System) : Prop :=
  (forall q b, cell s = Some (q, b) -> alive q = true) /\
  forall p, match phase s p with
            | Filling => cell s = Some (p, false) /\ alive p = true
            | Holding => cell s = Some (p, true) /\ alive p = true
            | Trying _ => alive p = true
            | Inspecting _ q => alive q = true
            | Unlinking _ => False
            | Released | Failed => True
            end.

Lemma orderly_step s t : orderly s -> step s t -> orderly t.
Proof.
  intros [Hc Hp] Hs. assert (forall p c ph,
    (forall q b, c = Some (q, b) -> alive q = true) ->
    (forall q, q <> p -> inside (phase s q) = true -> c = cell s) ->
    match ph with Filling => c = Some (p, false) /\ alive p = true | Holding => c = Some (p, true) /\ alive p = true
                | Trying _ => alive p = true | Inspecting _ q => alive q = true | Unlinking _ => False | _ => True end ->
    orderly (set_phase s c p ph)) as Hset.
  { intros p c ph H1 H2 H3. split; [done|]. intros q. cbn. destruct (Z.eqb_spec q p) as [->|Hq]; [done|].
    specialize (Hp q). specialize (H2 q Hq). destruct (phase s q); try done; cbn in H2; by rewrite H2. }
  assert (forall p b q, cell s = Some (p, b) -> q <> p -> inside (phase s q) = true -> False) as Hne.
  { intros p b q Hcell Hq Hin. specialize (Hp q). destruct (phase s q); try done; destruct Hp; congruence. }
  assert (forall q, cell s = None -> inside (phase s q) = true -> False) as Hno.
  { intros q Hcell Hin. specialize (Hp q). destruct (phase s q); try done; destruct Hp; congruence. }
  destruct Hs as [p n Hph Hcell|p Hph Hcell|p Hph Hcell|p n q Hph Hcell|p n q Hph Hcell|p n q Hph Ha|p n q Hph Ha|
    p n c Hph Hcell|p n Hph Hcell|p Hph|p Hph Hcell|p Hph Hcell]; pose proof (Hp p) as Hpp; rewrite Hph in Hpp;
    apply Hset; try done; try (by destruct Hpp); try (by (intros; exfalso; eauto)); try (intros; by simplify_eq);
    try (by rewrite Hcell in Hc; eapply Hc); try congruence.
  intros q b [= <- <-]. by destruct Hpp.
Qed.

(** From a directory without a lock, or with the lock of a running process,
    at most one process is between taking and releasing it. *)
Lemma mutual_exclusion c s p q :
  (forall o b, c = Some (o, b) -> alive o = true) -> reach (initial c) step s ->
  inside (phase s p) = true -> inside (phase s q) = true -> p = q.
Proof.
  intros Hc Hr. assert (orderly s) as [_ Ho].
  { apply (reach_invariant _ _ orderly) in Hr; [done| |by intros ?? _; apply orderly_step].
    intros s0 [Hcell Hph]. split; [by rewrite Hcell|]. intros r. rewrite Hph. by destruct (alive r) eqn:E. }
  intros Hp Hq.
  pose proof (Ho p) as H1. pose proof (Ho q) as H2. destruct (phase s p), (phase s q); try done; destruct H1, H2; congruence.
Qed.
End Protocol.

(** Two running processes, and the lock of a third that has ended. *)
Definition both_alive (p : Z) : bool := Z.eqb p 1 || Z.eqb p 2.
Definition stale : System := mkSystem (Some (9%Z, true)) (fun p => if both_alive p then Trying 2 else Released).

(** One more step of a run. *)
Ltac advance c :=
  match goal with H : reach _ _ ?s |- _ => apply (fun H => reach_step _ _ s _ H (c s eq_refl eq_refl)) in H end.

(** The interleaving in which both have seen the dead owner before either
    removes the file: the second removes the lock the first has taken. *)
Lemma stale_lock_two_holders :
  exists s, reach (initial both_alive (Some (9%Z, true))) (step both_alive) s /\ phase s 1%Z = Holding /\ phase s 2%Z = Holding.
Proof.
  assert (reach (initial both_alive (Some (9%Z, true))) (step both_alive) stale) as H by (apply reach_init; exact (conj eq_refl (fun _ => eq_refl))).
  advance (fun s => s_read both_alive s 1%Z 1 9%Z).
  advance (fun s => s_read both_alive s 2%Z 1 9%Z).
  advance (fun s => s_dead both_alive s 1%Z 1 9%Z).
  advance (fun s => s_dead both_alive s 2%Z 1 9%Z).
  advance (fun s => s_unlink both_alive s 1%Z 1 (9%Z, true)).
  advance (fun s => s_create both_alive s 1%Z 0).
  advance (fun s => s_fill both_alive s 1%Z).
  advance (fun s => s_unlink both_alive s 2%Z 1 (1%Z, true)).
  advance (fun s => s_create both_alive s 2%Z 0).
  advance (fun s => s_fill both_alive s 2%Z).
  eexists. split; [exact H|]. by split.
Qed.
End Protocol.

(** ** Examples *)

Module Examples.
#[local] Existing Instance iso_date_parse.
#[local] Existing Instance toy_sha256.

Definition agent : jsval := JStr "7e57c0de-0000-4000-8000-00000000000a".
Definition request (n : Z) : jsval := JStr ("7e57c0de-0000-4000-8000-" +:+ digits 12 n).
Definition capability : jsval :=
  JObj [("capability_id", JStr "7e57c0de-0000-4000-8000-0000000000ca"); ("sequence", JNum (NInt 3));
        ("expires_at", JStr "2024-05-01T10:00:00.000Z")].
Definition file : jsval := JStr "/home/user/.agentpass/capability-state.json".
Definition before : jsnum := NInt 1714557000000.
Definition process : Owner := mkOwner 100 "token" (fun _ => ESRCH).
Definition empty : Store := mkStore false None None.
Definition alone (s : Store) : Store := s.

Definition first : result ledger_error (bool * State) * Store :=
  reserveCapabilityUse process alone file capability agent (request 1) before empty.
Definition stored : Store := first.2.

(** A ledger of many records. *)
Definition record (n : Z) : Consumed :=
  mkConsumed agent (request n) 1 (JStr (@sha256 toy_sha256 "")) (JStr "2024-05-01T10:00:00.000Z").
Definition uuid (n : Z) : string := "7e57c0de-0000-4000-8000-" +:+ digits 12 n.
Definition rows : list (string * Consumed) := map (fun n => (uuid (Z.of_nat n), record (Z.of_nat n))) (seq 0 3759).
Definition large : State := mkState ∅ (list_to_map rows).
End Examples.

Example reused_sample :
  (@reserveCapabilityUse iso_date_parse toy_sha256 Examples.process Examples.alone Examples.file Examples.capability
    Examples.agent (Examples.request 2) Examples.before Examples.stored).1 = Throw CONSUMED.
Proof. vm_compute. reflexivity. Qed.




Lemma uuid_inj n m : (0 <= n < 10 ^ 12)%Z -> (0 <= m < 10 ^ 12)%Z -> Examples.uuid n = Examples.uuid m -> n = m.
Proof.
  intros Hn Hm H. apply (f_equal (String.substring 24 12)) in H.
  assert (forall k, String.substring 24 12 (Examples.uuid k) = digits 12 k) as Hs by reflexivity.
  rewrite !Hs in H. rewrite <- (digits_value_digits 12 n), <- (digits_value_digits 12 m) by done. by rewrite H.
Qed.

Lemma rows_distinct : NoDup (Examples.rows.*1).
Proof.
  unfold Examples.rows. rewrite <- list_fmap_compose. apply NoDup_fmap_2_strong; [|apply NoDup_seq].
  intros i j Hi%elem_of_seq Hj%elem_of_seq H. apply Nat2Z.inj. eapply uuid_inj; [..|exact H]; lia.
Qed.

(** Every one of the identifiers is a UUID. *)
Lemma digits_class n z : matches (times hex_any n) (digits n z).
Proof.
  assert (Forall (fun c => hex_any c = true) (chars (digits n z)) /\ length (chars (digits n z)) = n) as [Hf Hl].
  { revert z. induction n as [|n IH]; intros z; [done|]. cbn [digits]. rewrite chars_app, length_app. destruct (IH (z / 10)%Z) as [Hf ->].
    split; [|cbn; lia]. apply Forall_app. split; [done|]. constructor; [|done].
    pose proof (Z.mod_pos_bound z 10 ltac:(lia)) as Hm. unfold digit_char.
    assert (Z.to_nat (z mod 10) < 10) as Hn by lia. revert Hn. generalize (Z.to_nat (z mod 10)). intros k Hk.
    do 10 (destruct k as [|k]; [reflexivity|]). lia. }
  constructor; [done|lia..].
Qed.

Lemma uuid_class n : matches UUID (Examples.uuid n).
Proof.
  change (Examples.uuid n) with ("7e57c0de" +:+ "-" +:+ "0000" +:+ "-" +:+ "4" +:+ "000" +:+ "-" +:+ "8" +:+ "000" +:+ "-" +:+ digits 12 n).
  unfold UUID, seqs. repeat (apply m_seq; [apply re_test_spec; vm_compute; reflexivity|]). apply digits_class.
Qed.

Lemma large_lookup k r : consumed Examples.large !! k = Some r -> (k, r) ∈ Examples.rows.
Proof. apply elem_of_list_to_map_2. Qed.

Lemma row_valid k r : (k, r) ∈ Examples.rows -> @validate_consumed iso_date_parse (k, consumed_js r) = Ok (k, r).
Proof.
  intros (n & [= -> ->] & _)%list_elem_of_fmap. pose proof (proj2 (re_test_spec _ _) (uuid_class (Z.of_nat n))) as Hu.
  unfold validate_consumed. rewrite Hu.
  change (get (consumed_js (Examples.record (Z.of_nat n))) "request_id") with (JStr (Examples.uuid (Z.of_nat n))).
  change (coerced_test UUID (JStr (Examples.uuid (Z.of_nat n)))) with (re_test UUID (Examples.uuid (Z.of_nat n))). rewrite Hu.
  assert (coerced_test UUID Examples.agent = true) as Ha by (vm_compute; reflexivity).
  change (get (consumed_js (Examples.record (Z.of_nat n))) "agent_id") with Examples.agent. rewrite Ha.
  assert (coerced_test SHA256 (JStr (@sha256 toy_sha256 "")) = true) as Hh by (vm_compute; reflexivity).
  change (get (consumed_js (Examples.record (Z.of_nat n))) "envelope_hash") with (JStr (@sha256 toy_sha256 "")). rewrite Hh.
  assert (bool_decide (is_Some (@parse_date iso_date_parse (JStr "2024-05-01T10:00:00.000Z"))) = true) as He by (vm_compute; reflexivity).
  change (get (consumed_js (Examples.record (Z.of_nat n))) "expires_at") with (JStr "2024-05-01T10:00:00.000Z"). rewrite He.
  reflexivity.
Qed.

Lemma large_records : map_Forall (fun _ => text_record) (consumed Examples.large).
Proof.
  intros k r H%large_lookup. unfold Examples.rows in H. apply list_elem_of_fmap in H as (n & [= -> ->] & _).
  unfold text_record, Examples.record, Examples.request. cbn. split_and!; eexists; try reflexivity. split; [reflexivity|cbn; lia].
Qed.

Lemma large_size : size (consumed Examples.large) = length Examples.rows.
Proof. cbn [consumed Examples.large]. apply map_size_list_to_map, rows_distinct. Qed.

Lemma rows_length : (Z.of_nat (length Examples.rows) = 3759)%Z.
Proof. vm_compute. reflexivity. Qed.

Lemma large_valid : @validateState iso_date_parse (state_js Examples.large) = Ok Examples.large.
Proof.
  apply (@validateState_valid iso_date_parse); [done|by intros k r H%large_lookup; apply row_valid|].
  rewrite large_size. apply Nat2Z.inj_le. rewrite rows_length. done.
Qed.

Lemma ledger_outgrows_file_witness :
  (3759 <= Z.of_nat (size (consumed Examples.large)))%Z /\
  @loadCapabilityState iso_date_parse Examples.file (write_state (state_js Examples.large) Examples.empty) = Throw STORAGE_UNSAFE.
Proof.
  assert (3759 <= Z.of_nat (size (consumed Examples.large)))%Z as Hs.
  { rewrite large_size, rows_length. apply Z.le_refl. }
  split; [exact Hs|].
  exact (proj2 (proj2 (@ledger_outgrows_file iso_date_parse Examples.large Examples.file Examples.empty large_valid
    large_records Hs eq_refl))).
Defined.
