(* ===== verification/AuditLog.v ===== *)
(** * The audit log (lib/audit.mjs)

    The append-only log, in which every record carries the hash of the one
    before it, and the signed checkpoints that pin its head.  A file is the
    list of its non-empty lines, each with the value its text denotes ([None]
    when it is not JSON): what [JSON.stringify] writes on a line is read back
    by [JSON.parse] (StrictJson proves that for its parser), and has no line
    feed.  Keys, signatures, digests and the clock are the interfaces of
    Crypto, Capability and IsoTime. *)

From stdpp Require Import base tactics sets list strings.
From Stdlib Require Import Ascii.
From S2P Require Import Prelude JsValue Regex IsoTime Json Objects StrictJson Crypto Scope Capability FileSystem.
Local Open Scope string_scope.
Local Open Scope js_scope.

(** ** Data *)

Definition ZERO_HASH : string := "0000000000000000000000000000000000000000000000000000000000000000".
Definition HASH64 : re := times hex_lower 64.

(** The lines of a file. *)
Definition Lines : Type := list (option jsval).

Record AuditDir := mkAuditDir {
  audit_file : option Lines; checkpoint_file : option Lines; key_stat : option Stat; key_text : jsval
}.

Inductive audit_error :=
| TypeFailure | LogInvalid (entry : option nat) | CheckpointsInvalid (index : option nat) | KeyUnsafe | KeyMismatch | KeyInvalid | Busy.

(** Why a checkpoint is refused. *)
Inductive reason :=
| invalid_record | public_key_invalid | invalid_statement | checkpoint_chain_invalid | public_key_mismatch
| signature_encoding_invalid | signature_invalid | checkpoint_hash_invalid | invalid_json | audit_head_mismatch | audit_invalid.

Record AuditResult := mkAuditResult { valid : bool; entries : nat; invalid_entry : option nat; head_hash : string }.

Record CheckpointResult := mkCheckpointResult {
  c_valid : bool; checkpoints : nat; latest : option jsval; why : option reason; invalid_checkpoint : option nat
}.

(** ** The log *)

Section Log.
Context `{HSha : Sha256}.

Definition digest (v : jsval) : string := sha256 (stringify v).

(** The record without its hash. *)
Definition unhashed (record : jsval) : jsval := match record with JObj fs => JObj (delete_field "hash" fs) | v => v end.

(** The loop of [verifyAudit]: of the values that are not objects, only [null]
    has no properties to read; the others have no [previous_hash]. *)
Fixpoint verify_lines (lines : Lines) (index total : nat) (previous : string) : result audit_error AuditResult :=
  match lines with
  | [] => Ok (mkAuditResult true total None previous)
  | None :: _ => Ok (mkAuditResult false total (Some (S index)) previous)
  | Some JNull :: _ => Throw TypeFailure
  | Some record :: lines =>
      if negb (is_plain record) || negb (is_str (get record "previous_hash") previous)
         || negb (is_str (get record "hash") (digest (unhashed record)))
      then Ok (mkAuditResult false total (Some (S index)) previous)
      else verify_lines lines (S index) total (digest (unhashed record))
  end.

Definition verifyAudit (file : option Lines) : result audit_error AuditResult :=
  match file with
  | None => Ok (mkAuditResult true 0 None ZERO_HASH)
  | Some lines => verify_lines lines 0 (length lines) ZERO_HASH
  end.

(** The hash of the last line. *)
Definition last_hash (file : option Lines) : jsval :=
  match file with
  | Some lines => match last lines with Some (Some record) => get record "hash" | _ => JStr ZERO_HASH end
  | None => JStr ZERO_HASH
  end.

(** The record of an event at a time, and the file with its line; the lock is
    held throughout. *)
Definition make_record (event : jsval) (timestamp : string) (previous : jsval) : jsval :=
  let record := spread [("timestamp", JStr timestamp); ("previous_hash", previous)] event in
  JObj (set_field "hash" (JStr (digest (JObj record))) record).

Definition audit (file : option Lines) (event : jsval) (timestamp : string) : result audit_error (jsval * option Lines) :=
  existing ← verifyAudit file;
  throw_if negb (valid existing) with LogInvalid (invalid_entry existing) ;;
  let record := make_record event timestamp (last_hash file) in
  Ok (record, Some (default [] file ++ [Some (json_clone record)])%list).

(** [readAuditHashes] of a verified log. *)
Definition readAuditHashes (file : option Lines) : list jsval :=
  JStr ZERO_HASH :: map (fun line => match line with Some record => get record "hash" | None => JUndefined end) (default [] file).
End Log.

(** ** Checkpoints *)

Section Checkpoints.
Context `{HParse : DateParse} `{HSha : Sha256} `{HKeys : KeyObjects}.

Definition public_key (publicKey : jsval) : option KeyDescription :=
  if bool_decide (value_type publicKey = Some "public") then object_key publicKey else import_value publicKey.

Definition publicKeyFingerprint (key : KeyDescription) : string :=
  "SHA256:" +:+ sha256_base64url (spki_der key).

Definition checkpointBytes (statement : jsval) : string := stringify statement.

Definition CHECKPOINT_BASE64 : re :=
  RSeq (RStar (times (fun c => alnum c || in_chars "+/" c) 4))
    (opt (RAlt (RSeq (times (fun c => alnum c || in_chars "+/" c) 2) (lit "=="))
               (RSeq (times (fun c => alnum c || in_chars "+/" c) 3) (lit "=")))).

Definition statement_fields : list string := ["version"; "created_at"; "entries"; "head_hash"; "previous_checkpoint_hash"].

Definition statement_of (record : jsval) : list (string * jsval) := map (fun k => (k, get record k)) statement_fields.

(** [Date.parse(value)] is finite. *)
Definition dated (v : jsval) : bool :=
  match to_string v with Some s => bool_decide (is_Some (date_parse s)) | None => false end.

Definition count_of (v : jsval) : option nat :=
  match js_integer v with Some z => if (z <? 0)%Z then None else Some (Z.to_nat z) | None => None end.

(** The number of entries and the hash of the head that a valid record
    pins, and its own hash. *)
Definition verifyCheckpointRecord (record publicKey : jsval) (previous : jsval) : result reason (nat * jsval * jsval) :=
  throw_if negb (truthy record) || negb (is_object record) with invalid_record ;;
  key ← of_option public_key_invalid (public_key publicKey);
  throw_if negb (String.eqb (asymmetricKeyType key) "ed25519") with public_key_invalid ;;
  throw_if negb (is_int (get record "version") 1) || negb (dated (get record "created_at")) with invalid_statement ;;
  count ← of_option invalid_statement (count_of (get record "entries"));
  throw_if negb (coerced_test HASH64 (nullish (get record "head_hash") (JStr "")))
           || negb (coerced_test HASH64 (nullish (get record "previous_checkpoint_hash") (JStr ""))) with invalid_statement ;;
  throw_if negb (bool_decide (get record "previous_checkpoint_hash" = previous)) with checkpoint_chain_invalid ;;
  throw_if negb (is_str (get record "public_key_fingerprint") (publicKeyFingerprint key)) with public_key_mismatch ;;
  signature ← of_option signature_encoding_invalid (as_str (get record "signature"));
  throw_if negb (re_test CHECKPOINT_BASE64 signature) with signature_encoding_invalid ;;
  let bytes := base64_bytes signature in
  throw_if negb (Nat.eqb (String.length bytes) 64
                 && bool_decide (verify_with key (checkpointBytes (JObj (statement_of record))) bytes = Some true))
    with signature_invalid ;;
  let copy := (statement_of record ++ [("public_key_fingerprint", get record "public_key_fingerprint");
                                       ("signature", JStr signature)])%list in
  throw_if negb (is_str (get record "checkpoint_hash") (digest (JObj copy))) with checkpoint_hash_invalid ;;
  Ok (count, get record "head_hash", get record "checkpoint_hash").

Definition invalidCheckpoint (total index : nat) (r : reason) : CheckpointResult :=
  mkCheckpointResult false total None (Some r) (Some (S index)).

Fixpoint verify_checkpoints (lines : Lines) (publicKey : jsval) (auditHashes : list jsval) (index total : nat) (previous : jsval)
    : CheckpointResult :=
  match lines with
  | [] => mkCheckpointResult true total (Some previous) None None
  | None :: _ => invalidCheckpoint total index invalid_json
  | Some record :: lines =>
      match verifyCheckpointRecord record publicKey previous with
      | Throw r => invalidCheckpoint total index r
      | Ok (count, head, hash) =>
          if bool_decide (auditHashes !! count = Some head)
          then verify_checkpoints lines publicKey auditHashes (S index) total hash
          else invalidCheckpoint total index audit_head_mismatch
      end
  end.

Definition verifyAuditCheckpoints (publicKey : jsval) (d : AuditDir) : result audit_error CheckpointResult :=
  auditResult ← verifyAudit (audit_file d);
  if negb (valid auditResult) then Ok (mkCheckpointResult false 0 None (Some audit_invalid) None)
  else match checkpoint_file d with
       | None => Ok (mkCheckpointResult true 0 None None None)
       | Some lines =>
           Ok (verify_checkpoints lines publicKey (readAuditHashes (audit_file d)) 0 (length lines) (JStr ZERO_HASH))
       end.

Context `{HSign : SigningKeys}.

Definition assertPrivateKey (d : AuditDir) : result audit_error unit :=
  match key_stat d with
  | None => Throw KeyUnsafe
  | Some s =>
      throw_if negb (isFile s) || isSymbolicLink s with KeyUnsafe ;;
      throw_if negb (owned s) with KeyUnsafe ;;
      throw_if permissive s with KeyUnsafe ;;
      Ok tt
  end.

Definition new_statement (verified : AuditResult) (previous : option jsval) (created_at : string) : list (string * jsval) :=
  [("version", JNum (NInt 1)); ("created_at", JStr created_at); ("entries", JNum (NInt (Z.of_nat (entries verified))));
   ("head_hash", JStr (head_hash verified)); ("previous_checkpoint_hash", default (JStr ZERO_HASH) previous)].

(** [createAuditCheckpoint]: the record and the directory with its line. *)
Definition createAuditCheckpoint (publicKey : jsval) (d : AuditDir) (created_at : string)
    : result audit_error (jsval * AuditDir) :=
  verified ← verifyAudit (audit_file d);
  throw_if negb (valid verified) with LogInvalid (invalid_entry verified) ;;
  cps ← verifyAuditCheckpoints publicKey d;
  throw_if negb (c_valid cps) with CheckpointsInvalid (invalid_checkpoint cps) ;;
  _ ← assertPrivateKey d;
  let statement := new_statement verified (latest cps) created_at in
  private ← of_option KeyInvalid (import_private (key_text d));
  let signature := base64 (sign_with private (checkpointBytes (JObj statement))) in
  key ← of_option KeyInvalid (public_key publicKey);
  throw_if negb (bool_decide (verify_with key (checkpointBytes (JObj statement)) (base64_bytes signature) = Some true))
    with KeyMismatch ;;
  let unhashed := (statement ++ [("public_key_fingerprint", JStr (publicKeyFingerprint key)); ("signature", JStr signature)])%list in
  let record := JObj (unhashed ++ [("checkpoint_hash", JStr (digest (JObj unhashed)))])%list in
  Ok (record, mkAuditDir (audit_file d) (Some (default [] (checkpoint_file d) ++ [Some record])%list) (key_stat d) (key_text d)).
End Checkpoints.

(** ** The lock *)

(** [Number(value)] as [Date.now() - value] computes it, [None] when that is
    [NaN]; the texts of numerals do not occur. *)
Definition to_number (v : jsval) : option Z :=
  match v with
  | JNum (NInt z) => Some z
  | JNull | JBool false => Some 0%Z
  | JBool true => Some 1%Z
  | _ => None
  end.

(** [recoverStaleLock]: whether the lock with this content is removed; [dead]
    says that signalling the process fails with [ESRCH]. *)
Definition recoverStaleLock (lease : option jsval) (now : Z) (dead : Z -> bool) : bool :=
  match lease with
  | None => false
  | Some lease =>
      match js_integer (get lease "pid") with
      | None => false
      | Some pid =>
          match to_number (get lease "created_at") with
          | Some created => negb (now - created <? 10000)%Z && dead pid
          | None => dead pid
          end
      end
  end.

(** The lock file: absent, or present with what it holds.  [at_ n] is the lock
    and the clock that the [n]-th attempt from the last finds. *)
Fixpoint acquireLock (attempts : nat) (at_ : nat -> option (option jsval) * Z) (dead : Z -> bool) : result audit_error (list bool) :=
  match attempts with
  | 0 => Throw Busy
  | S n =>
      match at_ n with
      | (None, _) => Ok []
      | (Some lease, now) => rest ← acquireLock n at_ dead; Ok (recoverStaleLock lease now dead :: rest)
      end
  end.

Definition MAX_ATTEMPTS : nat := 100.

(** ** Chains of records *)

Section Chains.
Context `{HSha : Sha256}.

(** From the hash [p] the records lead to the hash [h]. *)
Inductive chain : string -> list jsval -> string -> Prop :=
| chain_nil p : chain p [] p
| chain_cons p r rs h :
    is_plain r = true -> get r "previous_hash" = JStr p -> get r "hash" = JStr (digest (unhashed r)) ->
    chain (digest (unhashed r)) rs h -> chain p (r :: rs) h.

Lemma verify_lines_chain lines i n p res :
  verify_lines lines i n p = Ok res -> valid res = true ->
  exists rs, lines = map Some rs /\ chain p rs (head_hash res) /\ res = mkAuditResult true n None (head_hash res).
Proof.
  revert i p. induction lines as [|[r|] lines IH]; intros i p H Hv; cbn [verify_lines] in H.
  - injection H as <-. exists []. split_and!; [done|constructor|done].
  - destruct (negb (is_plain r) || _ || _) eqn:E; [destruct r; try discriminate H; injection H as <-; done|].
    assert (verify_lines lines (S i) n (digest (unhashed r)) = Ok res) as H' by (destruct r; done). guards.
    destruct (IH _ _ H' Hv) as (rs & -> & Hc & Hr). exists (r :: rs). split_and!; [done| |done].
    repeat match goal with H : is_str _ _ = true |- _ => apply is_str_true in H end. by constructor.
  - by injection H as <-.
Qed.

Lemma chain_verify rs i n p h : chain p rs h -> verify_lines (map Some rs) i n p = Ok (mkAuditResult true n None h).
Proof.
  intros H. revert i. induction H as [p|p r rs h Hr Hp Hh _ IH]; intros i; [done|]. cbn [map verify_lines].
  rewrite Hr, Hp, Hh. cbn [is_str negb orb]. rewrite !String.eqb_refl. cbn [negb orb].
  apply is_plain_true in Hr as [fs ->]. apply IH.
Qed.

Lemma chain_app p rs rs' h : chain p (rs ++ rs') h <-> exists m, chain p rs m /\ chain m rs' h.
Proof.
  revert p. induction rs as [|r rs IH]; intros p; cbn [app].
  - split; [intros H; exists p; split; [constructor|done]|]. intros (m & H & H'). inversion H; subst. done.
  - split.
    + intros H. inversion H as [|? ? ? ? H1 H2 H3 H4]; subst. apply IH in H4 as (m & ? & ?). exists m. split; [by constructor|done].
    + intros (m & H & H'). inversion H; subst. constructor; try done. apply IH. eauto.
Qed.

Lemma chain_snoc p rs r h :
  chain p (rs ++ [r]) h <->
  exists m, chain p rs m /\ is_plain r = true /\ get r "previous_hash" = JStr m /\ get r "hash" = JStr (digest (unhashed r)) /\
    h = digest (unhashed r).
Proof.
  rewrite chain_app. split.
  - intros (m & H & H'). inversion H' as [|? ? ? ? H1 H2 H3 H4]; subst. inversion H4; subst. eauto 10.
  - intros (m & H & H1 & H2 & H3 & ->). exists m. split; [done|]. constructor; [done..|constructor].
Qed.

(** The hash before any record: of the last one before it, or zeros. *)
Lemma chain_last p rs h : chain p rs h -> match last rs with Some r => get r "hash" | None => JStr p end = JStr h.
Proof.
  destruct rs as [|r rs _] using rev_ind; [by inversion 1|]. rewrite last_snoc.
  by intros (m & _ & _ & _ & -> & ->)%chain_snoc.
Qed.

(** Among these texts, different ones have different digests, and none has the
    digest zero. *)
Definition collision_free (texts : list string) : Prop :=
  (forall s t, s ∈ texts -> t ∈ texts -> sha256 s = sha256 t -> s = t) /\ (forall s, s ∈ texts -> sha256 s <> ZERO_HASH).

(** The texts that the hashes of these records digest. *)
Definition hashed_texts (rs : list jsval) : list string := map (fun r => stringify (unhashed r)) rs.

Lemma collision_free_sublist texts texts' : collision_free texts -> texts' ⊆ texts -> collision_free texts'.
Proof. intros [Hi Hz] Hs. split; [intros s t ? ?; by apply Hi; apply Hs|intros s ?; by apply Hz, Hs]. Qed.

Lemma get_unhashed r : is_plain r = true -> get (unhashed r) "previous_hash" = get r "previous_hash".
Proof. intros [fs ->]%is_plain_true. cbn [unhashed get]. by rewrite delete_get. Qed.

Lemma json_unhashed r : json_value r = true -> json_value (unhashed r) = true.
Proof. destruct r; try done. apply json_delete. Qed.

(** Two logs with one head have the same records, when no digests collide. *)
Lemma chain_unique rs1 rs2 h :
  chain ZERO_HASH rs1 h -> chain ZERO_HASH rs2 h ->
  Forall (fun r => json_value r = true) rs1 -> Forall (fun r => json_value r = true) rs2 ->
  collision_free (hashed_texts rs1 ++ hashed_texts rs2) -> map unhashed rs1 = map unhashed rs2.
Proof.
  assert (forall rs r, stringify (unhashed r) ∈ hashed_texts (rs ++ [r])) as Hlast.
  { intros rs r. unfold hashed_texts. rewrite map_app. apply elem_of_app. right. left. }
  revert rs2 h. induction rs1 as [|r1 rs1 IH] using rev_ind; intros rs2 h H1 H2 J1 J2 Hf.
  - inversion H1; subst. destruct rs2 as [|r2 rs2 _] using rev_ind; [done|].
    apply chain_snoc in H2 as (m & _ & _ & _ & _ & Hz). by destruct (proj2 Hf _ (Hlast rs2 r2)).
  - apply chain_snoc in H1 as (m1 & C1 & P1 & Q1 & _ & ->).
    destruct rs2 as [|r2 rs2 _] using rev_ind.
    { inversion H2 as [? Hz|]. rewrite app_nil_r in Hf. by destruct (proj2 Hf _ (Hlast rs1 r1)). }
    apply chain_snoc in H2 as (m2 & C2 & P2 & Q2 & _ & Hd). apply Forall_app in J1 as [J1 K1], J2 as [J2 K2].
    apply Forall_inv in K1, K2. unfold digest in Hd.
    assert (stringify (unhashed r1) = stringify (unhashed r2)) as Hs.
    { apply (proj1 Hf); [apply elem_of_app; left; apply Hlast|apply elem_of_app; right; apply Hlast|exact Hd]. }
    apply stringify_inj in Hs; [|by apply json_unhashed..]. rewrite <- (get_unhashed r1), Hs, (get_unhashed r2), Q2 in Q1 by done.
    injection Q1 as ->. rewrite !map_app, (IH _ _ C1 C2 J1 J2); [cbn [map]; by rewrite Hs|].
    apply (collision_free_sublist _ _ Hf). unfold hashed_texts. rewrite !map_app. set_solver.
Qed.
End Chains.

(** ** Appending *)

Section Append.
Context `{HSha : Sha256}.

(** The fields of an event that the record of it would lose. *)
Definition plain_event (event : jsval) : Prop :=
  exists fs, event = JObj fs /\ NoDup (map fst fs) /\ "hash" ∉ map fst fs /\ "previous_hash" ∉ map fst fs.

(** The line of a record made from a plain event. *)
Lemma make_record_line event timestamp p :
  plain_event event ->
  let line := json_clone (make_record event timestamp (JStr p)) in
  is_plain line = true /\ get line "previous_hash" = JStr p /\ get line "hash" = JStr (digest (unhashed line)) /\
  digest (unhashed line) = digest (unhashed (make_record event timestamp (JStr p))) /\
  get (make_record event timestamp (JStr p)) "hash" = JStr (digest (unhashed line)).
Proof.
  intros (fs & -> & Hd & Hh & Hp). unfold make_record. set (record := spread _ (JObj fs)).
  assert ("hash" ∉ map fst record) as Hr by (unfold record; rewrite spread_keys; set_solver).
  assert (assoc "previous_hash" record = Some (JStr p)) as Hprev.
  { unfold record. rewrite spread_get by done. by rewrite (proj2 (assoc_None _ _) Hp). }
  rewrite set_field_new by done. set (h := digest (JObj record)). rewrite clone_object.
  assert (clone_fields (record ++ [("hash", JStr h)]) = (clone_fields record ++ [("hash", JStr h)])%list) as Hc
    by (unfold clone_fields; by rewrite flat_map_app). rewrite Hc.
  assert ("hash" ∉ map fst (clone_fields record)) as Hn by (intros ?%clone_keys; done).
  cbn [unhashed is_plain]. rewrite !delete_last by done.
  assert (digest (JObj (clone_fields record)) = h) as Heq.
  { unfold digest, h. by rewrite <- clone_object, stringify_clone. }
  rewrite Heq. split_and!; try done; cbn [get]; rewrite assoc_app.
  - by rewrite (assoc_clone _ _ _ Hprev).
  - rewrite (proj2 (assoc_None _ _) Hn). cbn [assoc]. by rewrite String.eqb_refl.
  - rewrite (proj2 (assoc_None _ _) Hr). cbn [assoc]. by rewrite String.eqb_refl.
Qed.

(** A verified file is a chain from zeros to its head. *)
Lemma verify_chain file res :
  verifyAudit file = Ok res -> valid res = true ->
  exists rs, default [] file = map Some rs /\ chain ZERO_HASH rs (head_hash res) /\ entries res = length rs /\
    last_hash file = JStr (head_hash res).
Proof.
  destruct file as [lines|]; cbn [verifyAudit].
  - intros H Hv. destruct (verify_lines_chain _ _ _ _ _ H Hv) as (rs & -> & Hc & Hr). exists rs. split_and!; try done.
    + rewrite Hr. cbn. apply length_map.
    + rewrite <- (chain_last _ _ _ Hc). unfold last_hash. rewrite fmap_last. by destruct (last rs).
  - intros [= <-] _. exists []. split_and!; try done. constructor.
Qed.

Lemma chain_file rs h :
  chain ZERO_HASH rs h -> verifyAudit (Some (map Some rs)) = Ok (mkAuditResult true (length rs) None h).
Proof. intros H. cbn [verifyAudit]. rewrite length_map. by apply chain_verify. Qed.
End Append.

(** ** Checkpoints and prefixes *)

Section Pins.
Context `{HParse : DateParse} `{HSha : Sha256} `{HKeys : KeyObjects}.

Lemma chain_prefix p rs h n v :
  chain p rs h -> (JStr p :: map (fun r => get r "hash") rs) !! n = Some v ->
  exists h', v = JStr h' /\ chain p (take n rs) h' /\ n <= length rs.
Proof.
  intros H. revert n. induction H as [p|p r rs h Hr Hp Hh H IH]; intros [|n] Hn.
  - injection Hn as <-. exists p. split_and!; [done|constructor|done].
  - done.
  - injection Hn as <-. exists p. split_and!; [done|constructor|lia].
  - cbn [map] in Hn. rewrite Hh in Hn. destruct (IH n Hn) as (h' & -> & Hc & Hl). exists h'. split_and!; [done|by constructor|simpl; lia].
Qed.

(** A record that a valid file of checkpoints holds pins the head of a
    prefix. *)
Lemma verify_checkpoints_elem lines publicKey hashes i n previous r :
  c_valid (verify_checkpoints lines publicKey hashes i n previous) = true -> Some r ∈ lines ->
  exists count head previous' hash, verifyCheckpointRecord r publicKey previous' = Ok (count, head, hash) /\
    hashes !! count = Some head.
Proof.
  revert i previous. induction lines as [|[r'|] lines IH]; intros i previous H Hin; cbn [verify_checkpoints] in H.
  - by apply elem_of_nil in Hin.
  - destruct (verifyCheckpointRecord r' publicKey previous) as [[[count head] hash]|] eqn:Ev; [|done].
    destruct (bool_decide _) eqn:E; [|done]. guards. apply elem_of_cons in Hin as [[= ->]|Hin]; [eauto 10|by eapply IH].
  - done.
Qed.

Lemma checkpoint_fields r publicKey previous count head hash :
  verifyCheckpointRecord r publicKey previous = Ok (count, head, hash) ->
  count_of (get r "entries") = Some count /\ head = get r "head_hash".
Proof. unfold verifyCheckpointRecord. intros H. inv_result. done. Qed.

Lemma pinned_prefix publicKey d res r :
  verifyAuditCheckpoints publicKey d = Ok res -> c_valid res = true -> Some r ∈ default [] (checkpoint_file d) ->
  exists rs count h, default [] (audit_file d) = map Some rs /\ count_of (get r "entries") = Some count /\
    get r "head_hash" = JStr h /\ chain ZERO_HASH (take count rs) h /\ count <= length rs.
Proof.
  unfold verifyAuditCheckpoints. intros (ar & Ha & H)%bind_ok Hv Hin.
  destruct (valid ar) eqn:Ear; [|by injection H as <-]. cbn [negb] in H.
  destruct (verify_chain _ _ Ha Ear) as (rs & Hrs & Hc & _). destruct (checkpoint_file d) as [lines|]; [|by apply elem_of_nil in Hin].
  injection H as <-. destruct (verify_checkpoints_elem _ _ _ _ _ _ _ Hv Hin) as (count & head & p & hash & Hr & Hl).
  apply checkpoint_fields in Hr as [Hn ->]. unfold readAuditHashes in Hl. rewrite Hrs, map_map in Hl.
  destruct (chain_prefix _ _ _ _ _ Hc Hl) as (h & Hh & Hp & Hle). exists rs, count, h. done.
Qed.
End Pins.

(** The values of the lines, without their hashes. *)
Definition contents (file : option Lines) : list (option jsval) := map (option_map unhashed) (default [] file).

Definition json_lines (file : option Lines) : Prop :=
  Forall (fun line => match line with Some r => json_value r = true | None => True end) (default [] file).

(** The texts that the hashes of a log digest. *)
Definition digested (file : option Lines) : list string := hashed_texts (omap id (default [] file)).

Lemma omap_some (rs : list jsval) : omap id (map Some rs) = rs.
Proof. induction rs as [|r rs IH]; [done|]. cbn. f_equal. exact IH. Qed.

Lemma contents_take n rs : take n (map (option_map unhashed) (map Some rs)) = map Some (map unhashed (take n rs)).
Proof. by rewrite map_map, firstn_map, map_map. Qed.

(** ** Properties *)

Section Properties.
Context `{HParse : DateParse} `{HSha : Sha256} `{HKeys : KeyObjects}.

(** C22: appending an event to a log that verifies succeeds, keeps every line,
    and gives a log that verifies, with one entry more and the hash of the
    returned record as its head; the record carries the time and the fields
    of the event.  A log that does not verify is not written.  The event is
    plain: an object whose fields are distinct and none of them is called hash
    or previous_hash, as those of the program are ([hash_event_sample] below
    shows that an event with a field hash makes the log invalid). *)
Theorem audit_extends_log file event timestamp res
  (Hres : verifyAudit file = Ok res) (Hevent : plain_event event) :
  if valid res then
    exists record line, audit file event timestamp = Ok (record, Some (default [] file ++ [Some line])%list) /\
      line = json_clone record /\ (forall k, get event k <> JUndefined -> get record k = get event k) /\
      (has_own event "timestamp" = false -> get record "timestamp" = JStr timestamp) /\
      exists h, get record "hash" = JStr h /\
        verifyAudit (Some (default [] file ++ [Some line])%list) = Ok (mkAuditResult true (S (entries res)) None h)
  else audit file event timestamp = Throw (LogInvalid (invalid_entry res)).
Proof.
  unfold audit. rewrite Hres. cbn [mbind result_bind]. destruct (valid res) eqn:Hv; [|done]. cbn [negb].
  destruct (verify_chain _ _ Hres Hv) as (rs & Hrs & Hc & He & Hl). rewrite Hl.
  destruct (make_record_line event timestamp (head_hash res) Hevent) as (H1 & H2 & H3 & H4 & H5).
  destruct Hevent as (fs & -> & Hd & Hh & Hp).
  set (record := make_record (JObj fs) timestamp (JStr (head_hash res))) in *. exists record, (json_clone record).
  assert (forall k, k <> "hash" -> get record k = match assoc k fs with Some v => v | None =>
            get (JObj [("timestamp", JStr timestamp); ("previous_hash", JStr (head_hash res))]) k end) as Hget.
  { intros k Hk. unfold record, make_record. cbn [get]. rewrite set_field_get, (proj2 (String.eqb_neq _ _) Hk), spread_get by done.
    by destruct (assoc k fs). }
  split_and!; [done|done| | |].
  - intros k Hk. rewrite Hget.
    + cbn [get] in *. by destruct (assoc k fs).
    + intros ->. apply Hk. cbn [get]. by rewrite (proj2 (assoc_None _ _) Hh).
  - unfold has_own. intros Ht%bool_decide_eq_false. rewrite Hget by done. by destruct (assoc "timestamp" fs) as [v|]; [destruct Ht|].
  - eexists. split; [exact H5|]. rewrite Hrs, He. change [Some (json_clone record)] with (map Some [json_clone record]).
    rewrite <- map_app, <- Nat.add_1_r. change 1 with (length [json_clone record]). rewrite <- length_app.
    apply chain_file, chain_snoc. exists (head_hash res). done.
Qed.

(** C35: a checkpoint pins the log: when SHA-256 does not collide on the texts
    that the hashes of the two logs digest (and gives none of them the digest
    zero), in two directories that verify and share a checkpoint record the
    logs have at least as many entries as the checkpoint names, and the first
    entries, up to that number, have the same contents. *)
Theorem checkpoint_pins_prefix publicKey1 publicKey2 d1 d2 res1 res2 r
  (H1 : verifyAuditCheckpoints publicKey1 d1 = Ok res1) (H2 : verifyAuditCheckpoints publicKey2 d2 = Ok res2)
  (V1 : c_valid res1 = true) (V2 : c_valid res2 = true) (J1 : json_lines (audit_file d1)) (J2 : json_lines (audit_file d2))
  (R1 : Some r ∈ default [] (checkpoint_file d1)) (R2 : Some r ∈ default [] (checkpoint_file d2))
  (Hfree : collision_free (digested (audit_file d1) ++ digested (audit_file d2))) :
  exists n, get r "entries" = JNum (NInt (Z.of_nat n)) /\
    n <= length (contents (audit_file d1)) /\ n <= length (contents (audit_file d2)) /\
    take n (contents (audit_file d1)) = take n (contents (audit_file d2)).
Proof.
  destruct (pinned_prefix _ _ _ _ H1 V1 R1) as (rs1 & n1 & h1 & E1 & N1 & G1 & C1 & L1).
  destruct (pinned_prefix _ _ _ _ H2 V2 R2) as (rs2 & n2 & h2 & E2 & N2 & G2 & C2 & L2).
  rewrite N1 in N2. injection N2 as <-. rewrite G1 in G2. injection G2 as <-. exists n1.
  unfold contents, json_lines, digested in *. rewrite E1 in *. rewrite E2 in *. rewrite !length_map.
  split_and!; [|done|done|].
  - revert N1. unfold count_of. destruct (get r "entries") as [ | | |[z| | |]| | | | | | ]; try done. cbn [js_integer].
    destruct (z <? 0)%Z eqn:Ez; [done|]. intros [= <-]. guards. by rewrite Z2Nat.id.
  - rewrite Forall_map in J1, J2. rewrite !contents_take.
    rewrite (chain_unique _ _ _ C1 C2); [done|by apply Forall_take|by apply Forall_take|].
    apply (collision_free_sublist _ _ Hfree). rewrite !omap_some. unfold hashed_texts. rewrite <- !firstn_map.
    pose proof (subseteq_take n1 (hashed_texts rs1)). pose proof (subseteq_take n1 (hashed_texts rs2)). unfold hashed_texts in *. set_solver.
Qed.
End Properties.

(** ** Examples *)

Module Entries.
#[local] Existing Instance iso_date_parse.
#[local] Existing Instance toy_sha256.
#[local] Existing Instance Capability.Sample.key_objects.
#[local] Existing Instance Capability.Sample.signing_keys.

Definition event (n : Z) : jsval := JObj [("type", JStr "commit_signed"); ("count", JNum (NInt n))].
Definition time : string := "2024-05-01T10:00:00.000Z".

(** A log of two events. *)
Definition logged (file : option Lines) (n : Z) : option Lines :=
  match audit file (event n) time with Ok (_, file) => file | Throw _ => None end.
Definition log : option Lines := logged (logged None 1) 2.
Definition verified : AuditResult :=
  match verifyAudit log with Ok r => r | Throw _ => mkAuditResult false 0 None "" end.

Definition key_file : Stat := private_file 119.
Definition start : AuditDir := mkAuditDir log None (Some key_file) (JStr "pem").
Definition pinned : AuditDir :=
  match createAuditCheckpoint (JHost 7) start time with Ok (_, d) => d | Throw _ => start end.
Definition checkpoint : jsval := match default [] (checkpoint_file pinned) with Some r :: _ => r | _ => JUndefined end.

(** A third event after the checkpoint. *)
Definition later : AuditDir := mkAuditDir (logged log 3) (checkpoint_file pinned) (Some key_file) (JStr "pem").
Definition result_of (d : AuditDir) : CheckpointResult :=
  match @verifyAuditCheckpoints iso_date_parse toy_sha256 Capability.Sample.key_objects (JHost 7) d with
  | Ok r => r
  | Throw _ => mkCheckpointResult false 0 None None None
  end.
End Entries.

(** An event with a field of the name [hash] makes the log invalid. *)
Example hash_event_sample :
  match @audit toy_sha256 Entries.log (JObj [("hash", JStr "x")]) Entries.time with
  | Ok (_, file) => match @verifyAudit toy_sha256 file with Ok r => valid r | Throw _ => true end
  | Throw _ => true
  end = false.
Proof. vm_compute. reflexivity. Qed.

Lemma sample_verified : @verifyAudit toy_sha256 Entries.log = Ok Entries.verified.
Proof. vm_compute. reflexivity. Qed.

Lemma sample_event : plain_event (Entries.event 3).
Proof.
  exists [("type", JStr "commit_signed"); ("count", JNum (NInt 3))]. split; [reflexivity|].
  split; [apply (bool_decide_unpack _); vm_compute; exact I|]. split; apply (bool_decide_unpack _); vm_compute; exact I.
Qed.

Lemma sample_valid : valid Entries.verified = true /\ entries Entries.verified = 2.
Proof. vm_compute. done. Qed.

Lemma audit_extends_log_witness :
  exists record line h, @audit toy_sha256 Entries.log (Entries.event 3) Entries.time
      = Ok (record, Some (default [] Entries.log ++ [Some line])%list) /\
    @verifyAudit toy_sha256 (Some (default [] Entries.log ++ [Some line])%list)
      = Ok (mkAuditResult true (S (entries Entries.verified)) None h).
Proof.
  pose proof (@audit_extends_log toy_sha256 Entries.log (Entries.event 3) Entries.time Entries.verified sample_verified sample_event)
    as H. rewrite (proj1 sample_valid) in H.
  destruct H as (record & line & H1 & _ & _ & _ & h & _ & H2). exists record, line, h. exact (conj H1 H2).
Defined.

Lemma sample_checkpoints d :
  d = Entries.pinned \/ d = Entries.later ->
  @verifyAuditCheckpoints iso_date_parse toy_sha256 Capability.Sample.key_objects (JHost 7) d = Ok (Entries.result_of d) /\
  c_valid (Entries.result_of d) = true /\ json_lines (audit_file d) /\ Some Entries.checkpoint ∈ default [] (checkpoint_file d).
Proof.
  assert (forall d, forallb (fun line => match line with Some r => json_value r | None => true end) (default [] (audit_file d)) = true ->
            json_lines (audit_file d)) as Hj.
  { intros d' H. unfold json_lines. apply Forall_forall. intros [r|] Hr; [|done]. rewrite forallb_elem_of in H. exact (H _ Hr). }
  intros [-> | ->]; (split; [vm_compute; reflexivity|]); (split; [vm_compute; reflexivity|]);
    (split; [apply Hj; vm_compute; reflexivity|]); vm_compute; left.
Qed.

(** A check of [collision_free]. *)
Definition distinct_digests (texts : list string) : bool :=
  forallb (fun s => negb (String.eqb (@sha256 toy_sha256 s) ZERO_HASH)
    && forallb (fun t => negb (String.eqb (@sha256 toy_sha256 s) (@sha256 toy_sha256 t)) || String.eqb s t) texts) texts.

Lemma distinct_digests_spec texts : distinct_digests texts = true -> @collision_free toy_sha256 texts.
Proof.
  unfold distinct_digests. rewrite forallb_elem_of. intros H. split.
  - intros s t Hs Ht He. apply H in Hs as [_ Hs]%andb_true_iff. rewrite forallb_elem_of in Hs.
    specialize (Hs t Ht). rewrite He, String.eqb_refl in Hs. by apply String.eqb_eq in Hs.
  - intros s [Hs _]%H%andb_true_iff. apply negb_true_iff, String.eqb_neq in Hs. exact Hs.
Qed.

Lemma sample_collision_free :
  @collision_free toy_sha256 (digested (audit_file Entries.pinned) ++ digested (audit_file Entries.later)).
Proof. apply distinct_digests_spec. vm_compute. reflexivity. Qed.

Lemma checkpoint_pins_prefix_witness :
  exists n, get Entries.checkpoint "entries" = JNum (NInt (Z.of_nat n)) /\ n <= length (contents (audit_file Entries.later)) /\
    take n (contents (audit_file Entries.pinned)) = take n (contents (audit_file Entries.later)).
Proof.
  destruct (sample_checkpoints _ (or_introl eq_refl)) as (H1 & V1 & J1 & R1).
  destruct (sample_checkpoints _ (or_intror eq_refl)) as (H2 & V2 & J2 & R2).
  destruct (@checkpoint_pins_prefix iso_date_parse toy_sha256 Capability.Sample.key_objects (JHost 7) (JHost 7)
    Entries.pinned Entries.later (Entries.result_of Entries.pinned) (Entries.result_of Entries.later) Entries.checkpoint H1 H2 V1 V2 J1 J2 R1 R2
    sample_collision_free) as (n & E & _ & L & Ht).
  exists n. exact (conj E (conj L Ht)).
Defined.
