(* ===== verification/RemoteControl.v ===== *)
(** * Remote control (lib/remote-control.mjs)

    The first format of control bundles: a signed statement, numbered by a
    sequence, that revokes every agent or some.  A broker with a control key
    loads the bundle of its file for every request, and refreshes the file
    from a service: one download at a time, between which requests load. *)

From stdpp Require Import base tactics relations sets list strings.
From Stdlib Require Import Ascii.
From S2P Require Import Prelude JsValue Regex IsoTime Json Objects Crypto Scope Capability FileSystem AuditLog.
Local Open Scope string_scope.
Local Open Scope js_scope.

(** ** Data *)

Definition MAX_BUNDLE_BYTES : Z := 262144.
Definition MAX_BUNDLE_LIFETIME_MS : Z := 604800000.
Definition ISSUE_SKEW_MS : Z := 60000.

Definition AGENT_ID : re :=
  seqs [times hex_any 8; lit "-"; times hex_any 4; lit "-4"; times hex_any 3; lit "-";
        one (in_chars "89abAB"); times hex_any 3; lit "-"; times hex_any 12].

Inductive control_error :=
| BundleShape | VersionUnsupported | SequenceInvalid | TimestampsInvalid | IssuedInFuture | BundleExpired
| LifetimeExceeded | RevocationInvalid | AgentIdInvalid | SequenceRollback | Equivocation | FingerprintMismatch
| SignatureEncoding | SignatureInvalid | KeyNotEd25519 | KeyFailure | NotConfigured | BundleMissing | BundleUnsafe
| BundleNotJson | ExistingInvalid | ExistingTimestamp | PrivateKeyUnsafe | DateInvalid
| FetchNotHttps | FetchStatus (status : Z) | FetchTooLarge | FetchSize | FetchNotJson | FetchFailed | TypeFailure | OutsideModel.

#[export] Instance control_error_eq_dec : EqDecision control_error.
Proof. solve_decision. Defined.

(** The normalized statement, its timestamps as time values. *)
Record Statement := mkStatement {
  sequence : Z; issued_at : Z; expires_at : Z; global_revoked : bool; revoked_agents : list string
}.

Record Bundle := mkBundle { statement : Statement; key_fingerprint : string; signature : string }.

Definition statement_fields (s : Statement) : list (string * jsval) :=
  [("version", JNum (NInt 1)); ("sequence", JNum (NInt (sequence s))); ("issued_at", JStr (to_iso (issued_at s)));
   ("expires_at", JStr (to_iso (expires_at s))); ("global_revoked", JBool (global_revoked s));
   ("revoked_agents", strings_js (revoked_agents s))].

Definition bundle_js (b : Bundle) : jsval :=
  JObj (statement_fields (statement b) ++ [("key_fingerprint", JStr (key_fingerprint b)); ("signature", JStr (signature b))])%list.

(** The cache that the broker passes around. *)
Record Cache := mkCache { highestSequence : Z; cached : option Bundle }.

(** ** Statements *)

Section Statements.
Context `{HParse : DateParse} `{HSha : Sha256} `{HKeys : KeyObjects}.

(** [Date.parse(v)]: of the text of [v]; [None] is [NaN]. *)
Definition parse_time (v : jsval) : result control_error (option Z) :=
  match to_string v with Some s => Ok (date_parse s) | None => Throw TypeFailure end.

(** [[...new Set(ids)].sort()], when they are texts. *)
Definition agent_ids (l : list jsval) : result control_error (list string) :=
  ids ← of_option AgentIdInvalid (strings_of l);
  let revoked := sort_strings (distinct ids) in
  throw_if existsb (fun id => negb (re_test AGENT_ID id)) revoked with AgentIdInvalid ;; Ok revoked.

(** [normalizeStatement]; the fields it does not read play no part. *)
Definition normalizeStatement (v : jsval) (now : Z) : result control_error Statement :=
  throw_if negb (is_int (get v "version") 1) with VersionUnsupported ;;
  seq ← of_option SequenceInvalid (safe_integer (get v "sequence"));
  throw_if (seq <? 1)%Z with SequenceInvalid ;;
  issued ← parse_time (get v "issued_at");
  expires ← parse_time (get v "expires_at");
  issued ← of_option TimestampsInvalid issued;
  expires ← of_option TimestampsInvalid expires;
  throw_if (now + ISSUE_SKEW_MS <? issued)%Z with IssuedInFuture ;;
  throw_if (expires <=? now)%Z with BundleExpired ;;
  throw_if (expires <=? issued)%Z || (MAX_BUNDLE_LIFETIME_MS <? expires - issued)%Z with LifetimeExceeded ;;
  revoked ← of_option RevocationInvalid (match get v "global_revoked" with JBool b => Some b | _ => None end);
  agents ← of_option RevocationInvalid (match get v "revoked_agents" with JArr l => Some l | _ => None end);
  agents ← agent_ids agents;
  Ok (mkStatement seq issued expires revoked agents).

Definition bundleBytes (s : Statement) : string := canonicalJson (JObj (statement_fields s)).

Definition controlKeyFingerprint (key : KeyDescription) : result control_error string :=
  throw_if negb (String.eqb (asymmetricKeyType key) "ed25519") with KeyNotEd25519 ;;
  Ok ("SHA256:" +:+ sha256_base64url (spki_der key)).

(** ** Verification *)

Definition verifyControlBundle (bundle publicKey : jsval) (now highest : Z) : result control_error Bundle :=
  throw_if negb (is_object bundle) with BundleShape ;;
  statement ← normalizeStatement bundle now;
  throw_if (sequence statement <? highest)%Z with SequenceRollback ;;
  key ← of_option KeyFailure (public_key publicKey);
  fingerprint ← controlKeyFingerprint key;
  throw_if negb (is_str (get bundle "key_fingerprint") fingerprint) with FingerprintMismatch ;;
  signature ← of_option SignatureEncoding (as_str (get bundle "signature"));
  throw_if negb (re_test BASE64 signature) with SignatureEncoding ;;
  valid ← of_option KeyFailure (verify_with key (bundleBytes statement) (base64_bytes signature));
  throw_if negb valid with SignatureInvalid ;;
  Ok (mkBundle statement fingerprint signature).

(** ** The file and the cache *)

(** The control file, when it exists, and the cache. *)
Record Host := mkHost { file : option File; cache : Cache }.

Definition assertOwnedFile (s : Stat) : result control_error unit :=
  throw_if negb (isFile s) || isSymbolicLink s with BundleUnsafe ;;
  throw_if negb (owned s) with BundleUnsafe ;;
  throw_if permissive s with BundleUnsafe ;; Ok tt.

Definition control_key (config : jsval) : jsval := get (get config "control") "public_key".

(** The bundle that [loadControlBundle] reads from the file and verifies. *)
Definition read_bundle (config : jsval) (h : Host) (now : Z) : result control_error Bundle :=
  f ← of_option BundleMissing (file h);
  _ ← assertOwnedFile (stat f);
  bundle ← of_option BundleNotJson (content f);
  verifyControlBundle bundle (control_key config) now (highestSequence (cache h)).

(** [loadControlBundle] *)
Definition loadControlBundle (config : jsval) (h : Host) (now : Z) : result control_error (option Bundle) * Host :=
  if negb (truthy (get config "control")) then (Ok None, h) else
  match read_bundle config h now with
  | Throw e => (Throw e, h)
  | Ok verified =>
      (Ok (Some verified),
       mkHost (file h) (mkCache (Z.max (highestSequence (cache h)) (sequence (statement verified))) (Some verified)))
  end.

Definition loadExistingBundle (config : jsval) (f : option File) : result control_error (option Bundle) :=
  match f with
  | None => Ok None
  | Some f =>
      _ ← assertOwnedFile (stat f);
      bundle ← of_option ExistingInvalid (content f);
      throw_if bool_decide (bundle = JNull) with TypeFailure ;;
      issued ← parse_time (get bundle "issued_at");
      issued ← of_option ExistingTimestamp issued;
      verified ← verifyControlBundle bundle (control_key config) issued 0;
      Ok (Some verified)
  end.

(** [atomicWrite(file, JSON.stringify(verified, null, 2), 0o600)]; the size,
    which nothing reads, is that of the text without indentation. *)
Definition written (b : Bundle) : option File :=
  Some (mkFile (private_file (Z.of_nat (String.length (stringify (bundle_js b))))) (Some (bundle_js b))).

(** The sequences of the bundle and of the one that the file holds. *)
Definition check_existing (existing : option Bundle) (verified : Bundle) : result control_error bool :=
  match existing with
  | None => Ok true
  | Some e =>
      throw_if (sequence (statement verified) <? sequence (statement e))%Z with SequenceRollback ;;
      if (sequence (statement verified) =? sequence (statement e))%Z then
        throw_if negb (String.eqb (canonicalJson (bundle_js verified)) (canonicalJson (bundle_js e))) with Equivocation ;; Ok false
      else Ok true
  end.

(** [applyControlBundle] *)
Definition applyControlBundle (bundle config : jsval) (h : Host) (now : Z) : result control_error Bundle * Host :=
  if negb (truthy (get config "control")) then (Throw NotConfigured, h) else
  match existing ← loadExistingBundle config (file h);
        verified ← verifyControlBundle bundle (control_key config) now (highestSequence (cache h));
        write ← check_existing existing verified; Ok (verified, write) with
  | Throw e => (Throw e, h)
  | Ok (verified, false) =>
      (Ok verified,
       mkHost (file h) (mkCache (Z.max (highestSequence (cache h)) (sequence (statement verified))) (Some verified)))
  | Ok (verified, true) => (Ok verified, mkHost (written verified) (mkCache (sequence (statement verified)) (Some verified)))
  end.
End Statements.

(** ** Decisions *)

Record Decision := mkDecision { allowed : bool; reason : string; control_sequence : option Z }.

(** [evaluateRemoteControl] *)
Definition evaluateRemoteControl (bundle : option Bundle) (agentId : jsval) : Decision :=
  match bundle with
  | None => mkDecision true "not_configured" None
  | Some b =>
      let s := statement b in
      if global_revoked s then mkDecision false "remote_global_revocation" (Some (sequence s))
      else if one_of (revoked_agents s) agentId then mkDecision false "remote_agent_revoked" (Some (sequence s))
      else mkDecision true "remote_allowed" (Some (sequence s))
  end.

(** ** Signing *)

Section Sign.
Context `{HParse : DateParse} `{HSha : Sha256} `{HSign : SigningKeys}.

Definition assertPrivateKey (s : Stat) : result control_error unit :=
  throw_if negb (isFile s) || isSymbolicLink s with PrivateKeyUnsafe ;;
  throw_if negb (owned s) with PrivateKeyUnsafe ;;
  throw_if permissive s with PrivateKeyUnsafe ;; Ok tt.

(** [new Date(t).toISOString()], of a time value or none. *)
Definition iso_of (t : option Z) : result control_error string :=
  t ← of_option DateInvalid t; throw_if negb (in_time_range t) with DateInvalid ;; Ok (to_iso t).

(** [signControlBundle], with [Number(sequence)] and the time value of
    [new Date(expiresAt)]. *)
Definition signControlBundle (sequence : jsval) (expiresAt : option Z) (globalRevoked revokedAgents : jsval)
    (private_stat : Stat) (private_text : jsval) (now : Z) : result control_error Bundle :=
  _ ← assertPrivateKey private_stat;
  issued ← iso_of (Some now);
  expires ← iso_of expiresAt;
  statement ← normalizeStatement (JObj [("version", JNum (NInt 1)); ("sequence", sequence); ("issued_at", JStr issued);
                ("expires_at", JStr expires); ("global_revoked", JBool (truthy globalRevoked));
                ("revoked_agents", nullish revokedAgents (JArr []))]) now;
  private ← of_option KeyFailure (import_private private_text);
  fingerprint ← controlKeyFingerprint (public_of private);
  Ok (mkBundle statement fingerprint (base64 (sign_with private (bundleBytes statement)))).
End Sign.

(** ** Refreshing *)

(** A response: its status, [Number(content-length ?? 0)], the length of its
    body and the JSON value of the body, if any. *)
Record Response := mkResponse { status : Z; declared : jsnum; body_bytes : Z; body : option jsval }.

(** The test [declared > MAX_BUNDLE_BYTES]. *)
Definition check_declared (n : jsnum) : result control_error unit :=
  match n with
  | NInt n => throw_if (MAX_BUNDLE_BYTES <? n)%Z with FetchTooLarge ;; Ok tt
  | NInf false => Throw FetchTooLarge
  | NInf true | NNaN => Ok tt
  | NText _ => Throw OutsideModel
  end.

(** [fetchControlBundle], of a response, or of a failed download. *)
Definition fetchControlBundle (protocol : option string) (response : option Response) : result control_error jsval :=
  protocol ← of_option TypeFailure protocol;
  throw_if negb (String.eqb protocol "https:") with FetchNotHttps ;;
  response ← of_option FetchFailed response;
  throw_if negb ((200 <=? status response)%Z && (status response <=? 299)%Z) with FetchStatus (status response) ;;
  _ ← check_declared (declared response);
  throw_if (body_bytes response =? 0)%Z || (MAX_BUNDLE_BYTES <? body_bytes response)%Z with FetchSize ;;
  of_option FetchNotJson (body response).

Inductive Event := Updated (s : Statement) | Failed (e : control_error).

(** The state of a process: its file and cache, the download in progress
    with the sequence known when it started ([refreshing]), the error of the
    last download ([last_fetch_error]) and the events reported. *)
Record Process := mkProcess {
  host : Host; refreshing : option Z; last_fetch_error : option control_error; events : list Event
}.

Section Refresh.
Context `{HParse : DateParse} `{HSha : Sha256} `{HKeys : KeyObjects}.
Variables (config : jsval) (protocol : option string).

(** [refresh()] up to its [await]; a refresh in progress is left alone. *)
Definition start_refresh (p : Process) : Process :=
  match refreshing p with
  | Some _ => p
  | None => mkProcess (host p) (Some (highestSequence (cache (host p)))) (last_fetch_error p) (events p)
  end.

(** The rest of [refresh()], when the response is there. *)
Definition finish_refresh (p : Process) (previous : Z) (response : option Response) (now : Z) : Process :=
  match fetchControlBundle protocol response with
  | Throw e =>
      mkProcess (host p) None (Some e) (if bool_decide (last_fetch_error p = Some e) then events p else events p ++ [Failed e])
  | Ok bundle =>
      match applyControlBundle bundle config (host p) now with
      | (Ok verified, h) =>
          mkProcess h None None
            (if (sequence (statement verified) =? previous)%Z then events p else events p ++ [Updated (statement verified)])
      | (Throw e, h) =>
          mkProcess h None (Some e) (if bool_decide (last_fetch_error p = Some e) then events p else events p ++ [Failed e])
      end
  end.

(** What happens to a process between its awaits, at any clock: the timer, a
    response, a request that loads the bundle, a bundle applied by another
    process (the command line). *)
Inductive step : Process -> Process -> Prop :=
| step_timer p : step p (start_refresh p)
| step_response p previous response now :
    refreshing p = Some previous -> step p (finish_refresh p previous response now)
| step_load p now r h :
    loadControlBundle config (host p) now = (r, h) -> step p (mkProcess h (refreshing p) (last_fetch_error p) (events p))
| step_other p bundle now r h :
    applyControlBundle bundle config (mkHost (file (host p)) (mkCache 0 None)) now = (r, h) ->
    step p (mkProcess (mkHost (file h) (cache (host p))) (refreshing p) (last_fetch_error p) (events p)).

(** A restarted process has its file, and an empty cache. *)
Definition restart (p : Process) : Process := mkProcess (mkHost (file (host p)) (mkCache 0 None)) None None [].

Definition life (p p' : Process) : Prop := step p p' \/ p' = restart p.
End Refresh.

(** ** Lemmas *)

Section Facts.
Context `{HParse : DateParse} `{HSha : Sha256} `{HKeys : KeyObjects}.

Definition valid_statement (s : Statement) : Prop :=
  (1 <= sequence s <= MAX_SAFE_INTEGER)%Z /\ (Z.abs (issued_at s) <= MAX_TIME)%Z /\ (Z.abs (expires_at s) <= MAX_TIME)%Z /\
  (issued_at s < expires_at s <= issued_at s + MAX_BUNDLE_LIFETIME_MS)%Z /\
  NoDup (revoked_agents s) /\ ascending (revoked_agents s) /\ Forall (matches AGENT_ID) (revoked_agents s).

Definition timely (s : Statement) (now : Z) : Prop := (issued_at s <= now + ISSUE_SKEW_MS /\ now < expires_at s)%Z.

(** The bundle is signed with the key [publicKey]. *)
Definition signed (b : Bundle) (publicKey : jsval) : Prop :=
  exists key, public_key publicKey = Some key /\ controlKeyFingerprint key = Ok (key_fingerprint b) /\
    re_test BASE64 (signature b) = true /\
    verify_with key (bundleBytes (statement b)) (base64_bytes (signature b)) = Some true.

Lemma agent_ids_ok l ids : agent_ids l = Ok ids -> NoDup ids /\ ascending ids /\ Forall (matches AGENT_ID) ids.
Proof.
  unfold agent_ids. intros H. run_steps H. injection H as <-. split_and!.
  - rewrite sort_strings_perm. apply NoDup_distinct.
  - apply sort_ascending.
  - apply Forall_forall. intros id Hid. apply re_test_spec.
    match goal with H : existsb _ _ = false |- _ => rewrite existsb_not_elem_of in H; specialize (H id Hid) end. by guards.
Qed.

Lemma distinct_same (l : list string) : NoDup l -> distinct l = l.
Proof.
  induction 1 as [|x l Hx Hl IH]; [done|]. cbn [distinct]. rewrite IH. f_equal. clear Hl IH.
  induction l as [|y l IH]; [done|]. apply not_elem_of_cons in Hx as [Hy Hx].
  by rewrite filter_cons_True, IH.
Qed.

Lemma agent_ids_again ids :
  NoDup ids -> ascending ids -> Forall (matches AGENT_ID) ids -> agent_ids (map JStr ids) = Ok ids.
Proof.
  intros Hn Ha Hi. unfold agent_ids. rewrite (proj2 (strings_of_spec _ _) eq_refl). cbn [of_option mbind result_bind].
  rewrite distinct_same, sort_same by done. rewrite (proj2 (existsb_not_elem_of _ _)); [done|].
  intros id Hid. rewrite (proj2 (re_test_spec _ _)); [done|]. by eapply Forall_forall in Hid.
Qed.

Lemma parse_time_range v t : parse_time v = Ok (Some t) -> (Z.abs t <= MAX_TIME)%Z.
Proof. unfold parse_time. destruct (to_string v); [|done]. intros [= H]. by apply date_parse_range in H. Qed.

Lemma normalize_ok v now s : normalizeStatement v now = Ok s -> valid_statement s /\ timely s now.
Proof.
  unfold normalizeStatement. intros H. run_steps H. injection H as <-. guards. subst.
  repeat match goal with H : parse_time _ = Ok (Some _) |- _ => apply parse_time_range in H end.
  match goal with H : agent_ids _ = Ok _ |- _ => apply agent_ids_ok in H as (? & ? & ?) end.
  match goal with H : safe_integer _ = Some _ |- _ => apply safe_integer_Some in H as [_ ?] end.
  split; [|split; cbn; lia]. unfold valid_statement. cbn. split_and!; try done; lia.
Qed.

Lemma parse_time_iso t : (Z.abs t <= MAX_TIME)%Z -> parse_time (JStr (to_iso t)) = Ok (Some t).
Proof. intros H. unfold parse_time. cbn [to_string]. by rewrite date_parse_iso. Qed.

(** A statement is normal: from any object with its fields, at any time when
    it is timely. *)
Lemma normalize_again v s now :
  valid_statement s -> timely s now -> (forall k x, assoc k (statement_fields s) = Some x -> get v k = x) ->
  normalizeStatement v now = Ok s.
Proof.
  intros (Hs & Hi & He & Hl & Hn & Ha & Hr) [H1 H2] Hg. unfold normalizeStatement.
  rewrite (Hg "version" _ eq_refl), (Hg "sequence" _ eq_refl), (Hg "issued_at" _ eq_refl), (Hg "expires_at" _ eq_refl),
    (Hg "global_revoked" _ eq_refl), (Hg "revoked_agents" _ eq_refl). cbn [is_int Z.eqb Pos.eqb negb safe_integer].
  rewrite (proj2 (Z.leb_le (Z.abs _) _)) by lia. cbn [of_option mbind result_bind]. rewrite (proj2 (Z.ltb_ge _ _)) by lia.
  rewrite !parse_time_iso by done. cbn [of_option mbind result_bind]. rewrite (proj2 (Z.ltb_ge _ _)) by lia.
  rewrite (proj2 (Z.leb_gt _ _)) by lia. rewrite (proj2 (Z.leb_gt _ _)) by lia. rewrite (proj2 (Z.ltb_ge _ _)) by lia.
  cbn [orb of_option mbind result_bind strings_js]. rewrite agent_ids_again by done. by destruct s.
Qed.

Lemma verify_ok bundle publicKey now highest b :
  verifyControlBundle bundle publicKey now highest = Ok b ->
  signed b publicKey /\ valid_statement (statement b) /\ timely (statement b) now /\ (highest <= sequence (statement b))%Z.
Proof.
  unfold verifyControlBundle. intros H. run_steps H. injection H as <-. guards. subst.
  match goal with H : normalizeStatement _ _ = Ok _ |- _ => apply normalize_ok in H as [? ?] end.
  split_and!; try done. by eexists.
Qed.

(** An accepted bundle is accepted again as it is written, while it is
    timely. *)
Lemma verify_complete b publicKey now highest :
  signed b publicKey -> valid_statement (statement b) -> timely (statement b) now -> (highest <= sequence (statement b))%Z ->
  verifyControlBundle (bundle_js b) publicKey now highest = Ok b.
Proof.
  intros (key & Hk & Hf & Hb & Hs) Hv Ht Hh. unfold verifyControlBundle.
  rewrite (normalize_again _ (statement b)); [|done..|intros k x Hx; unfold bundle_js, get; by rewrite assoc_app, Hx].
  cbn [is_object bundle_js negb mbind result_bind]. rewrite (proj2 (Z.ltb_ge _ _)) by done. rewrite Hk. cbn [of_option mbind result_bind].
  rewrite Hf. cbn [mbind result_bind]. change (get _ "key_fingerprint") with (JStr (key_fingerprint b)).
  change (get _ "signature") with (JStr (signature b)). cbn [is_str]. rewrite String.eqb_refl. cbn [negb as_str of_option mbind result_bind].
  rewrite Hb, Hs. by destruct b.
Qed.

(** The file that an apply writes holds the bundle applied. *)
Lemma written_read config b :
  signed b (control_key config) -> valid_statement (statement b) -> loadExistingBundle config (written b) = Ok (Some b).
Proof.
  intros Hs Hv. unfold loadExistingBundle, written. cbn [stat content of_option mbind result_bind].
  change (assertOwnedFile (private_file ?n)) with (@Ok control_error unit tt). cbn [mbind result_bind].
  rewrite bool_decide_false by done. change (get (bundle_js b) "issued_at") with (JStr (to_iso (issued_at (statement b)))).
  rewrite parse_time_iso by apply Hv. cbn [of_option mbind result_bind].
  rewrite verify_complete; [done|done|done| |].
  - destruct Hv as (_ & _ & _ & Hl & _). unfold timely, ISSUE_SKEW_MS. lia.
  - destruct Hv as (Hq & _). lia.
Qed.

(** What an apply does: nothing when it fails; otherwise the bundle is
    accepted, and either the file holds the same bundle already, or it is
    written over one with a lower sequence. *)
Definition applied (config : jsval) (h h' : Host) (b : Bundle) : Prop :=
  highestSequence (cache h') = sequence (statement b) /\ cached (cache h') = Some b /\
  ((file h' = file h /\ exists e, loadExistingBundle config (file h) = Ok (Some e) /\
      sequence (statement b) = sequence (statement e) /\ canonicalJson (bundle_js b) = canonicalJson (bundle_js e)) \/
   (file h' = written b /\
      forall e, loadExistingBundle config (file h) = Ok (Some e) -> (sequence (statement e) < sequence (statement b))%Z)).

Lemma check_existing_ok existing b write :
  check_existing existing b = Ok write ->
  if write then forall e, existing = Some e -> (sequence (statement e) < sequence (statement b))%Z
  else exists e, existing = Some e /\ sequence (statement b) = sequence (statement e) /\
         canonicalJson (bundle_js b) = canonicalJson (bundle_js e).
Proof.
  unfold check_existing. destruct existing as [e|]; [|by intros [= <-]]. 
  destruct (Z.ltb_spec (sequence (statement b)) (sequence (statement e))) as [|Hlt]; [done|].
  destruct (Z.eqb_spec (sequence (statement b)) (sequence (statement e))) as [Heq|Hne].
  - destruct (String.eqb_spec (canonicalJson (bundle_js b)) (canonicalJson (bundle_js e))) as [Hc|]; [|done]. intros H. injection H as <-. by exists e.
  - intros H. injection H as <-. intros e' H. injection H as <-. lia.
Qed.

Lemma apply_ok bundle config h now r h' :
  applyControlBundle bundle config h now = (r, h') ->
  (exists e, r = Throw e /\ h' = h) \/
  exists b, r = Ok b /\ signed b (control_key config) /\ valid_statement (statement b) /\ timely (statement b) now /\
    (highestSequence (cache h) <= sequence (statement b))%Z /\ applied config h h' b.
Proof.
  unfold applyControlBundle. destruct (truthy _); cbn [negb]; [|intros [= <- <-]; left; eauto].
  destruct (mbind _ _) as [[b write]|e] eqn:E; [|intros [= <- <-]; left; eauto].
  run_steps E. injection E as <- <-. match goal with H : verifyControlBundle _ _ _ _ = Ok _ |- _ => apply verify_ok in H as (Hs & Hv & Ht & Hh) end.
  match goal with H : check_existing _ _ = Ok _ |- _ => apply check_existing_ok in H as Hc end.
  intros H. right. exists x0. destruct x1; injection H as <- <-; (split_and!; [done..|]); unfold applied; cbn [file cache highestSequence cached].
  - split_and!; [done..|]. right. split; [done|]. intros e He. apply Hc. congruence.
  - split_and!; [lia|done|]. left. split; [done|]. destruct Hc as (e & -> & Hc). eauto.
Qed.

Lemma cached_load_ok config h now r h' :
  loadControlBundle config h now = (r, h') ->
  file h' = file h /\ (highestSequence (cache h) <= highestSequence (cache h'))%Z /\
  forall b, r = Ok (Some b) -> signed b (control_key config) /\ valid_statement (statement b) /\ timely (statement b) now /\
    (highestSequence (cache h) <= sequence (statement b))%Z.
Proof.
  unfold loadControlBundle. destruct (truthy _); cbn [negb]; [|by intros [= <- <-]].
  destruct (read_bundle config h now) as [b|e] eqn:E; [|by intros [= <- <-]].
  unfold read_bundle in E. run_steps E. apply verify_ok in E as (? & ? & ? & ?).
  intros [= <- <-]. cbn. split_and!; [done|lia|]. by intros ? [= <-].
Qed.
End Facts.

(** ** The life of a broker *)

Section Life.
Context `{HParse : DateParse} `{HSha : Sha256} `{HKeys : KeyObjects}.
Variables (config : jsval) (protocol : option string).
Notation step := (step config protocol).
Notation life := (life config protocol).

(** The bundle that the file holds. *)
Definition stored (p : Process) : option Bundle :=
  match loadExistingBundle config (file (host p)) with Ok (Some b) => Some b | _ => None end.

(** [b'] is [b], or newer. *)
Definition newer (b b' : Bundle) : Prop := b' = b \/ (sequence (statement b) < sequence (statement b'))%Z.

Lemma stored_existing p b : stored p = Some b <-> loadExistingBundle config (file (host p)) = Ok (Some b).
Proof. unfold stored. split; [|by intros ->]. by destruct (loadExistingBundle _ _) as [[?|]|]; try done; intros [= ->]. Qed.

Lemma applied_stored bundle h now r h' e :
  applyControlBundle bundle config h now = (r, h') -> loadExistingBundle config (file h) = Ok (Some e) ->
  exists e', loadExistingBundle config (file h') = Ok (Some e') /\ newer e e'.
Proof.
  intros [(err & -> & ->)|(b & -> & Hs & Hv & _ & _ & _ & _ & [(-> & _)|(-> & Hn)])]%apply_ok He.
  - exists e. by split; [|left].
  - exists e. by split; [|left].
  - exists b. split; [by apply written_read|right; auto].
Qed.

(** The host after a response: of an apply, or as it was. *)
Lemma finish_host p previous response now :
  host (finish_refresh config protocol p previous response now) = host p \/
  exists bundle r, applyControlBundle bundle config (host p) now = (r, host (finish_refresh config protocol p previous response now)).
Proof.
  unfold finish_refresh. destruct (fetchControlBundle protocol response) as [bundle|]; [|by left].
  right. exists bundle. destruct (applyControlBundle bundle config (host p) now) as [[b|e] h] eqn:E; by eexists.
Qed.

Lemma start_host p : host (start_refresh p) = host p.
Proof. unfold start_refresh. by destruct (refreshing p). Qed.

Lemma life_stored p p' e : life p p' -> stored p = Some e -> exists e', stored p' = Some e' /\ newer e e'.
Proof.
  setoid_rewrite stored_existing. intros [H| ->]; [|intros He; exists e; by split; [|left]].
  destruct H as [p|p previous response now Hr|p now r h Hl|p bundle now r h Ha].
  - rewrite start_host. intros He. exists e. by split; [|left].
  - destruct (finish_host p previous response now) as [-> | (bundle & r & Ha)]; [intros He; exists e; by split; [|left]|].
    by apply (applied_stored _ _ _ _ _ _ Ha).
  - apply cached_load_ok in Hl as (Hf & _). cbn. rewrite Hf. intros He. exists e. by split; [|left].
  - cbn. intros He. exact (applied_stored _ _ _ _ _ _ Ha He).
Qed.

Lemma newer_trans b1 b2 b3 : newer b1 b2 -> newer b2 b3 -> newer b1 b3.
Proof. unfold newer. intros [-> | ?] [-> | ?]; auto. right. lia. Qed.

Lemma step_highest p p' : step p p' -> (highestSequence (cache (host p)) <= highestSequence (cache (host p')))%Z.
Proof.
  intros H. destruct H as [p|p previous response now Hr|p now r h Hl|p bundle now r h Ha]; cbn; [by rewrite start_host| | |done].
  - destruct (finish_host p previous response now) as [-> | (bundle & r & Ha)]; [done|].
    apply apply_ok in Ha as [(err & _ & ->)|(b & _ & _ & _ & _ & Hh & -> & _)]; done.
  - by apply cached_load_ok in Hl as (_ & Hl & _).
Qed.

(** ** Properties *)

(** The bundle of the control file is never replaced by an older one, nor
    by another with its sequence: through refreshes, requests, bundles applied
    by other processes, and restarts, in any order and at any clock, the file
    goes on to hold the same bundle or one with a higher sequence. *)
Theorem control_never_rolls_back p p' b :
  rtc life p p' -> stored p = Some b -> exists b', stored p' = Some b' /\ newer b b'.
Proof.
  intros H. revert b. induction H as [p|p p1 p' Hs _ IH]; intros b Hb; [exists b; by split; [|left]|].
  destruct (life_stored _ _ _ Hs Hb) as (b1 & Hb1 & H1). destruct (IH _ Hb1) as (b' & Hb' & H2).
  exists b'. split; [done|exact (newer_trans _ _ _ H1 H2)].
Qed.

(** Until a restart, a request never loads a bundle with a lower sequence
    than one that the process loaded or applied before; what it loads is
    signed with the pinned key, well formed and timely. *)
Theorem loaded_bundle_current p p' now b h :
  rtc step p p' -> loadControlBundle config (host p') now = (Ok (Some b), h) ->
  signed b (control_key config) /\ valid_statement (statement b) /\ timely (statement b) now /\
  (highestSequence (cache (host p)) <= sequence (statement b))%Z.
Proof.
  intros Hr (_ & _ & Hl)%cached_load_ok. destruct (Hl b eq_refl) as (? & ? & ? & Hh). split_and!; [done..|].
  enough (highestSequence (cache (host p)) <= highestSequence (cache (host p')))%Z by lia.
  clear Hl Hh. induction Hr as [|p p1 p' Hs _ IH]; [done|]. pose proof (step_highest _ _ Hs). lia.
Qed.
End Life.

Section RoundTrip.
Context `{HParse : DateParse} `{HSha : Sha256} `{HKeys : KeyObjects} `{HSign : SigningKeys}.

(** A bundle that [signControlBundle] returns is accepted while it is
    timely, by whoever pins the public key of the private key it was signed
    with and has not accepted a higher sequence. *)
Theorem signed_control_accepted seq expiresAt globalRevoked revokedAgents st text now b private publicKey now' highest :
  signControlBundle seq expiresAt globalRevoked revokedAgents st text now = Ok b ->
  import_private text = Some private -> public_key publicKey = Some (public_of private) ->
  (forall t, verify_with (public_of private) t (sign_with private t) = Some true) ->
  timely (statement b) now' -> (highest <= sequence (statement b))%Z ->
  verifyControlBundle (bundle_js b) publicKey now' highest = Ok b.
Proof.
  intros H Hp Hk Hlaw Ht Hh. unfold signControlBundle in H. run_steps H. injection H as <-.
  match goal with H : import_private _ = Some ?p |- _ => tryif unify p private then fail else (rewrite Hp in H; injection H as <-) end.
  match goal with H : normalizeStatement _ _ = Ok _ |- _ => apply normalize_ok in H as [Hv _] end.
  apply verify_complete; [|done..]. exists (public_of private). cbn. split_and!; [done|done| |by rewrite base64_bytes_base64].
  apply re_test_spec, base64_matches.
Qed.
End RoundTrip.

(** ** Examples *)

Module Sample.
#[local] Existing Instance iso_date_parse.
#[local] Existing Instance toy_sha256.
#[local] Existing Instance Capability.Sample.signing_keys.

Definition key_objects : KeyObjects := {|
  value_type := fun _ => None; object_key := fun _ => None; import_der := fun _ => None;
  import_value := fun v => if is_str v "pem" then Some Capability.Sample.issuer_key else None;
  verify_with := fun _ text bytes => Some (String.eqb bytes (Capability.Sample.sign_text text)) |}.
#[local] Existing Instance key_objects.

Definition time : Z := 1700000000000.
Definition agent : string := "2b54e0c0-3f0a-4d5b-9a0e-1234567890ab".
Definition upper_agent : string := "2B54E0C0-3F0A-4D5B-9A0E-1234567890AB".
Definition config : jsval := JObj [("control", JObj [("public_key", JStr "pem")])].

(** The bundle of sequence [n] that revokes [agents]. *)
Definition sign (n : Z) (agents : list string) : result control_error Bundle :=
  signControlBundle (JNum (NInt n)) (Some (time + 3600000)%Z) JUndefined (strings_js agents) (private_file 119) (JStr "pem") time.
Definition bundle (n : Z) (agents : list string) : Bundle :=
  match sign n agents with Ok b => b | Throw _ => mkBundle (mkStatement 0 0 0 false []) "" "" end.

(** A process whose file holds a bundle, and after another was applied. *)
Definition process (b : Bundle) : Process := mkProcess (mkHost (written b) (mkCache 0 None)) None None [].
Definition apply_other (p : Process) (b : Bundle) : result control_error Bundle * Host :=
  applyControlBundle (bundle_js b) config (mkHost (file (host p)) (mkCache 0 None)) time.
Definition after (p : Process) (b : Bundle) : Process :=
  mkProcess (mkHost (file (snd (apply_other p b))) (cache (host p))) (refreshing p) (last_fetch_error p) (events p).
Definition loaded (p : Process) := loadControlBundle config (host p) time.

Lemma after_step p b : step config None p (after p b).
Proof. apply (step_other config None p (bundle_js b) time (fst (apply_other p b)) (snd (apply_other p b))), surjective_pairing. Qed.
End Sample.

(** A revocation in capital letters is accepted, and does not revoke the agent
    known in small ones: the expression of agent ids ignores case, the list
    does not. *)
Lemma agent_revocation_case_sensitive :
  @verifyControlBundle iso_date_parse toy_sha256 Sample.key_objects (bundle_js (Sample.bundle 1 [Sample.upper_agent])) (JStr "pem") Sample.time 0
    = Ok (Sample.bundle 1 [Sample.upper_agent]) /\
  allowed (evaluateRemoteControl (Some (Sample.bundle 1 [Sample.upper_agent])) (JStr Sample.agent)) = true /\
  allowed (evaluateRemoteControl (Some (Sample.bundle 1 [Sample.agent])) (JStr Sample.agent)) = false.
Proof. split_and!; vm_compute; reflexivity. Qed.

Lemma control_never_rolls_back_witness :
  exists b', @stored iso_date_parse toy_sha256 Sample.key_objects Sample.config
               (Sample.after (Sample.process (Sample.bundle 1 [])) (Sample.bundle 2 [Sample.agent])) = Some b' /\ newer (Sample.bundle 1 []) b'.
Proof.
  apply (@control_never_rolls_back iso_date_parse toy_sha256 Sample.key_objects Sample.config None (Sample.process (Sample.bundle 1 []))).
  - apply rtc_once. left. apply Sample.after_step.
  - vm_compute. reflexivity.
Defined.

Lemma loaded_bundle_current_witness :
  (0 <= sequence (statement (Sample.bundle 1 [])))%Z.
Proof.
  apply (@loaded_bundle_current iso_date_parse toy_sha256 Sample.key_objects Sample.config None (Sample.process (Sample.bundle 1 []))
           (Sample.process (Sample.bundle 1 [])) Sample.time (Sample.bundle 1 []) (snd (Sample.loaded (Sample.process (Sample.bundle 1 []))))).
  - constructor.
  - vm_compute. reflexivity.
Defined.

Lemma signed_control_accepted_witness :
  @verifyControlBundle iso_date_parse toy_sha256 Sample.key_objects (bundle_js (Sample.bundle 1 [Sample.agent])) (JStr "pem") (Sample.time + 1000) 1 =
  Ok (Sample.bundle 1 [Sample.agent]).
Proof.
  apply (@signed_control_accepted iso_date_parse toy_sha256 Sample.key_objects Capability.Sample.signing_keys (JNum (NInt 1))
           (Some (Sample.time + 3600000)%Z) JUndefined (strings_js [Sample.agent]) (private_file 119) (JStr "pem") Sample.time (Sample.bundle 1 [Sample.agent]) tt).
  - vm_compute. reflexivity.
  - reflexivity.
  - reflexivity.
  - intros t. exact (f_equal Some (String.eqb_refl _)).
  - vm_compute. split; congruence.
  - vm_compute. congruence.
Defined.
