(* ===== verification/Adjudication.v ===== *)
(** * Adjudication of uncertain provider operations
    (apps/cloud-api/src/managed-signer-provider-operation-adjudication.mjs)

    The boundary through which an uncertain operation of the provider ledger
    reaches a decision: summaries, queue pages, the actions they allow, the
    commands that ask for one and the results that report it.  Every
    normalizer builds a record from the fields it has checked; fields tested
    by an expression without a test of their type are kept as values. *)

From stdpp Require Import base tactics sets list strings.
From Stdlib Require Import Ascii.
From S2P Require Import Prelude JsValue Regex IsoTime Json SignerRegistry.
Local Open Scope string_scope.
Local Open Scope js_scope.

(** ** Constants *)

Definition VERSION : Z := 1.
Definition ACTIONS := ["exact_sql_reconciliation"; "provider_bound_verification"; "producer_specific_terminal_handoff"].
Definition PRODUCERS := ["managed_signer_key_lifecycle"].
Definition OUTCOMES := ["reconciled"; "verified"; "handed_off"; "no_match"; "stale"; "unsupported"; "unavailable"].
Definition PROHIBITED_FIELDS :=
  ["organization_id"; "tenant_id"; "claim_token"; "signing_bytes"; "bytes"; "signature"; "provider_receipt";
   "provider_diagnostics"; "diagnostics"; "retry_sign"; "terminal_state"].

(** [PROVIDER_OPERATION_UNCERTAIN_REASONS] of the ledger's repository. *)
Definition UNCERTAIN_REASONS :=
  ["process_interrupted"; "provider_timeout"; "provider_response_lost"; "provider_output_invalid"; "commit_response_lost";
   "claim_expired_after_start"; "lifecycle_fenced"; "recovery_exhausted"].

Inductive adjudication_error := INVALID_INPUT | UNSUPPORTED_ACTION | TENANT_CORRELATION_UNAVAILABLE.

Definition token_char (c : ascii) : bool := alnum c || in_chars "._:/-" c.
Definition PURPOSE : re := RSeq (one alnum) (upto token_char 127).
Definition OPERATION_ID : re := RSeq (one alnum) (upto token_char 255).
Definition KEY_ID : re := RSeq (one alnum) (upto token_char 255).
Definition KEY_VERSION : re := RSeq (one (between "1" "9")) (upto digit 18).
Definition MAX_POSTGRES_BIGINT : string := "9223372036854775807".
Definition DIGEST : re := times hex_lower 64.
Definition CURSOR : re := RClass (fun c => alnum c || in_chars "_-" c) 1 (Some 512).
Definition MAX_BYTES : Z := 1048576.
Definition MAX_ITEMS : nat := 100.
Definition ALGORITHM : string := "ed25519".
Definition PROVIDER_RESULT_STATES := ["absent"; "present"].
Definition REGISTERED_PURPOSES : list string := sort_strings (map purpose definitions).
Definition SUMMARY_FIELDS :=
  ["version"; "purpose"; "operation_id"; "algorithm"; "bytes_length"; "request_digest"; "key_id"; "key_version"; "state";
   "uncertain_reason"; "provider_result"].
Definition SUMMARY_OUTPUT_FIELDS := (SUMMARY_FIELDS ++ ["organization_correlation"; "human_exposure"])%list.
Definition EXPECTED_FIELDS :=
  ["algorithm"; "bytes_length"; "request_digest"; "key_id"; "key_version"; "state"; "uncertain_reason"; "provider_result"].
Definition TARGET_FIELDS := ["purpose"; "operation_id"].

(** ** Data *)

(** [expected]: the fields of an operation that a decision is bound to. *)
Record Expected := mkExpected {
  bytes_length : Z; request_digest : jsval; key_id : jsval; key_version : string; uncertain_reason : string;
  provider_result : string
}.

Record Target := mkTarget { t_purpose : string; operation_id : jsval }.

Record Summary := mkSummary { s_target : Target; s_expected : Expected }.

Record Page := mkPage { items : list Summary; next_cursor : jsval }.

Record Command := mkCommand { action : string; target : Target; expected : Expected; producer : option string }.

Record Result := mkResult { r_action : string; r_target : Target; outcome : string; after_state : string }.

(** ** Validation *)

Definition exactKeys (v : jsval) (keys : list string) : result adjudication_error unit :=
  throw_if negb (is_plain v) || negb (same_keys v keys) with INVALID_INPUT ;;
  throw_if existsb (fun k => is_undefined (get v k)) keys with INVALID_INPUT ;;
  Ok tt.

(** [value <= MAX_POSTGRES_BIGINT], an order of texts. *)
Definition validKeyVersion (v : jsval) : option string :=
  match v with
  | JStr s =>
      if re_test KEY_VERSION s
         && (Nat.ltb (String.length s) (String.length MAX_POSTGRES_BIGINT) || String.leb s MAX_POSTGRES_BIGINT)
      then Some s else None
  | _ => None
  end.

Definition tested (r : re) (v : jsval) : bool := coerced_test r (nullish v (JStr "")).

Definition registered_purpose (v : jsval) : option string :=
  match v with JStr p => if re_test PURPOSE p && includes REGISTERED_PURPOSES p then Some p else None | _ => None end.

Definition member_of (l : list string) (v : jsval) : option string :=
  match v with JStr s => if includes l s then Some s else None | _ => None end.

(** The checks that a summary and an expectation share. *)
Definition expected_fields (v : jsval) : result adjudication_error Expected :=
  throw_if negb (is_str (get v "algorithm") ALGORITHM) || negb (is_str (get v "state") "uncertain") with INVALID_INPUT ;;
  throw_if negb (tested KEY_ID (get v "key_id")) with INVALID_INPUT ;;
  key_version ← of_option INVALID_INPUT (validKeyVersion (get v "key_version"));
  throw_if negb (tested DIGEST (get v "request_digest")) with INVALID_INPUT ;;
  length ← of_option INVALID_INPUT (safe_integer (get v "bytes_length"));
  throw_if (length <? 1)%Z || (MAX_BYTES <? length)%Z with INVALID_INPUT ;;
  reason ← of_option INVALID_INPUT (member_of UNCERTAIN_REASONS (get v "uncertain_reason"));
  provider ← of_option INVALID_INPUT (member_of PROVIDER_RESULT_STATES (get v "provider_result"));
  Ok (mkExpected length (get v "request_digest") (get v "key_id") key_version reason provider).

Definition target_fields (v : jsval) : result adjudication_error Target :=
  purpose ← of_option INVALID_INPUT (registered_purpose (get v "purpose"));
  throw_if negb (tested OPERATION_ID (get v "operation_id")) with INVALID_INPUT ;;
  Ok (mkTarget purpose (get v "operation_id")).

Definition normalizeTarget (v : jsval) : result adjudication_error Target :=
  _ ← exactKeys v TARGET_FIELDS; target_fields v.

Definition normalizeExpected (v : jsval) : result adjudication_error Expected :=
  _ ← exactKeys v EXPECTED_FIELDS; expected_fields v.

Definition is_output (v : jsval) : bool := same_keys v SUMMARY_OUTPUT_FIELDS.

Definition normalizeSummary (v : jsval) : result adjudication_error Summary :=
  throw_if negb (is_plain v) with INVALID_INPUT ;;
  _ ← exactKeys v (if is_output v then SUMMARY_OUTPUT_FIELDS else SUMMARY_FIELDS);
  throw_if is_output v && (negb (is_str (get v "organization_correlation") "unavailable")
                           || negb (is_str (get v "human_exposure") "forbidden")) with TENANT_CORRELATION_UNAVAILABLE ;;
  throw_if negb (is_int (get v "version") VERSION) with INVALID_INPUT ;;
  target ← target_fields v;
  expected ← expected_fields v;
  Ok (mkSummary target expected).

Definition fixed_fields : list (string * jsval) :=
  [("organization_correlation", JStr "unavailable"); ("human_exposure", JStr "forbidden")].

Definition target_js (t : Target) : jsval := JObj [("purpose", JStr (t_purpose t)); ("operation_id", operation_id t)].

(** The object that the summary's normalizer returns. *)
Definition summary_js (s : Summary) : jsval :=
  let e := s_expected s in
  JObj ([("version", JNum (NInt VERSION)); ("purpose", JStr (t_purpose (s_target s))); ("operation_id", operation_id (s_target s));
         ("algorithm", JStr ALGORITHM); ("bytes_length", JNum (NInt (bytes_length e))); ("request_digest", request_digest e);
         ("key_id", key_id e); ("key_version", JStr (key_version e)); ("state", JStr "uncertain");
         ("uncertain_reason", JStr (uncertain_reason e)); ("provider_result", JStr (provider_result e))] ++ fixed_fields)%list.

Definition expected_js (e : Expected) : jsval :=
  JObj [("algorithm", JStr ALGORITHM); ("bytes_length", JNum (NInt (bytes_length e))); ("request_digest", request_digest e);
        ("key_id", key_id e); ("key_version", JStr (key_version e)); ("state", JStr "uncertain");
        ("uncertain_reason", JStr (uncertain_reason e)); ("provider_result", JStr (provider_result e))].

Definition normalizeList (v : jsval) : result adjudication_error Page :=
  _ ← exactKeys v ["version"; "items"; "next_cursor"];
  match get v "items" with
  | JArr l =>
      throw_if negb (is_int (get v "version") VERSION) || Nat.ltb MAX_ITEMS (length l)
               || negb (match get v "next_cursor" with JNull => true | c => str_test CURSOR c end) with INVALID_INPUT ;;
      items ← map_result normalizeSummary l;
      Ok (mkPage items (get v "next_cursor"))
  | _ => Throw INVALID_INPUT
  end.

Definition page_js (p : Page) : jsval :=
  JObj ([("version", JNum (NInt VERSION)); ("items", JArr (map summary_js (items p))); ("next_cursor", next_cursor p)]
        ++ fixed_fields)%list.

(** [normalizeProviderVerificationPurposes] *)
Definition normalizePurposes (v : jsval) : result adjudication_error (list string) :=
  match v with
  | JArr l =>
      throw_if Nat.ltb (length REGISTERED_PURPOSES) (length l) || negb (all_distinct l) with INVALID_INPUT ;;
      purposes ← map_result (fun p => of_option INVALID_INPUT (member_of REGISTERED_PURPOSES p)) l;
      Ok (sort_strings purposes)
  | _ => Throw INVALID_INPUT
  end.

(** The purposes of a contract made from [options]. *)
Definition createContract (options : jsval) : result adjudication_error (list string) :=
  _ ← exactKeys options ["providerVerificationPurposes"];
  normalizePurposes (get options "providerVerificationPurposes").

Definition validateOutcome (action outcome afterState : string) : result adjudication_error unit :=
  let terminal := includes ["reconciled"; "verified"] outcome in
  throw_if terminal && negb (String.eqb afterState "committed") with INVALID_INPUT ;;
  throw_if negb terminal && negb (String.eqb afterState "uncertain") with INVALID_INPUT ;;
  throw_if String.eqb action "exact_sql_reconciliation"
           && negb (includes ["reconciled"; "no_match"; "stale"; "unavailable"] outcome) with INVALID_INPUT ;;
  throw_if String.eqb action "provider_bound_verification"
           && negb (includes ["verified"; "no_match"; "stale"; "unsupported"; "unavailable"] outcome) with INVALID_INPUT ;;
  throw_if String.eqb action "producer_specific_terminal_handoff"
           && negb (includes ["handed_off"; "stale"; "unavailable"] outcome) with INVALID_INPUT ;;
  throw_if String.eqb outcome "handed_off" && negb (String.eqb afterState "uncertain") with INVALID_INPUT ;;
  Ok tt.

(** ** The contract *)

Section Contract.
(** The purposes with a provider-bound verification. *)
Variable providerVerificationPurposes : list string.

Definition actions_of (s : Summary) : list string :=
  ((if String.eqb (provider_result (s_expected s)) "present" then ["exact_sql_reconciliation"] else [])
   ++ (if includes providerVerificationPurposes (t_purpose (s_target s)) then ["provider_bound_verification"] else [])
   ++ ["producer_specific_terminal_handoff"])%list.

Definition allowedActions (v : jsval) : result adjudication_error (list string) :=
  s ← normalizeSummary v; Ok (actions_of s).

Definition normalizeDetail (v : jsval) : result adjudication_error (Summary * list string) :=
  _ ← exactKeys v ["summary"; "allowed_actions"];
  s ← normalizeSummary (get v "summary");
  actions ← allowedActions (summary_js s);
  throw_if negb (bool_decide (get v "allowed_actions" = JArr (map JStr actions))) with INVALID_INPUT ;;
  Ok (s, actions).

Definition normalizeCommand (v : jsval) : result adjudication_error Command :=
  throw_if negb (is_plain v) with INVALID_INPUT ;;
  action ← of_option UNSUPPORTED_ACTION (member_of ACTIONS (get v "action"));
  let handoff := String.eqb action "producer_specific_terminal_handoff" in
  _ ← exactKeys v (if handoff then ["version"; "action"; "target"; "expected"; "producer"]
                   else ["version"; "action"; "target"; "expected"]);
  throw_if negb (is_int (get v "version") VERSION) with INVALID_INPUT ;;
  target ← normalizeTarget (get v "target");
  expected ← normalizeExpected (get v "expected");
  throw_if String.eqb action "exact_sql_reconciliation" && negb (String.eqb (provider_result expected) "present")
    with UNSUPPORTED_ACTION ;;
  throw_if String.eqb action "provider_bound_verification" && negb (includes providerVerificationPurposes (t_purpose target))
    with UNSUPPORTED_ACTION ;;
  throw_if handoff && negb (is_str (get v "producer") "managed_signer_key_lifecycle") with INVALID_INPUT ;;
  Ok (mkCommand action target expected (if handoff then Some "managed_signer_key_lifecycle" else None)).

Definition normalizeResult (v : jsval) : result adjudication_error Result :=
  _ ← exactKeys v ["version"; "action"; "target"; "outcome"; "after_state"];
  throw_if negb (is_int (get v "version") VERSION) with INVALID_INPUT ;;
  action ← of_option INVALID_INPUT (member_of ACTIONS (get v "action"));
  outcome ← of_option INVALID_INPUT (member_of OUTCOMES (get v "outcome"));
  after ← of_option INVALID_INPUT (member_of ["uncertain"; "committed"] (get v "after_state"));
  target ← normalizeTarget (get v "target");
  throw_if String.eqb action "provider_bound_verification" && negb (includes providerVerificationPurposes (t_purpose target))
    with UNSUPPORTED_ACTION ;;
  _ ← validateOutcome action outcome after;
  Ok (mkResult action target outcome after).
End Contract.

(** ** Lemmas *)

Section Lemmas.
#[local] Arguments safe_integer : simpl never.
#[local] Arguments member_of : simpl never.
#[local] Arguments validKeyVersion : simpl never.
#[local] Arguments registered_purpose : simpl never.
#[local] Arguments tested : simpl never.

Lemma member_of_ok l v s : member_of l v = Some s -> v = JStr s /\ s ∈ l.
Proof. unfold member_of. destruct v as [ | | | |t| | | | | ]; try done. destruct (includes l t) eqn:E; [|done]. intros [= ->]. by apply includes_true in E. Qed.

Lemma member_of_in l s : s ∈ l -> member_of l (JStr s) = Some s.
Proof. intros H. unfold member_of. by rewrite (proj2 (includes_true _ _) H). Qed.

Lemma registered_purpose_ok v p : registered_purpose v = Some p -> v = JStr p /\ registered_purpose (JStr p) = Some p.
Proof. unfold registered_purpose. destruct v as [ | | | |t| | | | | ]; try done. destruct (_ && _) eqn:E; [|done]. intros [= ->]. by rewrite E. Qed.

Lemma validKeyVersion_ok v s : validKeyVersion v = Some s -> v = JStr s /\ validKeyVersion (JStr s) = Some s.
Proof. unfold validKeyVersion. destruct v as [ | | | |t| | | | | ]; try done. destruct (_ && _) eqn:E; [|done]. intros [= ->]. by rewrite E. Qed.

(** Two objects that agree on the fields an expectation reads. *)
Lemma expected_fields_same v w :
  (forall k, k ∈ EXPECTED_FIELDS -> get v k = get w k) -> expected_fields v = expected_fields w.
Proof. intros H. unfold expected_fields, EXPECTED_FIELDS in *. rewrite !H by set_solver. done. Qed.

Lemma target_fields_same v w : (forall k, k ∈ TARGET_FIELDS -> get v k = get w k) -> target_fields v = target_fields w.
Proof. intros H. unfold target_fields, TARGET_FIELDS in *. rewrite !H by set_solver. done. Qed.

Lemma safe_integer_again v z : safe_integer v = Some z -> safe_integer (JNum (NInt z)) = Some z.
Proof. intros [_ H]%safe_integer_Some. by apply safe_integer_Some. Qed.

Lemma expected_fields_js v e : expected_fields v = Ok e -> expected_fields (expected_js e) = Ok e.
Proof.
  unfold expected_fields. intros H. inv_result. guards.
  repeat match goal with
  | H : member_of _ _ = Some _ |- _ => apply member_of_ok in H as [? ?]
  | H : validKeyVersion _ = Some _ |- _ => apply validKeyVersion_ok in H as [_ ?]
  end.
  match goal with H : safe_integer _ = Some _ |- _ => apply safe_integer_again in H; rename H into Hz end.
  unfold expected_js. cbn -[validKeyVersion tested safe_integer member_of Z.ltb UNCERTAIN_REASONS PROVIDER_RESULT_STATES].
  repeat match goal with H : tested _ _ = true |- _ => rewrite H; clear H end.
  rewrite Hz, !member_of_in by done.
  match goal with H : validKeyVersion (JStr _) = _ |- _ => rewrite H end.
  cbn -[Z.ltb]. rewrite (proj2 (Z.ltb_ge _ _)), (proj2 (Z.ltb_ge _ _)) by lia. done.
Qed.

Lemma target_fields_js v t : target_fields v = Ok t -> target_fields (target_js t) = Ok t.
Proof.
  unfold target_fields. intros H. inv_result. guards.
  match goal with H : registered_purpose _ = Some _ |- _ => apply registered_purpose_ok in H as [_ H'] end.
  unfold target_js. cbn -[registered_purpose tested]. rewrite H'. cbn -[tested].
  match goal with H : tested _ _ = true |- _ => by rewrite H end.
Qed.

(** Fields that passed their checks are not undefined. *)
Lemma tested_defined r v : re_test r "" = false -> tested r v = true -> v <> JUndefined.
Proof. intros Hr H ->. change (re_test r "" = true) in H. congruence. Qed.

Definition defined (v : jsval) : Prop := is_undefined v = false.

Lemma expected_defined v e : expected_fields v = Ok e -> defined (request_digest e) /\ defined (key_id e).
Proof.
  unfold expected_fields. intros H. inv_result. guards. unfold defined. cbn [request_digest key_id].
  split; match goal with |- is_undefined ?x = false => destruct x eqn:Ex; try done end; exfalso;
    match goal with H : tested ?r ?y = true, E : ?y = JUndefined |- _ => exact (tested_defined r y eq_refl H E) end.
Qed.

Lemma target_defined v t : target_fields v = Ok t -> defined (operation_id t).
Proof.
  unfold target_fields. intros H. inv_result. guards. unfold defined. cbn [operation_id].
  by destruct (get v "operation_id").
Qed.

Lemma exactKeys_ok v keys :
  is_plain v = true -> same_keys v keys = true -> Forall (fun k => defined (get v k)) keys -> exactKeys v keys = Ok tt.
Proof.
  intros Hp Hs Hd. unfold exactKeys. rewrite Hp, Hs. cbn [negb orb].
  assert (existsb (fun k => is_undefined (get v k)) keys = false) as ->; [|done].
  apply existsb_not_elem_of. by rewrite Forall_forall in Hd.
Qed.

Lemma exactKeys_js v : forall t e, target_fields v = Ok t -> expected_fields v = Ok e ->
  exactKeys (target_js t) TARGET_FIELDS = Ok tt /\ exactKeys (expected_js e) EXPECTED_FIELDS = Ok tt /\
  exactKeys (summary_js (mkSummary t e)) SUMMARY_OUTPUT_FIELDS = Ok tt.
Proof.
  intros t e Ht%target_defined He%expected_defined. destruct He as [Hd Hk].
  split_and!; (apply exactKeys_ok; [done|reflexivity|]); unfold TARGET_FIELDS, EXPECTED_FIELDS, SUMMARY_OUTPUT_FIELDS, SUMMARY_FIELDS;
    cbn [app]; repeat constructor; done.
Qed.

Lemma normalizeSummary_fields v s :
  normalizeSummary v = Ok s -> target_fields v = Ok (s_target s) /\ expected_fields v = Ok (s_expected s).
Proof. unfold normalizeSummary. intros H. inv_result. done. Qed.

Lemma normalizeSummary_again v s : normalizeSummary v = Ok s -> normalizeSummary (summary_js s) = Ok s.
Proof.
  intros [Ht He]%normalizeSummary_fields. destruct s as [t e]. cbn [s_target s_expected] in *.
  destruct (exactKeys_js v t e Ht He) as (_ & _ & Hk). unfold normalizeSummary.
  assert (is_output (summary_js (mkSummary t e)) = true) as Ho by reflexivity. rewrite Ho, Hk.
  rewrite (target_fields_same (summary_js (mkSummary t e)) (target_js t)).
  2: { intros k Hk'. unfold TARGET_FIELDS in Hk'. set_unfold in Hk'. by destruct Hk' as [->|[->|[]]]. }
  rewrite (expected_fields_same (summary_js (mkSummary t e)) (expected_js e)).
  2: { intros k Hk'. unfold EXPECTED_FIELDS in Hk'. set_unfold in Hk'.
       by destruct Hk' as [->|[->|[->|[->|[->|[->|[->|[->|[]]]]]]]]]. }
  by rewrite (target_fields_js _ _ Ht), (expected_fields_js _ _ He).
Qed.

Lemma normalizeTarget_again v t : target_fields v = Ok t -> normalizeTarget (target_js t) = Ok t.
Proof.
  intros Ht. unfold normalizeTarget. rewrite exactKeys_ok; [by apply (target_fields_js v)|done|reflexivity|].
  apply target_defined in Ht. by repeat constructor.
Qed.

Lemma normalizeExpected_again v e : expected_fields v = Ok e -> normalizeExpected (expected_js e) = Ok e.
Proof.
  intros He. unfold normalizeExpected. rewrite exactKeys_ok; [by apply (expected_fields_js v)|done|reflexivity|].
  apply expected_defined in He as [??]. by repeat constructor.
Qed.
End Lemmas.

(** ** Properties *)

(** The command that asks for an action on a summary. *)
Definition command_js (action : string) (s : Summary) : jsval :=
  JObj ([("version", JNum (NInt VERSION)); ("action", JStr action); ("target", target_js (s_target s));
         ("expected", expected_js (s_expected s))]
        ++ (if String.eqb action "producer_specific_terminal_handoff"
            then [("producer", JStr "managed_signer_key_lifecycle")] else []))%list.

Section Properties.
#[local] Arguments normalizeTarget : simpl never.
#[local] Arguments normalizeExpected : simpl never.
#[local] Arguments exactKeys : simpl never.

Lemma command_keys a s :
  exactKeys (command_js a s) (if String.eqb a "producer_specific_terminal_handoff" then ["version"; "action"; "target"; "expected"; "producer"]
                              else ["version"; "action"; "target"; "expected"]) = Ok tt.
Proof. unfold command_js. destruct (String.eqb a _); (apply exactKeys_ok; [done|reflexivity|by repeat constructor]). Qed.

Lemma member_actions a : a ∈ ACTIONS <-> a = "exact_sql_reconciliation" \/ a = "provider_bound_verification" \/ a = "producer_specific_terminal_handoff".
Proof. unfold ACTIONS. set_solver. Qed.

Lemma actions_of_spec purposes s a :
  a ∈ actions_of purposes s <->
  (a = "exact_sql_reconciliation" /\ provider_result (s_expected s) = "present") \/
  (a = "provider_bound_verification" /\ t_purpose (s_target s) ∈ purposes) \/ a = "producer_specific_terminal_handoff".
Proof.
  unfold actions_of. rewrite !elem_of_app. destruct (String.eqb_spec (provider_result (s_expected s)) "present");
    destruct (includes purposes (t_purpose (s_target s))) eqn:E;
    [apply includes_true in E|apply includes_false in E|apply includes_true in E|apply includes_false in E]; set_solver.
Qed.

(** What an accepted command asks for. *)
Lemma normalizeCommand_ok purposes v c :
  normalizeCommand purposes v = Ok c -> action c ∈ actions_of purposes (mkSummary (target c) (expected c)).
Proof.
  unfold normalizeCommand. intros H. inv_result.
  match goal with H : member_of ACTIONS _ = Some _ |- _ => apply member_of_ok in H as [_ Ha]; apply member_actions in Ha end.
  apply actions_of_spec. cbn [action target expected s_target s_expected].
  repeat match goal with H : _ && _ = false |- _ => apply andb_false_iff in H end.
  destruct Ha as [->|[->| ->]]; cbn in *.
  - left. split; [done|]. repeat match goal with H : _ \/ _ |- _ => destruct H; try done end; by guards.
  - right; left. split; [done|]. repeat match goal with H : _ \/ _ |- _ => destruct H; try done end; guards; by apply includes_true.
  - by right; right.
Qed.

Lemma normalizeCommand_js purposes v s a :
  normalizeSummary v = Ok s -> a ∈ actions_of purposes s ->
  exists producer, normalizeCommand purposes (command_js a s) = Ok (mkCommand a (s_target s) (s_expected s) producer).
Proof.
  intros [Ht He]%normalizeSummary_fields Ha. apply actions_of_spec in Ha. unfold normalizeCommand.
  assert (member_of ACTIONS (get (command_js a s) "action") = Some a) as ->.
  { apply (member_of_in ACTIONS a), member_actions. naive_solver. }
  cbn [of_option mbind result_bind]. rewrite command_keys. cbn [mbind result_bind].
  assert (get (command_js a s) "target" = target_js (s_target s)) as -> by done.
  assert (get (command_js a s) "expected" = expected_js (s_expected s)) as -> by done.
  rewrite (normalizeTarget_again _ _ Ht), (normalizeExpected_again _ _ He).
  destruct Ha as [[-> Hp]|[[-> Hp]| ->]]; cbn; rewrite ?Hp, ?(proj2 (includes_true _ _) Hp); by eexists.
Qed.
End Properties.

(** ** Versions as numbers *)

Section Versions.
Local Open Scope Z_scope.

Definition all_digits (s : string) : Prop := Forall (fun c => digit c = true) (chars s).

Lemma digit_bounds c : digit c = true -> 0 <= Z.of_nat (Regex.code c) - 48 <= 9.
Proof. unfold digit, between. rewrite andb_true_iff, !Nat.leb_le.
  change (Regex.code "0") with 48%nat. change (Regex.code "9") with 57%nat. lia.
Qed.

Lemma value_from acc s : digits_value_from acc s = acc * 10 ^ Z.of_nat (String.length s) + digits_value s.
Proof.
  unfold digits_value. revert acc. induction s as [|c s IH]; intros acc; [cbn; lia|]. cbn [digits_value_from String.length].
  rewrite (IH (10 * acc + _)), (IH (10 * 0 + _)), Nat2Z.inj_succ, Z.pow_succ_r by lia. lia.
Qed.

Lemma value_cons c s :
  digits_value (String c s) = (Z.of_nat (Regex.code c) - 48) * 10 ^ Z.of_nat (String.length s) + digits_value s.
Proof. unfold digits_value at 1. cbn [digits_value_from]. rewrite value_from. f_equal. Qed.

Lemma value_bounds s : all_digits s -> 0 <= digits_value s < 10 ^ Z.of_nat (String.length s).
Proof.
  unfold all_digits. induction s as [|c s IH]; intros H; [done|]. cbn [chars] in H. apply Forall_cons in H as [Hc Hs].
  rewrite value_cons. cbn [String.length]. rewrite Nat2Z.inj_succ, Z.pow_succ_r by lia. apply digit_bounds in Hc. specialize (IH Hs). nia.
Qed.

Lemma leb_value s t :
  all_digits s -> all_digits t -> String.length s = String.length t ->
  String.leb s t = true <-> digits_value s <= digits_value t.
Proof.
  unfold all_digits. revert t. induction s as [|c s IH]; intros [|d t] Hs Ht Hl; try done. cbn [chars] in *.
  apply Forall_cons in Hs as [Hc Hs], Ht as [Hd Ht]. injection Hl as Hl. specialize (IH t Hs Ht Hl).
  rewrite !value_cons, Hl. pose proof (value_bounds s Hs) as Bs. pose proof (value_bounds t Ht) as Bt. rewrite Hl in Bs.
  unfold String.leb in *. cbn [String.compare]. unfold Ascii.compare.
  assert (forall a, Z.of_nat (Regex.code a) = Z.of_N (N_of_ascii a)) as Hcode.
  { intros a. unfold Regex.code, nat_of_ascii. by rewrite N_nat_Z. }
  rewrite !Hcode. destruct (N.compare_spec (N_of_ascii c) (N_of_ascii d)) as [He|He|He].
  - rewrite He, IH. lia.
  - split; [|done]. intros _. nia.
  - split; [done|]. intros H. nia.
Qed.

Lemma key_version_matches s :
  re_test KEY_VERSION s = true <->
  (exists c r, s = String c r /\ between "1" "9" c = true /\ all_digits r) /\ (String.length s <= 19)%nat.
Proof.
  rewrite re_test_spec. unfold KEY_VERSION, all_digits. split.
  - intros (s1 & s2 & -> & H1%class_inv & H2%class_inv)%seq_inv. destruct H1 as (F1 & L1 & U1), H2 as (F2 & _ & U2).
    destruct s1 as [|c [|? ?]]; cbn in L1, U1; try lia. cbn in F1. apply Forall_cons in F1 as [Hc _]. split.
    + exists c, s2. by split_and!.
    + change (String.length (String c "" +:+ s2)) with (S (String.length s2)). rewrite <- (length_chars s2). lia.
  - intros [(c & r & -> & Hc & Hr) Hl]. change (String c r) with (String c "" +:+ r). constructor.
    + constructor; [by repeat constructor|cbn; lia..].
    + constructor; [done|lia|]. cbn in Hl. rewrite length_chars. lia.
Qed.
End Versions.

(** ** The contract's properties *)

Section Theorems.

(** A key version is accepted exactly when it is the decimal text,
    without leading zeros, of an integer from 1 to 2^63 - 1, although the
    last comparison is one of texts. *)
Theorem validKeyVersion_spec s :
  validKeyVersion (JStr s) = Some s <->
  (exists c r, s = String c r /\ between "1" "9" c = true /\ all_digits r) /\ (1 <= digits_value s <= 2 ^ 63 - 1)%Z.
Proof.
  assert (validKeyVersion (JStr s) = Some s <-> re_test KEY_VERSION s = true /\
            (String.length s < 19 \/ String.leb s MAX_POSTGRES_BIGINT = true)) as ->.
  { unfold validKeyVersion. change (String.length MAX_POSTGRES_BIGINT) with 19.
    destruct (re_test KEY_VERSION s); cbn [andb]; [|naive_solver].
    destruct (Nat.ltb_spec (String.length s) 19); cbn [orb]; [naive_solver|]. destruct (String.leb s MAX_POSTGRES_BIGINT); naive_solver lia. }
  rewrite key_version_matches.
  assert (forall c r, s = String c r -> between "1" "9" c = true -> all_digits r ->
            all_digits s /\ (10 ^ Z.of_nat (String.length r) <= digits_value s)%Z) as Hd.
  { intros c r -> Hc Hr. assert (digit c = true) as Hdc.
    { unfold digit, between in *. rewrite andb_true_iff, !Nat.leb_le in *. change (Regex.code "0") with 48.
      change (Regex.code "1") with 49 in Hc. lia. }
    split; [by constructor|]. rewrite value_cons. pose proof (value_bounds r Hr). unfold between in Hc.
    rewrite andb_true_iff, !Nat.leb_le in Hc. change (Regex.code "1") with 49 in Hc. nia. }
  assert (all_digits MAX_POSTGRES_BIGINT) as Hmax by (repeat constructor).
  assert (digits_value MAX_POSTGRES_BIGINT = 2 ^ 63 - 1)%Z as Hval by (vm_compute; reflexivity).
  split.
  - intros [[(c & r & Hs & Hc & Hr) Hl] Hb]. split; [eauto 10|]. destruct (Hd c r Hs Hc Hr) as [Ha Hlow].
    split; [pose proof (Z.pow_pos_nonneg 10 (Z.of_nat (String.length r)) ltac:(lia) ltac:(lia)); lia|].
    pose proof (value_bounds s Ha) as Hu. destruct (decide (String.length s < 19)) as [H19|H19].
    + assert (10 ^ Z.of_nat (String.length s) <= 10 ^ 18)%Z by (apply Z.pow_le_mono_r; lia). lia.
    + destruct Hb as [?|Hb]; [lia|]. apply leb_value in Hb; [lia|done|done|]. change (String.length MAX_POSTGRES_BIGINT) with 19. lia.
  - intros [(c & r & Hs & Hc & Hr) [_ Hu]]. destruct (Hd c r Hs Hc Hr) as [Ha Hlow].
    assert (String.length s = S (String.length r)) as Hsl by by rewrite Hs.
    assert (String.length s <= 19) as Hl.
    { destruct (decide (String.length s <= 19)) as [|Hgt]; [done|].
      assert (10 ^ 19 <= 10 ^ Z.of_nat (String.length r))%Z by (apply Z.pow_le_mono_r; lia). lia. }
    split; [split; [eauto 10|done]|]. destruct (decide (String.length s < 19)) as [|H19]; [by left|right].
    apply leb_value; [done|done| |lia]. change (String.length MAX_POSTGRES_BIGINT) with 19. lia.
Qed.

(** Commands and allowed actions agree: for an accepted summary, a
    command for its operation is accepted exactly when its action is one of
    those allowed for the summary, and it is bound to the operation's target
    and expected fields; whatever the command's text, an accepted one asks for
    an action allowed on the operation it names. *)
Theorem commands_match_actions purposes v s (Hsummary : normalizeSummary v = Ok s) :
  allowedActions purposes (summary_js s) = Ok (actions_of purposes s) /\
  (forall a, a ∈ actions_of purposes s <->
     exists producer, normalizeCommand purposes (command_js a s) = Ok (mkCommand a (s_target s) (s_expected s) producer)) /\
  (forall w c, normalizeCommand purposes w = Ok c -> action c ∈ actions_of purposes (mkSummary (target c) (expected c))).
Proof.
  split_and!.
  - unfold allowedActions. by rewrite (normalizeSummary_again _ _ Hsummary).
  - intros a. split; [by eapply normalizeCommand_js|]. intros (producer & H). apply normalizeCommand_ok in H. by destruct s.
  - intros w c. apply normalizeCommand_ok.
Qed.

(** An operation leaves the uncertain state only by a reconciliation
    against the ledger or by a verification with the provider of a purpose
    that has one: no handoff and no inconclusive result commits it. *)
Theorem committed_only_by_evidence purposes v r (Hresult : normalizeResult purposes v = Ok r) :
  after_state r = "committed" <->
  (r_action r = "exact_sql_reconciliation" /\ outcome r = "reconciled") \/
  (r_action r = "provider_bound_verification" /\ outcome r = "verified" /\ t_purpose (r_target r) ∈ purposes).
Proof.
  unfold normalizeResult, validateOutcome in Hresult. inv_result. cbn [after_state r_action outcome r_target].
  repeat match goal with H : member_of _ _ = Some _ |- _ => apply member_of_ok in H as [_ ?] end.
  repeat match goal with H : _ ∈ ACTIONS |- _ => apply member_actions in H as [->|[->| ->]] end;
    repeat match goal with H : _ && _ = false |- _ => apply andb_false_iff in H end; cbn in *;
    repeat match goal with H : _ \/ _ |- _ => destruct H; try done end; guards;
    repeat match goal with H : includes _ _ = true |- _ => apply includes_true in H | H : includes _ _ = false |- _ => apply includes_false in H end;
    set_unfold; naive_solver.
Qed.
End Theorems.

(** ** Examples *)

Module Cases.
Definition digest : jsval := JStr "00112233445566778899aabbccddeeff00112233445566778899aabbccddeeff".
Definition summary : jsval :=
  JObj [("version", JNum (NInt 1)); ("purpose", JStr "agentpass.audit-anchor"); ("operation_id", JStr "op-1");
        ("algorithm", JStr "ed25519"); ("bytes_length", JNum (NInt 32)); ("request_digest", digest); ("key_id", JStr "key-1");
        ("key_version", JStr "7"); ("state", JStr "uncertain"); ("uncertain_reason", JStr "provider_timeout");
        ("provider_result", JStr "absent")].
Definition purposes : list string := ["agentpass.audit-anchor"].
Definition normalized : Summary :=
  mkSummary (mkTarget "agentpass.audit-anchor" (JStr "op-1")) (mkExpected 32 digest (JStr "key-1") "7" "provider_timeout" "absent").
Definition verified : jsval :=
  JObj [("version", JNum (NInt 1)); ("action", JStr "provider_bound_verification"); ("target", target_js (s_target normalized));
        ("outcome", JStr "verified"); ("after_state", JStr "committed")].
End Cases.

Lemma sample_normalized : normalizeSummary Cases.summary = Ok Cases.normalized.
Proof. vm_compute. reflexivity. Qed.

Example version_samples :
  map (fun s => bool_decide (is_Some (validKeyVersion (JStr s)))) ["9223372036854775807"; "9223372036854775808"; "07"; "8"]
    = [true; false; false; true].
Proof. vm_compute. reflexivity. Qed.

Lemma commands_match_actions_witness :
  allowedActions Cases.purposes (summary_js Cases.normalized) = Ok (actions_of Cases.purposes Cases.normalized).
Proof. exact (proj1 (commands_match_actions Cases.purposes Cases.summary Cases.normalized sample_normalized)). Defined.

Lemma committed_only_by_evidence_witness :
  exists r, normalizeResult Cases.purposes Cases.verified = Ok r /\
    (after_state r = "committed" <->
     (r_action r = "exact_sql_reconciliation" /\ outcome r = "reconciled") \/
     (r_action r = "provider_bound_verification" /\ outcome r = "verified" /\ t_purpose (r_target r) ∈ Cases.purposes)).
Proof.
  exists (mkResult "provider_bound_verification" (s_target Cases.normalized) "verified" "committed").
  assert (normalizeResult Cases.purposes Cases.verified
            = Ok (mkResult "provider_bound_verification" (s_target Cases.normalized) "verified" "committed")) as H
    by (vm_compute; reflexivity).
  exact (conj H (committed_only_by_evidence Cases.purposes Cases.verified _ H)).
Defined.
