(* ===== verification/LifecycleProvider.v ===== *)
(** * Signing under a key lifecycle
    (createManagedSignerLifecycleProvider of
    apps/cloud-api/src/managed-signer-key-lifecycle.mjs)

    A provider bound to a lifecycle signs only while its key is active, and
    replays the result of an idempotency key from a bounded cache.  A call is
    asynchronous: the state machine below has the cache in insertion order,
    the promises of the provider's operations, and the calls made to the
    provider; operations settle in any order. *)

From stdpp Require Import base tactics sets list strings.
From S2P Require Import Prelude JsValue Regex IsoTime Json StrictJson Crypto KeyLifecycle.
Local Open Scope string_scope.
Local Open Scope js_scope.

(** ** Data *)

(** What the code reads of the provider. *)
Record Provider := mkProvider {
  p_key_id : string; p_purpose : jsval; p_algorithm : jsval; p_version : jsval; p_fingerprint : jsval; sign_idempotent : bool
}.

(** A promise; [Rejected None] is an error of the provider. *)
Inductive Promise := Waiting | Fulfilled (bytes : string) | Rejected (e : option code).

Record Pending := mkPending { o_key : string; o_digest : string; o_state : Promise }.

(** The cache: for a key the digest of its request and the index of its
    operation. *)
Record Machine := mkMachine {
  cache : list (string * (string * nat)); pending : list Pending; calls : list (option string * jsval)
}.

(** ** Maps in insertion order *)

Fixpoint map_get {A} (k : string) (l : list (string * A)) : option A :=
  match l with [] => None | (k', a) :: l => if String.eqb k k' then Some a else map_get k l end.

Fixpoint map_set {A} (k : string) (a : A) (l : list (string * A)) : list (string * A) :=
  match l with
  | [] => [(k, a)]
  | (k', a') :: l => if String.eqb k k' then (k, a) :: l else (k', a') :: map_set k a l
  end.

Definition map_delete {A} (k : string) (l : list (string * A)) : list (string * A) :=
  filter (fun kv => String.eqb kv.1 k = false) l.

(** [while (cache.size > max) cache.delete(cache.keys().next().value)] *)
Definition evict {A} (max : nat) (l : list (string * A)) : list (string * A) := drop (length l - max) l.

(** ** The provider's requests *)

Definition REQUEST_OPTIONAL := ["algorithm"; "idempotency_key"; "key_id"; "purpose"; "request_id"; "signal"; "version"].

Definition remove_keys (ks : list string) (v : jsval) : jsval :=
  match v with JObj fs => JObj (filter (fun kv => includes ks kv.1 = false) fs) | v => v end.

Section Sign.
Context `{HDate : DateParse} `{HSha : Sha256} `{HPub : PublicKeys}.
Variable provider : Provider.
Variable max : nat.

(** [normalizeIdempotentRequest]: the request without its idempotency key,
    that key, and the digest. *)
Definition normalizeIdempotentRequest (input : jsval) : result code (jsval * option string * string) :=
  throw_if negb (closedKeys input ["bytes"] REQUEST_OPTIONAL)
           || (negb (is_undefined (get input "idempotency_key")) && negb (is_undefined (get input "request_id"))) with CONFIG ;;
  key ← (match nullish (get input "idempotency_key") (get input "request_id") with
         | JUndefined => Ok None
         | JStr s =>
             throw_if Nat.ltb (String.length s) 1 || Nat.ltb 256 (String.length s) || negb (re_test OPERATION_ID s) with CONFIG ;;
             Ok (Some s)
         | _ => Throw CONFIG
         end);
  match get input "bytes" with
  | JBytes bytes =>
      Ok (remove_keys ["idempotency_key"; "request_id"] input, key,
          canonicalDigest (JObj [("key_id", nullish (get input "key_id") (JStr (p_key_id provider)));
                                 ("purpose", nullish (get input "purpose") (p_purpose provider));
                                 ("algorithm", nullish (get input "algorithm") (p_algorithm provider));
                                 ("version", nullish (get input "version") (p_version provider));
                                 ("bytes", JStr (base64 bytes))]))
  | _ => Throw CONFIG
  end.

(** [normalizeResultBytes] *)
Definition normalizeResultBytes (v : jsval) : result code string := match v with JBytes b => Ok b | _ => Throw CONFIG end.

(** [assertProviderActive]: [s] is the lifecycle's snapshot. *)
Definition assertProviderActive (o : Options) (s : Snapshot) : result code Key :=
  key ← assertCanSign s (JStr (p_key_id provider));
  throw_if negb (bool_decide (key_id key = JStr (p_key_id provider))) || negb (bool_decide (JStr (purpose o) = p_purpose provider))
           || negb (bool_decide (JStr ALGORITHM = p_algorithm provider))
           || negb (bool_decide (JStr (public_key_fingerprint key) = p_fingerprint provider)) || negb (is_active key) with CONFIG ;;
  Ok key.

(** ** Signing *)

(** What the caller gets: the provider's own answer, or the operation it
    waits for. *)
Inductive Reply := Passed | Awaits (n : nat) | Failed (e : option code).

Definition log_call (c : option string * jsval) (m : Machine) : Machine := mkMachine (cache m) (pending m) (calls m ++ [c]).

(** The synchronous part of [sign]; [starts] says that the provider's function
    returns rather than throws. *)
Definition sign (o : Options) (s : Snapshot) (input : jsval) (starts : bool) (m : Machine) : Reply * Machine :=
  let r := _ ← assertProviderActive o s; normalizeIdempotentRequest input in
  match r with
  | Throw e => (Failed (Some e), m)
  | Ok (request, None, _) => (if starts then Passed else Failed None, log_call (None, request) m)
  | Ok (request, Some k, digest) =>
      match map_get k (cache m) with
      | Some (d, n) => if String.eqb d digest then (Awaits n, m) else (Failed (Some IDEMPOTENCY), m)
      | None =>
          let m := log_call (Some k, if sign_idempotent provider
                                     then JObj (match request with JObj fs => fs ++ [("idempotency_key", JStr k)] | _ => [] end)%list
                                     else request) m in
          if starts then
            let n := length (pending m) in
            (Awaits n, mkMachine (evict max (map_set k (digest, n) (cache m))) (pending m ++ [mkPending k digest Waiting]) (calls m))
          else (Failed None, m)
      end
  end.

(** The operation [n] settles: the provider resolves a value, or rejects. *)
Definition settle (n : nat) (outcome : option jsval) (m : Machine) : Machine :=
  match pending m !! n with
  | Some (mkPending k digest Waiting) =>
      match outcome with
      | Some v =>
          match normalizeResultBytes v with
          | Ok b => mkMachine (map_set k (digest, n) (cache m)) (<[n := mkPending k digest (Fulfilled b)]> (pending m)) (calls m)
          | Throw e => mkMachine (cache m) (<[n := mkPending k digest (Rejected (Some e))]> (pending m)) (calls m)
          end
      | None => mkMachine (map_delete k (cache m)) (<[n := mkPending k digest (Rejected None)]> (pending m)) (calls m)
      end
  | _ => m
  end.

(** [publicKeyMetadata]: whether the provider is asked. *)
Definition publicKeyMetadata (o : Options) (s : Snapshot) : result code unit := _ ← assertProviderActive o s; Ok tt.

Definition initial_machine : Machine := mkMachine [] [] [].
End Sign.

(** The checks of [createManagedSignerLifecycleProvider] on its numeric
    option and on the lifecycle. *)
Definition createManagedSignerLifecycleProvider (provider : Provider) (o : Options) (s : Snapshot) (maxEntries : jsval)
    : result code (nat * Machine) :=
  throw_if negb (bool_decide (p_purpose provider = JStr (purpose o))) || negb (bool_decide (p_algorithm provider = JStr ALGORITHM))
    with CONFIG ;;
  max ← of_option CONFIG (safe_integer maxEntries);
  throw_if (max <? 1)%Z || (1024 <? max)%Z with CONFIG ;;
  _ ← assertProviderActive provider o s;
  Ok (Z.to_nat max, initial_machine).

(** ** Lemmas on maps *)

Section Maps.
Context {A : Type}.
Implicit Types (l : list (string * A)).

Lemma map_get_None k l : map_get k l = None <-> k ∉ map fst l.
Proof.
  induction l as [|[k' a] l IH]; cbn [map_get map fst]; [set_solver|].
  destruct (String.eqb_spec k k') as [->|]; [set_solver|]. rewrite IH. set_solver.
Qed.

Lemma map_set_keys k a l : map fst (map_set k a l) = if bool_decide (k ∈ map fst l) then map fst l else (map fst l ++ [k])%list.
Proof.
  induction l as [|[k' a'] l IH]; [done|]. cbn [map_set map fst]. destruct (String.eqb_spec k k') as [->|Hk].
  - rewrite bool_decide_eq_true_2 by set_solver. done.
  - cbn [map fst]. rewrite IH. destruct (decide (k ∈ map fst l)) as [H|H].
    + rewrite !bool_decide_eq_true_2 by set_solver. done.
    + rewrite !bool_decide_eq_false_2 by set_solver. done.
Qed.

Lemma map_set_elem k a l k' : k' ∈ map fst (map_set k a l) <-> k' = k \/ k' ∈ map fst l.
Proof. rewrite map_set_keys. destruct (bool_decide _) eqn:E; guards; set_solver. Qed.

Lemma map_set_NoDup k a l : NoDup (map fst l) -> NoDup (map fst (map_set k a l)).
Proof.
  intros H. rewrite map_set_keys. destruct (bool_decide _) eqn:E; [done|]. guards. apply NoDup_app.
  split_and!; [done|set_solver|apply NoDup_singleton].
Qed.

Lemma map_delete_elem k l k' : k' ∈ map fst (map_delete k l) <-> k' <> k /\ k' ∈ map fst l.
Proof.
  unfold map_delete. rewrite !list_elem_of_fmap. setoid_rewrite list_elem_of_filter. setoid_rewrite String.eqb_neq. naive_solver.
Qed.

Lemma map_delete_NoDup k l : NoDup (map fst l) -> NoDup (map fst (map_delete k l)).
Proof.
  induction l as [|[k' a] l IH]; [done|]. cbn [map fst]. intros [Hn Hd]%NoDup_cons. unfold map_delete.
  destruct (decide (String.eqb k' k = false)) as [E|E].
  - rewrite filter_cons_True by done. cbn [map fst]. fold (map_delete k l). apply NoDup_cons. split; [|auto].
    rewrite map_delete_elem. tauto.
  - rewrite filter_cons_False by done. auto.
Qed.

Lemma evict_small max l : length l <= max -> evict max l = l.
Proof. intros H. unfold evict. by replace (length l - max) with 0 by lia. Qed.

Lemma evict_length max l : length (evict max l) <= max.
Proof. unfold evict. rewrite length_drop. lia. Qed.
End Maps.

(** ** A key is signed once *)

Section Once.
Context `{HDate : DateParse} `{HSha : Sha256} `{HPub : PublicKeys}.
Variable provider : Provider.
Variable max : nat.

(** The keys that callers use, and the one followed. *)
Variable K : list string.
Variable k : string.
Hypothesis Hmax : length K <= max.

Definition key_of (input : jsval) : option string :=
  match normalizeIdempotentRequest provider input with Ok (_, key, _) => key | Throw _ => None end.

(** Calls with keys of [K], and settlements, of which none rejects an
    operation of [k]; the provider does not throw when called for [k]. *)
Inductive step (m : Machine) : Machine -> Prop :=
| step_sign o s input starts reply m' :
    sign provider max o s input starts m = (reply, m') ->
    (forall k', key_of input = Some k' -> k' ∈ K) -> (key_of input = Some k -> starts = true) -> step m m'
| step_settle n outcome m' :
    settle n outcome m = m' -> (forall d st, pending m !! n = Some (mkPending k d st) -> outcome <> None) -> step m m'.

Definition is_key (c : option string * jsval) : bool := bool_decide (c.1 = Some k).

Definition called (m : Machine) : nat := length (filter (fun c => is_key c = true) (calls m)).

Definition followed (m : Machine) : Prop :=
  NoDup (map fst (cache m)) /\ (forall k', k' ∈ map fst (cache m) -> k' ∈ K) /\
  (forall n p, pending m !! n = Some p -> o_key p ∈ K) /\ called m <= 1 /\ (called m = 1 -> k ∈ map fst (cache m)).

Lemma cache_small l : NoDup (map fst l) -> (forall k', k' ∈ map (fst (B := string * nat)) l -> k' ∈ K) -> length l <= max.
Proof.
  intros Hd Hin. transitivity (length K); [|done]. rewrite <- (length_map fst). apply submseteq_length, NoDup_submseteq; done.
Qed.

Lemma called_app (l : list (option string * jsval)) (c : option string * jsval) :
  length (filter (fun c => is_key c = true) (l ++ [c])%list) =
  length (filter (fun c => is_key c = true) l) + (if bool_decide (c.1 = Some k) then 1 else 0).
Proof.
  rewrite filter_app, length_app. f_equal. fold (is_key c). destruct (is_key c) eqn:E.
  - by rewrite filter_cons_True.
  - by rewrite filter_cons_False by (by rewrite E).
Qed.

Lemma step_followed m m' : followed m -> step m m' -> followed m'.
Proof.
  intros (Hd & Hc & Hp & Hle & Hone) Hs. destruct Hs as [o s input starts reply m' H Hkeys Hstart|n outcome m' <- Hn].
  - unfold sign in H. destruct (_ ← assertProviderActive provider o s; normalizeIdempotentRequest provider input)
      as [[[request [k0|]] digest]|e] eqn:Er; [| |by injection H as _ <-].
    + apply bind_ok in Er as (? & _ & Er). assert (key_of input = Some k0) as Hk0 by (unfold key_of; by rewrite Er).
      specialize (Hkeys _ Hk0). destruct (map_get k0 (cache m)) as [[d n]|] eqn:Eg.
      { destruct (String.eqb d digest); by injection H as _ <-. }
      apply map_get_None in Eg. set (c := if sign_idempotent provider then _ else _) in H.
      assert (forall n, evict max (map_set k0 (digest, n) (cache m)) = map_set k0 (digest, n) (cache m)) as Hev.
      { intros n. apply evict_small, cache_small; [by apply map_set_NoDup|]. intros k'. rewrite map_set_elem. naive_solver. }
      cbv zeta in H. destruct starts; injection H as _ <-; unfold followed, called; cbn [cache pending calls log_call].
      * rewrite Hev, called_app. cbn [fst]. split_and!.
        -- by apply map_set_NoDup.
        -- intros k'. rewrite map_set_elem. naive_solver.
        -- intros n p [Hl|[_ Hl]]%lookup_app_Some; [by eapply Hp|]. by apply list_lookup_singleton_Some in Hl as [_ <-].
        -- fold (called m) in *. destruct (bool_decide (Some k0 = Some k)) eqn:E; [|lia]. guards. injection E as ->.
           destruct (decide (called m = 1)) as [H1|]; [by apply Hone in H1|lia].
        -- intros H1. rewrite map_set_elem. destruct (bool_decide (Some k0 = Some k)) eqn:E; guards; [left; congruence|right].
           apply Hone. unfold called. lia.
      * rewrite called_app. cbn [fst]. rewrite bool_decide_eq_false_2.
        -- rewrite !Nat.add_0_r. done.
        -- intros [= ->]. by discriminate (Hstart Hk0).
    + destruct starts; injection H as _ <-; unfold followed, called; cbn [cache pending calls log_call]; rewrite called_app;
        cbn [fst]; rewrite bool_decide_eq_false_2, !Nat.add_0_r by done; done.
  - unfold settle. destruct (pending m !! n) as [[k0 d st]|] eqn:En; [|done]. destruct st; try done.
    assert (k0 ∈ K) as Hk0 by exact (Hp _ _ En).
    assert (forall st n' p, <[n:=mkPending k0 d st]> (pending m) !! n' = Some p -> o_key p ∈ K) as Hpend.
    { intros st n' p H. destruct (decide (n = n')) as [<-|]; [|rewrite list_lookup_insert_ne in H by done; by eapply Hp].
      apply list_lookup_insert_Some in H as [(_ & <- & _)|(? & _)]; done. }
    unfold followed, called. destruct outcome as [v|]; [destruct (normalizeResultBytes v)|]; cbn [cache pending calls].
    + split_and!; [by apply map_set_NoDup| |by apply Hpend|done|].
      * intros k'. rewrite map_set_elem. naive_solver.
      * intros H1. rewrite map_set_elem. right. by apply Hone.
    + split_and!; [done..|by apply Hpend|done|done].
    + assert (k0 <> k) as Hne by (intros ->; by apply (Hn d Waiting)).
      split_and!; [by apply map_delete_NoDup| |by apply Hpend|done|].
      * intros k'. rewrite map_delete_elem. naive_solver.
      * intros H1. rewrite map_delete_elem. split; [done|]. by apply Hone.
Qed.
End Once.

Section Properties.
Context `{HDate : DateParse} `{HSha : Sha256} `{HPub : PublicKeys}.
Variable provider : Provider.

(** An idempotency key reaches the provider once.  Of any calls and
    settlements in any order, from callers that use no more keys than the cache
    has entries, where no operation of the key rejects, the provider is called
    for the key at most once; the bound on the keys and the absence of a
    rejection are needed, since eviction and rejection forget the operation. *)
Theorem provider_called_once max K k m :
  length K <= max -> reach (eq initial_machine) (step provider max K k) m -> called k m <= 1.
Proof.
  intros Hmax H. assert (followed K k m) as (_ & _ & _ & Hc & _); [|done]. revert m H. apply reach_invariant.
  - intros m <-. unfold followed, called, initial_machine. cbn. split_and!; [by apply NoDup_nil_2|set_solver|done|lia|done].
  - intros m1 m2 _ H1 Hs. by eapply step_followed.
Qed.

(** The provider is called only while the lifecycle holds its key active,
    with the provider's purpose, algorithm and fingerprint. *)
Theorem calls_need_active_key max o s input starts m reply m' :
  sign provider max o s input starts m = (reply, m') -> calls m' <> calls m ->
  exists key, assertCanSign s (JStr (p_key_id provider)) = Ok key /\ state key = ACTIVE /\
    key_id key = JStr (p_key_id provider) /\ p_purpose provider = JStr (purpose o) /\
    p_fingerprint provider = JStr (public_key_fingerprint key).
Proof.
  unfold sign. destruct (_ ← assertProviderActive provider o s; normalizeIdempotentRequest provider input)
    as [x|e] eqn:E; [|by intros [= _ <-]].
  apply bind_ok in E as (key & Ha & _). intros _ _. exists key. unfold assertProviderActive in Ha. inv_result.
  unfold assertCanSign in *. inv_result. guards. unfold is_active in *. guards. auto.
Qed.

(** A rejection removes whatever the cache holds for its key, also the entry
    of a newer operation that took the place of an evicted one. *)
Lemma late_rejection_forgets n k d m :
  pending m !! n = Some (mkPending k d Waiting) -> map_get k (cache (settle n None m)) = None.
Proof. intros H. unfold settle. rewrite H. cbn [cache]. apply map_get_None. rewrite map_delete_elem. tauto. Qed.

(** An evicted operation that fulfils is entered again, and nothing is evicted
    for it: the cache can exceed its limit. *)
Lemma late_fulfilment_overflows n k d b m :
  pending m !! n = Some (mkPending k d Waiting) -> map_get k (cache m) = None ->
  length (cache (settle n (Some (JBytes b)) m)) = S (length (cache m)).
Proof.
  intros H Hk%map_get_None. unfold settle. rewrite H. cbn [normalizeResultBytes cache].
  rewrite <- !(length_map fst), map_set_keys, bool_decide_eq_false_2 by done. rewrite length_app. cbn. lia.
Qed.
End Properties.

(** ** Witness *)

Module Sample.
#[local] Existing Instance iso_date_parse.
#[local] Existing Instance toy_sha256.
#[local] Existing Instance KeyLifecycle.Sample.no_keys.

Definition provider : Provider :=
  mkProvider "key-1" (JStr "agentpass.capability") (JStr "ed25519") JUndefined (JStr (KeyLifecycle.Sample.fingerprint "a")) false.

Definition request : jsval := JObj [("bytes", JBytes "message"); ("idempotency_key", JStr "op-1")].

(** A call, its settlement, and the same call again. *)
Definition sign_ (m : Machine) : Reply * Machine :=
  sign provider 2 KeyLifecycle.Sample.options (current KeyLifecycle.Sample.start) request true m.
Definition signed : Machine := (sign_ initial_machine).2.
Definition settled : Machine := settle 0 (Some (JBytes "signature")) signed.
Definition again : Machine := (sign_ settled).2.

Lemma calls_once : called "op-1" again = 1.
Proof. vm_compute. reflexivity. Qed.

Lemma request_key : key_of provider request = Some "op-1".
Proof. vm_compute. reflexivity. Qed.

Lemma sign_steps m : step provider 2 ["op-1"] "op-1" m (sign_ m).2.
Proof.
  eapply (step_sign _ _ _ _ _ KeyLifecycle.Sample.options (current KeyLifecycle.Sample.start) request true (sign_ m).1);
    [apply surjective_pairing|intros k'|done].
  rewrite request_key. intros [= <-]. left.
Qed.

Lemma reach_again : reach (eq initial_machine) (step provider 2 ["op-1"] "op-1") again.
Proof.
  eapply reach_step; [|apply (sign_steps settled)]. eapply reach_step; [|by apply (step_settle _ _ _ _ _ 0 (Some (JBytes "signature")))].
  eapply reach_step; [|apply (sign_steps initial_machine)]. by apply reach_init.
Qed.
End Sample.

Lemma provider_called_once_witness : called "op-1" Sample.again <= 1.
Proof.
  apply (@provider_called_once toy_sha256 Sample.provider 2 ["op-1"] "op-1" Sample.again).
  - cbn. lia.
  - apply Sample.reach_again.
Defined.
