(* ===== verification/BundleJson.v ===== *)
(** * The bounded JSON reader of control bundles
    (JsonReader and parseControlBundleJson of lib/control-bundle-v2.mjs)

    A second recursive descent parser: it refuses duplicate fields, bounds the
    nesting, and skips every character of the class [\s] between tokens.  The
    index of the reader is the rest of the text; the readers of numerals and
    literals are those of the strict parser, whose texts of code units below
    256 are also the texts here.  The fuel of [parseControlBundleJson] is
    enough for every text ([read_enough]). *)

From stdpp Require Import base tactics list strings.
From Stdlib Require Import Ascii.
From S2P Require Import Prelude JsValue Regex Json StrictJson.
Local Open Scope char_scope.
Local Open Scope string_scope.
Local Open Scope js_scope.

(** ** Definitions *)

(** The reasons of [CONTROL_BUNDLE_REASONS] that the code throws. *)
Inductive reason :=
| INVALID_BUNDLE | INVALID_JSON | JSON_TOO_LARGE | JSON_TOO_DEEP | DUPLICATE_FIELD | UNKNOWN_FIELD
| INVALID_FORMAT_EPOCH | LEGACY_MODE_REQUIRED | LEGACY_PERMANENTLY_REJECTED | INVALID_IDENTIFIER
| INVALID_ORGANIZATION_ID | INVALID_DEVICE_ID | INVALID_AGENT_ID | INVALID_CAPABILITY_ID
| INVALID_AUDIENCE | AUDIENCE_MISMATCH | INVALID_SCOPE | INVALID_TIMESTAMP | ISSUED_IN_FUTURE | EXPIRED
| TTL_EXCEEDED | INVALID_OFFLINE_TTL | OFFLINE_TTL_EXPIRED | INVALID_SEQUENCE | SEQUENCE_ROLLBACK
| SEQUENCE_CONFLICT | SEQUENCE_EVIDENCE_REQUIRED | INVALID_REVOCATION | DUPLICATE_REVOCATION
| REVOCATION_LIST_TOO_LARGE | INVALID_KEY | KEY_ID_NOT_TRUSTED | ISSUER_KEY_MISMATCH
| INVALID_SIGNATURE_ENCODING | INVALID_SIGNATURE | STATE_INVALID | STATE_SYMLINK | STATE_PERSISTENCE_FAILED
| GLOBAL_REVOKED | DEVICE_REVOKED | AGENT_REVOKED | CAPABILITY_REVOKED | ORGANIZATION_MISMATCH.

#[export] Instance reason_eq_dec : EqDecision reason.
Proof. solve_decision. Defined.

(** What is thrown: a [ControlBundleError], or another error.  [OutsideModel]
    is a value the model has no account of: an escape that denotes a code unit
    of 256 or more, a number that is not an integer where arithmetic is done
    on it.  [NoFuel] is never returned. *)
Inductive bundle_exn := ControlBundleError (r : reason) | PlainError | OutsideModel | NoFuel.

#[export] Instance bundle_exn_eq_dec : EqDecision bundle_exn.
Proof. solve_decision. Defined.

Definition fail {A} (r : reason) : result bundle_exn A := Throw (ControlBundleError r).

Definition CONTROL_BUNDLE_MAX_BYTES : Z := 262144.
Definition MAX_JSON_DEPTH : nat := 32.

(** [Buffer.byteLength(text)] *)
Fixpoint byteLength (s : string) : Z :=
  match s with EmptyString => 0 | String c s => ((if Nat.ltb (code c) 128 then 1 else 2) + byteLength s)%Z end.

(** [/\s/] below 256. *)
Definition space (c : ascii) : bool :=
  match code c with 9 | 10 | 11 | 12 | 13 | 32 | 160 => true | _ => false end.

Fixpoint ws (s : string) : string :=
  match s with String c r => if space c then ws r else s | EmptyString => s end.

(** The loop of [string], after the opening quote: the raw text up to the
    closing quote, and the rest. *)
Fixpoint scan (escaped : bool) (s : string) : option (string * string) :=
  match s with
  | EmptyString => None
  | String c r =>
      if Ascii.eqb c backslash then option_map (fun '(raw, rest) => (String c raw, rest)) (scan (negb escaped) r)
      else if Ascii.eqb c dquote && negb escaped then Some ("", r)
      else option_map (fun '(raw, rest) => (String c raw, rest)) (scan false r)
  end.

(** [string], after the opening quote. *)
Definition read_string (s : string) : result bundle_exn (string * string) :=
  match scan false s with
  | None => Throw PlainError
  | Some (raw, rest) =>
      match unescape raw with
      | Ok v => Ok (v, rest)
      | Throw CodeUnit => Throw OutsideModel
      | Throw _ => Throw PlainError
      end
  end.

Section Reader.
Context `{HN : NumberText}.
Variable maxDepth : nat.

(** The literals and numbers of [value]. *)
Definition read_scalar (s : string) : result bundle_exn (jsval * string) := or_throw (parseScalar s) PlainError.

(** [value]; [read_members] is the loop of [object] with the fields read so
    far, [read_elements] the loop of [array]. *)
Fixpoint read_value (fuel depth : nat) (s : string) {struct fuel} : result bundle_exn (jsval * string) :=
  match fuel with
  | 0 => Throw NoFuel
  | S fuel =>
      throw_if Nat.ltb maxDepth depth with ControlBundleError JSON_TOO_DEEP ;;
      let s := ws s in
      match s with
      | String c r =>
          if Ascii.eqb c "{" then
            match ws r with
            | String "}" r => Ok (JObj [], r)
            | r => read_members fuel (S depth) [] r
            end
          else if Ascii.eqb c "[" then
            match ws r with
            | String "]" r => Ok (JArr [], r)
            | r => read_elements fuel (S depth) [] r
            end
          else if Ascii.eqb c dquote then '(t, r) ← read_string r; Ok (JStr t, r)
          else read_scalar s
      | EmptyString => read_scalar s
      end
  end
with read_members (fuel depth : nat) (fields : list (string * jsval)) (s : string) {struct fuel}
    : result bundle_exn (jsval * string) :=
  match fuel with
  | 0 => Throw NoFuel
  | S fuel =>
      match ws s with
      | String c r =>
          throw_if negb (Ascii.eqb c dquote) with PlainError ;;
          '(key, r) ← read_string r;
          throw_if includes (map fst fields) key with ControlBundleError DUPLICATE_FIELD ;;
          match ws r with
          | String ":" r =>
              '(v, r) ← read_value fuel depth r;
              let fields := (fields ++ [(key, v)])%list in
              match ws r with
              | String "}" r => Ok (JObj fields, r)
              | String "," r => read_members fuel depth fields r
              | _ => Throw PlainError
              end
          | _ => Throw PlainError
          end
      | EmptyString => Throw PlainError
      end
  end
with read_elements (fuel depth : nat) (items : list jsval) (s : string) {struct fuel}
    : result bundle_exn (jsval * string) :=
  match fuel with
  | 0 => Throw NoFuel
  | S fuel =>
      '(v, r) ← read_value fuel depth s;
      let items := (items ++ [v])%list in
      match ws r with
      | String "]" r => Ok (JArr items, r)
      | String "," r => read_elements fuel depth items r
      | _ => Throw PlainError
      end
  end.

(** [read] *)
Definition read (text : string) : result bundle_exn jsval :=
  '(v, rest) ← read_value (parse_fuel text) 0 (ws text);
  throw_if negb (String.eqb (ws rest) "") with PlainError ;;
  Ok v.

(** [parseControlBundleJson], on a text or on bytes: [None] are bytes that are
    not UTF-8.  A byte order mark is not a text of the model. *)
Definition parseControlBundleJson (input : option string) (bytes maxBytes : Z) : result bundle_exn jsval :=
  throw_if (bytes =? 0)%Z || (maxBytes <? bytes)%Z with ControlBundleError JSON_TOO_LARGE ;;
  text ← of_option (ControlBundleError INVALID_JSON) input;
  match read text with Throw PlainError => fail INVALID_JSON | r => r end.
End Reader.

(** How deep arrays and objects are nested. *)
Fixpoint nesting (v : jsval) : nat :=
  match v with
  | JArr l => foldr (fun v m => max (S (nesting v)) m) 0 l
  | JObj fs => foldr (fun kv m => max (S (nesting (snd kv))) m) 0 fs
  | _ => 0
  end.

(** ** Lemmas: what is read is bounded *)

Lemma ws_length s : String.length (ws s) <= String.length s.
Proof. induction s as [|c s IH]; simpl; [lia|]. destruct (space c); simpl; lia. Qed.

Lemma scan_length b s raw rest : scan b s = Some (raw, rest) -> String.length rest < String.length s.
Proof.
  revert b raw. induction s as [|c s IH]; intros b raw H; [done|]. simpl in H.
  destruct (Ascii.eqb c backslash); [|destruct (_ && _); [injection H as _ <-; simpl; lia|]].
  all: destruct (scan _ s) as [[raw' rest']|] eqn:E; [|done]; injection H as _ <-; apply IH in E; simpl; lia.
Qed.

Lemma read_string_length s v rest : read_string s = Ok (v, rest) -> String.length rest < String.length s.
Proof.
  unfold read_string. destruct (scan false s) as [[raw r]|] eqn:E; [|done]. apply scan_length in E.
  destruct (unescape raw) as [t|[]]; try done. intros [= _ <-]. done.
Qed.

Lemma nesting_obj fs k v : nesting (JObj (fs ++ [(k, v)])) = max (nesting (JObj fs)) (S (nesting v)).
Proof. cbn [nesting]. rewrite foldr_app. cbn [foldr snd]. induction fs as [|kv fs IH]; cbn [foldr]; lia. Qed.

Lemma nesting_arr l v : nesting (JArr (l ++ [v])) = max (nesting (JArr l)) (S (nesting v)).
Proof. cbn [nesting]. rewrite foldr_app. cbn [foldr]. induction l as [|x l IH]; cbn [foldr]; lia. Qed.

Section Lemmas.
Context `{HN : NumberText}.
Variable maxDepth : nat.

Lemma read_scalar_ok s v r :
  read_scalar s = Ok (v, r) -> String.length r < String.length s /\ nesting v = 0 /\ no_duplicates v = true.
Proof.
  unfold read_scalar. destruct (parseScalar s) as [[v' r']|] eqn:E; [|done]. intros [= -> ->].
  split; [by eapply parseScalar_length|]. unfold parseScalar, parseNumber in E. repeat case_match; by simplify_eq.
Qed.

(** A value fit to stand at depth [d]. *)
Definition fits (d : nat) (v : jsval) : Prop := d + nesting v <= maxDepth /\ no_duplicates v = true.

Lemma fits_member d fs k v :
  fits d (JObj fs) -> k ∉ map fst fs -> fits (S d) v -> fits d (JObj (fs ++ [(k, v)])).
Proof. intros [Hn Hd] Hk [Hv Hu]. split; [rewrite nesting_obj; lia|by apply no_duplicates_snoc]. Qed.

Lemma fits_element d l v : fits d (JArr l) -> fits (S d) v -> fits d (JArr (l ++ [v])).
Proof.
  intros [Hn Hd] [Hv Hu]. split; [rewrite nesting_arr; lia|]. apply no_duplicates_arr, Forall_app.
  apply no_duplicates_arr in Hd. by repeat constructor.
Qed.

Lemma read_fits n :
  (forall d s v r, read_value maxDepth n d s = Ok (v, r) -> String.length r < String.length s /\ fits d v) /\
  (forall d fs s v r, read_members maxDepth n (S d) fs s = Ok (v, r) -> fits d (JObj fs) ->
     String.length r < String.length s /\ fits d v) /\
  (forall d l s v r, read_elements maxDepth n (S d) l s = Ok (v, r) -> fits d (JArr l) ->
     String.length r < String.length s /\ fits d v).
Proof.
  induction n as [|n (IHv & IHm & IHe)]; [done|]. split_and!.
  - intros d s v r H. cbn [read_value] in H. destruct (Nat.ltb_spec maxDepth d) as [|Hd]; [done|].
    assert (forall t, read_scalar t = Ok (v, r) -> String.length t <= String.length s ->
      String.length r < String.length s /\ fits d v) as Hsc.
    { intros t Ht Hl. apply read_scalar_ok in Ht as (? & Hn & ?). split; [lia|]. split; [lia|done]. }
    assert (forall w, nesting w = 0 -> no_duplicates w = true -> fits d w) as Hflat by (intros w ? ?; split; [lia|done]).
    pose proof (ws_length s) as Hw. cbv zeta in H. destruct (ws s) as [|c r0]; [by eapply Hsc|].
    pose proof (ws_length r0). simpl in Hw.
    destruct (Ascii.eqb c "{").
    { repeat case_match; simplify_eq; simpl in *; try (split; [lia|by apply Hflat]);
        (apply IHm in H as [? ?]; [simpl in *; split; [lia|done]|by apply Hflat]). }
    destruct (Ascii.eqb c "[").
    { repeat case_match; simplify_eq; simpl in *; try (split; [lia|by apply Hflat]);
        (apply IHe in H as [? ?]; [simpl in *; split; [lia|done]|by apply Hflat]). }
    destruct (Ascii.eqb c dquote); [|by eapply Hsc; [exact H|simpl; lia]].
    apply bind_ok in H as ([t r'] & Ht%read_string_length & [= <- <-]). split; [lia|by apply Hflat].
  - intros d fs s v r H Hf. cbn [read_members] in H. pose proof (ws_length s).
    destruct (ws s) as [|c r0]; [done|]. simpl in *. destruct (negb _); [done|].
    apply bind_ok in H as ([k r1] & Hk%read_string_length & H). destruct (includes _ _) eqn:Ek; [done|].
    apply includes_false in Ek. pose proof (ws_length r1). destruct (ws r1) as [|c1 r2]; [done|]. simpl in *.
    repeat case_match; simplify_eq. apply bind_ok in H as ([v2 r3] & [Hv Hg]%IHv & H).
    pose proof (ws_length r3). assert (fits d (JObj (fs ++ [(k, v2)]))) by (by apply fits_member).
    repeat case_match; simplify_eq; simpl in *; first [apply IHm in H as [? ?]; [split; [lia|done]|done] | split; [lia|done]].
  - intros d l s v r H Hf. cbn [read_elements] in H. apply bind_ok in H as ([v2 r3] & [Hv Hg]%IHv & H).
    pose proof (ws_length r3). assert (fits d (JArr (l ++ [v2]))) by (by apply fits_element).
    repeat case_match; simplify_eq; simpl in *; first [apply IHe in H as [? ?]; [split; [lia|done]|done] | split; [lia|done]].
Qed.

(** ** Lemmas: the fuel is enough *)

Lemma read_bind_fuel {A B} (m : result bundle_exn A) (f : A -> result bundle_exn B) :
  m <> Throw NoFuel -> (forall a, m = Ok a -> f a <> Throw NoFuel) -> m ≫= f <> Throw NoFuel.
Proof. destruct m; simpl; naive_solver. Qed.

Lemma read_string_fuel s : read_string s <> Throw NoFuel.
Proof. unfold read_string. repeat case_match; congruence. Qed.

Lemma read_scalar_fuel s : read_scalar s <> Throw NoFuel.
Proof. unfold read_scalar. by destruct (parseScalar s). Qed.

Lemma read_shortens n :
  (forall d s v r, read_value maxDepth n d s = Ok (v, r) -> String.length r < String.length s).
Proof. intros d s v r H. by apply (read_fits n) in H as [? _]. Qed.

Lemma read_enough n :
  (forall d s, 2 * String.length s + 1 <= n -> read_value maxDepth n d s <> Throw NoFuel) /\
  (forall d fs s, 2 * String.length s + 2 <= n -> read_members maxDepth n d fs s <> Throw NoFuel) /\
  (forall d l s, 2 * String.length s + 2 <= n -> read_elements maxDepth n d l s <> Throw NoFuel).
Proof.
  induction n as [|n (IHv & IHm & IHe)]; [split_and!; lia|]. split_and!.
  - intros d s Hn. cbn [read_value]. destruct (Nat.ltb _ _); [done|]. cbv zeta. pose proof (ws_length s) as Hw.
    destruct (ws s) as [|c r0]; [apply read_scalar_fuel|]. simpl in Hw. pose proof (ws_length r0).
    destruct (Ascii.eqb c "{"); [repeat case_match; try done; apply IHm; simpl in *; lia|].
    destruct (Ascii.eqb c "["); [repeat case_match; try done; apply IHe; simpl in *; lia|].
    destruct (Ascii.eqb c dquote); [|apply read_scalar_fuel].
    apply read_bind_fuel; [apply read_string_fuel|]. by intros [? ?].
  - intros d fs s Hn. cbn [read_members]. pose proof (ws_length s). destruct (ws s) as [|c r0]; [done|]. simpl in *.
    destruct (negb _); [done|].
    apply read_bind_fuel; [apply read_string_fuel|]. intros [k r1] Hk%read_string_length.
    destruct (includes _ _); [done|]. pose proof (ws_length r1). destruct (ws r1) as [|c1 r2]; [done|]. simpl in *.
    repeat case_match; try done. apply read_bind_fuel; [apply IHv; lia|]. intros [v r3] Hv%read_shortens.
    pose proof (ws_length r3). repeat case_match; try done; apply IHm; simpl in *; lia.
  - intros d l s Hn. cbn [read_elements]. apply read_bind_fuel; [apply IHv; lia|]. intros [v r3] Hv%read_shortens.
    pose proof (ws_length r3). repeat case_match; try done; apply IHe; simpl in *; lia.
Qed.
End Lemmas.

(** ** Lemmas: agreement with the strict parser *)

(** The two skip the same characters before a token. *)
Lemma ws_token s c r : skipWhitespace s = String c r -> space c = false -> ws s = String c r.
Proof.
  induction s as [|a s IH]; [done|]. simpl. destruct (whitespace a) eqn:Ea.
  - intros H Hc. assert (space a = true) as -> by (by destruct a as [[] [] [] [] [] [] [] []]). auto.
  - intros [= -> ->] Hc. by rewrite Hc.
Qed.

Lemma ws_end s : skipWhitespace s = "" -> ws s = "".
Proof.
  induction s as [|a s IH]; [done|]. simpl. destruct (whitespace a) eqn:Ea; [|done].
  intros H. assert (space a = true) as -> by (by destruct a as [[] [] [] [] [] [] [] []]). auto.
Qed.

Lemma scan_strict s raw rest : scan_string s = Ok (raw, rest) -> scan false s = Some (raw, rest).
Proof.
  revert raw rest. induction s as [s IH] using string_length_ind. intros raw rest H. destruct s as [|c s]; [done|].
  simpl in H. destruct (Ascii.eqb c backslash) eqn:Ec.
  - destruct s as [|d s]; [done|]. apply bind_ok in H as ([raw' rest'] & H%IH & [= <- <-]); [|simpl; lia].
    cbn [scan]. rewrite Ec. cbn [negb]. rewrite andb_false_r.
    by destruct (Ascii.eqb d backslash); rewrite H.
  - destruct (Ascii.eqb c dquote) eqn:Eq; [injection H as <- <-; cbn [scan]; by rewrite Ec, Eq|].
    destruct (Nat.ltb (code c) 32); [done|]. apply bind_ok in H as ([raw' rest'] & H%IH & [= <- <-]); [|simpl; lia].
    cbn [scan]. rewrite Ec, Eq. cbn [andb]. by rewrite H.
Qed.

Lemma read_string_strict s v rest : parseString s = Ok (v, rest) -> read_string s = Ok (v, rest).
Proof.
  intros ([raw r] & Hs%scan_strict & (v' & Hv & [= <- <-])%bind_ok)%bind_ok. unfold read_string. by rewrite Hs, Hv.
Qed.

Lemma digit_not_space c : digit c = true -> space c = false.
Proof. by destruct c as [[] [] [] [] [] [] [] []]. Qed.

(** A scalar does not start with a space. *)
Lemma parseScalar_head `{NumberText} s v r : parseScalar s = Ok (v, r) -> exists c t, s = String c t /\ space c = false.
Proof.
  intros Hs. destruct s as [|c t]; [done|]. exists c, t. split; [done|]. unfold parseScalar in Hs.
  destruct (Ascii.eqb_spec c "t") as [->|Ht]; [done|]. destruct (Ascii.eqb_spec c "f") as [->|Hf]; [done|].
  destruct (Ascii.eqb_spec c "n") as [->|Hn]; [done|]. destruct (Ascii.eqb_spec c "-") as [->|Hm]; [done|].
  assert (forall p a, a <> c -> strip_prefix (String a p) (String c t) = None) as Hp
    by (intros p a Ha; cbn [strip_prefix]; by destruct (Ascii.eqb_spec a c)).
  rewrite !Hp in Hs by congruence. apply digit_not_space. unfold parseNumber, take_number in Hs.
  assert (take_minus (String c t) = ("", String c t)) as Em.
  { destruct c as [[] [] [] [] [] [] [] []]; try reflexivity. by destruct Hm. }
  rewrite Em in Hs. destruct (digit c) eqn:Ed; [done|].
  assert (take_int (String c t) = None) as Ei; [|by rewrite Ei in Hs].
  destruct c as [[] [] [] [] [] [] [] []]; done.
Qed.

Section Agree.
Context `{HN : NumberText}.
Variable maxDepth : nat.

(** What a successful parse finds first. *)
Lemma value_token n s v r :
  parseValue n s = Ok (v, r) -> exists c t, skipWhitespace s = String c t /\ space c = false.
Proof.
  destruct n as [|n]; [done|]. cbn [parseValue]. cbv zeta. destruct (skipWhitespace s) as [|c t] eqn:Es; [done|]. intros H.
  exists c, t. split; [done|].
  destruct (Ascii.eqb_spec c "{") as [->|]; [done|]. destruct (Ascii.eqb_spec c "[") as [->|]; [done|].
  destruct (Ascii.eqb_spec c dquote) as [->|]; [done|]. apply parseScalar_head in H as (c' & t' & [= <- <-] & ?). done.
Qed.

Lemma members_token n fs s v r :
  parseMembers n fs s = Ok (v, r) -> exists t, skipWhitespace s = String dquote t.
Proof.
  destruct n as [|n]; [done|]. cbn [parseMembers]. destruct (skipWhitespace s) as [|c t] eqn:Es; [done|].
  destruct (Ascii.eqb_spec c dquote) as [->|]; [|done]. eauto.
Qed.

Lemma elements_token n l s v r :
  parseElements n l s = Ok (v, r) -> exists c t, skipWhitespace s = String c t /\ space c = false.
Proof.
  destruct n as [|n]; [done|]. cbn [parseElements]. intros ([v' r'] & H%value_token & _)%bind_ok. done.
Qed.

Lemma skipWhitespace_twice s : skipWhitespace (skipWhitespace s) = skipWhitespace s.
Proof. induction s as [|c s IH]; [done|]. simpl. destruct (whitespace c) eqn:E; [done|]. simpl. by rewrite E. Qed.

Lemma token_of s c t c' t' : skipWhitespace s = String c t -> skipWhitespace (String c t) = String c' t' -> c = c'.
Proof. intros E H. rewrite <- E, skipWhitespace_twice, E in H. by injection H. Qed.

(** A match on a closing bracket that is not there. *)
Lemma not_bracket {A} (f x : string -> A) c r :
  c <> "]"%char -> match String c r with String "]" r => x r | r => f r end = f (String c r).
Proof. intros H. by destruct c as [[] [] [] [] [] [] [] []]. Qed.

Lemma not_brace {A} (f x : string -> A) c r :
  c <> "}"%char -> match String c r with String "}" r => x r | r => f r end = f (String c r).
Proof. intros H. by destruct c as [[] [] [] [] [] [] [] []]. Qed.

(** What follows an item: the closing bracket or a comma. *)
Lemma after_element {A} (x y : string -> result json_exn A) (x' y' : string -> result bundle_exn A) s v :
  match skipWhitespace s with String "]" r => x r | String "," r => y r | _ => Throw JsonSyntaxError end = Ok v ->
  (forall r, x r = Ok v -> x' r = Ok v) -> (forall r, y r = Ok v -> y' r = Ok v) ->
  match ws s with String "]" r => x' r | String "," r => y' r | _ => Throw PlainError end = Ok v.
Proof.
  destruct (skipWhitespace s) as [|c t] eqn:E; [done|]. intros H Hx Hy.
  destruct (Ascii.eqb_spec c "]") as [->|]; [rewrite (ws_token _ _ _ E eq_refl); auto|].
  destruct (Ascii.eqb_spec c ",") as [->|]; [rewrite (ws_token _ _ _ E eq_refl); auto|].
  destruct c as [[] [] [] [] [] [] [] []]; done.
Qed.

Lemma after_member {A} (x y : string -> result json_exn A) (x' y' : string -> result bundle_exn A) s v :
  match skipWhitespace s with String "}" r => x r | String "," r => y r | _ => Throw JsonSyntaxError end = Ok v ->
  (forall r, x r = Ok v -> x' r = Ok v) -> (forall r, y r = Ok v -> y' r = Ok v) ->
  match ws s with String "}" r => x' r | String "," r => y' r | _ => Throw PlainError end = Ok v.
Proof.
  destruct (skipWhitespace s) as [|c t] eqn:E; [done|]. intros H Hx Hy.
  destruct (Ascii.eqb_spec c "}") as [->|]; [rewrite (ws_token _ _ _ E eq_refl); auto|].
  destruct (Ascii.eqb_spec c ",") as [->|]; [rewrite (ws_token _ _ _ E eq_refl); auto|].
  destruct c as [[] [] [] [] [] [] [] []]; done.
Qed.

Lemma colon {A} (x : string -> result json_exn A) s v :
  match skipWhitespace s with String ":" r => x r | _ => Throw JsonSyntaxError end = Ok v ->
  exists r, ws s = String ":" r /\ x r = Ok v.
Proof.
  destruct (skipWhitespace s) as [|c t] eqn:E; [done|]. destruct (Ascii.eqb_spec c ":") as [->|].
  - intros H. exists t. split; [by apply ws_token|done].
  - destruct c as [[] [] [] [] [] [] [] []]; done.
Qed.

(** The items read so far are part of the result. *)
Lemma parse_nesting n :
  (forall fs s v r, parseMembers n fs s = Ok (v, r) -> nesting (JObj fs) <= nesting v) /\
  (forall l s v r, parseElements n l s = Ok (v, r) -> nesting (JArr l) <= nesting v).
Proof.
  induction n as [|n [IHm IHe]]; [done|]. split.
  - intros fs s v r H. cbn [parseMembers] in H. destruct (skipWhitespace s) as [|c r0]; [done|]. destruct (negb _); [done|].
    apply bind_ok in H as ([k r1] & _ & H). destruct (includes _ _); [done|]. apply colon in H as (r2 & _ & H).
    apply bind_ok in H as ([v2 r3] & _ & H). pose proof (nesting_obj fs k v2).
    repeat case_match; simplify_eq; try lia. apply IHm in H. lia.
  - intros l s v r H. cbn [parseElements] in H. apply bind_ok in H as ([v2 r3] & _ & H).
    pose proof (nesting_arr l v2). repeat case_match; simplify_eq; try lia. apply IHe in H. lia.
Qed.

Lemma read_value_step n d s :
  read_value maxDepth (S n) d s =
    throw_if Nat.ltb maxDepth d with ControlBundleError JSON_TOO_DEEP ;;
    match ws s with
    | String c r =>
        if Ascii.eqb c "{" then
          match ws r with String "}" r => Ok (JObj [], r) | r => read_members maxDepth n (S d) [] r end
        else if Ascii.eqb c "[" then
          match ws r with String "]" r => Ok (JArr [], r) | r => read_elements maxDepth n (S d) [] r end
        else if Ascii.eqb c dquote then '(t, r) ← read_string r; Ok (JStr t, r)
        else read_scalar (ws s)
    | EmptyString => read_scalar (ws s)
    end.
Proof. done. Qed.

Lemma read_members_step n d fields s :
  read_members maxDepth (S n) d fields s =
    match ws s with
    | String c r =>
        throw_if negb (Ascii.eqb c dquote) with PlainError ;;
        '(key, r) ← read_string r;
        throw_if includes (map fst fields) key with ControlBundleError DUPLICATE_FIELD ;;
        match ws r with
        | String ":" r =>
            '(v, r) ← read_value maxDepth n d r;
            match ws r with
            | String "}" r => Ok (JObj (fields ++ [(key, v)]), r)
            | String "," r => read_members maxDepth n d (fields ++ [(key, v)]) r
            | _ => Throw PlainError
            end
        | _ => Throw PlainError
        end
    | EmptyString => Throw PlainError
    end.
Proof. done. Qed.

Lemma read_elements_step n d items s :
  read_elements maxDepth (S n) d items s =
    '(v, r) ← read_value maxDepth n d s;
    match ws r with
    | String "]" r => Ok (JArr (items ++ [v]), r)
    | String "," r => read_elements maxDepth n d (items ++ [v]) r
    | _ => Throw PlainError
    end.
Proof. done. Qed.

(** A parse of the strict parser, and the same parse of the reader. *)
Lemma read_strict n :
  (forall d s v r, parseValue n s = Ok (v, r) -> d + nesting v <= maxDepth -> read_value maxDepth n d s = Ok (v, r)) /\
  (forall d fs s v r, parseMembers n fs s = Ok (v, r) -> d + nesting v <= maxDepth ->
     read_members maxDepth n (S d) fs s = Ok (v, r)) /\
  (forall d l s v r, parseElements n l s = Ok (v, r) -> d + nesting v <= maxDepth ->
     read_elements maxDepth n (S d) l s = Ok (v, r)).
Proof.
  induction n as [|n (IHv & IHm & IHe)]; [done|]. split_and!.
  - intros d s v r H Hd. cbn [parseValue] in H. rewrite read_value_step. destruct (Nat.ltb_spec maxDepth d); [lia|]. cbv zeta in *.
    destruct (skipWhitespace s) as [|c r0] eqn:Es; [done|].
    destruct (Ascii.eqb_spec c "{") as [->|Hc1].
    { rewrite (ws_token _ _ _ Es eq_refl). cbn [Ascii.eqb]. destruct (skipWhitespace r0) as [|c1 r1] eqn:E1.
      { by apply members_token in H as (? & ?). }
      destruct (Ascii.eqb_spec c1 "}") as [->|Hn]; [rewrite (ws_token _ _ _ E1 eq_refl); by injection H as <- <-|].
      rewrite (not_brace (parseMembers n []) (fun r => Ok (JObj [], r))) in H by done. pose proof H as (t & Ht)%members_token. apply (token_of _ _ _ _ _ E1) in Ht as ->.
      rewrite (ws_token _ _ _ E1 eq_refl). by apply IHm. }
    destruct (Ascii.eqb_spec c "[") as [->|Hc2].
    { rewrite (ws_token _ _ _ Es eq_refl). 
      match goal with |- (if _ then _ else if _ then ?x else _) = ?y => change (x = y) end. destruct (skipWhitespace r0) as [|c1 r1] eqn:E1.
      { by apply elements_token in H as (? & ? & ? & ?). }
      destruct (Ascii.eqb_spec c1 "]") as [->|Hn]; [rewrite (ws_token _ _ _ E1 eq_refl); by injection H as <- <-|].
      rewrite (not_bracket (parseElements n []) (fun r => Ok (JArr [], r))) in H by done. pose proof H as (c2 & t & Ht & Hs)%elements_token.
      apply (token_of _ _ _ _ _ E1) in Ht as ->. rewrite (ws_token _ _ _ E1 Hs), (not_bracket (read_elements maxDepth n (S d) []) (fun r => Ok (JArr [], r))) by done. by apply IHe. }
    destruct (Ascii.eqb_spec c dquote) as [->|Hc3].
    { rewrite (ws_token _ _ _ Es eq_refl). apply bind_ok in H as ([t r'] & Ht%read_string_strict & [= <- <-]).
      change (Ascii.eqb dquote "{") with false. change (Ascii.eqb dquote "[") with false. cbv iota.
      rewrite Ascii.eqb_refl, Ht. done. }
    pose proof H as (c' & t' & [= <- <-] & Hs)%parseScalar_head. rewrite (ws_token _ _ _ Es Hs).
    apply Ascii.eqb_neq in Hc1, Hc2, Hc3. rewrite Hc1, Hc2, Hc3. unfold read_scalar. by rewrite H.
  - intros d fs s v r H Hd. cbn [parseMembers] in H. rewrite read_members_step.
    destruct (skipWhitespace s) as [|c r0] eqn:Es; [done|]. destruct (Ascii.eqb_spec c dquote) as [->|]; [|done].
    rewrite (ws_token _ _ _ Es eq_refl), Ascii.eqb_refl. cbn [negb] in *.
    apply bind_ok in H as ([k r1] & Hk%read_string_strict & H). rewrite Hk. cbn [mbind result_bind].
    destruct (includes _ _); [done|]. apply colon in H as (r2 & -> & H). apply bind_ok in H as ([v2 r3] & Hv & H).
    assert (S d + nesting v2 <= maxDepth) as Hd2.
    { pose proof (nesting_obj fs k v2). repeat case_match; simplify_eq; try lia. apply (parse_nesting n) in H. lia. }
    rewrite (IHv _ _ _ _ Hv Hd2). cbn [mbind result_bind]. cbv zeta in *.
    refine (after_member _ _ _ _ _ _ H _ _); [congruence|auto].
  - intros d l s v r H Hd. cbn [parseElements] in H. rewrite read_elements_step. apply bind_ok in H as ([v2 r3] & Hv & H).
    assert (S d + nesting v2 <= maxDepth) as Hd2.
    { pose proof (nesting_arr l v2). repeat case_match; simplify_eq; try lia. apply (parse_nesting n) in H. lia. }
    rewrite (IHv _ _ _ _ Hv Hd2). cbn [mbind result_bind]. cbv zeta in *.
    refine (after_element _ _ _ _ _ _ H _ _); [congruence|auto].
Qed.
End Agree.

(** ** Properties *)

Section Properties.
Context `{HN : NumberText}.

Lemma ws_twice s : ws (ws s) = ws s.
Proof. induction s as [|c s IH]; [done|]. simpl. destruct (space c) eqn:E; [done|]. simpl. by rewrite E. Qed.

Lemma read_value_ws maxDepth n d s : read_value maxDepth n d (ws s) = read_value maxDepth n d s.
Proof. destruct n as [|n]; [done|]. by rewrite !read_value_step, ws_twice. Qed.

Lemma read_agrees maxDepth t v :
  parseJsonNoDuplicateKeys (JStr t) = Ok v -> nesting v <= maxDepth -> read maxDepth t = Ok v.
Proof.
  unfold parseJsonNoDuplicateKeys, read. destruct (String.eqb t ""); [done|]. intros ([v' rest] & Hv & H)%bind_ok Hn.
  destruct (String.eqb_spec (skipWhitespace rest) "") as [He|]; [|done]. injection H as ->.
  rewrite read_value_ws, (proj1 (read_strict maxDepth _) 0 _ _ _ Hv Hn). simpl. by rewrite (ws_end _ He).
Qed.

(** C36: the reader returns on every text; what it returns has no duplicate
    field and is nested at most [maxDepth] deep; and whatever the strict parser
    reads, within that depth and the size limit, the reader reads as the same
    value. *)
Theorem bundle_reader_spec maxDepth text bytes maxBytes :
  parseControlBundleJson maxDepth text bytes maxBytes <> Throw NoFuel /\
  (forall v, parseControlBundleJson maxDepth text bytes maxBytes = Ok v -> no_duplicates v = true /\ nesting v <= maxDepth) /\
  (forall t v, text = Some t -> (0 < bytes <= maxBytes)%Z -> parseJsonNoDuplicateKeys (JStr t) = Ok v ->
     nesting v <= maxDepth -> parseControlBundleJson maxDepth text bytes maxBytes = Ok v).
Proof.
  unfold parseControlBundleJson. split_and!.
  - destruct (_ || _); [done|]. destruct text as [t|]; [|done]. simpl. destruct (read maxDepth t) as [v|[]] eqn:E; try done.
    exfalso. revert E. unfold read. apply read_bind_fuel; [rewrite read_value_ws; apply read_enough; unfold parse_fuel; lia|].
    intros [v rest] _. by destruct (negb _).
  - intros v H. destruct (_ || _); [done|]. destruct text as [t|]; [|done]. simpl in H.
    destruct (read maxDepth t) as [v'|[]] eqn:E; try done. injection H as ->. unfold read in E.
    apply bind_ok in E as ([v' rest] & Hv & E). destruct (negb _); [done|]. injection E as ->.
    apply (read_fits maxDepth) in Hv as [_ [? ?]]. split; [done|lia].
  - intros t v -> Hb Hp Hn. rewrite (proj2 (Z.eqb_neq _ _)), (proj2 (Z.ltb_ge _ _)) by lia. simpl.
    by rewrite (read_agrees _ _ _ Hp Hn).
Qed.
End Properties.

(** White space that JSON does not allow is skipped. *)
Lemma vertical_tab_sample `{NumberText} :
  read 32 (String "011" "[]") = Ok (JArr []) /\ parseJsonNoDuplicateKeys (JStr (String "011" "[]")) = Throw JsonSyntaxError.
Proof. split; reflexivity. Qed.
