(* ===== verification/ControlBundle.v ===== *)
(** * Control bundles (lib/control-bundle-v2.mjs)

    A control bundle is a signed statement of policy and revocations for one
    device.  The file validates and normalizes it, issues and verifies it
    against a pinned key and a state of what was accepted before, evaluates its
    revocations, and narrows a local scope with its policy.  Clocks are integers
    of milliseconds; keys, signatures and digests are the interfaces of Crypto
    and Capability. *)

From stdpp Require Import base tactics sets list strings.
From Stdlib Require Import Ascii.
From S2P Require Import Prelude JsValue Regex IsoTime Json StrictJson Crypto Glob Scope Capability FileSystem BundleJson.
Local Open Scope string_scope.
Local Open Scope js_scope.

(** ** Constants *)

Definition FORMAT_EPOCH : Z := 2.
Definition LEGACY_FORMAT_EPOCH : Z := 1.
Definition MAX_BUNDLE_TTL_MS : Z := 604800000.
Definition MAX_OFFLINE_TTL_MS : Z := 604800000.
Definition CLOCK_SKEW_MS : Z := 60000.
Definition MAX_REVOCATIONS : nat := 256.
Definition MAX_IDENTIFIER_BYTES : Z := 128.
Definition MAX_PATTERNS : nat := 256.
Definition MAX_PATTERN_BYTES : Z := 2048.

Definition CONTROL_BUNDLE_KEYS : list string :=
  ["format_epoch"; "issuer"; "organization_id"; "device_id"; "audience"; "issued_at"; "expires_at";
   "sequence"; "policy_scope"; "global_revoked"; "revoked_devices"; "revoked_agents"; "revoked_capabilities";
   "offline_ttl_ms"; "key_id"; "signature"].
Definition AUDIENCE_KEYS : list string := ["organization_id"; "device_id"].
Definition STATE_KEYS : list string := ["minimum_format_epoch"; "highest_sequence"; "statement_hash"; "active_bundle"].

Definition IDENTIFIER : re := RSeq (one alnum) (RClass (fun c => alnum c || in_chars "._:-" c) 0 (Some 127)).
Definition RFC3339_UTC : re := ISO.
Definition STATEMENT_HASH : re := times hex_lower 64.

(** ** Data *)

(** The normalized bundle; its audience repeats the organization and the
    device, and a timestamp stands for its canonical text. *)
Record Bundle := mkBundle {
  issuer : string; organization_id : string; device_id : string; issued_at : Z; expires_at : Z; sequence : Z;
  policy_scope : Scope; global_revoked : bool; revoked_devices : list string; revoked_agents : list string;
  revoked_capabilities : list string; offline_ttl_ms : Z; key_id : string
}.

Definition audience_js (organization device : string) : jsval :=
  JObj [("organization_id", JStr organization); ("device_id", JStr device)].

Definition bundle_fields (b : Bundle) : list (string * jsval) :=
  [("format_epoch", JNum (NInt FORMAT_EPOCH)); ("issuer", JStr (issuer b)); ("organization_id", JStr (organization_id b));
   ("device_id", JStr (device_id b)); ("audience", audience_js (organization_id b) (device_id b));
   ("issued_at", JStr (to_iso (issued_at b))); ("expires_at", JStr (to_iso (expires_at b)));
   ("sequence", JNum (NInt (sequence b))); ("policy_scope", scope_js (policy_scope b));
   ("global_revoked", JBool (global_revoked b)); ("revoked_devices", strings_js (revoked_devices b));
   ("revoked_agents", strings_js (revoked_agents b)); ("revoked_capabilities", strings_js (revoked_capabilities b));
   ("offline_ttl_ms", JNum (NInt (offline_ttl_ms b))); ("key_id", JStr (key_id b))].

Definition bundle_js (b : Bundle) : jsval := JObj (bundle_fields b).

(** [{ ...normalized, signature }] *)
Definition signed_fields (b : Bundle) (signature : string) : list (string * jsval) :=
  (bundle_fields b ++ [("signature", JStr signature)])%list.

(** The durable head; the active bundle is the object stored. *)
Record State := mkState {
  minimum_format_epoch : Z; highest_sequence : Z; statement_hash : option string;
  active_bundle : option (list (string * jsval))
}.

Definition state_js (s : State) : jsval :=
  JObj [("minimum_format_epoch", JNum (NInt (minimum_format_epoch s))); ("highest_sequence", JNum (NInt (highest_sequence s)));
        ("statement_hash", match statement_hash s with Some h => JStr h | None => JNull end);
        ("active_bundle", match active_bundle s with Some fs => JObj fs | None => JNull end)].


(** ** Checks of values *)

Definition rejectUnknown (v : jsval) (allowed : list string) : result bundle_exn unit :=
  throw_if negb (forallb (includes allowed) (own_keys v)) with ControlBundleError UNKNOWN_FIELD ;; Ok tt.

Definition assertUuid (v : jsval) (r : reason) : result bundle_exn string :=
  match v with JStr s => throw_if negb (re_test UUID s) with ControlBundleError r ;; Ok s | _ => fail r end.

Definition isIdentifier (v : jsval) : result bundle_exn string :=
  match v with
  | JStr s => throw_if (MAX_IDENTIFIER_BYTES <? byteLength s)%Z || negb (re_test IDENTIFIER s)
                with ControlBundleError INVALID_IDENTIFIER ;; Ok s
  | _ => fail INVALID_IDENTIFIER
  end.

Definition positiveLimit (v : jsval) (r : reason) : result bundle_exn Z :=
  n ← of_option (ControlBundleError r) (safe_integer v);
  throw_if (n <=? 0)%Z with ControlBundleError r ;; Ok n.

(** [toNow] of a number; other values are converted by the host. *)
Definition toNow (v : jsval) : result bundle_exn Z :=
  match v with
  | JNum NNaN | JNum (NInf _) => fail INVALID_TIMESTAMP
  | _ => of_option OutsideModel (safe_integer v)
  end.

Definition canonicalJsonSafe (v : jsval) : result bundle_exn string :=
  or_throw (canonicalValue v) (ControlBundleError INVALID_BUNDLE).

Definition assertDocumentSize (v : jsval) : result bundle_exn unit :=
  text ← canonicalJsonSafe v;
  throw_if (CONTROL_BUNDLE_MAX_BYTES <? byteLength text)%Z with ControlBundleError JSON_TOO_LARGE ;; Ok tt.

Definition validateAudience (v : jsval) : result bundle_exn (string * string) :=
  throw_if negb (is_plain v) with ControlBundleError INVALID_AUDIENCE ;;
  _ ← rejectUnknown v AUDIENCE_KEYS;
  organization ← assertUuid (get v "organization_id") INVALID_ORGANIZATION_ID;
  device ← assertUuid (get v "device_id") INVALID_DEVICE_ID;
  Ok (organization, device).

Definition checkAudience (b : Bundle) (expected : jsval) : result bundle_exn unit :=
  '(organization, device) ← validateAudience expected;
  throw_if negb (String.eqb organization (organization_id b)) || negb (String.eqb device (device_id b))
    with ControlBundleError AUDIENCE_MISMATCH ;; Ok tt.

Fixpoint check_ids (r : reason) (seen : list string) (l : list jsval) : result bundle_exn (list string) :=
  match l with
  | [] => Ok []
  | id :: l =>
      id ← assertUuid id r;
      throw_if includes seen id with ControlBundleError DUPLICATE_REVOCATION ;;
      ids ← check_ids r (id :: seen) l; Ok (id :: ids)
  end.

(** The length test of an identifier is implied by its expression. *)
Definition validateRevocations (v : jsval) (r : reason) : result bundle_exn (list string) :=
  match v with
  | JArr l =>
      throw_if Nat.ltb MAX_REVOCATIONS (length l) with ControlBundleError REVOCATION_LIST_TOO_LARGE ;;
      ids ← check_ids r [] l;
      throw_if negb (bool_decide (sort_strings ids = ids)) with ControlBundleError INVALID_REVOCATION ;;
      Ok ids
  | _ => fail INVALID_REVOCATION
  end.

Definition bad_pattern (s : string) : bool := Nat.eqb (String.length s) 0 || (MAX_PATTERN_BYTES <? byteLength s)%Z.

(** [validatePatternList(value, true)] *)
Definition validatePatternList (v : jsval) : result bundle_exn (list string) :=
  match v with
  | JArr l =>
      throw_if Nat.ltb MAX_PATTERNS (length l) with ControlBundleError INVALID_SCOPE ;;
      ss ← of_option (ControlBundleError INVALID_SCOPE) (strings_of l);
      throw_if existsb bad_pattern ss with ControlBundleError INVALID_SCOPE ;; Ok ss
  | _ => fail INVALID_SCOPE
  end.

(** The errors of [validateScope], as [validatePolicyScope] reports them. *)
Definition scope_error (e : cap_exn) : bundle_exn :=
  match e with
  | CapabilityError Scope.UNKNOWN_FIELD => ControlBundleError UNKNOWN_FIELD
  | Scope.OutsideModel => OutsideModel
  | _ => ControlBundleError INVALID_SCOPE
  end.

Definition policy_scope_of (v : jsval) : result bundle_exn Scope :=
  match v with
  | JObj fs =>
      match validateScope (JObj (filter (fun kv => String.eqb kv.1 "tags" = false) fs)) false with
      | Ok s => Ok s
      | Throw e => Throw (scope_error e)
      end
  | _ => fail INVALID_SCOPE
  end.

Definition validatePolicyScope (v : jsval) : result bundle_exn Scope :=
  throw_if negb (is_plain v) with ControlBundleError INVALID_SCOPE ;;
  normalized ← policy_scope_of v;
  throw_if existsb (fun o => negb (String.eqb o "git.commit.sign")) (operations normalized)
    with ControlBundleError INVALID_SCOPE ;;
  let scope_tags := get v "tags" in
  if is_undefined scope_tags then Ok normalized else
  throw_if negb (is_plain scope_tags) with ControlBundleError INVALID_SCOPE ;;
  _ ← rejectUnknown scope_tags FILTER_KEYS;
  allowed ← validatePatternList (get scope_tags "allow");
  denied ← validatePatternList (nullish (get scope_tags "deny") (JArr []));
  throw_if negb (all_distinct allowed) || negb (all_distinct denied) with ControlBundleError INVALID_SCOPE ;;
  Ok (mkScope (operations normalized) (repositories normalized) (branches normalized) (remotes normalized)
        (Some (mkFilter allowed (Some denied)))).

Section Bundles.
Context `{HParse : DateParse} `{HKeys : KeyObjects} `{HSha : Sha256}.

Definition parseTimestamp (v : jsval) : result bundle_exn Z :=
  match v with
  | JStr s =>
      throw_if negb (re_test RFC3339_UTC s) with ControlBundleError INVALID_TIMESTAMP ;;
      of_option (ControlBundleError INVALID_TIMESTAMP) (canonical_iso s)
  | _ => fail INVALID_TIMESTAMP
  end.

(** [options.clockSkewMs ?? CLOCK_SKEW_MS] *)
Definition clock_skew (options : jsval) : result bundle_exn Z :=
  of_option OutsideModel (safe_integer (nullish (get options "clockSkewMs") (JNum (NInt CLOCK_SKEW_MS)))).

(** ** Validation *)

(** [validateControlBundle]: the two flags and the clock are those of
    [options], which gives the limits. *)
Definition validateControlBundle (bundle : jsval) (allowExpired allowFuture : bool) (options clock : jsval)
  : result bundle_exn Bundle :=
  throw_if negb (is_plain bundle) with ControlBundleError INVALID_BUNDLE ;;
  _ ← rejectUnknown bundle CONTROL_BUNDLE_KEYS;
  throw_if negb (is_undefined (get bundle "signature")) && negb (bool_decide (is_Some (as_str (get bundle "signature"))))
    with ControlBundleError INVALID_SIGNATURE_ENCODING ;;
  maxTtlMs ← positiveLimit (nullish (get options "maxTtlMs") (JNum (NInt MAX_BUNDLE_TTL_MS))) TTL_EXCEEDED;
  maxOfflineTtlMs ← positiveLimit (nullish (get options "maxOfflineTtlMs") (JNum (NInt MAX_OFFLINE_TTL_MS))) INVALID_OFFLINE_TTL;
  now ← toNow clock;
  throw_if negb (is_int (get bundle "format_epoch") FORMAT_EPOCH) with ControlBundleError INVALID_FORMAT_EPOCH ;;
  issuer ← isIdentifier (get bundle "issuer");
  organization ← assertUuid (get bundle "organization_id") INVALID_ORGANIZATION_ID;
  device ← assertUuid (get bundle "device_id") INVALID_DEVICE_ID;
  audience ← validateAudience (get bundle "audience");
  throw_if negb (String.eqb audience.1 organization) || negb (String.eqb audience.2 device)
    with ControlBundleError AUDIENCE_MISMATCH ;;
  issued ← parseTimestamp (get bundle "issued_at");
  expires ← parseTimestamp (get bundle "expires_at");
  throw_if (expires <=? issued)%Z with ControlBundleError INVALID_TIMESTAMP ;;
  throw_if (maxTtlMs <? expires - issued)%Z with ControlBundleError TTL_EXCEEDED ;;
  skew ← (if allowFuture then Ok 0%Z else clock_skew options);
  throw_if negb allowFuture && (now + skew <? issued)%Z with ControlBundleError ISSUED_IN_FUTURE ;;
  throw_if negb allowExpired && (expires <=? now)%Z with ControlBundleError EXPIRED ;;
  sequence ← of_option (ControlBundleError INVALID_SEQUENCE) (safe_integer (get bundle "sequence"));
  throw_if (sequence <? 1)%Z with ControlBundleError INVALID_SEQUENCE ;;
  policyScope ← validatePolicyScope (get bundle "policy_scope");
  revoked ← of_option (ControlBundleError INVALID_REVOCATION)
              (match get bundle "global_revoked" with JBool b => Some b | _ => None end);
  devices ← validateRevocations (get bundle "revoked_devices") INVALID_DEVICE_ID;
  agents ← validateRevocations (get bundle "revoked_agents") INVALID_AGENT_ID;
  capabilities ← validateRevocations (get bundle "revoked_capabilities") INVALID_CAPABILITY_ID;
  offline ← of_option (ControlBundleError INVALID_OFFLINE_TTL) (safe_integer (get bundle "offline_ttl_ms"));
  throw_if (offline <=? 0)%Z || (maxOfflineTtlMs <? offline)%Z with ControlBundleError INVALID_OFFLINE_TTL ;;
  keyId ← isIdentifier (get bundle "key_id");
  let normalized := mkBundle issuer organization device issued expires sequence policyScope revoked devices agents
                      capabilities offline keyId in
  _ ← assertDocumentSize (bundle_js normalized);
  Ok normalized.

(** [validateControlBundle(bundle, { allowExpired: true, allowFuture: true })],
    for which the clock plays no part. *)
Definition settled_bundle (bundle : jsval) : result bundle_exn Bundle :=
  validateControlBundle bundle true true (JObj []) (JNum (NInt 0)).

Definition canonicalControlBundle (bundle : jsval) : result bundle_exn string :=
  normalized ← settled_bundle bundle; canonicalJsonSafe (bundle_js normalized).

Definition controlBundleStatementHash (bundle : jsval) : result bundle_exn string :=
  text ← canonicalControlBundle bundle; Ok (sha256 text).

(** ** Keys and signatures *)

(** [isKeyLike] *)
Definition isKeyLike (v : jsval) : bool :=
  match v with
  | JStr _ | JBytes _ => true
  | _ => bool_decide (value_type v = Some "public") || bool_decide (value_type v = Some "private")
  end.

(** A property of the trust configuration, when it is one and not a key. *)
Definition trust_entry (trust : jsval) (name : string) : jsval :=
  if is_plain trust && negb (isKeyLike trust) then get trust name else JUndefined.

(** [value !== undefined && value !== other] *)
Definition unlike (v other : jsval) : bool := negb (is_undefined v) && negb (bool_decide (v = other)).

Definition resolvePublicKey (trust keyId issuer options : jsval) : result bundle_exn KeyDescription :=
  let direct := if isKeyLike trust then trust
                else first_of [(trust, "public_key"); (trust, "publicKey"); (options, "public_key"); (options, "publicKey")] in
  throw_if is_undefined direct with ControlBundleError INVALID_KEY ;;
  throw_if unlike (nullish (trust_entry trust "key_id") (get options "key_id")) keyId with ControlBundleError KEY_ID_NOT_TRUSTED ;;
  throw_if negb (is_undefined issuer) && unlike (nullish (trust_entry trust "issuer") (get options "issuer")) issuer
    with ControlBundleError ISSUER_KEY_MISMATCH ;;
  key ← of_option (ControlBundleError INVALID_KEY)
          (if bool_decide (value_type direct = Some "public") then object_key direct else import_value direct);
  throw_if negb (String.eqb (asymmetricKeyType key) "ed25519") with ControlBundleError INVALID_KEY ;;
  Ok key.

(** [decodeSignature]: the text and its bytes. *)
Definition decodeSignature (v : jsval) : result bundle_exn (string * string) :=
  match v with
  | JStr s =>
      throw_if negb (re_test BASE64 s) with ControlBundleError INVALID_SIGNATURE_ENCODING ;;
      let bytes := base64_bytes s in
      throw_if negb (Nat.eqb (String.length bytes) SIGNATURE_LENGTH) || negb (String.eqb (base64 bytes) s)
        with ControlBundleError INVALID_SIGNATURE_ENCODING ;;
      Ok (s, bytes)
  | _ => fail INVALID_SIGNATURE_ENCODING
  end.

(** ** The state of accepted bundles *)

(** [{ ...value }] of a plain object. *)
Definition fields_of (v : jsval) : list (string * jsval) := match v with JObj fs => fs | _ => [] end.

Definition read_hash (v : jsval) : option (option string) :=
  match v with
  | JNull => Some None
  | JStr h => if re_test STATEMENT_HASH h then Some (Some h) else None
  | _ => None
  end.

Definition validateControlBundleState (v : jsval) : result bundle_exn State :=
  throw_if negb (is_plain v) with ControlBundleError STATE_INVALID ;;
  _ ← or_throw (rejectUnknown v STATE_KEYS) (ControlBundleError STATE_INVALID);
  epoch ← of_option (ControlBundleError STATE_INVALID) (safe_integer (get v "minimum_format_epoch"));
  throw_if negb (bool_decide (epoch = 1 \/ epoch = 2)%Z) with ControlBundleError STATE_INVALID ;;
  highest ← of_option (ControlBundleError STATE_INVALID) (safe_integer (get v "highest_sequence"));
  throw_if (highest <? 0)%Z with ControlBundleError STATE_INVALID ;;
  hash ← of_option (ControlBundleError STATE_INVALID) (read_hash (get v "statement_hash"));
  throw_if (highest =? 0)%Z && bool_decide (is_Some hash) with ControlBundleError STATE_INVALID ;;
  let active := get v "active_bundle" in
  throw_if negb (bool_decide (active = JNull)) && negb (is_plain active) with ControlBundleError STATE_INVALID ;;
  _ ← (if is_int (get active "format_epoch") FORMAT_EPOCH then
         normalized ← settled_bundle active;
         own ← controlBundleStatementHash (bundle_js normalized);
         throw_if negb (Z.eqb (sequence normalized) highest) || negb (bool_decide (hash = Some own))
           with ControlBundleError STATE_INVALID ;; Ok tt
       else Ok tt);
  Ok (mkState epoch highest hash (if bool_decide (active = JNull) then None else Some (fields_of active))).

(** [options.highestSequence] with its evidence [options.statementHash]. *)
Definition check_option_head (options : jsval) (seq : Z) (hash : string) : result bundle_exn unit :=
  if is_undefined (get options "highestSequence") then Ok tt else
  match safe_integer (get options "highestSequence") with
  | None => fail SEQUENCE_ROLLBACK
  | Some h =>
      throw_if (seq <? h)%Z with ControlBundleError SEQUENCE_ROLLBACK ;;
      throw_if (seq =? h)%Z && negb (is_str (get options "statementHash") hash) with ControlBundleError SEQUENCE_EVIDENCE_REQUIRED ;;
      Ok tt
  end.

(** The check of a bundle against a state. *)
Definition check_head (s : State) (seq : Z) (hash : string) : result bundle_exn unit :=
  throw_if (seq <? highest_sequence s)%Z with ControlBundleError SEQUENCE_ROLLBACK ;;
  if (seq =? highest_sequence s)%Z then
    match statement_hash s with
    | None => fail SEQUENCE_EVIDENCE_REQUIRED
    | Some h => throw_if negb (String.eqb h hash) with ControlBundleError SEQUENCE_CONFLICT ;; Ok tt
    end
  else Ok tt.

(** [enforceHead]: the caller's state object afterwards. *)
Definition enforceHead (b : Bundle) (state options : jsval) : result bundle_exn jsval :=
  match state with
  | JUndefined | JNull => Ok state
  | _ =>
      normalized ← validateControlBundleState state;
      hash ← controlBundleStatementHash (bundle_js b);
      _ ← check_head normalized (sequence b) hash;
      _ ← check_option_head options (sequence b) hash;
      Ok (state_js (mkState (minimum_format_epoch normalized) (sequence b) (Some hash) (Some (bundle_fields b))))
  end.

(** ** Verification *)

(** [crypto.verify(null, canonicalBytes(normalized), publicKey, signature)],
    false when a call throws. *)
Definition verifies (key : KeyDescription) (b : Bundle) (bytes : string) : bool :=
  match canonicalJsonSafe (bundle_js b) with Ok text => default false (verify_with key text bytes) | Throw _ => false end.

(** The body of [verifyControlBundle]: [allowOffline], the expected audience
    and the sequence state are those of [options] and [trust]; the clock is
    [options.now ?? Date.now()].  The result has the state object afterwards. *)
Definition verify_body (bundle trust options : jsval) (allowOffline : bool) (expectedAudience state clock : jsval)
  : result bundle_exn ((Bundle * string) * jsval) :=
  now ← toNow clock;
  normalized ← validateControlBundle bundle allowOffline (truthy (get options "allowFuture")) options (JNum (NInt now));
  publicKey ← resolvePublicKey trust (JStr (key_id normalized)) (JStr (issuer normalized)) options;
  '(signature, bytes) ← decodeSignature (get bundle "signature");
  throw_if negb (verifies publicKey normalized bytes) with ControlBundleError INVALID_SIGNATURE ;;
  throw_if is_undefined expectedAudience with ControlBundleError INVALID_AUDIENCE ;;
  _ ← checkAudience normalized expectedAudience;
  throw_if allowOffline && (expires_at normalized <=? now)%Z && (expires_at normalized + offline_ttl_ms normalized <=? now)%Z
    with ControlBundleError OFFLINE_TTL_EXPIRED ;;
  state ← enforceHead normalized state options;
  Ok ((normalized, signature), state).

Definition option_clock (options : jsval) (dateNow : Z) : jsval := nullish (get options "now") (JNum (NInt dateNow)).

Definition expected_audience (options trust : jsval) : jsval :=
  first_of [(options, "audience"); (options, "expectedAudience"); (trust, "audience")].

Definition sequence_state (options trust : jsval) : jsval := nullish (get options "sequenceState") (get trust "sequenceState").

Definition allow_offline (options : jsval) : bool := bool_decide (get options "allowOffline" = JBool true).

Definition verifyControlBundle (bundle trust options : jsval) (dateNow : Z) : result bundle_exn ((Bundle * string) * jsval) :=
  verify_body bundle trust options (allow_offline options) (expected_audience options trust) (sequence_state options trust)
    (option_clock options dateNow).

(** The audience defaults to the bundle's own. *)
Definition verifyIssuerControlBundle (bundle trust options : jsval) (dateNow : Z)
  : result bundle_exn ((Bundle * string) * jsval) :=
  let own := JObj [("organization_id", get bundle "organization_id"); ("device_id", get bundle "device_id")] in
  verify_body bundle trust options (allow_offline options) (nullish (get options "audience") own)
    (sequence_state options trust) (option_clock options dateNow).

Definition verifyCachedControlBundle (bundle trust options : jsval) (dateNow : Z)
  : result bundle_exn ((Bundle * string) * jsval) :=
  verify_body bundle trust options true (expected_audience options trust) (sequence_state options trust)
    (option_clock options dateNow).

(** ** Policy and revocations *)

Definition narrowPolicyScope (localScope bundleOrScope : jsval) : result bundle_exn Scope :=
  let remoteScope := nullish (get bundleOrScope "policy_scope") bundleOrScope in
  or_throw (l ← validatePolicyScope localScope; r ← validatePolicyScope remoteScope;
            or_throw (intersectScopes [scope_js l; scope_js r]) PlainError) (ControlBundleError INVALID_SCOPE).

Definition consumePolicyBundle (bundle localScope trust options : jsval) (dateNow : Z)
  : result bundle_exn ((Bundle * string) * Scope) :=
  '(verified, _) ← verifyControlBundle bundle trust options dateNow;
  scope ← narrowPolicyScope localScope (JObj (signed_fields verified.1 verified.2));
  Ok (verified, scope).

Definition policyScopeAllows (bundleOrScope : jsval) (r : Request) : bool :=
  match scopeAllows (nullish (get bundleOrScope "policy_scope") bundleOrScope) r with Ok b => b | Throw _ => false end.

Inductive Decision := Allowed (sequence : Z) | Denied (why : reason) (sequence : option Z).

(** [list.includes(value)] of a list of texts. *)
Definition listed (l : list string) (v : jsval) : bool := match v with JStr s => includes l s | _ => false end.

(** [evaluateControlBundle]; an absent property of the subject is
    [JUndefined]. *)
Definition evaluateControlBundle (bundle organization device agent capability : jsval) : Decision :=
  match settled_bundle bundle with
  | Throw (ControlBundleError r) => Denied r None
  | Throw _ => Denied INVALID_BUNDLE None
  | Ok b =>
      let denied r := Denied r (Some (sequence b)) in
      if unlike organization (JStr (organization_id b)) then denied ORGANIZATION_MISMATCH
      else if unlike device (JStr (device_id b)) then denied AUDIENCE_MISMATCH
      else if global_revoked b then denied GLOBAL_REVOKED
      else if listed (revoked_devices b) device then denied DEVICE_REVOKED
      else if listed (revoked_agents b) agent then denied AGENT_REVOKED
      else if listed (revoked_capabilities b) capability then denied CAPABILITY_REVOKED
      else Allowed (sequence b)
  end.

End Bundles.

(** ** Issuing *)

Section Issue.
Context `{HParse : DateParse} `{HSign : SigningKeys}.

(** [{ ...input, format_epoch: input.format_epoch ?? FORMAT_EPOCH }] *)
Definition statement_of (input : jsval) : jsval :=
  JObj (set_field "format_epoch" (nullish (get input "format_epoch") (JNum (NInt FORMAT_EPOCH))) (fields_of input)).

Definition issueControlBundle (input privateKey options : jsval) (dateNow : Z) : result bundle_exn (Bundle * string) :=
  throw_if negb (is_plain input) with ControlBundleError INVALID_BUNDLE ;;
  _ ← rejectUnknown input (filter (fun k => String.eqb k "signature" = false) CONTROL_BUNDLE_KEYS);
  throw_if bool_decide (privateKey = JUndefined \/ privateKey = JNull) with ControlBundleError INVALID_KEY ;;
  now ← toNow (option_clock options dateNow);
  normalized ← validateControlBundle (statement_of input) false false
                 (JObj [("maxTtlMs", nullish (get options "maxTtlMs") (JNum (NInt MAX_BUNDLE_TTL_MS)));
                        ("maxOfflineTtlMs", nullish (get options "maxOfflineTtlMs") (JNum (NInt MAX_OFFLINE_TTL_MS)))])
                 (JNum (NInt now));
  key ← of_option (ControlBundleError INVALID_KEY) (import_private privateKey);
  throw_if negb (String.eqb (asymmetricKeyType (public_of key)) "ed25519") with ControlBundleError INVALID_KEY ;;
  text ← canonicalJsonSafe (bundle_js normalized);
  Ok (normalized, base64 (sign_with key text)).
End Issue.

(** ** Lemmas: what the checks accept, they accept again *)

#[local] Arguments validatePolicyScope : simpl never.
#[local] Arguments validateRevocations : simpl never.
#[local] Arguments validateAudience : simpl never.
#[local] Arguments rejectUnknown : simpl never.
#[local] Arguments assertUuid : simpl never.
#[local] Arguments isIdentifier : simpl never.
#[local] Arguments safe_integer : simpl never.
#[local] Arguments canonicalValue : simpl never.
#[local] Arguments re_test : simpl never.

Lemma assertUuid_ok v r s : assertUuid v r = Ok s -> v = JStr s /\ re_test UUID s = true.
Proof. unfold assertUuid. destruct v; try done. intros H. inv_result. guards. done. Qed.

Lemma assertUuid_again v r s : assertUuid v r = Ok s -> assertUuid (JStr s) r = Ok s.
Proof. by intros H; pose proof (assertUuid_ok _ _ _ H) as [-> _]. Qed.

Lemma isIdentifier_again v s : isIdentifier v = Ok s -> v = JStr s /\ isIdentifier (JStr s) = Ok s.
Proof. intros H. assert (v = JStr s) as ->; [|done]. unfold isIdentifier in H. destruct v; try done. by inv_result. Qed.

Lemma validateAudience_again v o d :
  validateAudience v = Ok (o, d) ->
  validateAudience (audience_js o d) = Ok (o, d) /\ validateAudience (normal (audience_js o d)) = Ok (o, d).
Proof.
  unfold validateAudience. intros H. inv_result.
  repeat match goal with H : assertUuid (get _ _) _ = Ok _ |- _ => apply assertUuid_again in H end.
  unfold audience_js. rewrite normal_obj. cbn [sort_fields insert_field foldr map normal_field fst snd normal].
  split; unfold rejectUnknown; simpl.
  all: repeat match goal with H : assertUuid _ _ = Ok _ |- _ => rewrite H; simpl end; done.
Qed.

Lemma check_ids_ok r seen l ids : check_ids r seen l = Ok ids -> l = map JStr ids.
Proof.
  revert seen ids. induction l as [|v l IH]; intros seen ids H; cbn [check_ids] in H; [by injection H as <-|].
  apply bind_ok in H as (id & [-> _]%assertUuid_ok & H). destruct (includes _ _); [done|].
  apply bind_ok in H as (ids' & ->%IH & [= <-]). done.
Qed.

Lemma validateRevocations_ok v r ids : validateRevocations v r = Ok ids -> v = strings_js ids.
Proof.
  unfold validateRevocations. destruct v as [ | | | | |l| | | | ]; try done. intros H. inv_result.
  by match goal with H : check_ids _ _ _ = Ok _ |- _ => apply check_ids_ok in H as -> end.
Qed.

Lemma normal_filter f : normal (filter_js f) = filter_js f.
Proof.
  destruct f as [a d]. unfold filter_js. cbn [allow deny]. pose proof (normal_strings a) as Ha. revert Ha.
  generalize (strings_js a) as x. intros x Hx. destruct d as [d|]; [|cbn; by rewrite Hx].
  pose proof (normal_strings d) as Hd. revert Hd. generalize (strings_js d) as y. intros y Hy. cbn. by rewrite Hx, Hy.
Qed.

Lemma normal_scope s :
  normal (scope_js s) =
  JObj ([("branches", filter_js (branches s)); ("operations", strings_js (operations s));
         ("remotes", filter_js (remotes s)); ("repositories", strings_js (repositories s))]
        ++ match tags s with Some t => [("tags", filter_js t)] | None => [] end)%list.
Proof.
  destruct s as [o r b m t]. unfold scope_js. cbn [operations repositories branches remotes tags].
  pose proof (normal_strings o) as Ho. pose proof (normal_strings r) as Hr.
  pose proof (normal_filter b) as Hb. pose proof (normal_filter m) as Hm. revert Ho Hr Hb Hm.
  generalize (strings_js o) (strings_js r) (filter_js b) (filter_js m). intros o' r' b' m' Ho Hr Hb Hm.
  destruct t as [t|]; [|cbn; by rewrite Ho, Hr, Hb, Hm].
  pose proof (normal_filter t) as Ht. revert Ht. generalize (filter_js t). intros t' Ht. cbn. by rewrite Ho, Hr, Hb, Hm, Ht.
Qed.

(** The scope without its tags, in the order of the code and sorted. *)
Lemma validateScope_sorted s :
  valid_scope false s -> tags s = None -> validateScope (normal (scope_js s)) false = Ok s.
Proof.
  intros Hv Ht. pose proof (validateScope_js s false Hv) as H. rewrite normal_scope, Ht.
  unfold scope_js in H. rewrite Ht in H. exact H.
Qed.

Lemma strings_of_js l : strings_of (map JStr l) = Some l.
Proof. by apply strings_of_spec. Qed.

Lemma validatePatternList_ok v l : validatePatternList v = Ok l -> v = strings_js l /\ validatePatternList (strings_js l) = Ok l.
Proof.
  intros H. assert (v = strings_js l) as ->; [|done]. unfold validatePatternList in H. destruct v; try done. inv_result.
  match goal with H : strings_of _ = Some _ |- _ => apply strings_of_spec in H as -> end. done.
Qed.

Lemma validateScope_untagged v ae s : get v "tags" = JUndefined -> validateScope v ae = Ok s -> tags s = None.
Proof. unfold validateScope. intros -> H. cbn [is_undefined] in H. by inv_result. Qed.

Lemma policy_scope_of_ok v s : policy_scope_of v = Ok s -> valid_scope false s /\ tags s = None.
Proof.
  unfold policy_scope_of. destruct v as [ | | | | | |fs| | | ]; try done. destruct (validateScope _ _) as [s'|] eqn:E; [|done].
  intros [= ->]. split; [by eapply validateScope_valid|]. apply validateScope_untagged in E; [done|].
  cbn [get]. rewrite (proj2 (assoc_None _ _)); [done|]. rewrite list_elem_of_fmap.
  intros ([k x] & Hk & [H _]%list_elem_of_filter). cbn in *. subst. done.
Qed.

Lemma policy_scope_of_again s g :
  valid_scope false s -> tags s = None ->
  let t := mkScope (operations s) (repositories s) (branches s) (remotes s) g in
  policy_scope_of (scope_js t) = Ok s /\ policy_scope_of (normal (scope_js t)) = Ok s.
Proof.
  intros Hv Ht t. pose proof (validateScope_js s false Hv) as H1. pose proof (validateScope_sorted s Hv Ht) as H2.
  rewrite normal_scope in *. rewrite Ht in H2. unfold scope_js in *. rewrite Ht in H1. subst t.
  cbn [operations repositories branches remotes tags] in *. unfold policy_scope_of.
  revert H1 H2. generalize (strings_js (operations s)) (strings_js (repositories s)) (filter_js (branches s)) (filter_js (remotes s)).
  intros o r b m H1 H2. destruct g as [g|]; cbn [app] in *.
  all: assert (forall m, m = Ok s -> match m with Ok s => Ok s | Throw e => Throw (scope_error e) end = Ok s) as Hm
    by (by intros ? ->).
  all: split; apply Hm; [exact H1|exact H2].
Qed.

#[local] Arguments policy_scope_of : simpl never.
#[local] Arguments validatePatternList : simpl never.
#[local] Arguments filter_js : simpl never.
#[local] Arguments strings_js : simpl never.

(** A policy scope with tags: what is checked besides the other filters. *)
Definition valid_tags (f : Filter) : Prop :=
  exists a d, f = mkFilter a (Some d) /\ validatePatternList (strings_js a) = Ok a /\
    validatePatternList (strings_js d) = Ok d /\ all_distinct a = true /\ all_distinct d = true.

Definition valid_policy (s : Scope) : Prop :=
  valid_scope false (mkScope (operations s) (repositories s) (branches s) (remotes s) None) /\
  existsb (fun o => negb (String.eqb o "git.commit.sign")) (operations s) = false /\
  match tags s with Some f => valid_tags f | None => True end.


Lemma plain_filter_js f : is_plain (filter_js f) = true.
Proof. done. Qed.

Lemma is_undefined_filter f : is_undefined (filter_js f) = false.
Proof. done. Qed.

(** The tags of a normalized policy scope are checked again. *)
Lemma tags_again f :
  valid_tags f ->
  rejectUnknown (filter_js f) FILTER_KEYS = Ok tt /\ validatePatternList (get (filter_js f) "allow") = Ok (allow f) /\
  validatePatternList (nullish (get (filter_js f) "deny") (JArr [])) = Ok (default [] (deny f)) /\
  deny f = Some (default [] (deny f)) /\ all_distinct (allow f) = true /\ all_distinct (default [] (deny f)) = true.
Proof. intros (a & d & -> & Ha & Hd & Hda & Hdd). done. Qed.

Lemma validatePolicyScope_ok v s : validatePolicyScope v = Ok s -> valid_policy s.
Proof.
  unfold validatePolicyScope. intros H. inv_result.
  match goal with H : policy_scope_of _ = Ok _ |- _ => apply policy_scope_of_ok in H as [Hv Ht] end.
  destruct a as [o r b m g]. cbn in Ht, Hv. subst g.
  destruct (is_undefined (get v "tags")); [inv_result; by split_and!|]. inv_result. guards.
  match goal with H : validatePatternList (get _ _) = Ok _ |- _ => apply validatePatternList_ok in H as [_ ?] end.
  match goal with H : validatePatternList (nullish _ _) = Ok _ |- _ => apply validatePatternList_ok in H as [_ ?] end.
  split_and!; [done..|]. cbn. eexists _, _. by split_and!.
Qed.

Lemma validatePolicyScope_again s :
  valid_policy s -> validatePolicyScope (scope_js s) = Ok s /\ validatePolicyScope (normal (scope_js s)) = Ok s.
Proof.
  destruct s as [o r b m g]. intros (Hv & Ho & Ht). cbn [operations repositories branches remotes tags] in *.
  pose proof (policy_scope_of_again _ g Hv eq_refl) as [H1 H2]. cbn [operations repositories branches remotes tags] in *.
  assert (get (scope_js (mkScope o r b m g)) "tags" = match g with Some t => filter_js t | None => JUndefined end) as G1
    by (by destruct g).
  assert (get (normal (scope_js (mkScope o r b m g))) "tags" = match g with Some t => filter_js t | None => JUndefined end) as G2
    by (rewrite normal_scope; by destruct g).
  assert (is_plain (normal (scope_js (mkScope o r b m g))) = true) as P2 by done.
  unfold validatePolicyScope. rewrite P2, H1, H2, G1, G2. change (is_plain (scope_js _)) with true. cbn [negb].
  cbn [mbind result_bind operations]. rewrite Ho. destruct g as [f|]; [|done].
  pose proof (tags_again f Ht) as (T1 & T2 & T3 & T4 & T5 & T6).
  rewrite is_undefined_filter, plain_filter_js, T1. cbn [negb mbind result_bind]. rewrite T2. cbn [mbind result_bind].
  rewrite T3. cbn [mbind result_bind]. rewrite T5, T6. cbn. destruct f as [a d]. cbn in *. by rewrite T4.
Qed.

#[local] Arguments byteLength : simpl never.
#[local] Arguments assertDocumentSize : simpl never.
#[local] Arguments bundle_js : simpl never.
#[local] Arguments positiveLimit : simpl never.
#[local] Arguments toNow : simpl never.
#[local] Arguments clock_skew : simpl never.
#[local] Arguments nullish : simpl never.
#[local] Arguments get : simpl never.

Section Checked.
Context `{HParse : DateParse} `{HKeys : KeyObjects} `{HSha : Sha256}.
#[local] Arguments parseTimestamp : simpl never.

(** What validation establishes of an object and the bundle it is read as,
    under the limits given. *)
Record checked (v : jsval) (b : Bundle) (maxTtl maxOffline : Z) : Prop := mkChecked {
  c_plain : is_plain v = true;
  c_keys : rejectUnknown v CONTROL_BUNDLE_KEYS = Ok tt;
  c_signature : negb (is_undefined (get v "signature")) && negb (bool_decide (is_Some (as_str (get v "signature")))) = false;
  c_epoch : is_int (get v "format_epoch") FORMAT_EPOCH = true;
  c_issuer : isIdentifier (get v "issuer") = Ok (issuer b);
  c_organization : assertUuid (get v "organization_id") INVALID_ORGANIZATION_ID = Ok (organization_id b);
  c_device : assertUuid (get v "device_id") INVALID_DEVICE_ID = Ok (device_id b);
  c_audience : validateAudience (get v "audience") = Ok (organization_id b, device_id b);
  c_issued : parseTimestamp (get v "issued_at") = Ok (issued_at b);
  c_expires : parseTimestamp (get v "expires_at") = Ok (expires_at b);
  c_order : (issued_at b < expires_at b)%Z;
  c_ttl : (expires_at b - issued_at b <= maxTtl)%Z;
  c_sequence : safe_integer (get v "sequence") = Some (sequence b);
  c_positive : (1 <= sequence b)%Z;
  c_scope : validatePolicyScope (get v "policy_scope") = Ok (policy_scope b);
  c_revoked : get v "global_revoked" = JBool (global_revoked b);
  c_devices : validateRevocations (get v "revoked_devices") INVALID_DEVICE_ID = Ok (revoked_devices b);
  c_agents : validateRevocations (get v "revoked_agents") INVALID_AGENT_ID = Ok (revoked_agents b);
  c_capabilities : validateRevocations (get v "revoked_capabilities") INVALID_CAPABILITY_ID = Ok (revoked_capabilities b);
  c_offline : safe_integer (get v "offline_ttl_ms") = Some (offline_ttl_ms b);
  c_offline_range : (0 < offline_ttl_ms b <= maxOffline)%Z;
  c_key : isIdentifier (get v "key_id") = Ok (key_id b);
  c_size : assertDocumentSize (bundle_js b) = Ok tt
}.

Lemma validate_ok v ae af options clock b :
  validateControlBundle v ae af options clock = Ok b ->
  exists maxTtl maxOffline now,
    positiveLimit (nullish (get options "maxTtlMs") (JNum (NInt MAX_BUNDLE_TTL_MS))) TTL_EXCEEDED = Ok maxTtl /\
    positiveLimit (nullish (get options "maxOfflineTtlMs") (JNum (NInt MAX_OFFLINE_TTL_MS))) INVALID_OFFLINE_TTL = Ok maxOffline /\
    toNow clock = Ok now /\ checked v b maxTtl maxOffline /\
    (ae = false -> (now < expires_at b)%Z) /\
    (af = false -> exists skew, clock_skew options = Ok skew /\ (issued_at b <= now + skew)%Z).
Proof.
  unfold validateControlBundle. intros H. run_steps H. injection H as <-.
  guards. repeat match goal with x : () |- _ => destruct x | H : String.eqb _ _ = true |- _ => apply String.eqb_eq in H end.
  eexists _, _, _. split; [done|]. split; [done|]. split; [done|]. split; [|split].
  - constructor; cbn [issuer organization_id device_id issued_at expires_at sequence policy_scope global_revoked
      revoked_devices revoked_agents revoked_capabilities offline_ttl_ms key_id]; try done; try lia.
    + match goal with H : validateAudience _ = Ok ?p |- _ => destruct p; cbn [fst snd] in *; congruence end.
    + by destruct (get v "global_revoked"); simplify_eq.
  - intros ->. cbn [negb andb] in *. by guards.
  - intros ->. cbn [negb andb] in *. guards. eauto.
Qed.


Lemma checked_settled v b : checked v b MAX_BUNDLE_TTL_MS MAX_OFFLINE_TTL_MS -> settled_bundle v = Ok b.
Proof.
  intros []. unfold settled_bundle, validateControlBundle. rewrite c_plain0, c_keys0. cbn [negb mbind result_bind].
  rewrite c_signature0. change (positiveLimit (nullish (get (JObj []) "maxTtlMs") _) _) with (Ok (E := bundle_exn) MAX_BUNDLE_TTL_MS).
  change (positiveLimit (nullish (get (JObj []) "maxOfflineTtlMs") _) _) with (Ok (E := bundle_exn) MAX_OFFLINE_TTL_MS).
  change (toNow (JNum (NInt 0))) with (Ok (E := bundle_exn) 0%Z). cbn [negb mbind result_bind]. rewrite c_epoch0. cbn [negb].
  rewrite c_issuer0. cbn [mbind result_bind]. rewrite c_organization0. cbn [mbind result_bind]. rewrite c_device0.
  cbn [mbind result_bind]. rewrite c_audience0. cbn [mbind result_bind fst snd]. rewrite !String.eqb_refl. cbn [negb orb].
  rewrite c_issued0. cbn [mbind result_bind]. rewrite c_expires0. cbn [mbind result_bind].
  rewrite (proj2 (Z.leb_gt _ _)), (proj2 (Z.ltb_ge _ _)) by lia. cbn [negb andb].
  rewrite c_sequence0. cbn [of_option mbind result_bind]. rewrite (proj2 (Z.ltb_ge _ _)) by lia.
  rewrite c_scope0. cbn [mbind result_bind]. rewrite c_revoked0. cbn [of_option mbind result_bind].
  rewrite c_devices0. cbn [mbind result_bind]. rewrite c_agents0. cbn [mbind result_bind].
  rewrite c_capabilities0. cbn [mbind result_bind]. rewrite c_offline0. cbn [of_option mbind result_bind].
  rewrite (proj2 (Z.leb_gt _ _)), (proj2 (Z.ltb_ge _ _)) by lia. cbn [orb]. rewrite c_key0. cbn [mbind result_bind].
  destruct b. cbn in *. by rewrite c_size0.
Qed.

Lemma settled_checked v b : settled_bundle v = Ok b -> checked v b MAX_BUNDLE_TTL_MS MAX_OFFLINE_TTL_MS.
Proof. intros (L & M & now & HL & HM & _ & H & _)%validate_ok. injection HL as <-. injection HM as <-. done. Qed.

(** An object whose properties are those of the normalized bundle. *)
Record stored (w : jsval) (b : Bundle) : Prop := mkStored {
  s_plain : is_plain w = true;
  s_keys : rejectUnknown w CONTROL_BUNDLE_KEYS = Ok tt;
  s_signature : negb (is_undefined (get w "signature")) && negb (bool_decide (is_Some (as_str (get w "signature")))) = false;
  s_fields : forall k x, (k, x) ∈ bundle_fields b -> get w k = x \/ get w k = normal x
}.

Lemma parseTimestamp_again v t : parseTimestamp v = Ok t -> parseTimestamp (JStr (to_iso t)) = Ok t.
Proof.
  intros H. assert (v = JStr (to_iso t)) as <-; [|done]. unfold parseTimestamp in H. destruct v; try done.
  destruct (negb _); [done|]. apply of_option_ok, canonical_iso_spec in H as [_ ->]. done.
Qed.

Lemma safe_integer_int v z : safe_integer v = Some z -> safe_integer (JNum (NInt z)) = Some z.
Proof. intros H. pose proof (safe_integer_Some v z) as [H' _]. by destruct (H' H) as [<- _]. Qed.

Lemma stored_checked v w b L M : checked v b L M -> stored w b -> checked w b L M.
Proof.
  intros [] []. unfold bundle_fields in s_fields0.
  assert (forall k x, (k, x) ∈ bundle_fields b -> normal x = x -> get w k = x) as Hf
    by (intros k x Hk Hx; destruct (s_fields0 k x Hk); congruence).
  assert (forall k l, (k, strings_js l) ∈ bundle_fields b -> get w k = strings_js l) as Hl
    by (intros k l Hk; apply Hf; [done|apply normal_strings]).
  constructor; try done.
  - rewrite (Hf "format_epoch" (JNum (NInt FORMAT_EPOCH))); [done|by repeat constructor|done].
  - rewrite (Hf "issuer" (JStr (issuer b))); [by apply isIdentifier_again in c_issuer0 as [_ ?]|by repeat constructor|done].
  - rewrite (Hf "organization_id" (JStr (organization_id b))); [by eapply assertUuid_again|by repeat constructor|done].
  - rewrite (Hf "device_id" (JStr (device_id b))); [by eapply assertUuid_again|by repeat constructor|done].
  - apply validateAudience_again in c_audience0 as [? ?].
    destruct (s_fields0 "audience" (audience_js (organization_id b) (device_id b))) as [->| ->]; [by repeat constructor|done..].
  - rewrite (Hf "issued_at" (JStr (to_iso (issued_at b)))); [by eapply parseTimestamp_again|by repeat constructor|done].
  - rewrite (Hf "expires_at" (JStr (to_iso (expires_at b)))); [by eapply parseTimestamp_again|by repeat constructor|done].
  - rewrite (Hf "sequence" (JNum (NInt (sequence b)))); [by eapply safe_integer_int|by repeat constructor|done].
  - apply validatePolicyScope_ok, validatePolicyScope_again in c_scope0 as [? ?].
    destruct (s_fields0 "policy_scope" (scope_js (policy_scope b))) as [->| ->]; [by repeat constructor|done..].
  - by rewrite (Hf "global_revoked" (JBool (global_revoked b))); [|repeat constructor|].
  - pose proof c_devices0 as E%validateRevocations_ok. rewrite E in c_devices0. rewrite (Hl "revoked_devices" (revoked_devices b)); [done|by repeat constructor].
  - pose proof c_agents0 as E%validateRevocations_ok. rewrite E in c_agents0. rewrite (Hl "revoked_agents" (revoked_agents b)); [done|by repeat constructor].
  - pose proof c_capabilities0 as E%validateRevocations_ok. rewrite E in c_capabilities0.
    rewrite (Hl "revoked_capabilities" (revoked_capabilities b)); [done|by repeat constructor].
  - rewrite (Hf "offline_ttl_ms" (JNum (NInt (offline_ttl_ms b)))); [by eapply safe_integer_int|by repeat constructor|done].
  - rewrite (Hf "key_id" (JStr (key_id b))); [by apply isIdentifier_again in c_key0 as [_ ?]|by repeat constructor|done].
Qed.

(** The four objects in which a bundle is kept. *)
Lemma bundle_keys b : NoDup (map fst (bundle_fields b)).
Proof. apply (bool_decide_eq_true_1 (NoDup _)). vm_compute. reflexivity. Qed.

Lemma signed_keys b sig : NoDup (map fst (signed_fields b sig)).
Proof. apply (bool_decide_eq_true_1 (NoDup _)). vm_compute. reflexivity. Qed.

Lemma bundle_get b k x : (k, x) ∈ bundle_fields b -> get (bundle_js b) k = x.
Proof. intros H. unfold bundle_js, get. by erewrite assoc_elem by (apply bundle_keys || exact H). Qed.

Lemma signed_get b sig k x : (k, x) ∈ bundle_fields b -> get (JObj (signed_fields b sig)) k = x.
Proof.
  intros H. unfold get. rewrite (assoc_elem k (signed_fields b sig) x); [done|apply signed_keys|].
  unfold signed_fields. apply elem_of_app. by left.
Qed.

Lemma stored_bundle b : stored (bundle_js b) b.
Proof. constructor; [done|done|done|]. intros k x H. left. by apply bundle_get. Qed.

Lemma stored_signed b sig : stored (JObj (signed_fields b sig)) b.
Proof. constructor; [done|done|done|]. intros k x H. left. by apply signed_get. Qed.

Lemma stored_sorted b sig : stored (normal (JObj (signed_fields b sig))) b.
Proof.
  constructor; [done|done|done|]. intros k x H. right. rewrite get_normal by apply signed_keys. by rewrite (signed_get _ _ _ _ H).
Qed.

Lemma settled_again v w b : settled_bundle v = Ok b -> stored w b -> settled_bundle w = Ok b.
Proof. intros H%settled_checked Hs. by eapply checked_settled, stored_checked. Qed.

Lemma hash_stored w b h : stored w b -> controlBundleStatementHash (bundle_js b) = Ok h ->
  settled_bundle (bundle_js b) = Ok b -> controlBundleStatementHash w = Ok h.
Proof.
  intros Hs H Hb. unfold controlBundleStatementHash, canonicalControlBundle in *.
  rewrite (settled_again _ _ _ Hb Hs). by rewrite Hb in H.
Qed.

(** ** Lemmas: states and their files *)

Lemma state_keys s : NoDup (map fst (fields_of (state_js s))).
Proof. apply (bool_decide_eq_true_1 (NoDup _)). vm_compute. reflexivity. Qed.

Lemma read_hash_js (h : option string) h' :
  read_hash (match h with Some h => JStr h | None => JNull end) = Some h' -> h' = h.
Proof. destruct h as [h|]; cbn [read_hash]; [|by intros [= <-]]. destruct (re_test STATEMENT_HASH h); congruence. Qed.

Lemma state_js_get s :
  get (state_js s) "minimum_format_epoch" = JNum (NInt (minimum_format_epoch s)) /\
  get (state_js s) "highest_sequence" = JNum (NInt (highest_sequence s)) /\
  get (state_js s) "statement_hash" = match statement_hash s with Some h => JStr h | None => JNull end /\
  get (state_js s) "active_bundle" = match active_bundle s with Some fs => JObj fs | None => JNull end.
Proof. done. Qed.

(** A validated state is the state given, and holds what is checked. *)
Lemma state_js_ok s s' :
  validateControlBundleState (state_js s) = Ok s' ->
  s' = s /\ (minimum_format_epoch s = 1 \/ minimum_format_epoch s = 2)%Z /\ (0 <= highest_sequence s)%Z /\
  safe_integer (JNum (NInt (highest_sequence s))) = Some (highest_sequence s) /\
  read_hash (match statement_hash s with Some h => JStr h | None => JNull end) = Some (statement_hash s) /\
  ((highest_sequence s =? 0)%Z && bool_decide (is_Some (statement_hash s)) = false) /\
  (forall fs, active_bundle s = Some fs -> is_int (get (JObj fs) "format_epoch") FORMAT_EPOCH = true ->
     exists b, settled_bundle (JObj fs) = Ok b /\ sequence b = highest_sequence s /\
       exists h, statement_hash s = Some h /\ controlBundleStatementHash (bundle_js b) = Ok h).
Proof.
  unfold validateControlBundleState. pose proof (state_js_get s) as (G1 & G2 & G3 & G4). rewrite G1, G2, G3, G4.
  intros H. run_steps H. injection H as <-. guards.
  match goal with H : safe_integer (JNum (NInt (minimum_format_epoch s))) = Some ?z |- _ =>
    pose proof (proj1 (safe_integer_Some _ _) H) as [[= <-] _] end.
  match goal with H : safe_integer (JNum (NInt (highest_sequence s))) = Some ?z |- _ =>
    pose proof (proj1 (safe_integer_Some _ _) H) as [[= <-] _] end.
  match goal with H : read_hash _ = Some ?h |- _ => pose proof (read_hash_js _ _ H) as -> end.
  split_and!; try done.
  - destruct s as [e h sh [fs|]]; done.
  - intros fs Hfs Hep. rewrite Hfs in *.
    match goal with H : (if is_int _ _ then _ else _) = Ok _ |- _ => rewrite Hep in H; run_steps H; rename H into Hr end.
    guards. eauto 8.
Qed.

(** The field that a check determines. *)
Ltac assert_same c H H' :=
  let E := fresh in let E' := fresh in
  pose proof (c _ _ _ _ H) as E; pose proof (c _ _ _ _ H') as E'; rewrite E in E'; by injection E'.

(** Two readings of one object are one bundle. *)
Lemma checked_fun v b b' L M L' M' : checked v b L M -> checked v b' L' M' -> b = b'.
Proof.
  intros H H'. destruct b, b'.
  f_equal; [assert_same c_issuer H H'|assert_same c_organization H H'|assert_same c_device H H'|assert_same c_issued H H'
    |assert_same c_expires H H'|assert_same c_sequence H H'|assert_same c_scope H H'|assert_same c_revoked H H'
    |assert_same c_devices H H'|assert_same c_agents H H'|assert_same c_capabilities H H'|assert_same c_offline H H'
    |assert_same c_key H H'].
Qed.

Lemma accepted_settled v ae af options clock b h :
  validateControlBundle v ae af options clock = Ok b -> controlBundleStatementHash (bundle_js b) = Ok h ->
  settled_bundle (bundle_js b) = Ok b.
Proof.
  intros (L & M & now & _ & _ & _ & Hc & _)%validate_ok (text & (b' & Hb & _)%bind_ok & _)%bind_ok.
  pose proof (stored_checked _ _ _ _ _ Hc (stored_bundle b)) as H1. pose proof (settled_checked _ _ Hb) as H2.
  rewrite Hb. f_equal. symmetry. by eapply checked_fun.
Qed.
End Checked.

(** ** Verification, revocation and narrowing *)

Section Verified.
Context `{HParse : DateParse} `{HKeys : KeyObjects} `{HSha : Sha256}.

#[local] Arguments validateControlBundle : simpl never.
#[local] Arguments resolvePublicKey : simpl never.
#[local] Arguments enforceHead : simpl never.

Lemma verify_body_ok v trust options offline audience st clock b sig st' :
  verify_body v trust options offline audience st clock = Ok ((b, sig), st') ->
  exists now key bytes,
    toNow clock = Ok now /\
    validateControlBundle v offline (truthy (get options "allowFuture")) options (JNum (NInt now)) = Ok b /\
    resolvePublicKey trust (JStr (key_id b)) (JStr (issuer b)) options = Ok key /\
    decodeSignature (get v "signature") = Ok (sig, bytes) /\ verifies key b bytes = true /\
    is_undefined audience = false /\ checkAudience b audience = Ok tt /\
    (offline && (expires_at b <=? now)%Z && (expires_at b + offline_ttl_ms b <=? now)%Z = false) /\
    enforceHead b st options = Ok st'.
Proof.
  unfold verify_body. intros H. run_steps H. match goal with p : (string * string)%type |- _ => destruct p end.
  run_steps H. injection H as <- <- <-. guards. repeat match goal with x : () |- _ => destruct x end.
  eexists _, _, _. split_and!; done.
Qed.

Lemma check_head_ok s seq h u :
  check_head s seq h = Ok u ->
  (highest_sequence s < seq \/ highest_sequence s = seq /\ statement_hash s = Some h)%Z.
Proof.
  unfold check_head. intros H. run_steps H. guards. revert H. destruct (Z.eqb_spec seq (highest_sequence s)) as [->|]; [|left; lia].
  destruct (statement_hash s) as [h'|]; [|done]. intros H. run_steps H. guards.
  right. split; [done|]. congruence.
Qed.

Lemma enforceHead_state b s options st :
  enforceHead b (state_js s) options = Ok st ->
  exists h, controlBundleStatementHash (bundle_js b) = Ok h /\ check_head s (sequence b) h = Ok tt /\
    check_option_head options (sequence b) h = Ok tt.
Proof.
  intros H. assert (exists s0, validateControlBundleState (state_js s) = Ok s0 /\ (h ← controlBundleStatementHash (bundle_js b);
    _ ← check_head s0 (sequence b) h; check_option_head options (sequence b) h) = Ok tt) as (s0 & Hs & Hc).
  { unfold enforceHead in H. cbn [state_js] in H. run_steps H. repeat match goal with x : () |- _ => destruct x end.
    eexists. split; [done|]. by repeat match goal with H : _ = Ok _ |- _ => rewrite H; cbn [mbind result_bind]; clear H end. }
  pose proof (state_js_ok _ _ Hs) as (-> & _). apply bind_ok in Hc as (h & Hh & Hc). apply bind_ok in Hc as ([] & Hc & Ho). eauto.
Qed.

Lemma resolvePublicKey_ok trust keyId issuer options key :
  resolvePublicKey trust keyId issuer options = Ok key -> asymmetricKeyType key = "ed25519".
Proof. unfold resolvePublicKey. intros H. run_steps H. injection H as <-. guards. done. Qed.

Lemma decodeSignature_ok v sig bytes :
  decodeSignature v = Ok (sig, bytes) -> v = JStr sig /\ String.length bytes = SIGNATURE_LENGTH /\ sig = base64 bytes.
Proof.
  unfold decodeSignature. destruct v; try done. intros H. run_steps H. injection H as <- <-. guards.
  match goal with H : Nat.eqb _ _ = true |- _ => apply Nat.eqb_eq in H end. done.
Qed.

Lemma checkAudience_ok b expected :
  checkAudience b expected = Ok tt -> validateAudience expected = Ok (organization_id b, device_id b).
Proof.
  unfold checkAudience. intros ([o dv] & Ha & H)%bind_ok. run_steps H. guards. by subst.
Qed.

(** C17: a verified bundle is signed, addressed, timely and not older than the
    state.  When [verifyControlBundle] returns a bundle: its canonical text
    carries an Ed25519 signature of 64 bytes that verifies under the key that
    the trust configuration pins for its issuer and key; the expected audience
    is its organization and device; it was not issued in the future and has not
    expired (with [allowOffline], not for longer than its offline time); and
    against a given state its sequence is higher, or is the same with the same
    hash. *)
Theorem verified_bundle_sound v trust options dateNow b sig st :
  verifyControlBundle v trust options dateNow = Ok ((b, sig), st) ->
  exists now key bytes,
    toNow (option_clock options dateNow) = Ok now /\
    resolvePublicKey trust (JStr (key_id b)) (JStr (issuer b)) options = Ok key /\ asymmetricKeyType key = "ed25519" /\
    get v "signature" = JStr sig /\ sig = base64 bytes /\ String.length bytes = SIGNATURE_LENGTH /\
    verify_with key (canonicalJson (bundle_js b)) bytes = Some true /\
    validateAudience (expected_audience options trust) = Ok (organization_id b, device_id b) /\
    (truthy (get options "allowFuture") = false -> exists skew, clock_skew options = Ok skew /\ (issued_at b <= now + skew)%Z) /\
    (now < expires_at b \/ allow_offline options = true /\ now < expires_at b + offline_ttl_ms b)%Z /\
    (forall s, sequence_state options trust = state_js s ->
       exists h, controlBundleStatementHash (bundle_js b) = Ok h /\
         (highest_sequence s < sequence b \/ highest_sequence s = sequence b /\ statement_hash s = Some h)%Z).
Proof.
  unfold verifyControlBundle. intros (now & key & bytes & Hn & Hv & Hk & Hs & Hver & _ & Ha & Ho & He)%verify_body_ok.
  pose proof (resolvePublicKey_ok _ _ _ _ _ Hk) as Ht. apply decodeSignature_ok in Hs as (Hsig & Hlen & Hb64).
  apply validate_ok in Hv as (L & M & now' & _ & _ & Hn' & _ & Hexp & Hfut).
  assert (now' = now) as ->.
  { unfold toNow in Hn'. apply of_option_ok, safe_integer_Some in Hn' as [[= ->] _]. done. }
  exists now, key, bytes. split_and!; try done.
  - unfold verifies, canonicalJsonSafe in Hver. destruct (canonicalValue (bundle_js b)) as [text|] eqn:Et; [|done].
    apply canonicalValue_text in Et as ->. cbn [or_throw] in Hver. by destruct (verify_with key _ bytes) as [[]|].
  - by apply checkAudience_ok.
  - destruct (allow_offline options); [|left; by apply Hexp]. cbn [andb] in Ho. apply andb_false_iff in Ho as [Ho|Ho]; guards; auto.
  - intros s Es. rewrite Es in He. apply enforceHead_state in He as (h & Hh & Hc & _). exists h. split; [done|].
    by eapply check_head_ok.
Qed.

(** The revocations are decisive.  [evaluateControlBundle] allows a
    subject exactly when the bundle is valid, is not revoked globally, is for
    the organization and the device given, and lists neither the device, nor
    the agent, nor the capability as it is written. *)
Theorem evaluateControlBundle_spec v organization device agent capability n :
  evaluateControlBundle v organization device agent capability = Allowed n <->
  exists b, settled_bundle v = Ok b /\ n = sequence b /\ global_revoked b = false /\
    (organization = JUndefined \/ organization = JStr (organization_id b)) /\
    (device = JUndefined \/ device = JStr (device_id b)) /\
    (forall s, device = JStr s -> s ∉ revoked_devices b) /\
    (forall s, agent = JStr s -> s ∉ revoked_agents b) /\
    (forall s, capability = JStr s -> s ∉ revoked_capabilities b).
Proof.
  assert (forall x y, unlike x y = false <-> x = JUndefined \/ x = y) as Hu.
  { intros x y. unfold unlike. rewrite andb_false_iff, !negb_false_iff, bool_decide_eq_true. by rewrite is_undefined_true. }
  assert (forall l x, listed l x = false <-> forall s, x = JStr s -> s ∉ l) as Hl.
  { intros l x. unfold listed. destruct x; try (by split; [intros _ s|]). rewrite includes_false. naive_solver. }
  unfold evaluateControlBundle. destruct (settled_bundle v) as [b|e]; [|by split; [destruct e|intros (b & ? & _)]].
  cbv zeta. split.
  - intros H. exists b. rewrite <- !Hu, <- !Hl. split; [done|].
    destruct (unlike organization _); [done|]. destruct (unlike device _); [done|]. destruct (global_revoked b); [done|].
    destruct (listed _ device); [done|]. destruct (listed _ agent); [done|]. destruct (listed _ capability); [done|].
    by injection H as <-.
  - intros (b' & [= <-] & -> & Hg & Ho & Hd & Hld & Hla & Hlc). apply Hu in Ho, Hd. apply Hl in Hld, Hla, Hlc.
    by rewrite Ho, Hd, Hg, Hld, Hla, Hlc.
Qed.

Lemma fields_policy b sig : get (JObj (signed_fields b sig)) "policy_scope" = scope_js (policy_scope b).
Proof. apply signed_get. unfold bundle_fields. repeat constructor. Qed.

Lemma plain_scope_js s : plain_scope s = true -> plain_js (scope_js s) = true.
Proof.
  intros H. unfold plain_js. destruct (validateScope (scope_js s) true) as [s'|e] eqn:E; [|done].
  by apply validateScope_js_inv in E as ->.
Qed.

(** A bundle's policy only narrows.  When the patterns of both scopes are
    plain, a request that the effective scope of [consumePolicyBundle] allows
    is allowed by the local scope and by the bundle's policy. *)
Theorem consumed_policy_narrows v localScope l trust options dateNow b sig scope r :
  consumePolicyBundle v localScope trust options dateNow = Ok ((b, sig), scope) ->
  validatePolicyScope localScope = Ok l -> plain_scope l = true -> plain_scope (policy_scope b) = true ->
  scopeAllows (scope_js scope) r = Ok true ->
  scopeAllows (scope_js l) r = Ok true /\ policyScopeAllows (JObj (signed_fields b sig)) r = true.
Proof.
  unfold consumePolicyBundle. intros H Hl Hp Hq Hr. run_steps H. match goal with p : (Bundle * string * jsval)%type |- _ => destruct p as [[b' sig'] st] end.
  run_steps H. injection H as -> -> ->. match goal with H : narrowPolicyScope _ _ = Ok _ |- _ => rename H into Hn end.
  unfold narrowPolicyScope in Hn. cbn [fst snd] in Hn. rewrite fields_policy in Hn. change (nullish (scope_js ?s) _) with (scope_js s) in Hn.
  rewrite Hl in Hn. cbn [mbind result_bind] in Hn.
  match goal with H : verifyControlBundle _ _ _ _ = Ok _ |- _ => rename H into Hv end.
  unfold verifyControlBundle in Hv. apply verify_body_ok in Hv as (? & ? & ? & _ & Hv & _).
  apply validate_ok in Hv as (? & ? & ? & _ & _ & _ & Hc & _). pose proof (c_scope _ _ _ _ Hc) as Hs.
  apply validatePolicyScope_ok, validatePolicyScope_again in Hs as [Hs _]. rewrite Hs in Hn. cbn [mbind result_bind] in Hn.
  destruct (intersectScopes [scope_js l; scope_js (policy_scope b)]) as [s'|] eqn:Ei; [|done]. injection Hn as ->.
  assert (forall sc, sc ∈ [scope_js l; scope_js (policy_scope b)] -> scopeAllows sc r = Ok true) as Hall.
  { eapply intersectScopes_grants; [|exact Ei|done]. cbn [forallb]. rewrite (plain_scope_js l Hp), (plain_scope_js _ Hq). done. }
  split; [apply Hall; set_solver|]. unfold policyScopeAllows. rewrite fields_policy.
  change (nullish (scope_js ?s) _) with (scope_js s). rewrite Hall by set_solver. done.
Qed.
End Verified.

(** ** Witnesses *)

Module Sample.
#[local] Existing Instance iso_date_parse.
#[local] Existing Instance toy_sha256.
#[local] Existing Instance integer_text.
#[local] Existing Instances Capability.Sample.key_objects Capability.Sample.signing_keys.

Definition organization : string := "0b54e0c0-3f0a-4d5b-9a0e-1234567890ab".
Definition device : string := "1b54e0c0-3f0a-4d5b-9a0e-1234567890ab".
Definition agent : string := "2b54e0c0-3f0a-4d5b-9a0e-1234567890ab".
Definition time : Z := 1700000000000.
Definition scope (branch : string) : Scope :=
  mkScope ["git.commit.sign"] ["/work/repo"] (mkFilter [branch] None) (mkFilter ["origin"] None) None.

(** A bundle of sequence [n] that revokes the agents [agents]. *)
Definition input (n : Z) (agents : list string) : jsval :=
  JObj [("issuer", JStr "cloud"); ("organization_id", JStr organization); ("device_id", JStr device);
        ("audience", audience_js organization device); ("issued_at", JStr (to_iso time));
        ("expires_at", JStr (to_iso (time + 3600000))); ("sequence", JNum (NInt n)); ("policy_scope", scope_js (scope "agent/*"));
        ("global_revoked", JBool false); ("revoked_devices", JArr []); ("revoked_agents", strings_js agents);
        ("revoked_capabilities", JArr []); ("offline_ttl_ms", JNum (NInt 60000)); ("key_id", JStr "key-1")].

Definition trust : jsval := JHost 7.
Definition options : jsval := JObj [("now", JNum (NInt time)); ("audience", audience_js organization device)].

Definition unissued : Bundle := mkBundle "" "" "" 0 0 0 (scope "") false [] [] [] 0 "".
Definition issued (n : Z) (agents : list string) : Bundle * string :=
  match issueControlBundle (input n agents) (JHost 1) options time with Ok b => b | Throw _ => (unissued, "") end.
Definition bundle (n : Z) (agents : list string) : jsval := JObj (signed_fields (issued n agents).1 (issued n agents).2).

End Sample.

(** A revocation in capital letters does not revoke the agent that is known in
    small ones: the expression of identifiers ignores case, the lists do not. *)
Lemma revocation_case_sensitive :
  @evaluateControlBundle iso_date_parse (Sample.bundle 1 ["2B54E0C0-3F0A-4D5B-9A0E-1234567890AB"]) (JStr Sample.organization)
    (JStr Sample.device) (JStr Sample.agent) JUndefined = Allowed 1 /\
  @evaluateControlBundle iso_date_parse (Sample.bundle 1 [Sample.agent]) (JStr Sample.organization)
    (JStr Sample.device) (JStr Sample.agent) JUndefined = Denied AGENT_REVOKED (Some 1%Z).
Proof. vm_compute. done. Qed.

Lemma sample_bundle_verified :
  @verifyControlBundle iso_date_parse Capability.Sample.key_objects toy_sha256 (Sample.bundle 1 []) Sample.trust Sample.options
    Sample.time = Ok ((Sample.issued 1 []).1, (Sample.issued 1 []).2, JUndefined).
Proof. vm_compute. reflexivity. Qed.

Lemma verified_bundle_sound_witness :
  exists key bytes, asymmetricKeyType key = "ed25519" /\
    @verify_with Capability.Sample.key_objects key (canonicalJson (bundle_js (Sample.issued 1 []).1)) bytes = Some true.
Proof.
  destruct (@verified_bundle_sound iso_date_parse Capability.Sample.key_objects toy_sha256 (Sample.bundle 1 []) Sample.trust
    Sample.options Sample.time (Sample.issued 1 []).1 (Sample.issued 1 []).2 JUndefined sample_bundle_verified)
    as (now & key & bytes & _ & _ & Hk & _ & _ & _ & Hv & _).
  exists key, bytes. exact (conj Hk Hv).
Defined.

(** A request within both scopes. *)
Definition sample_request : Request :=
  mkRequest (JStr "git.commit.sign") (JStr "/work/repo") (JStr "agent/x") (JStr "origin") JUndefined.

Definition sample_effective : Scope :=
  match @consumePolicyBundle iso_date_parse Capability.Sample.key_objects toy_sha256 (Sample.bundle 1 [])
    (scope_js (Sample.scope "agent/*")) Sample.trust Sample.options Sample.time with Ok (_, s) => s | Throw _ => Sample.scope "" end.

Lemma sample_consumed :
  @consumePolicyBundle iso_date_parse Capability.Sample.key_objects toy_sha256 (Sample.bundle 1 [])
    (scope_js (Sample.scope "agent/*")) Sample.trust Sample.options Sample.time =
  Ok ((Sample.issued 1 []).1, (Sample.issued 1 []).2, sample_effective).
Proof. vm_compute. reflexivity. Qed.

Lemma sample_allowed :
  validatePolicyScope (scope_js (Sample.scope "agent/*")) = Ok (Sample.scope "agent/*") /\
  plain_scope (Sample.scope "agent/*") = true /\ plain_scope (policy_scope (Sample.issued 1 []).1) = true /\
  scopeAllows (scope_js sample_effective) sample_request = Ok true.
Proof. vm_compute. done. Qed.

Lemma consumed_policy_narrows_witness :
  scopeAllows (scope_js (Sample.scope "agent/*")) sample_request = Ok true.
Proof.
  destruct sample_allowed as (Hl & Hp & Hq & Hr).
  exact (proj1 (@consumed_policy_narrows iso_date_parse Capability.Sample.key_objects toy_sha256 (Sample.bundle 1 [])
    (scope_js (Sample.scope "agent/*")) (Sample.scope "agent/*") Sample.trust Sample.options Sample.time
    (Sample.issued 1 []).1 (Sample.issued 1 []).2 sample_effective sample_request sample_consumed Hl Hp Hq Hr)).
Defined.
