(* ===== verification/ControlBundleState.v ===== *)
(** * The durable head of control bundles (lib/control-bundle-v2.mjs)

    [applyControlBundle] and the two files it keeps: the head, with the highest
    accepted bundle, and the marker of the lowest accepted format; with the
    bundles of the first format that it still accepts before the second.  The
    files are written by renames, each atomic, between which the process can
    stop. *)

From stdpp Require Import base tactics sets list strings.
From Stdlib Require Import Ascii.
From S2P Require Import Prelude JsValue Regex IsoTime Json StrictJson Crypto Glob Scope Capability FileSystem BundleJson ControlBundle.
Local Open Scope string_scope.
Local Open Scope js_scope.

Definition MARKER_MAX_BYTES : Z := 1024.
Definition LEGACY_KEYS : list string :=
  ["version"; "sequence"; "issued_at"; "expires_at"; "global_revoked"; "revoked_agents"; "key_fingerprint"; "signature"].
Definition createControlBundleState : State := mkState LEGACY_FORMAT_EPOCH 0 None None.

Section Storage.
Context `{HParse : DateParse} `{HKeys : KeyObjects} `{HSha : Sha256}.

(** ** Bundles of the first format *)

(** [verifyLegacyControlBundle]: the statement with its signature, its
    sequence and its hash. *)
Record Legacy := mkLegacy { legacy_bundle : list (string * jsval); legacy_sequence : Z; legacy_hash : string }.

Definition key_fingerprint (key : KeyDescription) : string := "SHA256:" +:+ sha256_base64url (spki_der key).

Definition verifyLegacyControlBundle (bundle trust options : jsval) (dateNow : Z) : result bundle_exn Legacy :=
  throw_if negb (is_plain bundle) with ControlBundleError INVALID_BUNDLE ;;
  _ ← rejectUnknown bundle LEGACY_KEYS;
  throw_if negb (is_int (get bundle "version") 1) with ControlBundleError INVALID_FORMAT_EPOCH ;;
  seq ← of_option (ControlBundleError INVALID_SEQUENCE) (safe_integer (get bundle "sequence"));
  throw_if (seq <? 1)%Z with ControlBundleError INVALID_SEQUENCE ;;
  issued ← parseTimestamp (get bundle "issued_at");
  expires ← parseTimestamp (get bundle "expires_at");
  now ← toNow (option_clock options dateNow);
  throw_if (expires <=? issued)%Z || (MAX_BUNDLE_TTL_MS <? expires - issued)%Z with ControlBundleError TTL_EXCEEDED ;;
  throw_if (now + CLOCK_SKEW_MS <? issued)%Z with ControlBundleError ISSUED_IN_FUTURE ;;
  throw_if (expires <=? now)%Z with ControlBundleError EXPIRED ;;
  revoked ← of_option (ControlBundleError INVALID_REVOCATION)
              (match get bundle "global_revoked" with JBool b => Some b | _ => None end);
  agents ← validateRevocations (get bundle "revoked_agents") INVALID_AGENT_ID;
  publicKey ← resolvePublicKey trust JUndefined JUndefined options;
  throw_if negb (is_str (get bundle "key_fingerprint") (key_fingerprint publicKey)) with ControlBundleError ISSUER_KEY_MISMATCH ;;
  '(signature, bytes) ← decodeSignature (get bundle "signature");
  let statement := [("version", JNum (NInt 1)); ("sequence", JNum (NInt seq)); ("issued_at", JStr (to_iso issued));
                    ("expires_at", JStr (to_iso expires)); ("global_revoked", JBool revoked);
                    ("revoked_agents", strings_js (sort_strings agents))] in
  text ← canonicalJsonSafe (JObj statement);
  valid ← of_option PlainError (verify_with publicKey text bytes);
  throw_if negb valid with ControlBundleError INVALID_SIGNATURE ;;
  Ok (mkLegacy (statement ++ [("key_fingerprint", JStr (key_fingerprint publicKey)); ("signature", JStr signature)])%list
        seq (sha256 text)).

Definition enforceLegacyHead (l : Legacy) (s : State) : result bundle_exn unit :=
  throw_if (legacy_sequence l <? highest_sequence s)%Z with ControlBundleError SEQUENCE_ROLLBACK ;;
  throw_if (legacy_sequence l =? highest_sequence s)%Z
           && match statement_hash s with Some h => negb (String.eqb h (legacy_hash l)) | None => false end
    with ControlBundleError SEQUENCE_CONFLICT ;; Ok tt.

(** ** Storage *)

(** A path: that it is an absolute text whose last part is not [.] or [..];
    that its parent is a symbolic link; what it names.  [resolves] says that
    [existsSync], which follows links, finds something; [data] is the size and
    the text, [None] when it cannot be read. *)
Record Node := mkNode { resolves : bool; linked : bool; data : option (Z * option string) }.
Record Location := mkLocation { proper : bool; parent_linked : bool; entry : option Node }.

(** The head and the marker of the lowest accepted format, at different
    paths. *)
Record Disk := mkDisk { head_file : Location; marker_file : Location }.

Inductive Write := PutMarker (text : string) | PutHead (text : string).

Definition put (text : string) (l : Location) : Location :=
  mkLocation (proper l) (parent_linked l) (Some (mkNode true false (Some (byteLength text, Some text)))).

Definition apply_write (w : Write) (d : Disk) : Disk :=
  match w with
  | PutMarker text => mkDisk (head_file d) (put text (marker_file d))
  | PutHead text => mkDisk (put text (head_file d)) (marker_file d)
  end.

Definition apply (ws : list Write) (d : Disk) : Disk := fold_left (fun d w => apply_write w d) ws d.

(** The node that [existsSync] finds. *)
Definition existing (l : Location) : option Node :=
  match entry l with Some n => if resolves n then Some n else None | None => None end.

Definition assertStatePath (l : Location) : result bundle_exn unit :=
  throw_if negb (proper l) with ControlBundleError STATE_INVALID ;;
  throw_if parent_linked l with ControlBundleError STATE_SYMLINK ;;
  throw_if match existing l with Some n => linked n | None => false end with ControlBundleError STATE_SYMLINK ;; Ok tt.

Definition readStrictJsonFile `{NumberText} (l : Location) (n : Node) (maxBytes : Z) : result bundle_exn jsval :=
  _ ← assertStatePath l;
  '(bytes, text) ← of_option (ControlBundleError STATE_INVALID) (data n);
  parseControlBundleJson MAX_JSON_DEPTH text bytes maxBytes.

Definition loadMinimumFormatEpoch `{NumberText} (l : Location) : result bundle_exn Z :=
  _ ← assertStatePath l;
  match existing l with
  | None => Ok LEGACY_FORMAT_EPOCH
  | Some n =>
      value ← readStrictJsonFile l n MARKER_MAX_BYTES;
      throw_if negb (is_plain value) || negb (same_keys value ["minimum_format_epoch"]) with ControlBundleError STATE_INVALID ;;
      if is_int (get value "minimum_format_epoch") 1 then Ok 1%Z
      else if is_int (get value "minimum_format_epoch") 2 then Ok 2%Z else fail STATE_INVALID
  end.

(** The last two statements of [loadControlBundleState]: the marker raises
    the epoch, and a bundle of the first format is then not active. *)
Definition raise_epoch (marker : Z) (s : State) : State :=
  let epoch := Z.max (minimum_format_epoch s) marker in
  mkState epoch (highest_sequence s) (statement_hash s)
    (if (FORMAT_EPOCH <=? epoch)%Z
     then match active_bundle s with
          | Some fs => if is_int (get (JObj fs) "format_epoch") FORMAT_EPOCH then Some fs else None
          | None => None
          end
     else active_bundle s).

Definition loadControlBundleState `{NumberText} (d : Disk) : result bundle_exn State :=
  _ ← assertStatePath (head_file d);
  state ← match existing (head_file d) with
          | None => Ok createControlBundleState
          | Some n => parsed ← readStrictJsonFile (head_file d) n CONTROL_BUNDLE_MAX_BYTES; validateControlBundleState parsed
          end;
  marker ← loadMinimumFormatEpoch (marker_file d);
  Ok (raise_epoch marker state).

(** [atomicWriteJson]: the checks before the rename, and the rename as one
    write.  An error of the system leaves the file as it was, like a crash. *)
Definition atomicWriteJson (l : Location) (w : string -> Write) (v options : jsval) : logged bundle_exn Write unit :=
  let* _ := lift (assertStatePath l) in
  let* text := lift (canonicalJsonSafe v) in
  let content := text +:+ String "010" "" in
  let* maxBytes := lift (of_option OutsideModel
                           (safe_integer (nullish (get options "maxBytes") (JNum (NInt CONTROL_BUNDLE_MAX_BYTES))))) in
  if (maxBytes <? byteLength content)%Z then lift (fail JSON_TOO_LARGE) else (Ok tt, [w content]).

Definition saveControlBundleState (d : Disk) (s : State) (options : jsval) : logged bundle_exn Write State :=
  let* _ := lift (assertStatePath (head_file d)) in
  let* normalized := lift (validateControlBundleState (state_js s)) in
  let* _ := atomicWriteJson (head_file d) PutHead (state_js normalized) options in
  lift (Ok normalized).

(** [persistMinimumFormatEpoch(markerPath, FORMAT_EPOCH, options)]; the marker
    never holds more. *)
Definition marker_js (epoch : Z) : jsval := JObj [("minimum_format_epoch", JNum (NInt epoch))].

Definition persistMinimumFormatEpoch `{NumberText} (d : Disk) (options : jsval) : logged bundle_exn Write unit :=
  let* _ := lift (assertStatePath (marker_file d)) in
  let* existing := lift (loadMinimumFormatEpoch (marker_file d)) in
  if (existing =? FORMAT_EPOCH)%Z then lift (Ok tt)
  else atomicWriteJson (marker_file d) PutMarker (marker_js FORMAT_EPOCH) options.

(** [applyControlBundle]: the bundle returned. *)
Definition applyControlBundle `{NumberText} (bundle trust options : jsval) (dateNow : Z) (d : Disk)
  : logged bundle_exn Write (list (string * jsval)) :=
  let* state := lift (loadControlBundleState d) in
  if negb (is_int (get bundle "format_epoch") FORMAT_EPOCH) then
    if negb (truthy (get options "legacyMode")) then lift (fail LEGACY_MODE_REQUIRED) else
    if (FORMAT_EPOCH <=? minimum_format_epoch state)%Z then lift (fail LEGACY_PERMANENTLY_REJECTED) else
    let* legacy := lift (verifyLegacyControlBundle bundle trust options dateNow) in
    let* _ := lift (enforceLegacyHead legacy state) in
    let* _ := saveControlBundleState d (mkState (minimum_format_epoch state) (legacy_sequence legacy)
                                          (Some (legacy_hash legacy)) (Some (legacy_bundle legacy))) options in
    lift (Ok (legacy_bundle legacy))
  else
    let* verified := lift (verify_body bundle trust options (allow_offline options) (expected_audience options trust)
                             (state_js state) (option_clock options dateNow)) in
    let '((b, signature), _) := verified in
    let active := signed_fields b signature in
    let* hash := lift (controlBundleStatementHash (JObj active)) in
    let* _ := persistMinimumFormatEpoch d options in
    let* _ := saveControlBundleState d (mkState FORMAT_EPOCH (sequence b) (Some hash) (Some active)) options in
    lift (Ok active).
End Storage.

#[local] Arguments assertDocumentSize : simpl never.
#[local] Arguments assertUuid : simpl never.
#[local] Arguments bundle_js : simpl never.
#[local] Arguments byteLength : simpl never.
#[local] Arguments canonicalValue : simpl never.
#[local] Arguments clock_skew : simpl never.
#[local] Arguments enforceHead : simpl never.
#[local] Arguments filter_js : simpl never.
#[local] Arguments get : simpl never.
#[local] Arguments isIdentifier : simpl never.
#[local] Arguments nullish : simpl never.
#[local] Arguments parseTimestamp : simpl never.
#[local] Arguments policy_scope_of : simpl never.
#[local] Arguments positiveLimit : simpl never.
#[local] Arguments re_test : simpl never.
#[local] Arguments rejectUnknown : simpl never.
#[local] Arguments resolvePublicKey : simpl never.
#[local] Arguments safe_integer : simpl never.
#[local] Arguments strings_js : simpl never.
#[local] Arguments toNow : simpl never.
#[local] Arguments validateAudience : simpl never.
#[local] Arguments validateControlBundle : simpl never.
#[local] Arguments validatePatternList : simpl never.
#[local] Arguments validatePolicyScope : simpl never.
#[local] Arguments validateRevocations : simpl never.

Section Kept.
Context `{HParse : DateParse} `{HKeys : KeyObjects} `{HSha : Sha256}.

(** ** Lemmas: states and their files *)

(** A state as it is read back: its bundle's properties sorted. *)
Definition sorted (s : State) : State :=
  mkState (minimum_format_epoch s) (highest_sequence s) (statement_hash s)
    (option_map (fun fs => fields_of (normal (JObj fs))) (active_bundle s)).

(** The bundles the code makes active: of the first format, or signed. *)
Definition kept (s : State) : Prop :=
  match active_bundle s with
  | None => True
  | Some fs => NoDup (map fst fs) /\
      (get (JObj fs) "format_epoch" = JUndefined \/
       exists b sig, fs = signed_fields b sig /\ settled_bundle (bundle_js b) = Ok b)
  end.

Lemma normal_get_js s k : get (normal (state_js s)) k = normal (get (state_js s) k).
Proof. apply (get_normal (fields_of (state_js s))), state_keys. Qed.

Lemma normal_object fs : normal (JObj fs) = JObj (fields_of (normal (JObj fs))).
Proof. done. Qed.

(** A state in use is accepted again as it is read back. *)
Lemma sorted_ok s :
  validateControlBundleState (state_js s) = Ok s -> kept s ->
  validateControlBundleState (normal (state_js s)) = Ok (sorted s).
Proof.
  intros (_ & He & Hn & Hs & Hh & Hz & Hact)%state_js_ok Hk. unfold validateControlBundleState.
  pose proof (state_js_get s) as (G1 & G2 & G3 & G4). rewrite !normal_get_js, G1, G2, G3, G4. cbn [normal].
  change (is_plain (normal (state_js s))) with true. change (rejectUnknown (normal (state_js s)) STATE_KEYS) with (Ok (E := bundle_exn) tt).
  cbn [negb or_throw mbind result_bind].
  assert (safe_integer (JNum (NInt (minimum_format_epoch s))) = Some (minimum_format_epoch s)) as ->
    by (by destruct He as [-> | ->]).
  cbn [of_option mbind result_bind]. rewrite bool_decide_eq_true_2 by done. cbn [negb]. rewrite Hs.
  cbn [of_option mbind result_bind]. rewrite (proj2 (Z.ltb_ge _ _)) by lia.
  replace (normal match statement_hash s with Some h => JStr h | None => JNull end)
    with (match statement_hash s with Some h => JStr h | None => JNull end) by (by destruct (statement_hash s)).
  rewrite Hh. cbn [of_option mbind result_bind]. rewrite Hz. unfold sorted. destruct s as [e h sh [fs|]];
    cbn [minimum_format_epoch highest_sequence statement_hash active_bundle option_map] in *; [|done].
  rewrite (normal_object fs). cbn [is_plain negb]. rewrite andb_false_r, <- (normal_object fs).
  destruct Hk as [Hd Hk]. cbn [active_bundle] in Hk.
  assert (is_int (get (normal (JObj fs)) "format_epoch") FORMAT_EPOCH = is_int (get (JObj fs) "format_epoch") FORMAT_EPOCH) as ->.
  { rewrite get_normal by done. by destruct (get (JObj fs) "format_epoch"). }
  rewrite bool_decide_eq_false_2 by (rewrite normal_object; discriminate).
  destruct (is_int (get (JObj fs) "format_epoch") FORMAT_EPOCH) eqn:Hep; [|done].
  destruct Hk as [Hk|(b & sig & -> & Hb)]; [by rewrite Hk in Hep|].
  destruct (Hact _ eq_refl eq_refl) as (b' & Hb' & Hseq & own & -> & Hown).
  rewrite (settled_again _ _ _ Hb (stored_signed b sig)) in Hb'. injection Hb' as <-.
  rewrite (settled_again _ _ _ Hb (stored_sorted b sig)). cbn [mbind result_bind]. rewrite Hown. cbn [mbind result_bind].
  rewrite Hseq, Z.eqb_refl, bool_decide_eq_true_2 by done. done.
Qed.

(** ** Lemmas: a file that was written *)

Lemma byteLength_cons c s : byteLength (String c s) = ((if Nat.ltb (code c) 128 then 1 else 2) + byteLength s)%Z.
Proof. done. Qed.

Lemma byteLength_pos s : (0 <= byteLength s)%Z.
Proof. induction s as [|c s IH]; [done|]. rewrite byteLength_cons. destruct (Nat.ltb (code c) 128); lia. Qed.

Lemma byteLength_app s t : byteLength (s +:+ t) = (byteLength s + byteLength t)%Z.
Proof.
  induction s as [|c s IH]; [done|]. change (String c s +:+ t) with (String c (s +:+ t)). rewrite !byteLength_cons, IH. lia.
Qed.

Lemma nesting_obj_le fs d : nesting (JObj fs) <= d <-> Forall (fun kv => S (nesting kv.2) <= d) fs.
Proof.
  cbn [nesting]. induction fs as [|kv fs IH]; cbn [foldr]; [split; [constructor|lia]|]. rewrite Forall_cons, <- IH. lia.
Qed.

Lemma nesting_arr_le l d : nesting (JArr l) <= d <-> Forall (fun v => S (nesting v) <= d) l.
Proof.
  cbn [nesting]. induction l as [|v l IH]; cbn [foldr]; [split; [constructor|lia]|]. rewrite Forall_cons, <- IH. lia.
Qed.

Lemma nesting_normal v : nesting (normal v) <= nesting v.
Proof.
  induction v as [ | | | | |l IH|fs IH| | | ] using jsval_ind; try done.
  - cbn [normal]. apply nesting_arr_le, Forall_fmap. pose proof (proj1 (nesting_arr_le l _) (le_n _)) as H.
    rewrite Forall_forall in *. intros v Hv. specialize (H v Hv). specialize (IH v Hv).
    change (S (nesting (normal v)) <= nesting (JArr l)). lia.
  - rewrite normal_obj. apply nesting_obj_le, Forall_fmap. rewrite (sort_fields_perm fs).
    pose proof (proj1 (nesting_obj_le fs _) (le_n _)) as H. rewrite Forall_forall in *. intros kv Hv.
    specialize (H kv Hv). specialize (IH kv Hv). change (S (nesting (normal kv.2)) <= nesting (JObj fs)). lia.
Qed.

(** The file that [atomicWriteJson] leaves, read with the limit it was written
    with. *)
Lemma read_written `{HN : NumberText} l fs maxBytes :
  let content := canonicalJson (JObj fs) +:+ String "010" "" in
  assertStatePath l = Ok tt -> json_value (JObj fs) = true -> nesting (JObj fs) <= MAX_JSON_DEPTH ->
  (byteLength content <= maxBytes)%Z ->
  exists n, existing (put content l) = Some n /\
    readStrictJsonFile (put content l) n maxBytes = Ok (normal (JObj fs)) /\ assertStatePath (put content l) = Ok tt.
Proof.
  intros content Hl Hj Hn Hb. eexists. split; [done|].
  assert (assertStatePath (put content l) = Ok tt) as Hp.
  { revert Hl. unfold assertStatePath. cbn. destruct (proper l); [|done]. by destruct (parent_linked l). }
  split; [|done]. unfold readStrictJsonFile. rewrite Hp. cbn [mbind result_bind data of_option].
  unfold parseControlBundleJson. assert (0 < byteLength content)%Z as Hpos.
  { unfold content. rewrite byteLength_app. pose proof (byteLength_pos (canonicalJson (JObj fs))).
    change (byteLength (String "010" "")) with 1%Z. lia. }
  rewrite (proj2 (Z.eqb_neq _ _)), (proj2 (Z.ltb_ge _ _)) by lia. cbn [orb of_option mbind result_bind].
  rewrite (read_agrees MAX_JSON_DEPTH content (normal (JObj fs))); [done|by apply parse_canonical_line|].
  etransitivity; [apply nesting_normal|done].
Qed.

(** ** Lemmas: the state that is stored is a JSON value *)

Lemma nesting_strings l : nesting (strings_js l) <= 1.
Proof. apply nesting_arr_le, Forall_fmap, Forall_forall. cbn. lia. Qed.

Lemma nesting_filter f : nesting (filter_js f) <= 2.
Proof.
  destruct f as [a d]. apply nesting_obj_le. pose proof (nesting_strings a). constructor; [cbn [snd allow]; lia|].
  destruct d as [d|]; [|constructor]. pose proof (nesting_strings d). constructor; [cbn [snd]; lia|constructor].
Qed.

Lemma nesting_scope s : nesting (scope_js s) <= 3.
Proof.
  apply nesting_obj_le. pose proof (nesting_strings (operations s)). pose proof (nesting_strings (repositories s)).
  pose proof (nesting_filter (branches s)). pose proof (nesting_filter (remotes s)).
  apply Forall_app. split; [repeat (apply Forall_cons; split; [cbn [snd]; lia|]); constructor|].
  destruct (tags s) as [t|]; [|constructor]. pose proof (nesting_filter t). apply Forall_cons; split; [cbn [snd]; lia|constructor].
Qed.

Lemma nesting_signed b sig : nesting (JObj (signed_fields b sig)) <= 4.
Proof.
  apply nesting_obj_le. pose proof (nesting_scope (policy_scope b)). pose proof (nesting_strings (revoked_devices b)).
  pose proof (nesting_strings (revoked_agents b)). pose proof (nesting_strings (revoked_capabilities b)).
  unfold signed_fields, bundle_fields. cbn [app].
  repeat (apply Forall_cons; split; [cbn [snd]; first [lia | cbn; lia]|]). constructor.
Qed.

Lemma json_signed b sig : settled_bundle (bundle_js b) = Ok b -> json_value (JObj (signed_fields b sig)) = true.
Proof.
  intros H%settled_checked. pose proof (c_sequence _ _ _ _ H) as Hseq. pose proof (c_offline _ _ _ _ H) as Hoff.
  rewrite (bundle_get b "sequence" (JNum (NInt (sequence b)))) in Hseq by (repeat constructor).
  rewrite (bundle_get b "offline_ttl_ms" (JNum (NInt (offline_ttl_ms b)))) in Hoff by (repeat constructor).
  unfold signed_fields, bundle_fields, audience_js. cbn [app json_value map fst snd forallb].
  rewrite Hseq, Hoff, json_scope, !json_strings. reflexivity.
Qed.

Lemma json_state s :
  validateControlBundleState (state_js s) = Ok s ->
  match active_bundle s with Some fs => json_value (JObj fs) = true | None => True end -> json_value (state_js s) = true.
Proof.
  intros (_ & He & _ & Hs & _)%state_js_ok Ha. destruct s as [e h sh a]. cbn [highest_sequence minimum_format_epoch active_bundle] in *.
  unfold state_js. cbn [minimum_format_epoch highest_sequence statement_hash active_bundle].
  change (json_value (JObj ?fs)) with (all_distinct (map fst fs) && forallb (fun kv => json_value kv.2) fs).
  cbn [map fst snd forallb]. assert (json_value (JNum (NInt e)) = true) as -> by (by destruct He as [-> | ->]).
  assert (json_value (JNum (NInt h)) = true) as -> by (cbn [json_value]; by rewrite Hs).
  destruct a as [fs|]; [rewrite Ha|]; destruct sh; reflexivity.
Qed.

Lemma nesting_state s d : match active_bundle s with Some fs => nesting (JObj fs) <= d | None => True end -> nesting (state_js s) <= S d.
Proof.
  intros Ha. unfold state_js. apply nesting_obj_le. destruct s as [e h sh [fs|]]; cbn [active_bundle] in Ha; destruct sh;
    repeat (apply Forall_cons; split; [cbn [snd minimum_format_epoch highest_sequence statement_hash active_bundle]; first [lia|cbn; lia]|]);
    constructor.
Qed.

End Kept.

(** ** Lemmas: applying a bundle *)

Section Applied.
Context `{HParse : DateParse} `{HKeys : KeyObjects} `{HSha : Sha256} `{HN : NumberText}.

(** The limit on what is written is not above the limit on what is read. *)
Definition limited (options : jsval) : Prop :=
  forall n, safe_integer (nullish (get options "maxBytes") (JNum (NInt CONTROL_BUNDLE_MAX_BYTES))) = Some n ->
  (n <= CONTROL_BUNDLE_MAX_BYTES)%Z.

Lemma atomicWriteJson_inv l w v options r ws :
  atomicWriteJson l w v options = (r, ws) ->
  ws = [] /\ (exists e, r = Throw e) \/
  r = Ok tt /\ assertStatePath l = Ok tt /\ ws = [w (canonicalJson v +:+ String "010" "")] /\
    (limited options -> (byteLength (canonicalJson v +:+ String "010" "") <= CONTROL_BUNDLE_MAX_BYTES)%Z).
Proof.
  unfold atomicWriteJson. intros [(e & [? ->]%lift_inv & ->)|([] & w1 & ws' & [Hl ->]%lift_inv & H & ->)]%obind_inv; [eauto|].
  apply obind_inv in H as [(e & [? ->]%lift_inv & ->)|(text & w2 & ws2 & [Ht ->]%lift_inv & H & ->)]; [eauto|].
  apply obind_inv in H as [(e & [? ->]%lift_inv & ->)|(n & w3 & ws3 & [Hn ->]%lift_inv & H & ->)]; [eauto|].
  assert (text = canonicalJson v) as ->.
  { unfold canonicalJsonSafe in Ht. destruct (canonicalValue v) as [t|] eqn:E; [|done]. injection Ht as ->. by apply canonicalValue_text. }
  destruct (Z.ltb_spec n (byteLength (canonicalJson v +:+ String "010" ""))) as [|Hle].
  - apply lift_inv in H as [-> ->]. left. unfold fail. eauto.
  - injection H as <- <-. right. split_and!; [done..|]. intros Hlim. symmetry in Hn. apply of_option_ok in Hn.
    specialize (Hlim _ Hn). simpl app. lia.
Qed.

(** What a load finds. *)
Definition head_state (d : Disk) : result bundle_exn State :=
  match existing (head_file d) with
  | None => Ok createControlBundleState
  | Some n => parsed ← readStrictJsonFile (head_file d) n CONTROL_BUNDLE_MAX_BYTES; validateControlBundleState parsed
  end.

Definition epoch_ok (e : Z) : Prop := e = 1%Z \/ e = 2%Z.

Lemma validated_epoch v s : validateControlBundleState v = Ok s -> epoch_ok (minimum_format_epoch s).
Proof. unfold validateControlBundleState. intros H. run_steps H. injection H as <-. cbn. by guards. Qed.

Lemma marker_epoch l m : loadMinimumFormatEpoch l = Ok m -> epoch_ok m.
Proof.
  unfold loadMinimumFormatEpoch. intros H. run_steps H. destruct (existing l) as [n|]; [|injection H as <-; by left].
  run_steps H. unfold epoch_ok. repeat case_match; simplify_eq; auto.
Qed.

Lemma load_ok d s :
  loadControlBundleState d = Ok s ->
  exists s0 m, assertStatePath (head_file d) = Ok tt /\ head_state d = Ok s0 /\ epoch_ok (minimum_format_epoch s0) /\
    loadMinimumFormatEpoch (marker_file d) = Ok m /\ epoch_ok m /\ s = raise_epoch m s0.
Proof.
  unfold loadControlBundleState. intros ([] & Ha & (s0 & Hs & (m & Hm & [= <-])%bind_ok)%bind_ok)%bind_ok.
  exists s0, m. split_and!; try done; [|by eapply marker_epoch].
  destruct (existing (head_file d)) as [n|]; [|injection Hs as <-; by left].
  apply bind_ok in Hs as (p & _ & Hs). by eapply validated_epoch.
Qed.

Lemma load_of d s0 m :
  assertStatePath (head_file d) = Ok tt -> head_state d = Ok s0 -> loadMinimumFormatEpoch (marker_file d) = Ok m ->
  loadControlBundleState d = Ok (raise_epoch m s0).
Proof. unfold loadControlBundleState, head_state. intros -> Hs Hm. cbn [mbind result_bind]. by rewrite Hs; cbn [mbind result_bind]; rewrite Hm. Qed.

Lemma raise_twice m s : epoch_ok m -> epoch_ok (minimum_format_epoch s) -> raise_epoch 2 (raise_epoch m s) = raise_epoch 2 s.
Proof.
  destruct s as [e h sh [fs|]]; unfold epoch_ok, raise_epoch; cbn [minimum_format_epoch highest_sequence statement_hash active_bundle];
    intros [-> | ->] [-> | ->]; try done; destruct (is_int (get (JObj fs) "format_epoch") FORMAT_EPOCH) eqn:E;
    change (2 `max` 2)%Z with 2%Z; change (1 `max` 2)%Z with 2%Z; change (2 `max` 1)%Z with 2%Z; change (1 `max` 1)%Z with 1%Z;
    change (2 `max` 2)%Z with 2%Z; change (1 `max` 2)%Z with 2%Z;
    change (FORMAT_EPOCH <=? 2)%Z with true; change (FORMAT_EPOCH <=? 1)%Z with false; cbv iota; rewrite ?E; done.
Qed.

(** The marker alone. *)
Lemma load_marker d s :
  loadControlBundleState d = Ok s -> assertStatePath (marker_file d) = Ok tt ->
  loadControlBundleState (apply_write (PutMarker (canonicalJson (marker_js FORMAT_EPOCH) +:+ String "010" "")) d) =
    Ok (raise_epoch 2 s).
Proof.
  intros (s0 & m & Ha & Hs & He & Hm & Hme & ->)%load_ok Hp. rewrite raise_twice by done.
  apply load_of; [done|done|]. cbn [apply_write marker_file].
  destruct (read_written (marker_file d) [("minimum_format_epoch", JNum (NInt 2))] MARKER_MAX_BYTES) as (n & En & Er & Ea);
    [done|done|by apply Nat.leb_le|by vm_compute|].
  unfold loadMinimumFormatEpoch. change (marker_js FORMAT_EPOCH) with (JObj [("minimum_format_epoch", JNum (NInt 2))]).
  rewrite Ea. cbn [mbind result_bind]. rewrite En, Er. reflexivity.
Qed.

(** A head that was saved. *)
Lemma load_head d s s1 :
  loadControlBundleState d = Ok s -> validateControlBundleState (state_js s1) = Ok s1 -> kept s1 ->
  match active_bundle s1 with Some fs => json_value (JObj fs) = true /\ nesting (JObj fs) <= 4 | None => True end ->
  (byteLength (canonicalJson (state_js s1) +:+ String "010" "") <= CONTROL_BUNDLE_MAX_BYTES)%Z ->
  exists m, loadMinimumFormatEpoch (marker_file d) = Ok m /\ (m <= minimum_format_epoch s)%Z /\
  loadControlBundleState (apply_write (PutHead (canonicalJson (state_js s1) +:+ String "010" "")) d) = Ok (raise_epoch m (sorted s1)).
Proof.
  intros (s0 & m & Ha & Hs & He & Hm & Hme & ->)%load_ok Hv Hk Hj Hb. exists m. split; [done|]. split; [cbn; lia|].
  destruct (read_written (head_file d) (fields_of (state_js s1)) CONTROL_BUNDLE_MAX_BYTES) as (n & En & Er & Ea); [done| | |done|].
  - apply (json_state s1); [done|]. destruct (active_bundle s1); [by destruct Hj|done].
  - apply (nesting_state s1 31). destruct (active_bundle s1); [destruct Hj; lia|done].
  - apply load_of; [done| |done]. unfold head_state. cbn [apply_write head_file].
    change (JObj (fields_of (state_js s1))) with (state_js s1) in *. rewrite En, Er. cbn [mbind result_bind]. by apply sorted_ok.
Qed.

(** A state that a later one may replace. *)
Definition rolls_forward (s s' : State) : Prop :=
  (minimum_format_epoch s <= minimum_format_epoch s')%Z /\
  (highest_sequence s < highest_sequence s' \/
   highest_sequence s = highest_sequence s' /\ (statement_hash s = None \/ statement_hash s' = statement_hash s))%Z.

#[local] Instance rolls_forward_preorder : PreOrder rolls_forward.
Proof.
  split.
  - intros s. split; [lia|auto].
  - intros s1 s2 s3 [He1 H1] [He2 H2]. split; [lia|]. destruct H1 as [|[E1 H1]]; [left; destruct H2 as [|[? _]]; lia|].
    destruct H2 as [|[E2 H2]]; [left; lia|]. right. split; [lia|]. destruct H1 as [|H1]; [by left|]. rewrite H1 in H2.
    destruct H2 as [|H2]; [by left|by right].
Qed.

Lemma raise_forward m s : rolls_forward s (raise_epoch m s).
Proof. split; [cbn; lia|by right; split; [|right]]. Qed.

Lemma saved d s options r ws :
  saveControlBundleState d s options = (r, ws) ->
  ws = [] /\ (exists e, r = Throw e) \/
  r = Ok s /\ validateControlBundleState (state_js s) = Ok s /\ ws = [PutHead (canonicalJson (state_js s) +:+ String "010" "")] /\
    (limited options -> (byteLength (canonicalJson (state_js s) +:+ String "010" "") <= CONTROL_BUNDLE_MAX_BYTES)%Z).
Proof.
  unfold saveControlBundleState. intros [(e & [? ->]%lift_inv & ->)|([] & w1 & ws1 & [_ ->]%lift_inv & H & ->)]%obind_inv; [eauto|].
  apply obind_inv in H as [(e & [? ->]%lift_inv & ->)|(n & w2 & ws2 & [Hn ->]%lift_inv & H & ->)]; [eauto|].
  symmetry in Hn. pose proof (state_js_ok _ _ Hn) as (-> & _).
  apply obind_inv in H as [(e & H & ->)|([] & w3 & ws3 & H & [-> ->]%lift_inv & ->)].
  - apply atomicWriteJson_inv in H as [[-> _]|[? _]]; [left; eauto|done].
  - apply atomicWriteJson_inv in H as [[_ [? ?]]|(_ & _ & -> & Hlim)]; [done|]. right. by rewrite app_nil_r.
Qed.

Lemma persisted d options r ws :
  persistMinimumFormatEpoch d options = (r, ws) ->
  ws = [] \/ assertStatePath (marker_file d) = Ok tt /\ r = Ok tt /\
    ws = [PutMarker (canonicalJson (marker_js FORMAT_EPOCH) +:+ String "010" "")].
Proof.
  unfold persistMinimumFormatEpoch. intros [(e & [? ->]%lift_inv & ->)|([] & w1 & ws1 & [Ha ->]%lift_inv & H & ->)]%obind_inv; [eauto|].
  apply obind_inv in H as [(e & [? ->]%lift_inv & ->)|(n & w2 & ws2 & [Hn ->]%lift_inv & H & ->)]; [eauto|].
  destruct (n =? FORMAT_EPOCH)%Z; [by apply lift_inv in H as [_ ->]; left|].
  apply atomicWriteJson_inv in H as [[-> _]|(-> & _ & -> & _)]; [by left|right]. done.
Qed.

(** The new head of a bundle of the first format. *)
Lemma legacy_ok v trust options dateNow l :
  verifyLegacyControlBundle v trust options dateNow = Ok l ->
  NoDup (map fst (legacy_bundle l)) /\ get (JObj (legacy_bundle l)) "format_epoch" = JUndefined /\
  json_value (JObj (legacy_bundle l)) = true /\ nesting (JObj (legacy_bundle l)) <= 4.
Proof.
  unfold verifyLegacyControlBundle. intros H. run_steps H. match goal with p : (string * string)%type |- _ => destruct p end.
  run_steps H. injection H as <-. cbn [legacy_bundle app]. split_and!.
  - apply (bool_decide_eq_true_1 (NoDup _)). vm_compute. reflexivity.
  - reflexivity.
  - cbn [json_value map fst snd forallb].
    match goal with H : safe_integer (get v "sequence") = Some _ |- _ => apply safe_integer_int in H; rewrite H end.
    rewrite json_strings. reflexivity.
  - apply nesting_obj_le. match goal with |- context [strings_js ?l] => pose proof (nesting_strings l) end.
    repeat (apply Forall_cons; split; [cbn [snd]; first [lia | cbn; lia]|]). constructor.
Qed.

(** The head that a bundle replaces [s] with. *)
Record replaces (s next : State) (fs : list (string * jsval)) : Prop := mkReplaces {
  r_active : active_bundle next = Some fs;
  r_forward : rolls_forward s next;
  r_kept : kept next;
  r_json : json_value (JObj fs) = true;
  r_nesting : nesting (JObj fs) <= 4;
  r_epoch : (minimum_format_epoch next = 2 /\ is_int (get (JObj fs) "format_epoch") FORMAT_EPOCH = true \/
             minimum_format_epoch next = 1 /\ minimum_format_epoch s = 1)%Z
}.

Lemma epoch_loaded d s : loadControlBundleState d = Ok s -> epoch_ok (minimum_format_epoch s).
Proof. intros (s0 & m & _ & _ & He & _ & Hm & ->)%load_ok. unfold epoch_ok in *. cbn. lia. Qed.

(** After the head is written. *)
Lemma head_written d s next fs :
  loadControlBundleState d = Ok s -> validateControlBundleState (state_js next) = Ok next -> replaces s next fs ->
  (byteLength (canonicalJson (state_js next) +:+ String "010" "") <= CONTROL_BUNDLE_MAX_BYTES)%Z ->
  exists s', loadControlBundleState (apply_write (PutHead (canonicalJson (state_js next) +:+ String "010" "")) d) = Ok s' /\
    rolls_forward s s' /\ active_bundle s' = Some (fields_of (normal (JObj fs))).
Proof.
  intros Hl Hv [] Hb. destruct (load_head d s next Hl Hv r_kept0) as (m & Hm & Hle & Hload); [by rewrite r_active0|done|].
  exists (raise_epoch m (sorted next)). split; [done|]. split.
  - transitivity next; [done|]. exact (raise_forward m (sorted next)).
  - unfold raise_epoch, sorted. cbn [minimum_format_epoch active_bundle]. rewrite r_active0. cbn [option_map].
    pose proof (epoch_loaded _ _ Hl) as He. destruct (Z.leb_spec FORMAT_EPOCH (minimum_format_epoch next `max` m)) as [Hge|]; [|done].
    destruct r_epoch0 as [[_ Hi]|[E1 E2]]; [|unfold FORMAT_EPOCH in Hge; lia].
    rewrite <- (normal_object fs). assert (NoDup (map fst fs)) as Hd by (unfold kept in r_kept0; rewrite r_active0 in r_kept0; apply r_kept0).
    rewrite get_normal by done. destruct (get (JObj fs) "format_epoch") as [| | |n| | | | | |]; try done. cbn [normal]. by rewrite Hi.
Qed.

(** What an application does to the files: it may raise the marker, and may
    then replace the head. *)
Inductive trail (s : State) : list Write -> result bundle_exn (list (string * jsval)) -> Disk -> Prop :=
| trail_none e d : trail s [] (Throw e) d
| trail_marker e d :
    assertStatePath (marker_file d) = Ok tt ->
    trail s [PutMarker (canonicalJson (marker_js FORMAT_EPOCH) +:+ String "010" "")] (Throw e) d
| trail_head wm next fs d :
    wm = [] \/ assertStatePath (marker_file d) = Ok tt /\
      wm = [PutMarker (canonicalJson (marker_js FORMAT_EPOCH) +:+ String "010" "")] /\ minimum_format_epoch next = 2%Z ->
    validateControlBundleState (state_js next) = Ok next -> replaces s next fs ->
    (byteLength (canonicalJson (state_js next) +:+ String "010" "") <= CONTROL_BUNDLE_MAX_BYTES)%Z ->
    trail s (wm ++ [PutHead (canonicalJson (state_js next) +:+ String "010" "")]) (Ok fs) d.

(** The new head of a verified bundle. *)
Lemma verified_replaces v trust options audience clock s b sig st :
  verify_body v trust options (allow_offline options) audience (state_js s) clock = Ok ((b, sig), st) ->
  epoch_ok (minimum_format_epoch s) ->
  exists h, controlBundleStatementHash (JObj (signed_fields b sig)) = Ok h /\
    replaces s (mkState FORMAT_EPOCH (sequence b) (Some h) (Some (signed_fields b sig))) (signed_fields b sig).
Proof.
  intros (now & key & bytes & _ & Hv & _ & _ & _ & _ & _ & _ & He)%verify_body_ok Hs.
  apply enforceHead_state in He as (h & Hh & Hc & _). pose proof (accepted_settled _ _ _ _ _ _ _ Hv Hh) as Hb.
  exists h. split; [by eapply hash_stored; [apply stored_signed|..]|]. constructor; cbn [active_bundle minimum_format_epoch].
  - done.
  - split; [cbn [minimum_format_epoch]; unfold epoch_ok, FORMAT_EPOCH in *; lia|]. cbn [highest_sequence statement_hash].
    apply check_head_ok in Hc as [|[-> ->]]; [by left|by right; split; [|right]].
  - split; [apply signed_keys|right]. eauto.
  - by apply json_signed.
  - apply nesting_signed.
  - left. done.
Qed.

Lemma legacy_replaces v trust options dateNow l s :
  verifyLegacyControlBundle v trust options dateNow = Ok l -> enforceLegacyHead l s = Ok tt ->
  minimum_format_epoch s = 1%Z ->
  replaces s (mkState (minimum_format_epoch s) (legacy_sequence l) (Some (legacy_hash l)) (Some (legacy_bundle l))) (legacy_bundle l).
Proof.
  intros (Hd & Hf & Hj & Hn)%legacy_ok He Hs. constructor; cbn [active_bundle minimum_format_epoch]; try done; [|split; auto|by right].
  unfold enforceLegacyHead in He. run_steps He. guards. split; [done|]. cbn [highest_sequence statement_hash].
  destruct (Z.eq_dec (legacy_sequence l) (highest_sequence s)) as [Heq|]; [|left; lia]. right. split; [done|].
  destruct (statement_hash s) as [h|]; [right|by left]. rewrite Heq, Z.eqb_refl in *. cbn [andb] in *. guards. congruence.
Qed.

Lemma apply_trail bundle trust options dateNow d s r ws :
  loadControlBundleState d = Ok s -> limited options -> applyControlBundle bundle trust options dateNow d = (r, ws) ->
  trail s ws r d.
Proof.
  intros Hl Hlim. unfold applyControlBundle. rewrite Hl. pose proof (epoch_loaded _ _ Hl) as He.
  intros [(e & [? ->]%lift_inv & ->)|(s' & w1 & ws1 & [[= ->] ->]%lift_inv & H & ->)]%obind_inv; [constructor|].
  destruct (negb _).
  - destruct (negb _); [apply lift_inv in H as [-> ->]; constructor|].
    destruct (Z.leb_spec FORMAT_EPOCH (minimum_format_epoch s)) as [|Hlt]; [apply lift_inv in H as [-> ->]; constructor|].
    apply obind_inv in H as [(e & [? ->]%lift_inv & ->)|(l & w2 & ws2 & [Hv ->]%lift_inv & H & ->)]; [constructor|].
    apply obind_inv in H as [(e & [? ->]%lift_inv & ->)|([] & w3 & ws3 & [Hh ->]%lift_inv & H & ->)]; [constructor|].
    assert (minimum_format_epoch s = 1)%Z as E1 by (destruct He as [|E]; [done|unfold FORMAT_EPOCH in Hlt; lia]).
    apply obind_inv in H as [(e & H & ->)|(st & w4 & ws4 & H & [-> ->]%lift_inv & ->)].
    + apply saved in H as [[-> _]|[? _]]; [constructor|done].
    + apply saved in H as [[_ [? ?]]|(_ & Hok & -> & Hb)]; [done|]. rewrite app_nil_r.
      apply (trail_head s []); [by left|done|by eapply legacy_replaces|by apply Hb].
  - apply obind_inv in H as [(e & [? ->]%lift_inv & ->)|([[b sig] st] & w2 & ws2 & [Hv ->]%lift_inv & H & ->)]; [constructor|].
    destruct (verified_replaces _ _ _ _ _ _ _ _ _ (eq_sym Hv) He) as (h & Hh & Hr).
    apply obind_inv in H as [(e & [? ->]%lift_inv & ->)|(h' & w3 & ws3 & [Hh' ->]%lift_inv & H & ->)]; [constructor|].
    rewrite Hh in Hh'. injection Hh' as ->.
    apply obind_inv in H as [(e & H & ->)|([] & w4 & ws4 & Hm & H & ->)].
    + apply persisted in H as [->|(_ & ? & _)]; [constructor|done].
    + apply obind_inv in H as [(e & H & ->)|(st' & w5 & ws5 & H & [-> ->]%lift_inv & ->)].
      * apply saved in H as [[-> _]|[? _]]; [|done]. rewrite app_nil_r.
        apply persisted in Hm as [->|(Ha & _ & ->)]; by constructor.
      * apply saved in H as [[_ [? ?]]|(_ & Hok & -> & Hb)]; [done|]. rewrite app_nil_r.
        apply persisted in Hm as [->|(Ha & _ & ->)]; apply trail_head; auto 6.
Qed.

(** The files after some of the writes of an application. *)
Lemma trail_loads s ws r d k :
  loadControlBundleState d = Ok s -> trail s ws r d ->
  exists s', loadControlBundleState (apply (take k ws) d) = Ok s' /\ rolls_forward s s' /\
    ((s' = s \/ s' = raise_epoch 2 s) /\ (k < length ws \/ exists e, r = Throw e) \/
     length ws <= k /\ exists fs, r = Ok fs /\ active_bundle s' = Some (fields_of (normal (JObj fs)))).
Proof.
  intros Hl Ht. destruct Ht as [e d|e d Ha|wm next fs d Hm Hv Hr Hb].
  - rewrite take_nil. exists s. split_and!; [done|done|left]. eauto.
  - destruct k as [|k]; cbn [take apply fold_left].
    + exists s. split_and!; [done|done|left]. eauto.
    + rewrite take_nil. exists (raise_epoch 2 s). split_and!; [by apply load_marker|apply raise_forward|left]. eauto.
  - destruct Hm as [->|(Ha & -> & Hep)]; (destruct k as [|k]; [exists s; split_and!; [done|done|left; split; [by left|left; cbn; lia]]|]).
    + cbn [app take apply fold_left]. rewrite take_nil.
      destruct (head_written _ _ _ _ Hl Hv Hr Hb) as (s' & Hl' & Hf & Hact). exists s'. split_and!; [done|done|right].
      split; [cbn; lia|eauto].
    + pose proof (load_marker _ _ Hl Ha) as Hl1. destruct k as [|k].
      * exists (raise_epoch 2 s). split_and!; [done|apply raise_forward|left; split; [by right|left; cbn; lia]].
      * cbn [app take apply fold_left]. rewrite take_nil.
        assert (replaces (raise_epoch 2 s) next fs) as Hr2.
        { destruct Hr. constructor; try done; [|destruct r_epoch0 as [?|[? _]]; [by left|congruence]].
          destruct r_forward0 as [He Hh]. split; [cbn; pose proof (epoch_loaded _ _ Hl) as Hes; unfold epoch_ok in Hes; lia|done]. }
        destruct (head_written _ _ _ _ Hl1 Hv Hr2 Hb) as (s' & Hl' & Hf & Hact). exists s'. split_and!; [done| |right].
        -- transitivity (raise_epoch 2 s); [apply raise_forward|done].
        -- split; [cbn; lia|eauto].
Qed.

(** [applyControlBundle] is atomic.  If the process stops after any number
    of its writes, the files load, and give the state before (perhaps with the
    marker raised) or, when all were made and the bundle was returned, a state
    whose active bundle is that bundle; in every case the head has not moved
    backwards. *)
Theorem bundle_crash_atomic bundle trust options dateNow d s r ws k :
  loadControlBundleState d = Ok s -> limited options ->
  applyControlBundle bundle trust options dateNow d = (r, ws) ->
  exists s', loadControlBundleState (apply (take k ws) d) = Ok s' /\ rolls_forward s s' /\
    ((s' = s \/ s' = raise_epoch 2 s) /\ (k < length ws \/ exists e, r = Throw e) \/
     length ws <= k /\ exists fs, r = Ok fs /\ active_bundle s' = Some (fields_of (normal (JObj fs)))).
Proof. intros Hl Hlim H. eapply trail_loads; [done|]. by eapply apply_trail. Qed.

(** Applications of any bundles, each stopped after some of its writes. *)
Inductive step (d : Disk) : Disk -> Prop :=
| step_apply bundle trust options dateNow r ws k :
    limited options -> applyControlBundle bundle trust options dateNow d = (r, ws) -> step d (apply (take k ws) d).

(** The marker says that only the second format is accepted. *)
Definition marked (d : Disk) : Prop := loadMinimumFormatEpoch (marker_file d) = Ok 2%Z.

Definition second_format (bundle : jsval) : bool := is_int (get bundle "format_epoch") FORMAT_EPOCH.

Lemma put_marker d :
  assertStatePath (marker_file d) = Ok tt ->
  marked (apply_write (PutMarker (canonicalJson (marker_js FORMAT_EPOCH) +:+ String "010" "")) d).
Proof.
  intros Hp. destruct (read_written (marker_file d) [("minimum_format_epoch", JNum (NInt 2))] MARKER_MAX_BYTES) as (n & En & Er & Ea);
    [done|done|by apply Nat.leb_le|by vm_compute|].
  unfold marked, loadMinimumFormatEpoch. cbn [apply_write marker_file].
  change (marker_js FORMAT_EPOCH) with (JObj [("minimum_format_epoch", JNum (NInt 2))]).
  rewrite Ea. cbn [mbind result_bind]. rewrite En, Er. reflexivity.
Qed.

Lemma marked_path d : marked d -> assertStatePath (marker_file d) = Ok tt.
Proof. unfold marked, loadMinimumFormatEpoch. by intros ([] & H & _)%bind_ok. Qed.

(** A bundle of the second format that was accepted left the marker. *)
Lemma accepted_marks bundle trust options dateNow d fs ws :
  second_format bundle = true -> applyControlBundle bundle trust options dateNow d = (Ok fs, ws) -> marked (apply ws d).
Proof.
  unfold second_format. intros Hf. unfold applyControlBundle. rewrite Hf. cbn [negb].
  intros [(e & _ & [=])|(s & w1 & ws1 & [_ ->]%lift_inv & H & ->)]%obind_inv.
  apply obind_inv in H as [(e & _ & [=])|([[b sig] st] & w2 & ws2 & [_ ->]%lift_inv & H & ->)].
  apply obind_inv in H as [(e & _ & [=])|(h & w3 & ws3 & [_ ->]%lift_inv & H & ->)].
  apply obind_inv in H as [(e & _ & [=])|([] & w4 & ws4 & Hm & H & ->)].
  apply obind_inv in H as [(e & _ & [=])|(st' & w5 & ws5 & H & [_ ->]%lift_inv & ->)].
  apply saved in H as [[_ [? ?]]|(_ & _ & -> & _)]; [done|]. rewrite app_nil_r. cbn [app].
  assert (forall d' text, marked d' -> marked (apply_write (PutHead text) d')) as Hhead by done.
  revert Hm. unfold persistMinimumFormatEpoch. intros [(e & _ & [=])|([] & w6 & ws6 & [Ha ->]%lift_inv & H & ->)]%obind_inv.
  apply obind_inv in H as [(e & _ & [=])|(n & w7 & ws7 & [Hn ->]%lift_inv & H & ->)]. symmetry in Ha, Hn.
  destruct (Z.eqb_spec n FORMAT_EPOCH) as [->|_].
  - apply lift_inv in H as [_ ->]. by apply (Hhead d).
  - apply atomicWriteJson_inv in H as [[_ [? ?]]|(_ & _ & -> & _)]; [done|]. cbn [app apply fold_left]. apply Hhead. by apply put_marker.
Qed.

Lemma step_marked d d' : marked d -> step d d' -> marked d'.
Proof.
  intros Hm [bundle trust options now r ws k Hlim Ha]. destruct (loadControlBundleState d) as [s|e] eqn:El.
  2: { unfold applyControlBundle in Ha. rewrite El in Ha. apply obind_inv in Ha as [(? & [_ ->]%lift_inv & _)|(? & ? & ? & [[=] _]%lift_inv & _)].
       by rewrite take_nil. }
  pose proof (marked_path _ Hm) as Hp.
  destruct (apply_trail _ _ _ _ _ _ _ _ El Hlim Ha) as [e d|e d _|wm next fs d [->|(_ & -> & _)] _ _ _]; [by rewrite take_nil|..].
  - destruct k; [done|]. cbn [take apply fold_left]. rewrite take_nil. by apply put_marker.
  - destruct k; [done|]. cbn [app take apply fold_left]. by rewrite take_nil.
  - destruct k as [|[|k]]; [done|by apply put_marker|]. cbn [app take apply fold_left]. rewrite take_nil.
    exact (put_marker d Hp).
Qed.

(** Behind the marker a bundle of the first format is refused, whatever the
    head. *)
Lemma marked_refuses head d bundle trust options dateNow :
  marked d -> second_format bundle = false ->
  exists e, applyControlBundle bundle trust options dateNow (mkDisk head (marker_file d)) = (Throw e, []).
Proof.
  intros Hm Hf. unfold second_format in Hf. unfold applyControlBundle. rewrite Hf. cbn [negb].
  destruct (loadControlBundleState (mkDisk head (marker_file d))) as [s|e] eqn:El; [|by eexists]. cbn [lift obind].
  destruct (negb _); [by eexists|]. apply load_ok in El as (s0 & m & _ & _ & He & Hm' & _ & ->). cbn [marker_file] in Hm'.
  rewrite Hm in Hm'. injection Hm' as <-.
  assert ((FORMAT_EPOCH <=? minimum_format_epoch (raise_epoch 2 s0))%Z = true) as -> by (apply Z.leb_le; cbn; unfold FORMAT_EPOCH; lia).
  by eexists.
Qed.

(** C16: a device's head never rolls back.  Through any applications of any
    bundles, complete or cut short, by options that do not raise the limit on
    what is written above the limit on what is read, the files keep loading,
    the highest sequence never decreases, and the hash accepted for a sequence
    never changes.  And once a bundle of the second format was accepted, then
    after any such applications a bundle of the first is refused without a
    write, even when the file of the head is replaced by any other. *)
Theorem heads_never_roll_back d0 s0 :
  loadControlBundleState d0 = Ok s0 ->
  (forall d, reach (eq d0) step d -> exists s, loadControlBundleState d = Ok s /\ rolls_forward s0 s) /\
  (forall bundle trust options dateNow fs ws d,
     second_format bundle = true -> applyControlBundle bundle trust options dateNow d0 = (Ok fs, ws) ->
     reach (eq (apply ws d0)) step d ->
     forall head bundle' trust' options' dateNow', second_format bundle' = false ->
       exists e, applyControlBundle bundle' trust' options' dateNow' (mkDisk head (marker_file d)) = (Throw e, [])).
Proof.
  intros H0. split.
  - apply reach_invariant; [intros d <-; by eexists|]. intros d d' _ (s & Hl & Hf) [bundle trust options now r ws k Hlim Ha].
    destruct (trail_loads _ _ _ _ k Hl (apply_trail _ _ _ _ _ _ _ _ Hl Hlim Ha)) as (s' & Hl' & Hf' & _).
    exists s'. split; [done|]. by transitivity s.
  - intros bundle trust options now fs ws d Hb Ha Hr head bundle' trust' options' now' Hb'. apply marked_refuses; [|done].
    revert d Hr. apply reach_invariant; [intros d <-; by eapply accepted_marks|]. intros d d' _. apply step_marked.
Qed.
End Applied.

(** ** Witnesses *)

Module HeadSample.
Import ControlBundle.Sample.
#[local] Existing Instance iso_date_parse.
#[local] Existing Instance toy_sha256.
#[local] Existing Instance integer_text.
#[local] Existing Instances Capability.Sample.key_objects Capability.Sample.signing_keys.

(** Fresh files; the first bundle applied; the second cut short. *)
Definition fresh : Disk := mkDisk (mkLocation true false None) (mkLocation true false None).
Definition applied (b : jsval) (d : Disk) : result bundle_exn (list (string * jsval)) * list Write :=
  applyControlBundle b trust options time d.
Definition first : Disk := apply (applied (bundle 1 []) fresh).2 fresh.
Definition second : Disk := apply (take 1 (applied (bundle 2 [agent]) first).2) first.
Definition state (d : Disk) : State := match loadControlBundleState d with Ok s => s | Throw _ => createControlBundleState end.
End HeadSample.

Lemma sample_sequences :
  highest_sequence (HeadSample.state HeadSample.first) = 1%Z /\ highest_sequence (HeadSample.state HeadSample.second) = 2%Z.
Proof. vm_compute. done. Qed.

Lemma sample_limited : limited ControlBundle.Sample.options.
Proof. intros n H. injection H as <-. done. Qed.

Lemma sample_fresh : @loadControlBundleState iso_date_parse toy_sha256 integer_text HeadSample.fresh = Ok createControlBundleState.
Proof. reflexivity. Qed.

Lemma sample_reach :
  reach (eq HeadSample.fresh) (@step iso_date_parse Capability.Sample.key_objects toy_sha256 integer_text) HeadSample.second.
Proof.
  apply (reach_step _ _ HeadSample.first).
  - apply (reach_step _ _ HeadSample.fresh); [by apply reach_init|].
    apply (@step_apply iso_date_parse Capability.Sample.key_objects toy_sha256 integer_text HeadSample.fresh (ControlBundle.Sample.bundle 1 [])
      ControlBundle.Sample.trust ControlBundle.Sample.options ControlBundle.Sample.time (HeadSample.applied (ControlBundle.Sample.bundle 1 []) HeadSample.fresh).1
      (HeadSample.applied (ControlBundle.Sample.bundle 1 []) HeadSample.fresh).2 5 sample_limited). apply surjective_pairing.
  - apply (@step_apply iso_date_parse Capability.Sample.key_objects toy_sha256 integer_text HeadSample.first (ControlBundle.Sample.bundle 2 [ControlBundle.Sample.agent])
      ControlBundle.Sample.trust ControlBundle.Sample.options ControlBundle.Sample.time (HeadSample.applied (ControlBundle.Sample.bundle 2 [ControlBundle.Sample.agent]) HeadSample.first).1
      (HeadSample.applied (ControlBundle.Sample.bundle 2 [ControlBundle.Sample.agent]) HeadSample.first).2 1 sample_limited). apply surjective_pairing.
Qed.

(** The first bundle is accepted, and the second is cut short: the sequence is
    the second's, and a bundle of the first format is refused even on the head
    of a fresh device. *)
Lemma sample_first_accepted :
  exists fs, HeadSample.applied (ControlBundle.Sample.bundle 1 []) HeadSample.fresh
    = (Ok fs, (HeadSample.applied (ControlBundle.Sample.bundle 1 []) HeadSample.fresh).2).
Proof. destruct (HeadSample.applied (ControlBundle.Sample.bundle 1 []) HeadSample.fresh) as [[fs|e] ws] eqn:E; [by exists fs|]. vm_compute in E. discriminate. Qed.

Lemma sample_reach_first :
  reach (eq HeadSample.first) (@step iso_date_parse Capability.Sample.key_objects toy_sha256 integer_text) HeadSample.second.
Proof.
  apply (reach_step _ _ HeadSample.first); [by apply reach_init|].
  apply (@step_apply iso_date_parse Capability.Sample.key_objects toy_sha256 integer_text HeadSample.first (ControlBundle.Sample.bundle 2 [ControlBundle.Sample.agent])
    ControlBundle.Sample.trust ControlBundle.Sample.options ControlBundle.Sample.time (HeadSample.applied (ControlBundle.Sample.bundle 2 [ControlBundle.Sample.agent]) HeadSample.first).1
    (HeadSample.applied (ControlBundle.Sample.bundle 2 [ControlBundle.Sample.agent]) HeadSample.first).2 1 sample_limited). apply surjective_pairing.
Qed.

Lemma heads_never_roll_back_witness :
  (exists s, @loadControlBundleState iso_date_parse toy_sha256 integer_text HeadSample.second = Ok s /\
    rolls_forward createControlBundleState s) /\
  exists e, @applyControlBundle iso_date_parse Capability.Sample.key_objects toy_sha256 integer_text JUndefined ControlBundle.Sample.trust
    (JObj [("legacyMode", JBool true)]) ControlBundle.Sample.time
    (mkDisk (head_file HeadSample.fresh) (marker_file HeadSample.second)) = (Throw e, []).
Proof.
  destruct (@heads_never_roll_back iso_date_parse Capability.Sample.key_objects toy_sha256 integer_text HeadSample.fresh
    createControlBundleState sample_fresh) as [H1 H2].
  split; [exact (H1 HeadSample.second sample_reach)|]. destruct sample_first_accepted as [fs Hfs].
  exact (H2 (ControlBundle.Sample.bundle 1 []) _ _ _ _ _ HeadSample.second eq_refl Hfs sample_reach_first _ JUndefined _ _ _ eq_refl).
Defined.

Lemma bundle_crash_atomic_witness :
  exists s', @loadControlBundleState iso_date_parse toy_sha256 integer_text
    (apply (take 1 (HeadSample.applied (ControlBundle.Sample.bundle 1 []) HeadSample.fresh).2) HeadSample.fresh) = Ok s'.
Proof.
  destruct (@bundle_crash_atomic iso_date_parse Capability.Sample.key_objects toy_sha256 integer_text (ControlBundle.Sample.bundle 1 [])
    ControlBundle.Sample.trust ControlBundle.Sample.options ControlBundle.Sample.time HeadSample.fresh createControlBundleState
    (HeadSample.applied (ControlBundle.Sample.bundle 1 []) HeadSample.fresh).1 (HeadSample.applied (ControlBundle.Sample.bundle 1 []) HeadSample.fresh).2 1
    sample_fresh sample_limited (surjective_pairing _)) as (s' & Hl & _).
  exists s'. exact Hl.
Defined.

