(* ===== verification/Identity.v ===== *)
(** * Agent identities (lib/identity.mjs)

    A request of an agent is signed with the key enrolled for it; the broker
    verifies the signature, that the request is recent, and that its nonce was
    not used.  The cache of nonces is a finite map from a nonce to the time at
    which it is forgotten.  [canonicalJson] is that of Json. *)

From stdpp Require Import base tactics sets list gmap strings.
From Stdlib Require Import Ascii.
From S2P Require Import Prelude JsValue Regex Json Objects Crypto Capability FileSystem.
Local Open Scope string_scope.
Local Open Scope js_scope.

(** ** Data *)

Inductive identity_error :=
| IdentityRequired | TimestampOutside | NonceInvalid | ReplayDetected | UnknownAgent | SignatureInvalid | CacheFull
| KeyNotRegular | KeyNotOwned | KeyPermissive
| TypeFailure | KeyFailure | OutsideModel.

#[export] Instance identity_error_eq_dec : EqDecision identity_error.
Proof. solve_decision. Defined.

Definition WINDOW_MS : Z := 60000.
Definition NONCE_MS : Z := 120000.
Definition MIN_NONCE : nat := 32.
Definition MAX_REPLAYS : Z := 10000.

(** The nonces in use, with their expiry. *)
Notation ReplayCache := (gmap string Z).

Definition purgeReplayCache (cache : ReplayCache) (now : Z) : ReplayCache :=
  filter (fun kv => (kv.2 <=? now)%Z = false) cache.

(** The request without its signature. *)
Definition unsigned (request : jsval) : jsval :=
  match request with JObj fs => JObj (delete_field "signature" fs) | v => v end.

(** [config.agents?.find((agent) => agent.id === id)] *)
Fixpoint find_agent (id : string) (agents : list jsval) : result identity_error jsval :=
  match agents with
  | [] => Throw UnknownAgent
  | agent :: agents =>
      match agent with
      | JNull | JUndefined => Throw TypeFailure
      | _ => if is_str (get agent "id") id then Ok agent else find_agent id agents
      end
  end.

Definition agents_of (config : jsval) : result identity_error (list jsval) :=
  match get config "agents" with
  | JUndefined | JNull => Ok []
  | JArr l => Ok l
  | _ => Throw TypeFailure
  end.

(** ** Verification *)

Section Verify.
Context `{HKeys : KeyObjects} `{HRead : Base64Reader}.

(** [Number.isFinite(t) && Math.abs(now - t) <= 60_000]: the difference with
    a number that is not an integer is outside of the model. *)
Definition check_time (timestamp : jsval) (now : Z) : result identity_error Z :=
  match timestamp with
  | JNum (NInt t) => throw_if (WINDOW_MS <? Z.abs (now - t))%Z with TimestampOutside ;; Ok t
  | JNum (NText _) => Throw OutsideModel
  | _ => Throw TimestampOutside
  end.

(** The checks made before the cache is purged: the agent, the signature, and
    the nonce. *)
Definition check_form (request : jsval) (now : Z) : result identity_error (string * string * string) :=
  agent ← of_option IdentityRequired (as_str (get request "agent_id"));
  signature ← of_option IdentityRequired (as_str (get request "signature"));
  _ ← check_time (get request "timestamp_ms") now;
  nonce ← of_option NonceInvalid (as_str (get request "nonce"));
  throw_if Nat.ltb (String.length nonce) MIN_NONCE with NonceInvalid ;;
  Ok (agent, signature, nonce).

(** [crypto.verify(null, Buffer.from(canonicalJson(unsigned)), key, signature)] *)
Definition check_signature (request agent : jsval) (signature : string) : result identity_error unit :=
  key ← of_option KeyFailure (import_value (get agent "public_key"));
  valid ← of_option KeyFailure (verify_with key (canonicalJson (unsigned request)) (base64_reader signature));
  throw_if negb valid with SignatureInvalid ;; Ok tt.

(** [verifyRequestIdentity]: the agent, and the cache it leaves. *)
Definition verifyRequestIdentity (request config : jsval) (cache : ReplayCache) (now : Z)
    : result identity_error jsval * ReplayCache :=
  match check_form request now with
  | Throw e => (Throw e, cache)
  | Ok (agentId, signature, nonce) =>
      let cache := purgeReplayCache cache now in
      if bool_decide (is_Some (cache !! nonce)) then (Throw ReplayDetected, cache) else
      match agents ← agents_of config; agent ← find_agent agentId agents; _ ← check_signature request agent signature; Ok agent with
      | Throw e => (Throw e, cache)
      | Ok agent =>
          if (MAX_REPLAYS <=? Z.of_nat (size cache))%Z then (Throw CacheFull, cache)
          else (Ok agent, <[nonce := (now + NONCE_MS)%Z]> cache)
      end
  end.
End Verify.

(** ** Signing *)

Section Sign.
Context `{HSign : SigningKeys}.

(** [signRequest], on the key file it finds. *)
Definition signRequest (request : jsval) (stat : option Stat) (key_text : jsval) : result identity_error jsval :=
  stat ← of_option KeyNotRegular stat;
  throw_if negb (isFile stat) || isSymbolicLink stat with KeyNotRegular ;;
  throw_if negb (owned stat) with KeyNotOwned ;;
  throw_if permissive stat with KeyPermissive ;;
  private ← of_option KeyFailure (import_private key_text);
  Ok (assign (unsigned request) "signature" (JStr (base64 (sign_with private (canonicalJson (unsigned request)))))).
End Sign.

(** ** Lemmas *)

Section Facts.
Context `{HKeys : KeyObjects} `{HRead : Base64Reader}.

Lemma as_str_some v s : as_str v = Some s -> v = JStr s.
Proof. destruct v; try done. by intros [= ->]. Qed.

Lemma find_agent_ok id agents agent : find_agent id agents = Ok agent -> agent ∈ agents /\ get agent "id" = JStr id.
Proof.
  induction agents as [|a l IH]; [done|]. cbn [find_agent].
  destruct (is_str (get a "id") id) eqn:E.
  - intros H. assert (agent = a) as -> by (by destruct a; try discriminate E; injection H). split; [left|by apply is_str_true].
  - intros H. destruct IH as [H1 H2]; [by destruct a|]. split; [by right|done].
Qed.

(** What an accepted request is: the agent is enrolled under its id, its key
    verifies the request, the request is recent, and its nonce, which was not
    in use, is from now on. *)
Definition accepted (request config agent : jsval) (cache cache' : ReplayCache) (now : Z) : Prop :=
  exists id signature nonce t key agents,
    get request "agent_id" = JStr id /\ get request "signature" = JStr signature /\ get request "nonce" = JStr nonce /\
    get request "timestamp_ms" = JNum (NInt t) /\ (Z.abs (now - t) <= WINDOW_MS)%Z /\ MIN_NONCE <= String.length nonce /\
    get config "agents" = JArr agents /\ agent ∈ agents /\ get agent "id" = JStr id /\
    import_value (get agent "public_key") = Some key /\
    verify_with key (canonicalJson (unsigned request)) (base64_reader signature) = Some true /\
    purgeReplayCache cache now !! nonce = None /\
    cache' = <[nonce := (now + NONCE_MS)%Z]> (purgeReplayCache cache now).

Lemma check_form_ok request now id signature nonce :
  check_form request now = Ok (id, signature, nonce) ->
  get request "agent_id" = JStr id /\ get request "signature" = JStr signature /\ get request "nonce" = JStr nonce /\
  exists t, get request "timestamp_ms" = JNum (NInt t) /\ (Z.abs (now - t) <= WINDOW_MS)%Z /\ MIN_NONCE <= String.length nonce.
Proof.
  unfold check_form. intros H. run_steps H. injection H as <- <- <-.
  repeat match goal with H : as_str ?v = Some _ |- _ => apply as_str_some in H end.
  match goal with H : check_time _ _ = Ok _ |- _ => rename H into Ht end. unfold check_time in Ht.
  destruct (get request "timestamp_ms") as [ | | |[t| | |]| | | | | | ]; try discriminate Ht. run_steps Ht. guards.
  split_and!; try done. exists t. split_and!; [done|lia|]. by apply Nat.ltb_ge.
Qed.

Lemma check_form_complete request now id signature nonce t :
  get request "agent_id" = JStr id -> get request "signature" = JStr signature -> get request "nonce" = JStr nonce ->
  get request "timestamp_ms" = JNum (NInt t) -> (Z.abs (now - t) <= WINDOW_MS)%Z -> MIN_NONCE <= String.length nonce ->
  check_form request now = Ok (id, signature, nonce).
Proof.
  intros Hi Hs Hn Ht Hw Hl. unfold check_form. rewrite Hi, Hs, Hn, Ht. cbn [as_str of_option mbind result_bind check_time].
  rewrite (proj2 (Z.ltb_ge _ _)) by done. cbn [mbind result_bind]. by rewrite (proj2 (Nat.ltb_ge _ _)).
Qed.

Lemma verify_accepted request config cache now agent cache' :
  verifyRequestIdentity request config cache now = (Ok agent, cache') -> accepted request config agent cache cache' now.
Proof.
  unfold verifyRequestIdentity. destruct (check_form request now) as [[[id sg] nonce]|] eqn:Ef; [|done].
  destruct (check_form_ok _ _ _ _ _ Ef) as (H1 & H2 & H3 & t & H4 & H5 & H6).
  case_bool_decide as Hn; [done|]. destruct (mbind _ _) as [a|] eqn:Ea; [|done]. destruct (Z.leb _ _); [done|]. intros [= -> <-].
  run_steps Ea. injection Ea as <-. match goal with H : agents_of _ = Ok ?l |- _ => rename H into Hl; rename l into agents end.
  match goal with H : find_agent _ _ = Ok _ |- _ => apply find_agent_ok in H as [Hin Hid] end.
  match goal with H : check_signature _ _ _ = Ok _ |- _ => rename H into Hs end. unfold check_signature in Hs. run_steps Hs. guards. subst.
  unfold agents_of in Hl. destruct (get config "agents") as [ | | | | |l| | | | ] eqn:Eg; try discriminate Hl; injection Hl as <-;
    try (by apply elem_of_nil in Hin).
  eexists id, sg, nonce, t, _, l. split_and!; try done. by apply eq_None_not_Some.
Qed.

Lemma purge_lookup cache now nonce e : purgeReplayCache cache now !! nonce = Some e <-> cache !! nonce = Some e /\ (now < e)%Z.
Proof. unfold purgeReplayCache. rewrite map_lookup_filter_Some. cbn. by rewrite Z.leb_gt. Qed.

(** A nonce in use stays in use until it expires. *)
Lemma nonce_kept request config cache now r cache' nonce e :
  verifyRequestIdentity request config cache now = (r, cache') -> cache !! nonce = Some e -> (now < e)%Z -> cache' !! nonce = Some e.
Proof.
  intros H Hn He. assert (purgeReplayCache cache now !! nonce = Some e) as Hp by (by apply purge_lookup).
  unfold verifyRequestIdentity in H. destruct (check_form request now) as [[[id sg] n]|]; [|by injection H as _ <-].
  case_bool_decide as Hd; [by injection H as _ <-|]. destruct (mbind _ _); [|by injection H as _ <-].
  destruct (Z.leb _ _); [by injection H as _ <-|]. injection H as _ <-. rewrite lookup_insert_ne; [done|].
  intros ->. apply Hd. by exists e.
Qed.

(** The cache after a sequence of requests, each at its time. *)
Definition Call : Type := jsval * jsval * Z.

Definition after_calls (cache : ReplayCache) (calls : list Call) : ReplayCache :=
  fold_left (fun cache '(request, config, now) => snd (verifyRequestIdentity request config cache now)) calls cache.

Lemma nonce_kept_calls calls cache nonce e :
  cache !! nonce = Some e -> Forall (fun c : Call => (c.2 < e)%Z) calls -> after_calls cache calls !! nonce = Some e.
Proof.
  revert cache. induction calls as [|[[request config] now] calls IH]; intros cache Hn Hc; [done|].
  apply Forall_cons in Hc as [Hnow Hc]. cbn [after_calls fold_left]. apply IH; [|done].
  destruct (verifyRequestIdentity request config cache now) as [r c] eqn:E. by apply (nonce_kept _ _ _ _ _ _ _ _ E).
Qed.

(** ** Properties *)

(** A request is accepted only for an agent enrolled under its id whose
    key verifies its canonical text without the signature, at most a minute
    away from its time, with a nonce that is not in use and is recorded. *)
Theorem identity_verified request config cache now agent cache' :
  verifyRequestIdentity request config cache now = (Ok agent, cache') -> accepted request config agent cache cache' now.
Proof. exact (verify_accepted request config cache now agent cache'). Qed.

(** C25: a request that was accepted is not accepted again, whatever other
    requests came between (the clock not going back): but for the request
    that was first accepted exactly a minute before its time and comes again
    exactly a minute after it. *)
Theorem replay_refused request config cache t1 agent cache1 calls config' t2 agent' cache2 t :
  get request "timestamp_ms" = JNum (NInt t) ->
  verifyRequestIdentity request config cache t1 = (Ok agent, cache1) ->
  Forall (fun c : Call => (c.2 <= t2)%Z) calls ->
  verifyRequestIdentity request config' (after_calls cache1 calls) t2 = (Ok agent', cache2) ->
  t1 = (t - WINDOW_MS)%Z /\ t2 = (t + WINDOW_MS)%Z.
Proof.
  intros Ht H1 Hc H2. apply verify_accepted in H1 as (_ & _ & nonce & t' & _ & _ & _ & _ & Hn & Ht' & Hw & _ & _ & _ & _ & _ & _ & _ & ->).
  apply verify_accepted in H2 as (_ & _ & nonce' & t'' & _ & _ & _ & _ & Hn' & Ht'' & Hw' & _ & _ & _ & _ & _ & _ & Hfresh & _).
  rewrite Hn in Hn'. injection Hn' as <-. rewrite Ht in Ht', Ht''. injection Ht' as <-. injection Ht'' as <-.
  unfold WINDOW_MS, NONCE_MS in *. destruct (Z.lt_ge_cases t2 (t1 + 120000)) as [Hlt|Hge]; [exfalso|lia].
  assert (after_calls (<[nonce := (t1 + 120000)%Z]> (purgeReplayCache cache t1)) calls !! nonce = Some (t1 + 120000)%Z) as Hk.
  { apply nonce_kept_calls; [apply lookup_insert_eq|]. eapply Forall_impl; [exact Hc|]. intros c. cbn. lia. }
  by rewrite (proj2 (purge_lookup _ _ _ _) (conj Hk Hlt)) in Hfresh.
Qed.
End Facts.

Section RoundTrip.
Context `{HKeys : KeyObjects} `{HRead : Base64Reader} `{HSign : SigningKeys}.

Lemma unsigned_signed request s :
  is_plain request = true -> unsigned (assign (unsigned request) "signature" s) = unsigned request.
Proof.
  intros (fs & ->)%is_plain_true. cbn [unsigned assign].
  assert ("signature" ∉ map fst (delete_field "signature" fs)) as Hn.
  { intros ((k & v) & -> & [H _]%list_elem_of_filter)%list_elem_of_fmap. cbn in H. by rewrite String.eqb_refl in H. }
  by rewrite set_field_new, delete_last by done.
Qed.

Lemma get_unsigned request k : k <> "signature" -> get (unsigned request) k = get request k.
Proof. intros Hk. destruct request; try done. cbn [unsigned get]. by rewrite delete_get. Qed.

(** A request that an agent signs is accepted, when the key enrolled for
    it verifies what its private key signs, the request has a time, a nonce
    not in use, and the cache has room. *)
Theorem signed_request_accepted request stat key_text signed private key config agents agent id nonce t cache now :
  is_plain request = true -> signRequest request (Some stat) key_text = Ok signed ->
  import_private key_text = Some private ->
  (forall text, verify_with key text (sign_with private text) = Some true) ->
  get config "agents" = JArr agents -> find_agent id agents = Ok agent -> import_value (get agent "public_key") = Some key ->
  get request "agent_id" = JStr id -> get request "nonce" = JStr nonce -> MIN_NONCE <= String.length nonce ->
  get request "timestamp_ms" = JNum (NInt t) -> (Z.abs (now - t) <= WINDOW_MS)%Z ->
  purgeReplayCache cache now !! nonce = None -> (Z.of_nat (size (purgeReplayCache cache now)) < MAX_REPLAYS)%Z ->
  verifyRequestIdentity signed config cache now = (Ok agent, <[nonce := (now + NONCE_MS)%Z]> (purgeReplayCache cache now)).
Proof.
  intros Hp Hs Hpriv Hkey Hagents Hfind Himp Hid Hnonce Hlen Ht Hw Hfresh Hroom. unfold signRequest in Hs. run_steps Hs.
  match goal with H : import_private _ = Some ?p |- _ => tryif unify p private then fail else (rewrite Hpriv in H; injection H as <-) end.
  injection Hs as <-.
  set (signature := base64 (sign_with private (canonicalJson (unsigned request)))).
  assert (is_plain (unsigned request) = true) as Hu by (by destruct request).
  assert (forall k, k <> "signature" -> get (assign (unsigned request) "signature" (JStr signature)) k = get request k) as Hg.
  { intros k Hk. rewrite get_assign, (proj2 (String.eqb_neq _ _) Hk) by done. by apply get_unsigned. }
  unfold verifyRequestIdentity. erewrite check_form_complete; cycle 1;
    [by rewrite Hg, Hid|by rewrite get_assign by done|by rewrite Hg, Hnonce|by rewrite Hg, Ht|done|done|].
  rewrite bool_decide_false by (rewrite Hfresh; by intros [? [=]]).
  unfold agents_of. rewrite Hagents. cbn [mbind result_bind]. rewrite Hfind. cbn [mbind result_bind].
  unfold check_signature. rewrite Himp. cbn [of_option mbind result_bind]. rewrite unsigned_signed by done.
  unfold signature. rewrite base64_reader_encoded, Hkey. cbn [of_option mbind result_bind negb].
  by rewrite (proj2 (Z.leb_gt _ _)).
Qed.
End RoundTrip.

(** ** Examples *)

Module Sample.
#[local] Existing Instance Capability.Sample.signing_keys.

Definition key_objects : KeyObjects := {|
  value_type := fun _ => None; object_key := fun _ => None; import_der := fun _ => None;
  import_value := fun v => if is_str v "pem" then Some Capability.Sample.issuer_key else None;
  verify_with := fun _ text bytes => Some (String.eqb bytes (Capability.Sample.sign_text text)) |}.
Definition reader : Base64Reader := {| base64_reader := base64_bytes; base64_reader_encoded := base64_bytes_base64 |}.
#[local] Existing Instances key_objects reader.

Definition nonce : string := "0123456789abcdef0123456789abcdef".
Definition agent : jsval := JObj [("id", JStr "a-1"); ("public_key", JStr "pem")].
Definition config : jsval := JObj [("agents", JArr [agent])].
Definition request : jsval :=
  JObj [("operation", JStr "ping"); ("agent_id", JStr "a-1"); ("timestamp_ms", JNum (NInt 1000000)); ("nonce", JStr nonce)].
Definition signed : jsval :=
  match signRequest request (Some (private_file 119)) (JStr "pem") with Ok r => r | Throw _ => JUndefined end.

(** The request presented with a cache at a time, and the cache it leaves. *)
Definition present (cache : ReplayCache) (now : Z) := verifyRequestIdentity signed config cache now.

Lemma accepts cache now : fst (present cache now) = Ok agent -> present cache now = (Ok agent, snd (present cache now)).
Proof. destruct (present cache now). cbn. by intros ->. Qed.
End Sample.

Lemma identity_verified_witness :
  @accepted Sample.key_objects Sample.reader Sample.signed Sample.config Sample.agent ∅ (snd (Sample.present ∅ 1000000)) 1000000.
Proof. apply (@identity_verified Sample.key_objects Sample.reader), Sample.accepts. vm_compute. reflexivity. Defined.

(** The boundary: the same request, a minute before and a minute after its
    time, is accepted twice. *)
Lemma replay_refused_witness :
  (940000 = 1000000 - WINDOW_MS /\ 1060000 = 1000000 + WINDOW_MS)%Z.
Proof.
  apply (@replay_refused Sample.key_objects Sample.reader Sample.signed Sample.config ∅ 940000 Sample.agent (snd (Sample.present ∅ 940000))
           [] Sample.config 1060000 Sample.agent (snd (Sample.present (snd (Sample.present ∅ 940000)) 1060000)));
    [reflexivity|apply Sample.accepts; vm_compute; reflexivity|constructor|apply (Sample.accepts (snd _)); vm_compute; reflexivity].
Defined.

Lemma signed_request_accepted_witness :
  @verifyRequestIdentity Sample.key_objects Sample.reader Sample.signed Sample.config ∅ 1000000 =
  (Ok Sample.agent, <["0123456789abcdef0123456789abcdef" := (1000000 + NONCE_MS)%Z]> (purgeReplayCache ∅ 1000000)).
Proof.
  apply (@signed_request_accepted Sample.key_objects Sample.reader Capability.Sample.signing_keys Sample.request (private_file 119) (JStr "pem")
           Sample.signed tt Capability.Sample.issuer_key Sample.config [Sample.agent] Sample.agent "a-1" Sample.nonce 1000000);
    [reflexivity|vm_compute; reflexivity|reflexivity| |reflexivity|reflexivity|reflexivity|reflexivity|reflexivity|vm_compute; lia|
     reflexivity|vm_compute; congruence|reflexivity|reflexivity].
  intros text. exact (f_equal Some (String.eqb_refl _)).
Defined.
