(* ===== verification/DeviceRequest.v ===== *)
(** * The text a device signs (apps/cloud-api/src/auth.mjs)

    A device signs six fields, joined by line feeds: the method, the path, the
    query, the digest of the body, the time and a nonce.  The path goes through
    the URL parser, the query is decoded, sorted and encoded again.  Texts are
    below code unit 256, but the text that percent escapes denote need not be:
    it is represented by its UTF-8 bytes. *)

From stdpp Require Import base tactics list sets strings pretty sorting.
From Stdlib Require Import Ascii.
From S2P Require Import Prelude JsValue Regex Json Crypto.
Local Open Scope string_scope.
Local Open Scope js_scope.

(** ** Errors and constants *)

Inductive auth_error :=
| InvalidHeaders | InvalidRequest | DeviceAuthFailed | DeviceDisabled | ClockSkew | ReplayDetected | ReplayCacheFull
| BodyDigestMismatch | InvalidToken | TokenRecord | OrganizationMismatch | RoleDenied
| TypeFailure | OutsideModel.

#[export] Instance auth_error_eq_dec : EqDecision auth_error.
Proof. solve_decision. Defined.

Definition id_char (c : ascii) : bool := alnum c || in_chars "._:-" c.

Definition DEVICE_ID_PATTERN : re := seqs [one alnum; upto id_char 127].
Definition NONCE_PATTERN : re := seqs [one alnum; RClass id_char 31 (Some 127)].
Definition DIGEST_PATTERN : re := times hex_lower 64.

(** ** The method *)

Definition letter (c : ascii) : bool := lower c || upper c.
Definition METHOD : re := some letter.

Definition to_upper (c : ascii) : ascii := if lower c then ascii_of_nat (code c - 32) else c.

Fixpoint map_chars (f : ascii -> ascii) (s : string) : string :=
  match s with EmptyString => "" | String c s => String (f c) (map_chars f s) end.

Definition canonicalMethod (method : jsval) : result auth_error string :=
  match method with
  | JStr m => throw_if negb (re_test METHOD m) with InvalidRequest ;; Ok (map_chars to_upper m)
  | _ => Throw InvalidRequest
  end.

(** ** The path: the URL parser *)

(** The host's URL parser: whether it accepts an authority (user, host and
    port), and whether it encodes [^] in paths, on which releases differ. *)
Class UrlParser := { authority_valid : string -> bool; encodes_caret : bool }.

(** [text.split(sep)] *)
Fixpoint split_on (sep : ascii) (s : string) : list string :=
  match s with
  | EmptyString => [""]
  | String c s =>
      if Ascii.eqb c sep then "" :: split_on sep s
      else match split_on sep s with [] => [String c ""] | part :: parts => String c part :: parts end
  end.

(** The text before the first [sep], and what comes after it, if it occurs. *)
Fixpoint cut (sep : ascii) (s : string) : string * option string :=
  match s with
  | EmptyString => ("", None)
  | String c s =>
      if Ascii.eqb c sep then ("", Some s) else let '(a, b) := cut sep s in (String c a, b)
  end.

Definition hex_upper (n : nat) : ascii := ascii_of_nat (if Nat.ltb n 10 then 48 + n else 55 + n).

(** A byte as [%XX]. *)
Definition percent (c : ascii) : string :=
  String "%" (String (hex_upper (code c / 16)) (String (hex_upper (code c mod 16)) "")).

(** Percent-encode the bytes that are not in a set. *)
Fixpoint percent_encode (keep : ascii -> bool) (bytes : string) : string :=
  match bytes with
  | EmptyString => ""
  | String c s => (if keep c then String c "" else percent c) +:+ percent_encode keep s
  end.

Section Path.
Context `{HUrl : UrlParser}.

(** The bytes outside of the path percent-encode set. *)
Definition path_char (c : ascii) : bool :=
  between "!" "~" c && negb (in_chars "#<>?`{}" c) && negb (Ascii.eqb c dquote) && negb (encodes_caret && Ascii.eqb c "^").

Definition is_single_dot (segment : string) : bool :=
  bool_decide (map_chars fold_case segment ∈ ["."; "%2e"]).
Definition is_double_dot (segment : string) : bool :=
  bool_decide (map_chars fold_case segment ∈ [".."; ".%2e"; "%2e."; "%2e%2e"]).

(** The path state: the segments so far, the last first. *)
Fixpoint parse_segments (path : list string) (segments : list string) : list string :=
  match segments with
  | [] => reverse path
  | segment :: rest =>
      let segment := percent_encode path_char (utf8 segment) in
      let last := bool_decide (rest = []) in
      let path :=
        if is_double_dot segment then if last then "" :: tail path else tail path
        else if is_single_dot segment then if last then "" :: path else path
        else segment :: path in
      parse_segments path rest
  end.

Definition serialize_path (segments : list string) : string := foldr (fun s rest => String "/" (s +:+ rest)) "" segments.

Fixpoint skip_slashes (s : string) : string :=
  match s with String c s' => if Ascii.eqb c "/" then skip_slashes s' else s | EmptyString => "" end.

(** [new URL(path, "https://agentpass.invalid").pathname] of a path that
    starts with a slash and has no backslash, query, fragment, space or control
    character; [None] when the parser fails.  After two slashes comes an
    authority, which is not part of the pathname. *)
Definition pathname (path : string) : option string :=
  match path with
  | String _ rest =>
      match rest with
      | String "/" _ =>
          let '(authority, rest) := cut "/" (skip_slashes rest) in
          if String.eqb authority "" || negb (authority_valid authority) then None
          else Some (serialize_path (parse_segments [] (split_on "/" (default "" rest))))
      | _ => Some (serialize_path (parse_segments [] (split_on "/" rest)))
      end
  | EmptyString => None
  end.

(** ** The query *)

Fixpoint map_plus (s : string) : string :=
  match s with EmptyString => "" | String c s => String (if Ascii.eqb c "+" then " "%char else c) (map_plus s) end.

Definition hex_value (c : ascii) : option nat :=
  if digit c then Some (code c - 48)
  else if between "a" "f" c then Some (code c - 87)
  else if between "A" "F" c then Some (code c - 55) else None.

(** The text in units: characters, and bytes that are escaped. *)
Inductive text_unit := Raw (c : ascii) | Esc (byte : nat).

Fixpoint units (s : string) : option (list text_unit) :=
  match s with
  | EmptyString => Some []
  | String c s' =>
      if Ascii.eqb c "%" then
        match s' with
        | String a (String b rest) =>
            match hex_value a, hex_value b with
            | Some x, Some y => option_map (cons (Esc (16 * x + y))) (units rest)
            | _, _ => None
            end
        | _ => None
        end
      else option_map (cons (Raw c)) (units s')
  end.

Definition in_range (lo hi n : nat) : bool := Nat.leb lo n && Nat.leb n hi.

(** The UTF-8 forms of two, three and four bytes. *)
Definition utf8_two (a b : nat) : bool := in_range 194 223 a && in_range 128 191 b.
Definition utf8_three (a b c : nat) : bool :=
  in_range 224 239 a && in_range (if Nat.eqb a 224 then 160 else 128) (if Nat.eqb a 237 then 159 else 191) b && in_range 128 191 c.
Definition utf8_four (a b c d : nat) : bool :=
  in_range 240 244 a && in_range (if Nat.eqb a 240 then 144 else 128) (if Nat.eqb a 244 then 143 else 191) b
    && in_range 128 191 c && in_range 128 191 d.

Definition bytes_of (l : list nat) : string := String.string_of_list_ascii (map ascii_of_nat l).

(** [decodeURIComponent], to the UTF-8 bytes of its result; [None] when it
    throws. *)
Fixpoint decode_units (l : list text_unit) : option string :=
  match l with
  | [] => Some ""
  | Raw c :: l => option_map (fun s => utf8 (String c "") +:+ s) (decode_units l)
  | Esc a :: l =>
      if Nat.ltb a 128 then option_map (fun s => bytes_of [a] +:+ s) (decode_units l)
      else
        match l with
        | Esc b :: l2 =>
            if utf8_two a b then option_map (fun s => bytes_of [a; b] +:+ s) (decode_units l2)
            else
              match l2 with
              | Esc c :: l3 =>
                  if utf8_three a b c then option_map (fun s => bytes_of [a; b; c] +:+ s) (decode_units l3)
                  else
                    match l3 with
                    | Esc d :: l4 =>
                        if utf8_four a b c d then option_map (fun s => bytes_of [a; b; c; d] +:+ s) (decode_units l4) else None
                    | _ => None
                    end
              | _ => None
              end
        | _ => None
        end
  end.

Definition decodeURIComponent (s : string) : option string := l ← units s; decode_units l.

Definition decodeQueryComponent (value : string) : result auth_error string :=
  of_option InvalidRequest (decodeURIComponent (map_plus value)).

(** [encodeURIComponent] keeps these characters; of them the code encodes
    [!'()*]. *)
Definition uri_mark (c : ascii) : bool := alnum c || in_chars "-_.!~*'()" c.
Definition query_char (c : ascii) : bool := negb (in_chars "!'()*" c).

Definition encodeQueryComponent (bytes : string) : string := percent_encode query_char (percent_encode uri_mark bytes).

(** [left < right ? -1 : 1], with the keys first. *)
Definition compareAscii (left right : string) : comparison := String.compare left right.

Definition pair_le (p q : string * string) : Prop :=
  match compareAscii p.1 q.1 with Lt => True | Eq => String.le p.2 q.2 | Gt => False end.

#[export] Instance pair_le_dec : RelDecision pair_le.
Proof. intros p q. unfold pair_le. destruct (compareAscii p.1 q.1); apply _. Defined.

(** A part of a query: the key, and what follows the first [=]. *)
Definition query_pair (part : string) : result auth_error (string * string) :=
  let '(rawKey, rawValue) := cut "=" part in
  key ← decodeQueryComponent rawKey;
  value ← decodeQueryComponent (default "" rawValue);
  Ok (encodeQueryComponent key, encodeQueryComponent value).

Definition print_pair (p : string * string) : string := p.1 +:+ String "=" p.2.

(** [/[\u0000-\u0020\u007f#]/] *)
Definition bad_query_char (c : ascii) : bool := Nat.leb (code c) 32 || Nat.eqb (code c) 127 || Ascii.eqb c "#".

Definition starts_with (c : ascii) (s : string) : bool := match s with String d _ => Ascii.eqb c d | EmptyString => false end.

Definition canonicalQuery (query : jsval) : result auth_error string :=
  match query with
  | JUndefined | JStr "" => Ok ""
  | JStr q =>
      throw_if starts_with "?" q || existsb bad_query_char (chars q) with InvalidRequest ;;
      pairs ← map_result query_pair (split_on "&" q);
      Ok (join "&" (map print_pair (merge_sort pair_le pairs)))
  | JHost _ => Throw OutsideModel
  | _ => Throw InvalidRequest
  end.

Definition bad_path_char (c : ascii) : bool := bad_query_char c || Ascii.eqb c backslash.

(** The path and the query, which the path may hold. *)
Definition split_target (path query : jsval) : result auth_error (string * jsval) :=
  match path with
  | JStr p =>
      throw_if negb (starts_with "/" p) || existsb bad_path_char (chars p) with InvalidRequest ;;
      match cut "?" p with
      | (p, Some q) => throw_if negb (is_undefined query) with InvalidRequest ;; Ok (p, JStr q)
      | (p, None) => Ok (p, query)
      end
  | _ => Throw InvalidRequest
  end.

Definition canonicalTarget (path query : jsval) : result auth_error (string * string) :=
  target ← split_target path query;
  normalizedPath ← of_option InvalidRequest (pathname target.1);
  query ← canonicalQuery target.2;
  Ok (normalizedPath, query).
End Path.

(** ** The body, the time and the nonce *)

Definition toBodyBytes (value : jsval) : result auth_error string :=
  match value with
  | JUndefined | JNull => Ok ""
  | JBytes b => Ok b
  | JStr s => Ok (utf8 s)
  | JHost _ => Throw OutsideModel
  | _ => Throw InvalidRequest
  end.

Definition body_sha256 `{Sha256} (value : jsval) : result auth_error string :=
  bytes ← toBodyBytes value; Ok (sha256 bytes).

Definition TIMESTAMP : re := RAlt (lit "0") (seqs [one (between "1" "9"); upto digit 15]).

Definition parseTimestamp (value : jsval) : result auth_error Z :=
  match value with
  | JStr s =>
      throw_if negb (re_test TIMESTAMP s) with InvalidHeaders ;;
      timestamp ← of_option InvalidHeaders (read_integer s);
      throw_if (MAX_SAFE_INTEGER <? timestamp)%Z with InvalidHeaders ;; Ok timestamp
  | _ => Throw InvalidHeaders
  end.

Definition canonicalTimestamp (value : jsval) : result auth_error string :=
  value ← match safe_integer value with Some z => Ok z | None => parseTimestamp value end;
  throw_if (value <? 0)%Z with InvalidHeaders ;; Ok (pretty value).

(** The nonce as the text that [test] and [join] convert it to. *)
Definition canonicalNonce (value : jsval) : result auth_error string :=
  text ← of_option OutsideModel (to_string value);
  throw_if negb (re_test NONCE_PATTERN text) with InvalidHeaders ;; Ok text.

(** ** The signed text *)

Section Text.
Context `{HHash : Sha256} `{HUrl : UrlParser}.

Definition request_target (request : jsval) : jsval :=
  nullish (get request "path") (nullish (get request "url") (get request "target")).

Definition request_digest (request : jsval) : result auth_error string :=
  let digest := nullish (get request "body_digest") (nullish (get request "bodyDigest")
                  (nullish (get request "content_sha256") (get request "contentDigest"))) in
  if is_undefined digest then body_sha256 (nullish (get request "body") (JBytes ""))
  else match digest with
       | JStr d => throw_if negb (re_test DIGEST_PATTERN d) with InvalidRequest ;; Ok d
       | _ => Throw InvalidRequest
       end.

Definition canonical_fields (request : jsval) : result auth_error (list string) :=
  method ← canonicalMethod (get request "method");
  target ← canonicalTarget (request_target request) (get request "query");
  digest ← request_digest request;
  timestamp ← canonicalTimestamp (nullish (get request "timestamp") (get request "timestamp_ms"));
  nonce ← canonicalNonce (get request "nonce");
  Ok [method; target.1; target.2; digest; timestamp; nonce].

Definition canonicalDeviceRequest (input pathArg queryArg digestArg timestampArg nonceArg : jsval) : result auth_error string :=
  request ← match input with
            | JHost _ => Throw OutsideModel
            | JObj _ | JArr _ | JBytes _ => Ok input
            | _ => Ok (JObj [("method", input); ("path", pathArg); ("query", queryArg); ("body_digest", digestArg);
                             ("timestamp", timestampArg); ("nonce", nonceArg)])
            end;
  fields ← canonical_fields request;
  Ok (join (String "010" "") fields).
End Text.

(** ** Lemmas: joining and splitting *)

(** Every character of a text satisfies [p]. *)
Definition clean (p : ascii -> bool) (s : string) : Prop := Forall (fun c => p c = true) (chars s).

Lemma clean_app p s t : clean p (s +:+ t) <-> clean p s /\ clean p t.
Proof. unfold clean. by rewrite chars_app, Forall_app. Qed.

Lemma clean_sub p q s : class_sub p q = true -> clean p s -> clean q s.
Proof. intros H Hp. eapply Forall_impl; [exact Hp|]. intros c. by apply class_sub_spec. Qed.

Lemma clean_matches r p s : only_chars p r = true -> re_test r s = true -> clean p s.
Proof. intros Hr H%re_test_spec. by apply (matches_only_chars p r). Qed.

Lemma clean_map f p q s : class_sub p (fun c => q (f c)) = true -> clean p s -> clean q (map_chars f s).
Proof.
  intros H. induction s as [|c s IH]; [constructor|]. intros (Hc & Hs)%Forall_cons. apply Forall_cons. split; [|by apply IH].
  by apply (class_sub_spec p (fun c => q (f c))).
Qed.

Definition not_char (c d : ascii) : bool := negb (Ascii.eqb d c).

Lemma split_app c s t : clean (not_char c) s -> split_on c (s +:+ String c t) = s :: split_on c t.
Proof.
  induction s as [|d s IH]; intros H; [change (split_on c (String c t) = "" :: split_on c t); cbn [split_on]; by rewrite Ascii.eqb_refl|].
  apply Forall_cons in H as [Hd H].
  change (split_on c (String d (s +:+ String c t)) = String d s :: split_on c t). cbn [split_on].
  apply negb_true_iff in Hd. by rewrite Hd, (IH H).
Qed.

Lemma split_clean c s : clean (not_char c) s -> split_on c s = [s].
Proof.
  induction s as [|d s IH]; intros H; [done|]. apply Forall_cons in H as [Hd H]. cbn [split_on].
  apply negb_true_iff in Hd. by rewrite Hd, (IH H).
Qed.

Lemma split_joined c l : l <> [] -> Forall (clean (not_char c)) l -> split_on c (join (String c "") l) = l.
Proof.
  induction l as [|s l IH]; [done|]. intros _ (Hs & Hl)%Forall_cons. destruct l as [|t l]; [by apply split_clean|].
  change (split_on c (s +:+ String c (join (String c "") (t :: l))) = s :: t :: l). by rewrite split_app, IH.
Qed.

Lemma join_inj c l l' :
  l <> [] -> l' <> [] -> Forall (clean (not_char c)) l -> Forall (clean (not_char c)) l' ->
  join (String c "") l = join (String c "") l' -> l = l'.
Proof. intros H1 H2 H3 H4 E. by rewrite <- (split_joined c l), E, split_joined. Qed.

Lemma join_clean p sep l : clean p sep -> Forall (clean p) l -> clean p (join sep l).
Proof.
  intros Hs. induction l as [|s l IH]; intros H; [constructor|]. apply Forall_cons in H as [H1 H2]. destruct l as [|t l]; [done|].
  change (clean p (s +:+ (sep +:+ join sep (t :: l)))). rewrite !clean_app. auto.
Qed.

Lemma cut_app c s t : clean (not_char c) s -> cut c (s +:+ String c t) = (s, Some t).
Proof.
  induction s as [|d s IH]; intros H; [change (cut c (String c t) = ("", Some t)); cbn [cut]; by rewrite Ascii.eqb_refl|].
  apply Forall_cons in H as [Hd H].
  change (cut c (String d (s +:+ String c t)) = (String d s, Some t)). cbn [cut]. apply negb_true_iff in Hd. by rewrite Hd, (IH H).
Qed.

(** ** Lemmas: percent encoding *)

Lemma code_below c : code c < 256.
Proof. apply nat_ascii_bounded. Qed.

Lemma hex_upper_value n : n < 16 -> hex_value (hex_upper n) = Some n.
Proof. intros H. do 16 (destruct n as [|n]; [reflexivity|]). lia. Qed.

Lemma hex_upper_inj n m : n < 16 -> m < 16 -> hex_upper n = hex_upper m -> n = m.
Proof. intros Hn Hm E. apply (f_equal hex_value) in E. rewrite !hex_upper_value in E by done. by injection E. Qed.

Lemma percent_inj c d s t : percent c +:+ s = percent d +:+ t -> c = d /\ s = t.
Proof.
  assert (forall a b a' b', String "%" (String a (String b "")) +:+ s = String "%" (String a' (String b' "")) +:+ t ->
    a = a' /\ b = b' /\ s = t) as H by (intros * E; injection E as E1 E2 E3; split_and!; [exact E1|exact E2|exact E3]).
  intros (Eh & El & Es)%H. clear H. split; [|done]. pose proof (code_below c). pose proof (code_below d).
  apply hex_upper_inj in Eh; [|apply Nat.Div0.div_lt_upper_bound; lia..].
  apply hex_upper_inj in El; [|apply Nat.mod_upper_bound; lia..].
  rewrite <- (ascii_nat_embedding c), <- (ascii_nat_embedding d). f_equal. fold (code c) (code d).
  rewrite (Nat.div_mod_eq (code c) 16), (Nat.div_mod_eq (code d) 16). by rewrite Eh, El.
Qed.

Lemma percent_encode_cons keep c s :
  percent_encode keep (String c s) = (if keep c then String c "" else percent c) +:+ percent_encode keep s.
Proof. done. Qed.

Lemma percent_encode_app keep s t : percent_encode keep (s +:+ t) = percent_encode keep s +:+ percent_encode keep t.
Proof.
  induction s as [|c s IH]; [done|]. change (String c s +:+ t) with (String c (s +:+ t)).
  by rewrite !percent_encode_cons, IH, string_app_assoc.
Qed.

Lemma percent_encode_inj keep s t : keep "%"%char = false -> percent_encode keep s = percent_encode keep t -> s = t.
Proof.
  intros Hp. revert t. induction s as [|c s IH]; intros [|d t] E; rewrite ?percent_encode_cons in E; [done| | |].
  - by destruct (keep d).
  - by destruct (keep c).
  - destruct (keep c) eqn:Hc, (keep d) eqn:Hd.
    + injection E as -> E. by rewrite (IH t E).
    + injection E as -> E. congruence.
    + injection E as <- E. congruence.
    + apply percent_inj in E as [-> E]. by rewrite (IH t E).
Qed.

Definition hex_up (c : ascii) : bool := digit c || between "A" "F" c.

Lemma percent_clean p c : p "%"%char = true -> class_sub hex_up p = true -> clean p (percent c).
Proof.
  intros Hp Hh. pose proof (code_below c).
  assert (forall n, n < 16 -> p (hex_upper n) = true) as Hx.
  { intros n Hn. apply (class_sub_spec hex_up); [done|]. do 16 (destruct n as [|n]; [reflexivity|]). lia. }
  repeat constructor; [done|apply Hx..]; [apply Nat.Div0.div_lt_upper_bound|apply Nat.mod_upper_bound]; lia.
Qed.

Lemma percent_encode_clean keep p s :
  class_sub keep p = true -> p "%"%char = true -> class_sub hex_up p = true -> clean p (percent_encode keep s).
Proof.
  intros Hk Hp Hh. induction s as [|c s IH]; [constructor|]. rewrite percent_encode_cons, clean_app. split; [|exact IH].
  destruct (keep c) eqn:Hc; [|by apply percent_clean]. constructor; [|constructor]. by apply (class_sub_spec keep).
Qed.

Lemma percent_encode_id keep s : clean keep s -> percent_encode keep s = s.
Proof. induction s as [|c s IH]; [done|]. intros (Hc & Hs)%Forall_cons. by rewrite percent_encode_cons, Hc, (IH Hs). Qed.

(** The characters a component of a query keeps: the unreserved ones. *)
Definition unreserved (c : ascii) : bool := alnum c || in_chars "-._~" c.

Lemma unreserved_spec c : unreserved c = uri_mark c && query_char c.
Proof.
  assert (forallb (fun c => Bool.eqb (unreserved c) (uri_mark c && query_char c)) all_ascii = true) as H by (vm_compute; reflexivity).
  rewrite forallb_elem_of in H. by apply eqb_prop, H, in_all_ascii.
Qed.

Lemma encode_unreserved s : encodeQueryComponent s = percent_encode unreserved s.
Proof.
  unfold encodeQueryComponent. induction s as [|c s IH]; [done|].
  rewrite !percent_encode_cons, percent_encode_app, IH. f_equal. rewrite unreserved_spec.
  destruct (uri_mark c) eqn:Hm; cbn [andb].
  - rewrite percent_encode_cons. by destruct (query_char c).
  - apply percent_encode_id, percent_clean; vm_compute; reflexivity.
Qed.

Lemma encode_inj s t : encodeQueryComponent s = encodeQueryComponent t -> s = t.
Proof. rewrite !encode_unreserved. by apply percent_encode_inj. Qed.

(** What an encoded component, a pair and a field may hold. *)
Definition component_char (c : ascii) : bool := unreserved c || Ascii.eqb c "%".
Definition pair_char (c : ascii) : bool := component_char c || Ascii.eqb c "=".
Definition visible (c : ascii) : bool := between "!" "~" c.

Lemma encode_clean s : clean component_char (encodeQueryComponent s).
Proof. rewrite encode_unreserved. apply percent_encode_clean; vm_compute; reflexivity. Qed.

(** ** Lemmas: the order of the pairs *)

Lemma compare_same s : String.compare s s = Eq.
Proof. pose proof (String.compare_antisym s s) as H. by destruct (String.compare s s). Qed.

Lemma pair_le_spec p q : pair_le p q <-> (p.1 <> q.1 /\ String.le p.1 q.1) \/ (p.1 = q.1 /\ String.le p.2 q.2).
Proof.
  unfold pair_le, compareAscii. destruct (String.compare p.1 q.1) eqn:E.
  - apply String.compare_eq_iff in E. naive_solver.
  - assert (p.1 <> q.1) as Hn by (intros H; rewrite H, compare_same in E; discriminate E).
    assert (String.le p.1 q.1) as Hl by (unfold String.le, String.leb; by rewrite E). naive_solver.
  - assert (p.1 <> q.1) as Hn by (intros H; rewrite H, compare_same in E; discriminate E).
    split; [done|]. intros [[_ H]|[H _]]; [|done]. unfold String.le, String.leb in H. by rewrite E in H.
Qed.

#[export] Instance pair_le_trans : Transitive pair_le.
Proof.
  intros p q r. rewrite !pair_le_spec. intros [[Hn H1]|[E H1]] [[Hm H2]|[E' H2]].
  - left. split; [|by etrans]. intros E. rewrite E in *. destruct Hn. by apply (anti_symm String.le).
  - left. by rewrite <- E'.
  - left. by rewrite E.
  - right. split; [congruence|by etrans].
Qed.

#[export] Instance pair_le_total : Total pair_le.
Proof.
  intros p q. rewrite !pair_le_spec. destruct (decide (p.1 = q.1)) as [E|E].
  - destruct (base.total String.le p.2 q.2); [left|right]; right; by split.
  - destruct (base.total String.le p.1 q.1); [left|right]; left; (split; [congruence|done]).
Qed.

#[export] Instance pair_le_antisym : AntiSymm (=) pair_le.
Proof.
  intros [k v] [k' v']. rewrite !pair_le_spec. cbn. intros [[Hn H1]|[E H1]] [[Hm H2]|[E' H2]]; [|congruence..|].
  - destruct Hn. by apply (anti_symm String.le).
  - f_equal; [done|]. by apply (anti_symm String.le).
Qed.

Lemma sort_eq l l' : merge_sort pair_le l = merge_sort pair_le l' <-> l ≡ₚ l'.
Proof.
  split; intros H.
  - by rewrite <- (merge_sort_Permutation pair_le l), H, merge_sort_Permutation.
  - apply (Sorted_unique pair_le); [apply Sorted_merge_sort, _..|]. by rewrite !merge_sort_Permutation.
Qed.

(** ** The query, as the list of pairs it denotes *)

Definition decoded_pair (part : string) : result auth_error (string * string) :=
  let '(rawKey, rawValue) := cut "=" part in
  key ← decodeQueryComponent rawKey; value ← decodeQueryComponent (default "" rawValue); Ok (key, value).

Definition decoded_query (query : jsval) : result auth_error (list (string * string)) :=
  match query with
  | JUndefined | JStr "" => Ok []
  | JStr q =>
      throw_if starts_with "?" q || existsb bad_query_char (chars q) with InvalidRequest ;;
      map_result decoded_pair (split_on "&" q)
  | JHost _ => Throw OutsideModel
  | _ => Throw InvalidRequest
  end.

Definition encode_pair (p : string * string) : string * string := (encodeQueryComponent p.1, encodeQueryComponent p.2).

Definition print_query (pairs : list (string * string)) : string :=
  join "&" (map print_pair (merge_sort pair_le (map encode_pair pairs))).

Lemma map_result_fmap {E A B C} (f : A -> result E B) (g : B -> C) l :
  map_result (fun a => g <$> f a) l = map g <$> map_result f l.
Proof.
  induction l as [|a l IH]; [done|]. cbn [map_result]. rewrite IH. destruct (f a); [|done]. cbn. by destruct (map_result f l).
Qed.

Lemma query_pair_decoded part : query_pair part = encode_pair <$> decoded_pair part.
Proof.
  unfold query_pair, decoded_pair. destruct (cut "=" part) as [k v]. destruct (decodeQueryComponent k); [|done]. cbn.
  by destruct (decodeQueryComponent (default "" v)).
Qed.

Lemma map_result_ext {E A B} (f g : A -> result E B) l : (forall a, f a = g a) -> map_result f l = map_result g l.
Proof. intros H. induction l as [|a l IH]; [done|]. cbn [map_result]. by rewrite H, IH. Qed.

Lemma canonicalQuery_spec query : canonicalQuery query = print_query <$> decoded_query query.
Proof.
  destruct query as [ | | | |q| | | | | ]; try done. destruct q as [|c q]; [done|]. set (s := String c q).
  change (canonicalQuery (JStr s)) with
    (throw_if starts_with "?" s || existsb bad_query_char (chars s) with InvalidRequest ;;
     pairs ← map_result query_pair (split_on "&" s); Ok (join "&" (map print_pair (merge_sort pair_le pairs)))).
  change (decoded_query (JStr s)) with
    (throw_if starts_with "?" s || existsb bad_query_char (chars s) with InvalidRequest ;; map_result decoded_pair (split_on "&" s)).
  destruct (_ || _); [done|]. rewrite (map_result_ext _ _ _ query_pair_decoded), map_result_fmap.
  by destruct (map_result decoded_pair (split_on "&" s)).
Qed.

Lemma print_pair_clean p : clean pair_char (print_pair (encode_pair p)).
Proof.
  assert (forall s, clean pair_char (encodeQueryComponent s)) as H
    by (intros s; apply (clean_sub component_char); [vm_compute; reflexivity|apply encode_clean]).
  unfold print_pair. cbn [fst snd encode_pair]. apply clean_app. split; [apply H|]. apply Forall_cons. split; [done|apply H].
Qed.

Lemma print_pair_inj p q : print_pair (encode_pair p) = print_pair (encode_pair q) -> p = q.
Proof.
  assert (forall s, clean (not_char "=") (encodeQueryComponent s)) as H
    by (intros s; apply (clean_sub component_char); [vm_compute; reflexivity|apply encode_clean]).
  unfold print_pair. cbn [fst snd encode_pair]. intros E. apply (f_equal (cut "=")) in E. rewrite !cut_app in E by apply H.
  injection E as E1 E2. destruct p, q. f_equal; by apply encode_inj.
Qed.

Lemma sorted_encoded l : exists m, merge_sort pair_le (map encode_pair l) = map encode_pair m /\ m ≡ₚ l.
Proof.
  destruct (Permutation_map_inv _ _ (merge_sort_Permutation pair_le (map encode_pair l))) as (m & E & Hp).
  exists m. by split; [|symmetry].
Qed.

Lemma print_query_clean l : clean visible (print_query l).
Proof.
  unfold print_query. destruct (sorted_encoded l) as (m & -> & _). apply join_clean; [by repeat constructor|]. apply Forall_forall.
  intros s (p & -> & (q & -> & _)%list_elem_of_fmap)%list_elem_of_fmap.
  apply (clean_sub pair_char); [vm_compute; reflexivity|apply print_pair_clean].
Qed.

Lemma print_sorted_inj m m' :
  join "&" (map print_pair (map encode_pair m)) = join "&" (map print_pair (map encode_pair m')) -> m = m'.
Proof.
  assert (forall m, map print_pair (map encode_pair m) = map (fun p => print_pair (encode_pair p)) m) as Hm by (intros; apply map_map).
  assert (forall p l, join "&" (map print_pair (map encode_pair (p :: l))) <> "") as Hne.
  { intros p l E. apply (f_equal chars) in E. destruct l as [|q l];
      [change (chars (print_pair (encode_pair p)) = []) in E
      |change (chars (print_pair (encode_pair p) +:+ ("&" +:+ join "&" (map print_pair (map encode_pair (q :: l))))) = []) in E;
       rewrite chars_app in E; apply app_eq_nil in E as [E _]];
      unfold print_pair in E; rewrite chars_app in E; by apply app_eq_nil in E as [_ E]. }
  destruct m as [|p m], m' as [|q m']; intros E; [done|by destruct (Hne q m')|by destruct (Hne p m)|].
  apply join_inj in E; [|done|done|apply Forall_forall; intros s (x & -> & (y & -> & _)%list_elem_of_fmap)%list_elem_of_fmap;
    apply (clean_sub pair_char); [vm_compute; reflexivity|apply print_pair_clean]..].
  rewrite !Hm in E. revert E. generalize (p :: m), (q :: m'). induction l as [|x l IH]; intros [|y l'] [=]; [done|].
  f_equal; [by apply print_pair_inj|by apply IH].
Qed.

(** Two lists of pairs print alike exactly when one is the other in some
    order. *)
Lemma print_query_eq l l' : print_query l = print_query l' <-> l ≡ₚ l'.
Proof.
  unfold print_query. split; intros H.
  - destruct (sorted_encoded l) as (m & Em & Hm), (sorted_encoded l') as (m' & Em' & Hm'). rewrite Em, Em' in H.
    apply print_sorted_inj in H as ->. by rewrite <- Hm.
  - do 2 f_equal. apply sort_eq. by apply Permutation_map.
Qed.

(** ** What a signed text denotes *)

Record Meaning := {
  m_method : string; m_path : string; m_query : list (string * string); m_digest : string; m_timestamp : string; m_nonce : string
}.

(** The same request, but for the order of the query. *)
Definition same_meaning (m m' : Meaning) : Prop :=
  m_method m = m_method m' /\ m_path m = m_path m' /\ m_query m ≡ₚ m_query m' /\
  m_digest m = m_digest m' /\ m_timestamp m = m_timestamp m' /\ m_nonce m = m_nonce m'.

Definition signed_fields (m : Meaning) : list string :=
  [m_method m; m_path m; print_query (m_query m); m_digest m; m_timestamp m; m_nonce m].

Section Meaning.
Context `{HHash : Sha256} `{HUrl : UrlParser}.

Definition meaning (request : jsval) : result auth_error Meaning :=
  method ← canonicalMethod (get request "method");
  target ← split_target (request_target request) (get request "query");
  path ← of_option InvalidRequest (pathname target.1);
  query ← decoded_query target.2;
  digest ← request_digest request;
  timestamp ← canonicalTimestamp (nullish (get request "timestamp") (get request "timestamp_ms"));
  nonce ← canonicalNonce (get request "nonce");
  Ok {| m_method := method; m_path := path; m_query := query; m_digest := digest; m_timestamp := timestamp; m_nonce := nonce |}.

Lemma fields_meaning request : canonical_fields request = signed_fields <$> meaning request.
Proof.
  unfold canonical_fields, meaning, canonicalTarget. destruct (canonicalMethod _); [|done]. cbn [mbind result_bind].
  destruct (split_target _ _) as [[p q]|]; [|done]. cbn [mbind result_bind fst snd].
  destruct (of_option _ _); [|done]. cbn [mbind result_bind]. rewrite canonicalQuery_spec.
  destruct (decoded_query q); [|done]. cbn [mbind result_bind fmap result_fmap fst snd].
  destruct (request_digest _); [|done]. cbn [mbind result_bind]. destruct (canonicalTimestamp _); [|done]. cbn [mbind result_bind].
  by destruct (canonicalNonce _).
Qed.

(** The text of a request object. *)
Definition signed_text (request : jsval) : result auth_error string :=
  canonicalDeviceRequest request JUndefined JUndefined JUndefined JUndefined JUndefined.

Lemma signed_text_meaning request :
  is_plain request = true -> signed_text request = (fun m => join (String "010" "") (signed_fields m)) <$> meaning request.
Proof.
  intros (fs & ->)%is_plain_true. unfold signed_text, canonicalDeviceRequest. cbn [mbind result_bind]. rewrite fields_meaning.
  by destruct (meaning (JObj fs)).
Qed.

Lemma serialize_clean p segments : p "/"%char = true -> Forall (clean p) segments -> clean p (serialize_path segments).
Proof.
  intros Hp. induction 1 as [|s l Hs _ IH]; [constructor|]. apply Forall_cons. split; [done|]. by apply clean_app.
Qed.

Lemma parse_segments_clean segments path : Forall (clean visible) path -> Forall (clean visible) (parse_segments path segments).
Proof.
  revert path. induction segments as [|s l IH]; intros path Hp; [by apply Forall_reverse|]. cbn [parse_segments]. apply IH.
  assert (clean visible (percent_encode path_char (utf8 s))) as Hs.
  { apply percent_encode_clean; [|reflexivity|vm_compute; reflexivity]. unfold class_sub. apply forallb_elem_of. intros c _.
    unfold path_char, visible. destruct (between "!" "~" c); [apply implb_true_r|done]. }
  assert (Forall (clean visible) (tail path)) as Ht by (by destruct Hp).
  assert (clean visible "") as He by constructor.
  repeat case_match; auto.
Qed.

Lemma pathname_clean p q : pathname p = Some q -> clean visible q.
Proof.
  assert (forall l, clean visible (serialize_path (parse_segments [] l))) as H
    by (intros l; apply serialize_clean; [done|by apply parse_segments_clean]).
  destruct p as [|c [|d p]]; cbn [pathname]; [done|intros [= <-]; apply (H [""])|].
  destruct (Ascii.eqb_spec d "/"%char) as [->|Hd].
  - destruct (cut "/" _) as [a r]. destruct (_ || _); [done|]. by intros [= <-].
  - intros E. assert (Some (serialize_path (parse_segments [] (split_on "/" (String d p)))) = Some q) as [= <-]; [|apply H].
    rewrite <- E. destruct d as [[] [] [] [] [] [] [] []]; done.
Qed.

Lemma pretty_clean (z : Z) : clean visible (pretty z).
Proof.
  assert (forall n : N, clean visible (pretty n)) as H.
  { intros n. apply (clean_sub digit); [vm_compute; reflexivity|]. destruct (pretty_N_numeral n) as [[->|(c & r & -> & Hc & _ & Hr)] _].
    - by repeat constructor.
    - by apply Forall_cons. }
  destruct (pretty_Z_cases z) as [(n & _ & ->)|(n & _ & _ & ->)]; [apply H|]. apply Forall_cons. split; [done|apply H].
Qed.

Lemma digest_clean request d : request_digest request = Ok d -> clean visible d.
Proof.
  unfold request_digest, body_sha256. destruct (is_undefined _).
  - intros H. run_steps H. injection H as <-. apply (clean_matches (times hex_lower 64)); [vm_compute; reflexivity|apply sha256_hex].
  - destruct (nullish _ _) as [ | | | |s| | | | | ]; try done. intros H. run_steps H. injection H as <-.
    apply (clean_matches DIGEST_PATTERN); [vm_compute; reflexivity|]. by apply negb_false_iff.
Qed.

(** No field holds the separator. *)
Lemma fields_clean request m : meaning request = Ok m -> Forall (clean visible) (signed_fields m).
Proof.
  unfold meaning. intros H. run_steps H. injection H as <-. unfold signed_fields. cbn [m_method m_path m_query m_digest m_timestamp m_nonce].
  repeat apply Forall_cons_2; [..|constructor].
  - match goal with H : canonicalMethod _ = Ok _ |- _ => unfold canonicalMethod in H; destruct (get request "method"); try done;
      run_steps H; injection H as <- end.
    apply (clean_map _ letter); [vm_compute; reflexivity|]. apply (clean_matches METHOD); [vm_compute; reflexivity|]. by apply negb_false_iff.
  - by eapply pathname_clean.
  - apply print_query_clean.
  - by eapply digest_clean.
  - match goal with H : canonicalTimestamp _ = Ok _ |- _ => unfold canonicalTimestamp in H; run_steps H; injection H as <- end.
    apply pretty_clean.
  - match goal with H : canonicalNonce _ = Ok _ |- _ => unfold canonicalNonce in H; run_steps H; injection H as <- end.
    apply (clean_matches NONCE_PATTERN); [vm_compute; reflexivity|]. by apply negb_false_iff.
Qed.

(** ** Properties *)

(** C26: two requests have the same signed text exactly when they are the same
    request: the same method, path, digest of the body, time and nonce, and
    the same pairs in the query, in any order and any encoding. *)
Theorem signed_text_unique r1 r2 t1 t2 :
  is_plain r1 = true -> is_plain r2 = true -> signed_text r1 = Ok t1 -> signed_text r2 = Ok t2 ->
  exists m1 m2, meaning r1 = Ok m1 /\ meaning r2 = Ok m2 /\ (t1 = t2 <-> same_meaning m1 m2).
Proof.
  intros Hp1 Hp2 H1 H2. rewrite signed_text_meaning in H1, H2 by done.
  destruct (meaning r1) as [m1|] eqn:E1; [|done]. destruct (meaning r2) as [m2|] eqn:E2; [|done].
  injection H1 as <-. injection H2 as <-. exists m1, m2. split_and!; [done..|].
  assert (forall m, Forall (clean visible) (signed_fields m) -> Forall (clean (not_char "010")) (signed_fields m)) as Hc.
  { intros m H. eapply Forall_impl; [exact H|]. intros s. apply clean_sub. vm_compute. reflexivity. }
  split.
  - intros E. apply (join_inj "010" (signed_fields m1) (signed_fields m2)) in E; [|done|done|by eapply Hc, fields_clean..].
    injection E as Em Ep Eq Ed Et En. apply print_query_eq in Eq. by split_and!.
  - intros (Em & Ep & Eq & Ed & Et & En). unfold signed_fields. apply print_query_eq in Eq. by rewrite Em, Ep, Eq, Ed, Et, En.
Qed.
End Meaning.

(** ** Examples *)

Module Sample.
Definition url_parser : UrlParser := {| authority_valid := fun s => Nat.ltb 3 (String.length s); encodes_caret := true |}.
#[local] Existing Instances toy_sha256 url_parser.

Definition nonce : string := "0123456789abcdef0123456789abcdef".
Definition request (path : string) : jsval :=
  JObj [("method", JStr "get"); ("path", JStr path); ("timestamp", JNum (NInt 1000000)); ("nonce", JStr nonce)].

Definition text_of (path : string) : string := match signed_text (request path) with Ok t => t | Throw _ => "" end.

Lemma text_ok path : is_ok (signed_text (request path)) = true -> signed_text (request path) = Ok (text_of path).
Proof. intros (t & E)%is_ok_true. unfold text_of. by rewrite E. Qed.

Example dots : pathname "/v1/./a/%2e%2E/b c" = Some "/v1/b%20c". Proof. vm_compute. reflexivity. Qed.
Example order : canonicalQuery (JStr "b=2&a=%7e+x") = Ok "a=~%20x&b=2". Proof. vm_compute. reflexivity. Qed.
Example bad_escape : canonicalQuery (JStr "a=%c3%28") = Throw InvalidRequest. Proof. vm_compute. reflexivity. Qed.
End Sample.

(** What the URL parser reads as an authority is not signed. *)
Example authority_not_signed : Sample.text_of "//elsewhere/v1/x" = Sample.text_of "/v1/x".
Proof. vm_compute. reflexivity. Qed.

Lemma signed_text_unique_witness :
  exists m1 m2, @meaning toy_sha256 Sample.url_parser (Sample.request "/v1/a?b=2&a=1") = Ok m1 /\
    @meaning toy_sha256 Sample.url_parser (Sample.request "/v1/x/../a?a=%31&b=2") = Ok m2 /\
    (Sample.text_of "/v1/a?b=2&a=1" = Sample.text_of "/v1/x/../a?a=%31&b=2" <-> same_meaning m1 m2).
Proof.
  apply (@signed_text_unique toy_sha256 Sample.url_parser); [reflexivity|reflexivity|apply Sample.text_ok; vm_compute; reflexivity..].
Defined.
