(* ===== verification/DeviceAuth.v ===== *)
(** * Requests of enrolled devices (apps/cloud-api/src/auth.mjs)

    The cloud service admits a request of a device when one of its enrolled
    keys signs the text of DeviceRequest, the time is within a minute, and the
    nonce was not used.  The nonces in use are a [Map], in memory or mirrored
    to a file at each write; verification returns its result with the writes it
    makes to that map, in order. *)

From stdpp Require Import base tactics list sets strings pretty.
From Stdlib Require Import Ascii.
From S2P Require Import Prelude JsValue Regex Json Objects Crypto Capability FileSystem DeviceRequest.
Local Open Scope string_scope.
Local Open Scope js_scope.

(** ** Constants *)

Definition CLOCK_WINDOW_MS : Z := 60000.
Definition REPLAY_RETENTION_MS : Z := CLOCK_WINDOW_MS * 2.
Definition DEFAULT_REPLAY_LIMIT : Z := 10000.

Definition BASE64_PATTERN : re := BASE64.

Definition DEVICE_HEADERS : list string :=
  ["AgentPass-Device"; "AgentPass-Timestamp"; "AgentPass-Nonce"; "AgentPass-Content-SHA256"; "AgentPass-Signature"].

(** ** The headers *)

(** [text.toLowerCase()], for the comparison with texts in ASCII. *)
Definition lower_text (s : string) : string := map_chars fold_case s.

Definition canonical_header (name : string) : option string :=
  find (fun header => String.eqb (lower_text header) (lower_text name)) DEVICE_HEADERS.

(** The white space that [trim] removes. *)
Definition white (c : ascii) : bool := in_range 9 13 (code c) || Nat.eqb (code c) 32 || Nat.eqb (code c) 160.

Definition trimmed (s : string) : bool :=
  match chars s with [] => true | c :: l => negb (white c) && negb (white (List.last l c)) end.

Definition header_text (value : jsval) : option string :=
  match value with
  | JStr s => if String.eqb s "" || negb (trimmed s) || in_chars s "," then None else Some s
  | _ => None
  end.

Fixpoint collect_headers (values : list (string * jsval)) (entries : list (string * jsval))
    : result auth_error (list (string * jsval)) :=
  match entries with
  | [] => Ok values
  | (name, value) :: entries =>
      match canonical_header name with
      | None => throw_if String.prefix "agentpass-" (lower_text name) with InvalidHeaders ;; collect_headers values entries
      | Some header =>
          throw_if has_own (JObj values) header with InvalidHeaders ;;
          text ← of_option InvalidHeaders (header_text value);
          collect_headers ((header, JStr text) :: values) entries
      end
  end.

Record Headers := mkHeaders {
  h_device : string; h_timestamp : string; h_nonce : string; h_digest : string; h_signature : string
}.

Definition parseDeviceHeaders (input : jsval) : result auth_error Headers :=
  entries ← match input with JObj fs => Ok fs | JArr _ | JBytes _ => Ok [] | JHost _ => Throw OutsideModel | _ => Throw InvalidHeaders end;
  values ← collect_headers [] entries;
  let header name := of_option InvalidHeaders (as_str (get (JObj values) name)) in
  device ← header "AgentPass-Device";
  timestamp ← header "AgentPass-Timestamp";
  nonce ← header "AgentPass-Nonce";
  digest ← header "AgentPass-Content-SHA256";
  signature ← header "AgentPass-Signature";
  throw_if negb (re_test DEVICE_ID_PATTERN device) with InvalidHeaders ;;
  throw_if negb (re_test DIGEST_PATTERN digest) with InvalidHeaders ;;
  throw_if negb (re_test BASE64_PATTERN signature) with InvalidHeaders ;;
  Ok (mkHeaders device timestamp nonce digest signature).

(** ** The enrolled devices *)

Inductive Enrolled := DeviceMap (devices : list (string * jsval)) | DeviceValue (v : jsval).

Definition has_id (id : string) (device : jsval) : bool :=
  is_str (get device "device_id") id || is_str (get device "deviceId") id || is_str (get device "id") id.

Definition find_in (id : string) (devices : list jsval) : jsval := default JUndefined (find (has_id id) devices).

Definition findDevice (enrolled : Enrolled) (id : string) : result auth_error jsval :=
  match enrolled with
  | DeviceMap devices => Ok (default JUndefined (assoc id devices))
  | DeviceValue (JArr devices) => Ok (find_in id devices)
  | DeviceValue (JObj fs) =>
      match get (JObj fs) "devices" with JArr devices => Ok (find_in id devices) | _ => Ok (member (JObj fs) id) end
  | DeviceValue (JBytes _ | JHost _) => Throw OutsideModel
  | DeviceValue _ => Ok JUndefined
  end.

Definition is_disabled (device : jsval) : bool :=
  bool_decide (get device "disabled" = JBool true) || bool_decide (get device "revoked" = JBool true)
  || is_str (get device "status") "disabled" || is_str (get device "status") "revoked".

Definition device_organization (device : jsval) : jsval := nullish (get device "organization_id") (get device "organizationId").

(** ** Keys *)

(** The curve of a key, and [crypto.verify("sha256", bytes, { key, dsaEncoding:
    "ieee-p1363" }, signature)]; [None] when it throws. *)
Class EcKeys := {
  named_curve : KeyDescription -> option string;
  verify_sha256 : KeyDescription -> string -> string -> option bool
}.

Section Keys.
Context `{HKeys : KeyObjects} `{HEc : EcKeys}.

Definition deviceKeyTypeAllowed (key : KeyDescription) : bool :=
  String.eqb (asymmetricKeyType key) "ed25519"
  || String.eqb (asymmetricKeyType key) "ec" && bool_decide (named_curve key = Some "prime256v1").

Definition device_key_value (device : jsval) : jsval :=
  nullish (get device "public_key") (nullish (get device "publicKey")
    (nullish (get device "device_public_key") (get device "devicePublicKey"))).

(** An object that says it is a public key and is none is not modelled. *)
Definition devicePublicKey (device : jsval) : result auth_error KeyDescription :=
  let value := device_key_value device in
  throw_if is_undefined value || str_test (somewhere (lit "PRIVATE KEY")) value with DeviceAuthFailed ;;
  key ← if bool_decide (value_type value = Some "public") then of_option OutsideModel (object_key value)
        else of_option DeviceAuthFailed (import_value value);
  throw_if negb (deviceKeyTypeAllowed key) with DeviceAuthFailed ;; Ok key.

(** Whether a key verifies a text; an error of the verifier is a refusal. *)
Definition device_verifies (key : KeyDescription) (text bytes : string) : bool :=
  default false
    (if String.eqb (asymmetricKeyType key) "ed25519" then verify_with key text bytes else verify_sha256 key text bytes).
End Keys.

(** [parseSignature]: the bytes of a signature of 64 bytes in base 64. *)
Definition parseSignature `{Base64Reader} (value : string) : result auth_error string :=
  throw_if negb (re_test BASE64_PATTERN value) with InvalidHeaders ;;
  let bytes := base64_reader value in
  throw_if negb (Nat.eqb (String.length bytes) 64) || negb (String.eqb (base64 bytes) value) with InvalidHeaders ;;
  Ok bytes.

(** ** The nonces in use *)

(** The entries of the [Map] in order, and its bound if it has one. *)
Record ReplayCache := mkCache { entries : list (string * Z); maxEntries : option Z }.

Inductive CacheWrite := CacheSet (key : string) (expiry : Z) | CacheDelete (key : string).

Definition createReplayCache (limit : jsval) : result auth_error ReplayCache :=
  match safe_integer (nullish limit (JNum (NInt DEFAULT_REPLAY_LIMIT))) with
  | Some n => throw_if (n <? 1)%Z with TypeFailure ;; Ok (mkCache [] (Some n))
  | None => Throw TypeFailure
  end.

Definition cache_lookup (key : string) (l : list (string * Z)) : option Z :=
  snd <$> find (fun e => String.eqb e.1 key) l.

Fixpoint map_set (key : string) (v : Z) (l : list (string * Z)) : list (string * Z) :=
  match l with
  | [] => [(key, v)]
  | (k, x) :: l => if String.eqb k key then (key, v) :: l else (k, x) :: map_set key v l
  end.

Definition apply_write (cache : ReplayCache) (w : CacheWrite) : ReplayCache :=
  mkCache
    match w with
    | CacheSet key v => map_set key v (entries cache)
    | CacheDelete key => filter (fun e => String.eqb e.1 key = false) (entries cache)
    end (maxEntries cache).

Definition after_writes (cache : ReplayCache) (ws : list CacheWrite) : ReplayCache := fold_left apply_write ws cache.

(** [purgeReplayCache]: the deletions of the entries that expired. *)
Definition purgeReplayCache (cache : ReplayCache) (now : Z) : list CacheWrite :=
  map (fun e => CacheDelete e.1) (filter (fun e => (e.2 <=? now)%Z = true) (entries cache)).

(** ** Verification *)

(** An option that should be a cache: absent, a cache, or something else. *)
Inductive CacheOption := NoCache | Cache (cache : ReplayCache) | NotCache.

Record Options := mkOptions {
  o_now : jsval; o_organizationId : jsval; o_organization_id : jsval; o_deferReplayConsumption : jsval;
  o_replayCache : CacheOption; o_replay : CacheOption; o_maxReplayEntries : jsval; o_includeAuthenticationMetadata : jsval
}.

Definition no_options : Options := mkOptions JUndefined JUndefined JUndefined JUndefined NoCache NoCache JUndefined JUndefined.

Definition cache_option (v : jsval) : CacheOption := match v with JUndefined | JNull => NoCache | _ => NotCache end.

(** The options that an object with the devices also holds; a value of
    [jsval] is no [Map]. *)
Definition options_in (fs : list (string * jsval)) : Options :=
  let o k := get (JObj fs) k in
  mkOptions (o "now") (o "organizationId") (o "organization_id") (o "deferReplayConsumption")
    (cache_option (o "replayCache")) (cache_option (o "replay")) (o "maxReplayEntries") (o "includeAuthenticationMetadata").

(** The two ways to pass devices and options; no options is an empty object. *)
Definition arguments_of (enrolled : Enrolled) (options : option Options) : Enrolled * Options :=
  match options, enrolled with
  | None, DeviceValue (JObj fs) =>
      match get (JObj fs) "devices" with
      | JArr devices => (DeviceValue (JArr devices), options_in fs)
      | _ => (enrolled, no_options)
      end
  | _, _ => (enrolled, default no_options options)
  end.

(** The cache of the call: a fresh one when there is none. *)
Definition effective_cache (options : Options) : result auth_error ReplayCache :=
  match o_replayCache options, o_replay options with
  | Cache c, _ | NoCache, Cache c => Ok c
  | NoCache, NoCache => createReplayCache JUndefined
  | _, _ => Throw InvalidRequest
  end.

Record Principal := mkPrincipal {
  p_device_id : jsval; p_organization_id : jsval; p_metadata : option (KeyDescription * jsval)
}.

Section Verify.
Context `{HHash : Sha256} `{HUrl : UrlParser} `{HKeys : KeyObjects} `{HEc : EcKeys} `{HRead : Base64Reader}.

Definition publicDevice (device : jsval) (fallbackId : string) (includeMetadata : bool) : result auth_error Principal :=
  metadata ← (if includeMetadata then
                key ← devicePublicKey device;
                Ok (Some (key, nullish (get device "key_epoch") (nullish (get device "keyEpoch")
                                 (nullish (get device "device_key_epoch") (get device "deviceKeyEpoch")))))
              else Ok None);
  Ok {| p_device_id := nullish (get device "device_id") (nullish (get device "deviceId") (nullish (get device "id") (JStr fallbackId)));
        p_organization_id := device_organization device; p_metadata := metadata |}.

(** The checks of the device that the headers name. *)
Definition check_device (enrolled : Enrolled) (options : Options) (id : string) : result auth_error jsval :=
  device ← findDevice enrolled id;
  throw_if negb (truthy device) with DeviceAuthFailed ;;
  throw_if is_disabled device with DeviceDisabled ;;
  let expected := nullish (o_organizationId options) (o_organization_id options) in
  throw_if negb (is_undefined expected) && negb (bool_decide (device_organization device = expected)) with DeviceAuthFailed ;;
  Ok device.

Definition signed_request (request : jsval) (digest : string) (timestamp : Z) (nonce : string) : jsval :=
  JObj [("method", get request "method"); ("path", request_target request); ("body_digest", JStr digest);
        ("timestamp", JNum (NInt timestamp)); ("nonce", JStr nonce)].

(** The checks of the digest and the signature. *)
Definition check_signature (request device : jsval) (headers : Headers) (timestamp : Z) (nonce : string) : result auth_error unit :=
  digest ← body_sha256 (nullish (get request "body") (JBytes ""));
  throw_if negb (String.eqb digest (h_digest headers)) with BodyDigestMismatch ;;
  signature ← parseSignature (h_signature headers);
  signed ← signed_text (signed_request request digest timestamp nonce);
  publicKey ← devicePublicKey device;
  throw_if negb (device_verifies publicKey signed signature) with DeviceAuthFailed ;; Ok tt.

(** Everything before the cache. *)
Definition authenticate (request : jsval) (enrolled : Enrolled) (options : Options) (clock : Z)
    : result auth_error (jsval * Headers * string * Z) :=
  throw_if negb (is_object request) with InvalidRequest ;;
  headers ← parseDeviceHeaders (nullish (get request "headers") request);
  now ← of_option InvalidRequest (safe_integer (nullish (o_now options) (JNum (NInt clock))));
  timestamp ← parseTimestamp (JStr (h_timestamp headers));
  nonce ← canonicalNonce (JStr (h_nonce headers));
  throw_if (CLOCK_WINDOW_MS <? Z.abs (now - timestamp))%Z with ClockSkew ;;
  device ← check_device enrolled options (h_device headers);
  _ ← check_signature request device headers timestamp nonce;
  Ok (device, headers, nonce, now).

Definition replay_key (headers : Headers) (nonce : string) : string := h_device headers +:+ String ":" nonce.

(** The nonce is checked and recorded. *)
Definition consume (options : Options) (key : string) (now : Z) : logged auth_error CacheWrite unit :=
  let* cache := lift (effective_cache options) in
  let* _ := (Ok tt, purgeReplayCache cache now) in
  let purged := after_writes cache (purgeReplayCache cache now) in
  let* _ := lift (throw_if bool_decide (is_Some (cache_lookup key (entries purged))) with ReplayDetected ;; Ok tt) in
  let* limit := lift match maxEntries purged with
                     | Some n => Ok n
                     | None => of_option InvalidRequest
                                 (safe_integer (nullish (o_maxReplayEntries options) (JNum (NInt DEFAULT_REPLAY_LIMIT))))
                     end in
  let* _ := lift (throw_if (limit <? 1)%Z with InvalidRequest ;;
                  throw_if (limit <=? Z.of_nat (length (entries purged)))%Z with ReplayCacheFull ;; Ok tt) in
  (Ok tt, [CacheSet key (now + REPLAY_RETENTION_MS)%Z]).

(** [verifyDeviceRequest]; [clock] is what [Date.now()] returns. *)
Definition verifyDeviceRequest (request : jsval) (enrolled : Enrolled) (options : option Options) (clock : Z)
    : logged auth_error CacheWrite Principal :=
  let '(enrolled, options) := arguments_of enrolled options in
  let* found := lift (authenticate request enrolled options clock) in
  let '(device, headers, nonce, now) := found in
  let* _ := if bool_decide (o_deferReplayConsumption options = JBool true) then (Ok tt, [])
            else consume options (replay_key headers nonce) now in
  lift (publicDevice device (h_device headers) (bool_decide (o_includeAuthenticationMetadata options = JBool true))).
End Verify.

(** ** The cache mirrored to a file *)

Inductive cache_error := LimitInvalid | DirectoryUnsafe | FileUnsafe | FileInvalid | EntryInvalid.

Definition MAX_CACHE_BYTES : Z := 4194304.

(** The file that a write of the cache puts in place, atomically. *)
Definition cache_json (l : list (string * Z)) : jsval :=
  JObj [("version", JNum (NInt 1)); ("entries", JArr (map (fun e => JArr [JStr e.1; JNum (NInt e.2)]) l))].

Definition atomicReplayWrite (v : jsval) : File :=
  mkFile (private_file (Z.of_nat (String.length (utf8 (stringify v))))) (Some v).

Definition persist (cache : ReplayCache) : File := atomicReplayWrite (cache_json (entries cache)).

Definition read_entry (v : jsval) : result cache_error (string * Z) :=
  match v with
  | JArr [JStr key; n] =>
      throw_if Nat.ltb 512 (String.length key) with EntryInvalid ;;
      n ← of_option EntryInvalid (safe_integer n);
      throw_if (n <? 0)%Z with EntryInvalid ;; Ok (key, n)
  | _ => Throw EntryInvalid
  end.

(** [createPersistentReplayCache], on the directory and the file it finds. *)
Definition createPersistentReplayCache (parent : Stat) (file : option File) (limit : jsval) : result cache_error ReplayCache :=
  throw_if negb (isDirectory parent) || isSymbolicLink parent || permissive parent || negb (owned parent) with DirectoryUnsafe ;;
  cache ← or_throw (createReplayCache limit) LimitInvalid;
  match file with
  | None => Ok cache
  | Some file =>
      let s := stat file in
      throw_if negb (isFile s) || isSymbolicLink s || negb (Z.eqb (nlink s) 1) || (MAX_CACHE_BYTES <? byte_size s)%Z
               || permissive s || negb (owned s) with FileUnsafe ;;
      parsed ← of_option FileInvalid (content file);
      throw_if negb (is_int (get parsed "version") 1) with FileInvalid ;;
      l ← match get parsed "entries" with JArr l => Ok l | _ => Throw FileInvalid end;
      throw_if (default 0 (maxEntries cache) <? Z.of_nat (length l))%Z with FileInvalid ;;
      read ← map_result read_entry l;
      Ok (mkCache (fold_left (fun l e => map_set e.1 e.2 l) read []) (maxEntries cache))
  end.

(** ** Signing *)

(** The curve of a private key, and [crypto.sign("sha256", bytes, { key,
    dsaEncoding: "ieee-p1363" })]. *)
Class EcSigningKeys `{SigningKeys} := { sign_sha256 : PrivateKey -> string -> string }.

Section Sign.
Context `{HHash : Sha256} `{HUrl : UrlParser} `{HEc : EcKeys} `{HPrivate : SigningKeys} {HSign : EcSigningKeys}.

Definition sign_device (key : PrivateKey) (text : string) : string :=
  if String.eqb (asymmetricKeyType (public_of key)) "ed25519" then sign_with key text else sign_sha256 key text.

Definition createDeviceSignature (request privateKey : jsval) : result auth_error string :=
  key ← of_option InvalidRequest (import_private privateKey);
  throw_if negb (deviceKeyTypeAllowed (public_of key)) with InvalidRequest ;;
  text ← signed_text request;
  Ok (base64 (sign_device key text)).

(** [signDeviceRequest]; [clock] is what [Date.now()] returns and [random] the
    nonce it draws. *)
Definition signDeviceRequest (request privateKey : jsval) (clock : Z) (random : string) : result auth_error jsval :=
  device_id ← of_option InvalidRequest (as_str (get request "device_id"));
  let timestamp := nullish (nullish (get request "timestamp") (get request "timestamp_ms")) (JNum (NInt clock)) in
  let nonce := nullish (get request "nonce") (JStr random) in
  digest ← body_sha256 (nullish (get request "body") (JBytes ""));
  let signed := assign (assign (assign request "body_digest" (JStr digest)) "timestamp" timestamp) "nonce" nonce in
  signature ← createDeviceSignature signed privateKey;
  timestamp ← of_option OutsideModel (to_string timestamp);
  Ok (JObj [("AgentPass-Device", JStr device_id); ("AgentPass-Timestamp", JStr timestamp); ("AgentPass-Nonce", nonce);
            ("AgentPass-Content-SHA256", JStr digest); ("AgentPass-Signature", JStr signature)]).
End Sign.

(** ** Lemmas: the map of nonces *)

Definition keys (cache : ReplayCache) : list string := map fst (entries cache).

Lemma lookup_set k k' v l : cache_lookup k' (map_set k v l) = if String.eqb k k' then Some v else cache_lookup k' l.
Proof.
  unfold cache_lookup. induction l as [|[a x] l IH]; cbn [map_set find fst]; [by destruct (String.eqb k k')|].
  destruct (String.eqb_spec a k) as [->|Ha]; cbn [find fst].
  - by destruct (String.eqb k k').
  - destruct (String.eqb_spec a k') as [->|Ha']; [|exact IH]. by rewrite (proj2 (String.eqb_neq k k')) by done.
Qed.

Lemma lookup_delete k k' l :
  cache_lookup k' (filter (fun e => String.eqb e.1 k = false) l) = if String.eqb k k' then None else cache_lookup k' l.
Proof.
  unfold cache_lookup. induction l as [|[a x] l IH]; [by destruct (String.eqb k k')|]. rewrite filter_cons. cbn [fst].
  destruct (String.eqb_spec a k) as [->|Ha].
  - rewrite decide_False by done. rewrite IH. cbn [find fst]. by destruct (String.eqb k k').
  - rewrite decide_True by done. cbn [find fst]. destruct (String.eqb_spec a k') as [->|Ha']; [|exact IH].
    by rewrite (proj2 (String.eqb_neq k k')) by done.
Qed.

Lemma lookup_elem k v l : cache_lookup k l = Some v -> (k, v) ∈ l.
Proof.
  unfold cache_lookup. intros ([a x] & (H & E)%find_some & ->)%fmap_Some. cbn in *. apply String.eqb_eq in E as ->.
  by apply list_elem_of_In.
Qed.

Lemma lookup_none k l : cache_lookup k l = None <-> k ∉ map fst l.
Proof.
  unfold cache_lookup. induction l as [|[a x] l IH]; cbn [find map fst]; [by split; [intros _ H; inversion H|]|].
  rewrite not_elem_of_cons. destruct (String.eqb_spec a k) as [->|Ha]; [naive_solver|]. rewrite IH. naive_solver.
Qed.

Lemma elem_lookup k v l : NoDup (map fst l) -> (k, v) ∈ l -> cache_lookup k l = Some v.
Proof.
  intros Hd Hin. destruct (cache_lookup k l) as [w|] eqn:E.
  - apply lookup_elem in E. by pose proof (NoDup_map_inj fst l _ _ Hd E Hin eq_refl) as [= ->].
  - apply lookup_none in E. destruct E. apply list_elem_of_fmap. by exists (k, v).
Qed.

Lemma nonce_set_keys k v l : map fst (map_set k v l) = if bool_decide (k ∈ map fst l) then map fst l else (map fst l ++ [k])%list.
Proof.
  induction l as [|[a x] l IH]; [done|]. cbn [map_set map fst]. destruct (String.eqb_spec a k) as [->|Ha].
  - rewrite bool_decide_true by set_solver. done.
  - cbn [map fst]. rewrite IH. repeat case_bool_decide; try done; set_solver.
Qed.

Lemma set_distinct k v l : NoDup (map fst l) -> NoDup (map fst (map_set k v l)).
Proof.
  intros H. rewrite nonce_set_keys. case_bool_decide; [done|]. apply NoDup_app. split_and!; [done| |apply NoDup_singleton].
  intros x Hx ->%list_elem_of_singleton. done.
Qed.

Lemma filter_distinct P `{!forall e : string * Z, Decision (P e)} (l : list (string * Z)) :
  NoDup (map fst l) -> NoDup (map fst (filter P l)).
Proof.
  induction l as [|e l IH]; [done|]. intros [Hn Hd]%NoDup_cons. rewrite filter_cons. destruct (decide (P e)); [|by apply IH].
  cbn [map]. constructor; [|by apply IH]. intros (x & Ex & [_ Hx]%list_elem_of_filter)%list_elem_of_fmap. apply Hn.
  apply list_elem_of_fmap. eauto.
Qed.

Lemma writes_distinct ws cache : NoDup (keys cache) -> NoDup (keys (after_writes cache ws)).
Proof.
  revert cache. induction ws as [|w ws IH]; intros cache H; [done|]. apply IH. destruct w; cbn; [by apply set_distinct|by apply filter_distinct].
Qed.

(** What a write does not touch. *)
Definition touches (key : string) (w : CacheWrite) : Prop := match w with CacheSet k _ | CacheDelete k => k = key end.

Lemma untouched ws cache key :
  Forall (fun w => ~ touches key w) ws -> cache_lookup key (entries (after_writes cache ws)) = cache_lookup key (entries cache).
Proof.
  revert cache. induction ws as [|w ws IH]; intros cache H; [done|]. apply Forall_cons in H as [Hw H].
  change (cache_lookup key (entries (after_writes (apply_write cache w) ws)) = cache_lookup key (entries cache)). rewrite IH by done.
  destruct w as [k v|k]; cbn [apply_write entries touches] in *; [rewrite lookup_set|rewrite lookup_delete]; by rewrite (proj2 (String.eqb_neq _ _)).
Qed.

Lemma purge_touches cache now key e :
  NoDup (keys cache) -> cache_lookup key (entries cache) = Some e -> (now < e)%Z -> Forall (fun w => ~ touches key w) (purgeReplayCache cache now).
Proof.
  intros Hd He Hn. apply Forall_forall. intros w ([k v] & -> & [Hv Hin]%list_elem_of_filter)%list_elem_of_fmap. cbn in *. intros ->.
  rewrite (elem_lookup _ _ _ Hd Hin) in He. injection He as ->. apply Z.leb_le in Hv. lia.
Qed.
