(* ===== verification/DeviceAuthFacts.v ===== *)
(** * What a device's request is admitted for

    An admitted request is signed by an enrolled, enabled device, on time, and
    recorded; it is refused when it comes again, through other requests,
    crashes between writes and restarts of the service. *)

From stdpp Require Import base tactics list sets strings pretty relations.
From Stdlib Require Import Ascii.
From S2P Require Import Prelude JsValue Regex Json Objects Crypto Capability FileSystem DeviceRequest DeviceAuth.
Local Open Scope string_scope.
Local Open Scope js_scope.

(** The time of the call. *)
Definition now_of (options : Options) (clock : Z) : option Z := safe_integer (nullish (o_now options) (JNum (NInt clock))).

Definition deferred (options : Options) : bool := bool_decide (o_deferReplayConsumption options = JBool true).

Definition expected_organization (options : Options) : jsval := nullish (o_organizationId options) (o_organization_id options).

Section Facts.
Context `{HHash : Sha256} `{HUrl : UrlParser} `{HKeys : KeyObjects} `{HEc : EcKeys} `{HRead : Base64Reader}.

(** ** Authentication *)

(** The device is enrolled under the id of the headers, enabled, and of the
    organization that is expected; its key, of an allowed type, verifies the
    text of the request, whose digest is that of the body and whose time is
    within a minute. *)
Definition authentic (request : jsval) (enrolled : Enrolled) (options : Options) (clock : Z)
    (device : jsval) (headers : Headers) (timestamp now : Z) : Prop :=
  parseDeviceHeaders (nullish (get request "headers") request) = Ok headers /\
  now_of options clock = Some now /\
  parseTimestamp (JStr (h_timestamp headers)) = Ok timestamp /\ (Z.abs (now - timestamp) <= CLOCK_WINDOW_MS)%Z /\
  findDevice enrolled (h_device headers) = Ok device /\ truthy device = true /\ is_disabled device = false /\
  (expected_organization options = JUndefined \/ device_organization device = expected_organization options) /\
  body_sha256 (nullish (get request "body") (JBytes "")) = Ok (h_digest headers) /\
  exists key text bytes,
    signed_text (signed_request request (h_digest headers) timestamp (h_nonce headers)) = Ok text /\
    devicePublicKey device = Ok key /\ deviceKeyTypeAllowed key = true /\
    h_signature headers = base64 bytes /\ String.length bytes = 64 /\ device_verifies key text bytes = true.

Lemma nonce_text s nonce : canonicalNonce (JStr s) = Ok nonce -> nonce = s.
Proof. unfold canonicalNonce. intros H. run_steps H. injection H as <-. by injection E as <-. Qed.

Lemma key_allowed device key : devicePublicKey device = Ok key -> deviceKeyTypeAllowed key = true.
Proof. unfold devicePublicKey. intros H. run_steps H. injection H as <-. by apply negb_false_iff. Qed.

Lemma signature_ok request device headers timestamp nonce :
  check_signature request device headers timestamp nonce = Ok tt ->
  body_sha256 (nullish (get request "body") (JBytes "")) = Ok (h_digest headers) /\
  exists key text bytes,
    signed_text (signed_request request (h_digest headers) timestamp nonce) = Ok text /\
    devicePublicKey device = Ok key /\ deviceKeyTypeAllowed key = true /\
    h_signature headers = base64 bytes /\ String.length bytes = 64 /\ device_verifies key text bytes = true.
Proof.
  unfold check_signature. intros H. run_steps H. guards. subst.
  match goal with H : parseSignature _ = Ok _ |- _ => unfold parseSignature in H; run_steps H; injection H as <- end. guards.
  split; [done|]. eexists _, _, _. split_and!; [done|done|by eapply key_allowed|by symmetry|by apply Nat.eqb_eq|done].
Qed.

Lemma authenticate_ok request enrolled options clock device headers nonce now :
  authenticate request enrolled options clock = Ok (device, headers, nonce, now) ->
  nonce = h_nonce headers /\ exists timestamp, authentic request enrolled options clock device headers timestamp now.
Proof.
  unfold authenticate. intros H. run_steps H. injection H as -> -> -> ->.
  match goal with H : canonicalNonce _ = Ok _ |- _ => apply nonce_text in H as -> end. split; [done|].
  match goal with H : check_device _ _ _ = Ok _ |- _ => unfold check_device in H; run_steps H; injection H as <- end. guards.
  match goal with H : check_signature _ _ _ _ _ = Ok ?u |- _ => destruct u; apply signature_ok in H as [Hd Hs] end.
  eexists. split_and!; [done..|lia|done|done|done| |done|done].
  unfold expected_organization.
  match goal with H : negb (is_undefined ?e) && _ = false |- _ => apply andb_false_iff in H as [H|H]; guards; [left; by apply is_undefined_true|by right] end.
Qed.

(** ** The record of the nonce *)

Lemma writes_max ws cache : maxEntries (after_writes cache ws) = maxEntries cache.
Proof. revert cache. induction ws as [|w ws IH]; intros cache; [done|]. exact (IH (apply_write cache w)). Qed.

Definition recorded (options : Options) (key : string) (now : Z) (ws : list CacheWrite) : Prop :=
  exists cache, effective_cache options = Ok cache /\
    cache_lookup key (entries (after_writes cache (purgeReplayCache cache now))) = None /\
    (forall limit, maxEntries cache = Some limit ->
       (Z.of_nat (length (entries (after_writes cache (purgeReplayCache cache now)))) < limit)%Z) /\
    ws = (purgeReplayCache cache now ++ [CacheSet key (now + REPLAY_RETENTION_MS)%Z])%list.

Lemma consume_inv options key now r ws :
  consume options key now = (r, ws) ->
  (exists cache, effective_cache options = Ok cache /\ ws = purgeReplayCache cache now /\ r <> Ok tt) \/
  (exists e, effective_cache options = Throw e /\ ws = [] /\ r = Throw e) \/ (recorded options key now ws /\ r = Ok tt).
Proof.
  unfold consume. destruct (effective_cache options) as [cache|e] eqn:Ec; [|intros [= <- <-]; right; left; by exists e].
  cbn [lift obind]. set (ws0 := purgeReplayCache cache now). cbv zeta.
  case_bool_decide as Hl; [intros [= <- <-]; left; exists cache; split_and!; [done|by rewrite !app_nil_r|done]|].
  cbn [lift obind]. destruct (match maxEntries _ with Some n => _ | None => _ end) as [limit|e] eqn:Em;
    [|intros [= <- <-]; left; exists cache; split_and!; [done|by rewrite !app_nil_r|done]].
  cbn [lift obind]. destruct (limit <? 1)%Z; [intros [= <- <-]; left; exists cache; split_and!; [done|by rewrite !app_nil_r|done]|].
  destruct (limit <=? _)%Z eqn:El; [intros [= <- <-]; left; exists cache; split_and!; [done|by rewrite !app_nil_r|done]|].
  intros [= <- <-]. right. right. split; [|done]. exists cache. split_and!; [done|by apply eq_None_not_Some| |done].
  intros limit' Hl'. rewrite writes_max, Hl' in Em. injection Em as ->. by apply Z.leb_gt.
Qed.

Lemma verify_inv request enrolled options clock p ws :
  verifyDeviceRequest request enrolled (Some options) clock = (Ok p, ws) ->
  exists device headers timestamp now, authentic request enrolled options clock device headers timestamp now /\
    publicDevice device (h_device headers) (bool_decide (o_includeAuthenticationMetadata options = JBool true)) = Ok p /\
    if deferred options then ws = [] else recorded options (replay_key headers (h_nonce headers)) now ws.
Proof.
  unfold verifyDeviceRequest. replace (arguments_of enrolled (Some options)) with (enrolled, options) by (by destruct enrolled).
  intros ([[[device headers] nonce] now] & ws1 & ws2 & [Ha ->]%lift_ok & H & ->)%obind_ok.
  apply authenticate_ok in Ha as [-> [timestamp Ha]]. apply obind_ok in H as ([] & ws1 & ws3 & Hc & [Hp ->]%lift_ok & ->).
  exists device, headers, timestamp, now. split_and!; [done..|]. rewrite app_nil_r. cbn [app]. unfold deferred.
  destruct (bool_decide _); [by injection Hc as <-|].
  apply consume_inv in Hc as [(? & _ & _ & Hn)|[(e & _ & _ & Hr)|[Hr _]]]; [done|done|exact Hr].
Qed.

(** What an id and a nonce look like. *)
Definition key_form (key : string) : Prop := clean id_char key /\ String.length key <= 257.

Lemma headers_id input headers : parseDeviceHeaders input = Ok headers -> re_test DEVICE_ID_PATTERN (h_device headers) = true.
Proof. unfold parseDeviceHeaders. intros H. run_steps H. injection H as <-. by apply negb_false_iff. Qed.

Lemma replay_key_form headers nonce :
  re_test DEVICE_ID_PATTERN (h_device headers) = true -> re_test NONCE_PATTERN nonce = true -> key_form (replay_key headers nonce).
Proof.
  intros Hd Hn. split.
  - apply clean_app. split; [by apply (clean_matches DEVICE_ID_PATTERN); [vm_compute; reflexivity|]|].
    apply Forall_cons. split; [done|]. by apply (clean_matches NONCE_PATTERN); [vm_compute; reflexivity|].
  - unfold replay_key. rewrite length_append. cbn [String.length]. rewrite <- !length_chars.
    apply re_test_spec, (matches_max_len _ _ 128) in Hd; [|reflexivity]. apply re_test_spec, (matches_max_len _ _ 128) in Hn; [|reflexivity].
    lia.
Qed.

Lemma timestamp_nonneg s z : re_test TIMESTAMP s = true -> read_integer s = Some z -> (0 <= z)%Z.
Proof.
  intros Hm Hr. destruct s as [|c s]; [by injection Hr as <-|]. destruct (Ascii.eqb_spec c "-"%char) as [->|Hc].
  - cbn [re_test] in Hm. change (deriv "-" TIMESTAMP) with REmpty in Hm. by apply re_test_spec, empty_inv in Hm.
  - assert (read_integer (String c s) = option_map Z.of_N (read_digits 0 (String c s))) as E.
    { destruct c as [[] [] [] [] [] [] [] []]; try reflexivity. by destruct Hc. }
    rewrite E in Hr. destruct (read_digits 0 _); [|done]. injection Hr as <-. apply N2Z.is_nonneg.
Qed.

(** The writes of a call: none, the deletions, or those and a record. *)
Lemma verify_writes request enrolled options clock r ws now cache :
  verifyDeviceRequest request enrolled (Some options) clock = (r, ws) -> now_of options clock = Some now ->
  effective_cache options = Ok cache ->
  ws = [] \/ ws = purgeReplayCache cache now \/
  exists key, key_form key /\ (- CLOCK_WINDOW_MS <= now)%Z /\ recorded options key now ws.
Proof.
  intros H Hn Hc. unfold verifyDeviceRequest in H.
  replace (arguments_of enrolled (Some options)) with (enrolled, options) in H by (by destruct enrolled).
  apply obind_inv in H as [(x & [_ ->]%lift_inv & _)|([[[device headers] nonce] now'] & ws1 & ws2 & [Ha ->]%lift_ok & H & ->)]; [by left|].
  assert (re_test NONCE_PATTERN nonce = true) as Hnonce.
  { unfold authenticate in Ha. run_steps Ha. injection Ha as -> -> -> ->.
    match goal with H : canonicalNonce _ = Ok _ |- _ => unfold canonicalNonce in H; run_steps H; injection H as <- end. by apply negb_false_iff. }
  apply authenticate_ok in Ha as (_ & t & Hh & Hn' & Ht & Hw & _). rewrite Hn in Hn'. injection Hn' as <-. cbn [app].
  assert (0 <= t)%Z as Ht0.
  { unfold parseTimestamp in Ht. run_steps Ht. injection Ht as <-. guards. apply timestamp_nonneg with (s := h_timestamp headers); done. }
  assert (forall r ws, (if bool_decide (o_deferReplayConsumption options = JBool true) then (Ok tt, [])
                        else consume options (replay_key headers nonce) now) = (r, ws) ->
    ws = [] \/ ws = purgeReplayCache cache now \/
    exists key, key_form key /\ (- CLOCK_WINDOW_MS <= now)%Z /\ recorded options key now ws) as Hcases.
  { intros r' ws'. destruct (bool_decide _); [intros [= _ <-]; by left|]. intros H'.
    apply consume_inv in H' as [(c & Ec & -> & _)|[(x & Ec & -> & _)|[Hr _]]];
      [rewrite Hc in Ec; injection Ec as <-; right; by left|by left|].
    right. right. exists (replay_key headers nonce). split_and!; [|lia|done]. apply replay_key_form; [by eapply headers_id|done]. }
  apply obind_inv in H as [(x & H & _)|(u & ws3 & ws4 & H & [_ ->]%lift_inv & ->)]; [by eapply Hcases|].
  rewrite app_nil_r. by eapply Hcases.
Qed.

(** What a call leaves of a nonce in use, wherever it is stopped. *)
Lemma call_keeps request enrolled options clock r ws n cache key e now :
  verifyDeviceRequest request enrolled (Some options) clock = (r, ws) -> now_of options clock = Some now ->
  effective_cache options = Ok cache -> NoDup (keys cache) -> cache_lookup key (entries cache) = Some e -> (now < e)%Z ->
  cache_lookup key (entries (after_writes cache (take n ws))) = Some e.
Proof.
  intros H Hn Hc Hd Hk He. rewrite untouched; [done|]. apply Forall_take.
  pose proof (purge_touches cache now key e Hd Hk He) as Hp.
  destruct (verify_writes _ _ _ _ _ _ _ _ H Hn Hc) as [->|[->|(key' & _ & _ & c & Ec & Hf & _ & ->)]]; [constructor|done|].
  rewrite Hc in Ec. injection Ec as <-. apply Forall_app. split; [done|]. apply Forall_singleton. intros E. cbn [touches] in E. subst key'.
  by rewrite (untouched _ _ _ Hp), Hk in Hf.
Qed.

(** ** The file *)

Lemma read_entries l read : map_result read_entry (map (fun e => JArr [JStr e.1; JNum (NInt e.2)]) l) = Ok read -> read = l.
Proof.
  revert read. induction l as [|[k v] l IH]; intros read H; [by injection H as <-|]. cbn [map map_result fst snd] in H. run_steps H.
  injection H as <-. f_equal; [|by apply IH].
  match goal with H : read_entry _ = Ok _ |- _ => unfold read_entry in H; run_steps H; injection H as <- end.
  by match goal with H : safe_integer _ = Some _ |- _ => apply safe_integer_Some in H as [[= ->] _] end.
Qed.

Lemma map_set_new k v l : k ∉ map fst l -> map_set k v l = (l ++ [(k, v)])%list.
Proof.
  induction l as [|[a x] l IH]; [done|]. cbn [map fst]. intros [Ha Hl]%not_elem_of_cons. cbn [map_set].
  rewrite (proj2 (String.eqb_neq a k)) by done. by rewrite IH.
Qed.

Lemma fold_set l acc : NoDup (map fst (acc ++ l)%list) -> fold_left (fun l e => map_set e.1 e.2 l) l acc = (acc ++ l)%list.
Proof.
  revert acc. induction l as [|[k v] l IH]; intros acc H; [by rewrite app_nil_r|]. cbn [fold_left fst snd]. rewrite map_set_new.
  - rewrite IH; [by rewrite <- app_assoc|]. by rewrite <- app_assoc.
  - intros Hin. rewrite map_app in H. apply NoDup_app in H as (_ & H & _). apply (H k Hin). left.
Qed.

(** What a restart reads is the cache that was written. *)
Lemma reload parent cache limit cache' :
  NoDup (keys cache) -> createPersistentReplayCache parent (Some (persist cache)) limit = Ok cache' -> entries cache' = entries cache.
Proof.
  intros Hd H. unfold createPersistentReplayCache in H. run_steps H. injection H as <-. cbn [entries].
  match goal with H : content _ = Some _ |- _ => injection H as <- end.
  match goal with H : match _ with _ => _ end = Ok _ |- _ => injection H as <- end.
  match goal with H : map_result _ _ = Ok _ |- _ => apply read_entries in H as -> end. by apply (fold_set _ []).
Qed.

(** ** The service over time *)

(** A call that runs to a point between its writes, or a restart. *)
Inductive serves (latest : Z) : ReplayCache -> ReplayCache -> Prop :=
| serves_call request enrolled options clock now r ws n cache :
    now_of options clock = Some now -> (now <= latest)%Z -> effective_cache options = Ok cache ->
    verifyDeviceRequest request enrolled (Some options) clock = (r, ws) -> serves latest cache (after_writes cache (take n ws))
| serves_restart parent limit cache cache' :
    createPersistentReplayCache parent (Some (persist cache)) limit = Ok cache' -> serves latest cache cache'.

Lemma serves_keep latest cache cache' key e :
  serves latest cache cache' -> NoDup (keys cache) -> cache_lookup key (entries cache) = Some e -> (latest < e)%Z ->
  NoDup (keys cache') /\ cache_lookup key (entries cache') = Some e.
Proof.
  intros [request enrolled options clock now r ws n c Hn Hl Hc Hv|parent limit c c' Hr] Hd Hk He.
  - split; [by apply writes_distinct|]. eapply call_keeps; [done..|lia].
  - pose proof (reload _ _ _ _ Hd Hr) as E. unfold keys. by rewrite E.
Qed.

Lemma serving_keeps latest cache cache' key e :
  rtc (serves latest) cache cache' -> NoDup (keys cache) -> cache_lookup key (entries cache) = Some e -> (latest < e)%Z ->
  NoDup (keys cache') /\ cache_lookup key (entries cache') = Some e.
Proof.
  induction 1 as [|c1 c2 c3 Hs _ IH]; intros Hd Hk He; [done|]. destruct (serves_keep _ _ _ _ _ Hs Hd Hk He). auto.
Qed.

(** ** Properties *)

(** C5: a request is admitted only when it is authentic, and then its nonce
    was not in use and is recorded for two minutes, unless the caller defers
    that. *)
Theorem device_request_sound request enrolled options clock p ws :
  verifyDeviceRequest request enrolled (Some options) clock = (Ok p, ws) ->
  exists device headers timestamp now, authentic request enrolled options clock device headers timestamp now /\
    p_organization_id p = device_organization device /\
    if deferred options then ws = [] else recorded options (replay_key headers (h_nonce headers)) now ws.
Proof.
  intros (device & headers & t & now & Ha & Hp & Hw)%verify_inv. exists device, headers, t, now. split_and!; [done| |done].
  unfold publicDevice in Hp. apply bind_ok in Hp as (m & _ & [= <-]). done.
Qed.

(** C6: a request that was admitted is not admitted again, whatever requests
    came between, wherever the service stopped between two writes and however
    often it restarted from the file (the clock not going back): but for the
    request that was first admitted exactly a minute before its time and comes
    again exactly a minute after it. *)
Theorem device_replay_refused request1 request2 enrolled1 enrolled2 options1 options2 clock1 clock2 t1 t2 p1 p2 ws1 ws2 cache1 cache2 headers t :
  parseDeviceHeaders (nullish (get request1 "headers") request1) = Ok headers ->
  parseDeviceHeaders (nullish (get request2 "headers") request2) = Ok headers ->
  parseTimestamp (JStr (h_timestamp headers)) = Ok t -> deferred options1 = false -> deferred options2 = false ->
  now_of options1 clock1 = Some t1 -> now_of options2 clock2 = Some t2 ->
  effective_cache options1 = Ok cache1 -> NoDup (keys cache1) ->
  verifyDeviceRequest request1 enrolled1 (Some options1) clock1 = (Ok p1, ws1) ->
  rtc (serves t2) (after_writes cache1 ws1) cache2 -> effective_cache options2 = Ok cache2 ->
  verifyDeviceRequest request2 enrolled2 (Some options2) clock2 = (Ok p2, ws2) ->
  t1 = (t - CLOCK_WINDOW_MS)%Z /\ t2 = (t + CLOCK_WINDOW_MS)%Z.
Proof.
  intros Hh1 Hh2 Ht Hf1 Hf2 Hn1 Hn2 Hc1 Hd H1 Hs Hc2 H2.
  apply verify_inv in H1 as (d1 & h1 & u1 & n1 & A1 & _ & R1). apply verify_inv in H2 as (d2 & h2 & u2 & n2 & A2 & _ & R2).
  destruct A1 as (E1 & N1 & T1 & W1 & _), A2 as (E2 & N2 & T2 & W2 & _). rewrite Hf1 in R1. rewrite Hf2 in R2.
  rewrite Hh1 in E1. injection E1 as <-. rewrite Hh2 in E2. injection E2 as <-.
  rewrite Hn1 in N1. injection N1 as <-. rewrite Hn2 in N2. injection N2 as <-.
  rewrite Ht in T1, T2. injection T1 as <-. injection T2 as <-.
  destruct R1 as (c & Ec & _ & _ & ->), R2 as (c' & Ec' & F2 & _). rewrite Hc1 in Ec. injection Ec as <-. rewrite Hc2 in Ec'. injection Ec' as <-.
  unfold REPLAY_RETENTION_MS, CLOCK_WINDOW_MS in *. destruct (Z.lt_ge_cases t2 (t1 + 120000)) as [Hlt|Hge]; [exfalso|lia].
  set (key := replay_key headers (h_nonce headers)) in *.
  assert (cache_lookup key (entries (after_writes cache1 (purgeReplayCache cache1 t1 ++ [CacheSet key (t1 + 60000 * 2)]))) = Some (t1 + 120000)%Z) as Hk.
  { unfold after_writes. rewrite fold_left_app. cbn [fold_left apply_write entries]. by rewrite lookup_set, String.eqb_refl. }
  destruct (serving_keeps _ _ _ _ _ Hs (writes_distinct _ _ Hd) Hk Hlt) as [Hd2 Hk2].
  by rewrite (untouched _ _ _ (purge_touches _ _ _ _ Hd2 Hk2 Hlt)), Hk2 in F2.
Qed.
End Facts.
