(* ===== verification/DeviceAuthSpec.v ===== *)
(** * Signing and admitting a device's request

    A request that a device signs is admitted; the file of nonces is always
    read again after a restart, within the default bound; and examples. *)

From stdpp Require Import base tactics list sets strings pretty relations.
From Stdlib Require Import Ascii.
From S2P Require Import Prelude JsValue Regex Json Objects Crypto Capability FileSystem DeviceRequest DeviceAuth.
From S2P Require Import DeviceAuthFacts.
Local Open Scope string_scope.
Local Open Scope js_scope.

(** ** Lemmas: the texts of headers *)

Lemma read_digits_ge s : forall acc n, read_digits acc s = Some n -> (acc * 10 ^ N.of_nat (String.length s) <= n)%N.
Proof.
  induction s as [|c s IH]; intros acc n; cbn [read_digits String.length]; [intros [= <-]; rewrite N.mul_1_r; done|].
  destruct (digit c); [|done]. intros H%IH. rewrite Nat2N.inj_succ, N.pow_succ_r by lia. nia.
Qed.

Lemma digit_nonzero c : digit c = true -> c <> "0"%char -> 49 <= code c.
Proof.
  unfold digit, between. intros [H _]%andb_true_iff Hne. apply Nat.leb_le in H. change (code "0") with 48 in H.
  destruct (decide (code c = 48)) as [E|]; [|lia]. destruct Hne. apply (f_equal ascii_of_nat) in E. by rewrite ascii_nat_embedding in E.
Qed.

Lemma timestamp_text z : (0 <= z <= MAX_SAFE_INTEGER)%Z -> parseTimestamp (JStr (pretty z)) = Ok z.
Proof.
  intros Hz. assert (re_test TIMESTAMP (pretty z) = true) as Hm.
  { destruct (pretty_Z_cases z) as [(n & -> & ->)|(n & ? & -> & _)]; [|unfold MAX_SAFE_INTEGER in Hz; lia].
    destruct (pretty_N_numeral n) as [[->|(c & r & E & Hc & Hne & Hr)] Hread]; [reflexivity|]. rewrite E in *.
    apply re_test_spec, m_alt_r. change (String c r) with (String c "" +:+ r). cbn [read_digits] in Hread. rewrite Hc in Hread.
    pose proof (digit_nonzero c Hc Hne). constructor; constructor; cbn [chars length]; try lia; [|done|].
    - repeat constructor. unfold digit, between in *. apply andb_true_iff in Hc as [_ H2]. rewrite H2, andb_true_r. by apply Nat.leb_le.
    - rewrite length_chars. destruct (decide (String.length r <= 15)) as [|Hl]; [done|exfalso]. apply read_digits_ge in Hread.
      assert (10 ^ 16 <= 10 ^ N.of_nat (String.length r))%N by (apply N.pow_le_mono_r; lia).
      unfold MAX_SAFE_INTEGER in Hz. change (10 ^ 16)%N with 10000000000000000%N in *. nia. }
  unfold parseTimestamp. rewrite Hm, read_integer_pretty. cbn [negb of_option mbind result_bind].
  by rewrite (proj2 (Z.ltb_ge _ _)) by lia.
Qed.

Lemma last_elem {A} (l : list A) d : List.last l d ∈ d :: l.
Proof. revert d. induction l as [|x [|y l] IH]; intros d; [left|right; left|]. specialize (IH d). set_solver. Qed.

(** A visible text without a comma is a header. *)
Lemma header_visible p s :
  class_sub p (fun c => visible c && not_char "," c) = true -> s <> "" -> clean p s -> header_text (JStr s) = Some s.
Proof.
  intros Hp Hs Hc. apply (clean_sub _ _ _ Hp) in Hc. unfold header_text. rewrite (proj2 (String.eqb_neq s "")) by done. cbn [orb].
  assert (forall c, c ∈ chars s -> white c = false /\ Ascii.eqb c "," = false) as H.
  { intros c Hin. unfold clean in Hc. rewrite list.Forall_forall in Hc. specialize (Hc c Hin). cbv beta in Hc.
    apply andb_true_iff in Hc as [Hv Hn]. split; [|by apply negb_true_iff].
    assert (class_sub visible (fun c => negb (white c)) = true) as Hw by (vm_compute; reflexivity).
    apply negb_true_iff. exact (class_sub_spec _ _ _ Hw Hv). }
  assert (trimmed s = true) as ->.
  { unfold trimmed. destruct (chars s) as [|c l]; [done|]. rewrite (proj1 (H c ltac:(left))).
    rewrite (proj1 (H _ (last_elem l c))). done. }
  unfold in_chars. replace (existsb _ _) with false; [done|]. symmetry. apply existsb_not_elem_of.
  intros c Hin. rewrite Ascii.eqb_sym. by apply H.
Qed.

(** ** The headers that are sent are the headers that are read *)

Definition header_object (h : Headers) : jsval :=
  JObj [("AgentPass-Device", JStr (h_device h)); ("AgentPass-Timestamp", JStr (h_timestamp h)); ("AgentPass-Nonce", JStr (h_nonce h));
        ("AgentPass-Content-SHA256", JStr (h_digest h)); ("AgentPass-Signature", JStr (h_signature h))].

Definition well_formed_headers (h : Headers) : Prop :=
  re_test DEVICE_ID_PATTERN (h_device h) = true /\ (exists z : Z, h_timestamp h = pretty z) /\ re_test NONCE_PATTERN (h_nonce h) = true /\
  re_test DIGEST_PATTERN (h_digest h) = true /\ re_test BASE64_PATTERN (h_signature h) = true /\ h_signature h <> "".

(** A non-empty text of an expression without white space and commas is a
    header. *)
Lemma header_matches r s :
  only_chars (fun c => visible c && not_char "," c) r = true -> s <> "" -> re_test r s = true -> header_text (JStr s) = Some s.
Proof.
  intros Hr Hs Hm. apply (header_visible (fun c => visible c && not_char "," c)); [vm_compute; reflexivity|done|].
  by apply (clean_matches r).
Qed.

Lemma pretty_header (z : Z) : header_text (JStr (pretty z)) = Some (pretty z).
Proof.
  assert (pretty z <> "" /\ clean (fun c => digit c || Ascii.eqb c "-") (pretty z)) as [H1 H2].
  { assert (forall n : N, pretty n <> "" /\ clean (fun c => digit c || Ascii.eqb c "-") (pretty n)) as H.
    { intros n. destruct (pretty_N_numeral n) as [[->|(c & r & -> & Hc & _ & Hr)] _]; [split; [done|by repeat constructor]|].
      split; [done|]. apply (clean_sub digit); [vm_compute; reflexivity|]. by apply Forall_cons. }
    destruct (pretty_Z_cases z) as [(n & _ & ->)|(n & _ & _ & ->)]; [apply H|]. split; [done|]. apply Forall_cons. split; [done|apply H]. }
  by apply (header_visible (fun c => digit c || Ascii.eqb c "-")); [vm_compute; reflexivity|..].
Qed.

Lemma nonempty_test r s : nullable r = false -> re_test r s = true -> s <> "".
Proof. intros Hn H ->. apply re_test_spec, nullable_spec in H. congruence. Qed.

Lemma headers_read h : well_formed_headers h -> parseDeviceHeaders (header_object h) = Ok h.
Proof.
  intros (Hd & [z Hz] & Hn & Hg & Hs & Hne).
  assert (header_text (JStr (h_device h)) = Some (h_device h)) as E1
    by (apply (header_matches DEVICE_ID_PATTERN); [vm_compute; reflexivity|by apply (nonempty_test DEVICE_ID_PATTERN)|done]).
  assert (header_text (JStr (h_nonce h)) = Some (h_nonce h)) as E2
    by (apply (header_matches NONCE_PATTERN); [vm_compute; reflexivity|by apply (nonempty_test NONCE_PATTERN)|done]).
  assert (header_text (JStr (h_digest h)) = Some (h_digest h)) as E3
    by (apply (header_matches DIGEST_PATTERN); [vm_compute; reflexivity|by apply (nonempty_test DIGEST_PATTERN)|done]).
  assert (header_text (JStr (h_signature h)) = Some (h_signature h)) as E4
    by (apply (header_matches BASE64_PATTERN); [vm_compute; reflexivity|done|done]).
  assert (header_text (JStr (h_timestamp h)) = Some (h_timestamp h)) as E5 by (rewrite Hz; apply pretty_header).
  assert (forall name, name ∈ DEVICE_HEADERS -> canonical_header name = Some name) as Hc.
  { intros name Hin. unfold DEVICE_HEADERS in Hin. repeat (apply elem_of_cons in Hin as [->|Hin]; [reflexivity|]). by apply elem_of_nil in Hin. }
  unfold parseDeviceHeaders, header_object. cbn [mbind result_bind collect_headers].
  repeat (rewrite Hc by (unfold DEVICE_HEADERS; set_solver); cbn [has_own assoc String.eqb Ascii.eqb Bool.eqb];
          rewrite ?bool_decide_false by (by intros [? [=]]); rewrite ?E1, ?E2, ?E3, ?E4, ?E5; cbn [of_option mbind result_bind]).
  cbn [get assoc String.eqb Ascii.eqb Bool.eqb default id as_str of_option mbind result_bind].
  rewrite Hd, Hg, Hs. by destruct h.
Qed.

(** ** Properties *)

Section RoundTrip.
Context `{HHash : Sha256} `{HUrl : UrlParser} `{HKeys : KeyObjects} `{HEc : EcKeys} `{HRead : Base64Reader} `{HPrivate : SigningKeys} {HSign : EcSigningKeys}.

(** The signed text depends on six fields of the request. *)
Lemma text_fields request request' path :
  is_plain request = true -> is_plain request' = true ->
  get request "method" = get request' "method" -> request_target request = JStr path -> request_target request' = JStr path ->
  get request "query" = get request' "query" -> request_digest request = request_digest request' ->
  nullish (get request "timestamp") (get request "timestamp_ms") = nullish (get request' "timestamp") (get request' "timestamp_ms") ->
  get request "nonce" = get request' "nonce" -> signed_text request = signed_text request'.
Proof.
  intros Hp Hp' Hm Ht Ht' Hq Hd Hs Hn. rewrite !signed_text_meaning by done. unfold meaning. by rewrite Hm, Ht, Ht', Hq, Hd, Hs, Hn.
Qed.

(** The request as the service receives it. *)
Definition sent (request headers : jsval) : jsval :=
  JObj [("method", get request "method"); ("path", request_target request); ("body", get request "body"); ("headers", headers)].

(** What a device's request needs to be signed: a path that holds the query, a
    time, a nonce and an id. *)
Definition signable (request : jsval) (id path nonce : string) (t clock : Z) (random : string) : Prop :=
  is_plain request = true /\ get request "device_id" = JStr id /\ request_target request = JStr path /\
  get request "query" = JUndefined /\ re_test DEVICE_ID_PATTERN id = true /\ re_test NONCE_PATTERN nonce = true /\
  nullish (get request "nonce") (JStr random) = JStr nonce /\
  nullish (nullish (get request "timestamp") (get request "timestamp_ms")) (JNum (NInt clock)) = JNum (NInt t) /\
  (0 <= t <= MAX_SAFE_INTEGER)%Z.

Lemma sign_ok request privateKey clock random headers id path nonce t :
  signDeviceRequest request privateKey clock random = Ok headers -> signable request id path nonce t clock random ->
  exists digest text key,
    body_sha256 (nullish (get request "body") (JBytes "")) = Ok digest /\
    signed_text (signed_request (sent request headers) digest t nonce) = Ok text /\ import_private privateKey = Some key /\
    headers = header_object (mkHeaders id (pretty t) nonce digest (base64 (sign_device key text))).
Proof.
  intros H (Hp & Hid & Hpath & Hquery & _ & _ & Hnonce & Htime & Ht). unfold signDeviceRequest in H. rewrite Hid, Hnonce, Htime in H.
  run_steps H. injection H as <-.
  match goal with H : createDeviceSignature _ _ = Ok _ |- _ => unfold createDeviceSignature in H; run_steps H; injection H as <- end.
  match goal with H : as_str _ = Some _ |- _ => injection H as <- end. match goal with H : to_string _ = Some _ |- _ => injection H as <- end.
  match goal with H : body_sha256 _ = Ok ?d |- _ => rename d into digest, H into Hd end.
  match goal with H : signed_text _ = Ok ?x |- _ => rename x into text, H into Htext end.
  eexists digest, text, _. split_and!; [done| |done|done]. rewrite <- Htext.
  assert (re_test DIGEST_PATTERN digest = true) as Hdig by (unfold body_sha256 in Hd; run_steps Hd; injection Hd as <-; apply sha256_hex).
  set (r1 := assign request "body_digest" (JStr digest)). set (r2 := assign r1 "timestamp" (JNum (NInt t))).
  assert (is_plain r1 = true) as P1 by (by destruct request). assert (is_plain r2 = true) as P2 by (by destruct request).
  assert (forall k, get (assign r2 "nonce" (JStr nonce)) k =
    if String.eqb k "nonce" then JStr nonce else if String.eqb k "timestamp" then JNum (NInt t)
    else if String.eqb k "body_digest" then JStr digest else get request k) as Hg.
  { intros k. unfold r2, r1 in *. rewrite get_assign by done. destruct (String.eqb k "nonce"); [done|].
    rewrite get_assign by done. destruct (String.eqb k "timestamp"); [done|]. by rewrite get_assign by done. }
  assert (request_target (assign r2 "nonce" (JStr nonce)) = request_target request) as Htarget by (unfold request_target; by rewrite !Hg).
  apply (text_fields _ _ path); [done|by destruct request|by rewrite Hg|by unfold signed_request, sent; rewrite Hpath|by rewrite Htarget|by rewrite Hg| |by rewrite !Hg|by rewrite Hg].
  unfold request_digest. rewrite !Hg. reflexivity.
Qed.

(** What admits a request of the device [id] with a [nonce] and the time [t],
    signed with the key [private]: its enrolled key verifies what the private
    key signs, the device is enabled and of the organization, the time is within
    a minute, and, unless the caller records the nonce itself, in the cache
    the nonce is not in use and there is room. *)
Record admits (private : PrivateKey) (enrolled : Enrolled) (options : Options) (clock : Z) (id nonce : string) (t now : Z)
    (cache : ReplayCache) : Prop := mkAdmits {
  a_key : exists device key, check_device enrolled options id = Ok device /\ devicePublicKey device = Ok key /\
            forall text, device_verifies key text (sign_device private text) = true;
  a_length : forall text, String.length (sign_device private text) = 64;
  a_arguments : arguments_of enrolled (Some options) = (enrolled, options);
  a_now : now_of options clock = Some now;
  a_window : (Z.abs (now - t) <= CLOCK_WINDOW_MS)%Z;
  a_replay : deferred options = false ->
    effective_cache options = Ok cache /\
    cache_lookup (id +:+ String ":" nonce) (entries (after_writes cache (purgeReplayCache cache now))) = None /\
    exists limit, maxEntries cache = Some limit /\ (1 <= limit)%Z /\
      (Z.of_nat (length (entries (after_writes cache (purgeReplayCache cache now)))) < limit)%Z
}.

(** What admission writes: the nonce, for two minutes, unless that is deferred
    to the caller. *)
Definition nonce_writes (options : Options) (id nonce : string) (now : Z) (cache : ReplayCache) : list CacheWrite :=
  if deferred options then []
  else (purgeReplayCache cache now ++ [CacheSet (id +:+ String ":" nonce) (now + REPLAY_RETENTION_MS)%Z])%list.

(** The nonce is recorded. *)
Lemma consume_fresh options id nonce now cache limit :
  effective_cache options = Ok cache ->
  cache_lookup (id +:+ String ":" nonce) (entries (after_writes cache (purgeReplayCache cache now))) = None ->
  maxEntries cache = Some limit -> (1 <= limit)%Z ->
  (Z.of_nat (length (entries (after_writes cache (purgeReplayCache cache now)))) < limit)%Z ->
  consume options (id +:+ String ":" nonce) now =
  (Ok tt, (purgeReplayCache cache now ++ [CacheSet (id +:+ String ":" nonce) (now + REPLAY_RETENTION_MS)%Z])%list).
Proof.
  intros Hcache Hfresh Hmax Hlim Hroom. unfold consume. rewrite Hcache. cbn [lift obind]. cbv zeta.
  rewrite bool_decide_false by (rewrite Hfresh; by intros [? [=]]). rewrite writes_max, Hmax. cbn [lift obind].
  rewrite (proj2 (Z.ltb_ge _ _)), (proj2 (Z.leb_gt _ _)) by done. reflexivity.
Qed.

(** A request whose headers carry the signature of its text is admitted. *)
Lemma presented_accepted request private enrolled options clock id nonce t now cache digest text :
  is_object request = true -> body_sha256 (nullish (get request "body") (JBytes "")) = Ok digest ->
  signed_text (signed_request request digest t nonce) = Ok text ->
  parseDeviceHeaders (nullish (get request "headers") request) = Ok (mkHeaders id (pretty t) nonce digest (base64 (sign_device private text))) ->
  re_test NONCE_PATTERN nonce = true -> (0 <= t <= MAX_SAFE_INTEGER)%Z ->
  admits private enrolled options clock id nonce t now cache ->
  exists p, verifyDeviceRequest request enrolled (Some options) clock = (Ok p, nonce_writes options id nonce now cache).
Proof.
  intros Hobj Hd Htext Hread Hnonce Ht [(device & key & Hdev & Hkey & Hver) Hlen Harg Hnow Hwin Hrep].
  unfold verifyDeviceRequest. rewrite Harg. unfold authenticate. rewrite Hobj. cbn [negb]. rewrite Hread.
  cbn [mbind result_bind]. unfold now_of in Hnow. rewrite Hnow. cbn [of_option mbind result_bind h_timestamp].
  rewrite timestamp_text by done. cbn [mbind result_bind h_nonce]. unfold canonicalNonce at 1. cbn [to_string of_option mbind result_bind h_device].
  rewrite Hnonce. cbn [negb mbind result_bind]. rewrite (proj2 (Z.ltb_ge _ _)) by done. rewrite Hdev. cbn [mbind result_bind].
  match goal with |- context [check_signature _ _ ?h _ _] => assert (check_signature request device h t nonce = Ok tt) as -> end.
  { assert (re_test BASE64_PATTERN (base64 (sign_device private text)) = true) as Hb by (apply re_test_spec, base64_matches).
    unfold check_signature. rewrite Hd. cbn [mbind result_bind h_digest h_signature].
    rewrite String.eqb_refl. cbn [negb]. unfold parseSignature. rewrite Hb, base64_reader_encoded, Hlen, Nat.eqb_refl, String.eqb_refl.
    cbn [negb orb mbind result_bind]. rewrite Htext. cbn [mbind result_bind]. rewrite Hkey. cbn [mbind result_bind]. by rewrite Hver. }
  cbn [mbind result_bind lift obind]. unfold replay_key, nonce_writes. cbn [h_device].
  assert (exists p, publicDevice device id (bool_decide (o_includeAuthenticationMetadata options = JBool true)) = Ok p) as [p Hp].
  { unfold publicDevice. rewrite Hkey. case_bool_decide; by eexists. }
  exists p. fold (deferred options). destruct (deferred options) eqn:Hdef; [cbn [obind]; by rewrite Hp|].
  destruct (Hrep eq_refl) as (Hcache & Hfresh & limit & Hmax & Hlim & Hroom).
  rewrite (consume_fresh _ _ _ _ _ _ Hcache Hfresh Hmax Hlim Hroom). cbn [obind lift]. rewrite Hp. by rewrite app_nil_r.
Qed.

(** A request that a device signs is admitted: the headers that
    [signDeviceRequest] makes are accepted by [verifyDeviceRequest] where
    [admits] holds, and the nonce is recorded for two minutes, unless that is
    deferred to the caller. *)
Theorem signed_device_request_accepted
    request privateKey sign_clock random headers id path nonce t private enrolled options clock now cache :
  signable request id path nonce t sign_clock random -> signDeviceRequest request privateKey sign_clock random = Ok headers ->
  import_private privateKey = Some private -> admits private enrolled options clock id nonce t now cache ->
  exists p, verifyDeviceRequest (sent request headers) enrolled (Some options) clock = (Ok p, nonce_writes options id nonce now cache).
Proof.
  intros Hsig Hs Hpriv Ha. destruct (sign_ok _ _ _ _ _ _ _ _ _ Hs Hsig) as (digest & text & k & Hd & Htext & Hk & ->).
  rewrite Hpriv in Hk. injection Hk as <-. destruct Hsig as (_ & _ & _ & _ & Hidp & Hnp & _ & _ & Ht).
  refine (presented_accepted (sent request _) _ _ _ _ _ _ _ _ _ _ _ eq_refl Hd Htext _ Hnp Ht Ha). apply headers_read.
  split_and!; [done|by eexists|done| |by apply re_test_spec, base64_matches|]; cbn [h_digest h_signature].
  - unfold body_sha256 in Hd. run_steps Hd. injection Hd as <-. apply sha256_hex.
  - intros E. pose proof (a_length _ _ _ _ _ _ _ _ _ Ha text) as Hl. destruct (sign_device private text) as [|a [|b [|c s]]]; done.
Qed.
End RoundTrip.

(** ** Examples *)

Module Sample.
Definition key_objects : KeyObjects := {|
  value_type := fun _ => None; object_key := fun _ => None; import_der := fun _ => None;
  import_value := fun v => if is_str v "pem" then Some Capability.Sample.issuer_key else None;
  verify_with := fun _ text bytes => Some (String.eqb bytes (Capability.Sample.sign_text text)) |}.
Definition ec_keys : EcKeys := {| named_curve := fun _ => None; verify_sha256 := fun _ _ _ => None |}.
Definition reader : Base64Reader := {| base64_reader := base64_bytes; base64_reader_encoded := base64_bytes_base64 |}.
Definition ec_signing : @EcSigningKeys Capability.Sample.signing_keys := {| sign_sha256 := fun _ text => text |}.
End Sample.

#[local] Existing Instances toy_sha256 DeviceRequest.Sample.url_parser Sample.key_objects Sample.ec_keys Sample.reader
  Capability.Sample.signing_keys Sample.ec_signing.

Module Run.
Definition nonce : string := DeviceRequest.Sample.nonce.
Definition device : jsval :=
  JObj [("device_id", JStr "device-1"); ("organization_id", JStr "org-1"); ("status", JStr "active"); ("public_key", JStr "pem")].
Definition enrolled : Enrolled := DeviceValue (JArr [device]).
Definition request : jsval :=
  JObj [("device_id", JStr "device-1"); ("method", JStr "post"); ("path", JStr "/v1/audit?b=2&a=1"); ("body", JStr "{}");
        ("timestamp", JNum (NInt 1000000)); ("nonce", JStr nonce)].
Definition headers : jsval := match signDeviceRequest request JUndefined 0 "" with Ok h => h | Throw _ => JUndefined end.
Definition empty : ReplayCache := mkCache [] (Some DEFAULT_REPLAY_LIMIT).
Definition options (cache : ReplayCache) (now : Z) : Options :=
  mkOptions (JNum (NInt now)) (JStr "org-1") JUndefined JUndefined (Cache cache) NoCache JUndefined JUndefined.

(** The request presented with a cache at a time. *)
Definition present (cache : ReplayCache) (now : Z) : logged auth_error CacheWrite Principal :=
  verifyDeviceRequest (sent request headers) enrolled (Some (options cache now)) 0.
Definition principal : Principal := mkPrincipal (JStr "device-1") (JStr "org-1") None.
Definition after (cache : ReplayCache) (now : Z) : ReplayCache := after_writes cache (snd (present cache now)).

Lemma presented cache now : fst (present cache now) = Ok principal -> present cache now = (Ok principal, snd (present cache now)).
Proof. destruct (present cache now). cbn. by intros ->. Qed.

(** The headers, as they are read. *)
Definition read : Headers :=
  match parseDeviceHeaders headers with Ok h => h | Throw _ => mkHeaders "" "" "" "" "" end.
Lemma headers_read_ok : is_ok (parseDeviceHeaders headers) = true -> parseDeviceHeaders headers = Ok read.
Proof. intros (h & E)%is_ok_true. unfold read. by rewrite E. Qed.

Example tampered :
  fst (verifyDeviceRequest (JObj (set_field "body" (JStr "{ }") (fields_of (sent request headers)))) enrolled
         (Some (options empty 1000000)) 0) = Throw BodyDigestMismatch.
Proof. vm_compute. reflexivity. Qed.
Example replayed : fst (present (after empty 1000000) 1000000) = Throw ReplayDetected.
Proof. vm_compute. reflexivity. Qed.
End Run.

Lemma device_request_sound_witness :
  exists device headers timestamp now,
    authentic (sent Run.request Run.headers) Run.enrolled (Run.options Run.empty 1000000) 0 device headers timestamp now /\
    p_organization_id Run.principal = device_organization device /\
    if deferred (Run.options Run.empty 1000000) then snd (Run.present Run.empty 1000000) = []
    else recorded (Run.options Run.empty 1000000) (replay_key headers (h_nonce headers)) now (snd (Run.present Run.empty 1000000)).
Proof.
  exact (device_request_sound (sent Run.request Run.headers) Run.enrolled (Run.options Run.empty 1000000) 0 Run.principal
    (snd (Run.present Run.empty 1000000)) (Run.presented Run.empty 1000000 ltac:(vm_compute; reflexivity))).
Defined.

(** The boundary: the same request, a minute before and a minute after its
    time, is admitted twice. *)
Lemma device_replay_refused_witness :
  (940000 = 1000000 - CLOCK_WINDOW_MS /\ 1060000 = 1000000 + CLOCK_WINDOW_MS)%Z.
Proof.
  apply (device_replay_refused (sent Run.request Run.headers) (sent Run.request Run.headers) Run.enrolled Run.enrolled
    (Run.options Run.empty 940000) (Run.options (Run.after Run.empty 940000) 1060000) 0 0 940000 1060000 Run.principal Run.principal
    (snd (Run.present Run.empty 940000)) (snd (Run.present (Run.after Run.empty 940000) 1060000))
    Run.empty (Run.after Run.empty 940000) Run.read 1000000);
    [exact (Run.headers_read_ok ltac:(vm_compute; reflexivity))|exact (Run.headers_read_ok ltac:(vm_compute; reflexivity))|vm_compute; reflexivity|
     reflexivity|reflexivity|reflexivity|reflexivity|reflexivity|constructor|
     exact (Run.presented Run.empty 940000 ltac:(vm_compute; reflexivity))|apply rtc_refl|reflexivity|
     exact (Run.presented (Run.after Run.empty 940000) 1060000 ltac:(vm_compute; reflexivity))].
Defined.

Lemma signed_device_request_accepted_witness :
  exists p, verifyDeviceRequest (sent Run.request Run.headers) Run.enrolled (Some (Run.options Run.empty 1000000)) 0 =
    (Ok p, [CacheSet ("device-1" +:+ String ":" Run.nonce) 1120000]).
Proof.
  apply (signed_device_request_accepted Run.request JUndefined 0 "" Run.headers "device-1" "/v1/audit?b=2&a=1" Run.nonce 1000000
    (tt : @PrivateKey Capability.Sample.signing_keys) Run.enrolled (Run.options Run.empty 1000000) 0 1000000 Run.empty);
    [|vm_compute; reflexivity|reflexivity|].
  - unfold signable. split_and!; first [reflexivity|vm_compute; congruence].
  - refine (mkAdmits _ Run.enrolled (Run.options Run.empty 1000000) 0 _ _ _ _ Run.empty _ _ eq_refl eq_refl _ _).
    + exists Run.device, Capability.Sample.issuer_key. split_and!; [vm_compute; reflexivity|vm_compute; reflexivity|].
      intros text. exact (String.eqb_refl _).
    + intros text. exact (sign_text_length text).
    + vm_compute. congruence.
    + intros _. split; [reflexivity|]. split; [vm_compute; reflexivity|].
      exists DEFAULT_REPLAY_LIMIT. split_and!; [reflexivity|vm_compute; congruence|vm_compute; reflexivity].
Defined.
