(* ===== verification/DeviceRestart.v ===== *)
(** * The service can always restart from its file of nonces

    Whatever the service did with a cache of the default bound, and wherever
    it stopped, the file it left is small enough and of the form that the
    next start accepts. *)

From stdpp Require Import base tactics list sets strings pretty relations.
From Stdlib Require Import Ascii.
From S2P Require Import Prelude JsValue Regex Json Objects Crypto Capability FileSystem DeviceRequest DeviceAuth.
From S2P Require Import DeviceAuthFacts DeviceAuthSpec.
Local Open Scope string_scope.
Local Open Scope js_scope.

(** ** Lemmas: the size of the file *)

Definition ascii_char (c : ascii) : bool := Nat.ltb (code c) 128.

Lemma utf8_ascii s : clean ascii_char s -> utf8 s = s.
Proof.
  induction s as [|c s IH]; [done|]. intros (Hc & Hs)%Forall_cons. cbn [utf8]. unfold ascii_char in Hc. by rewrite Hc, (IH Hs).
Qed.

Lemma visible_ascii s : clean visible s -> clean ascii_char s.
Proof. apply clean_sub. vm_compute. reflexivity. Qed.

Lemma join_length sep l : String.length sep = 1 -> String.length (join sep l) <= total String.length l + length l.
Proof.
  intros Hs. induction l as [|s [|t l] IH]; [simpl; lia|simpl; lia|].
  change (join sep (s :: t :: l)) with (s +:+ sep +:+ join sep (t :: l)). rewrite !length_append, Hs.
  change (total String.length (s :: t :: l)) with (String.length s + total String.length (t :: l)).
  change (length (s :: t :: l)) with (S (length (t :: l))). lia.
Qed.

Lemma total_upper {A} (f : A -> nat) n (l : list A) : Forall (fun x => f x <= n) l -> total f l <= n * length l.
Proof. induction 1 as [|x l Hx _ IH]; simpl; lia. Qed.

Lemma total_map {A B} (f : B -> nat) (g : A -> B) l : total f (map g l) = total (fun x => f (g x)) l.
Proof. induction l as [|x l IH]; [done|]. cbn [map total]. by rewrite IH. Qed.

(** ** Entries *)

Definition entry_form (e : string * Z) : Prop := key_form e.1 /\ (0 <= e.2 <= MAX_SAFE_INTEGER)%Z.

Lemma id_unescaped c : id_char c = true -> escape c = String c "".
Proof.
  intros H. assert (forallb (fun c => implb (id_char c) (String.eqb (escape c) (String c ""))) all_ascii = true) as Ha by (vm_compute; reflexivity).
  rewrite forallb_elem_of in Ha. specialize (Ha c (in_all_ascii c)). rewrite H in Ha. by apply String.eqb_eq.
Qed.

Lemma id_escapes s : clean id_char s -> escapes s = s.
Proof.
  induction s as [|c s IH]; [done|]. intros (Hc & Hs)%Forall_cons. cbn [escapes]. rewrite (id_unescaped c Hc), (IH Hs). done.
Qed.

Lemma pretty_length z : (0 <= z <= MAX_SAFE_INTEGER)%Z -> String.length (pretty z) <= 16.
Proof.
  intros H%timestamp_text. unfold parseTimestamp in H. destruct (re_test TIMESTAMP (pretty z)) eqn:E; [|done].
  apply re_test_spec, (matches_max_len _ _ 16) in E; [|reflexivity]. by rewrite length_chars in E.
Qed.

Definition entry_text (e : string * Z) : string := "[" +:+ (quote e.1 +:+ ("," +:+ pretty e.2)) +:+ "]".

Lemma entry_text_bound e : entry_form e -> clean ascii_char (entry_text e) /\ String.length (entry_text e) <= 278.
Proof.
  destruct e as [k v]. intros [[Hk Hl] Hv]. cbn [fst snd] in *. unfold entry_text, quote. cbn [fst snd]. rewrite id_escapes by done. split.
  - apply clean_app. split; [by repeat constructor|]. apply clean_app. split; [|by repeat constructor]. apply clean_app. split.
    + apply Forall_cons. split; [done|]. apply clean_app. split; [|by repeat constructor].
      apply (clean_sub id_char); [vm_compute; reflexivity|done].
    + apply clean_app. split; [by repeat constructor|]. apply visible_ascii, pretty_clean.
  - rewrite !length_append. cbn [String.length]. rewrite !length_append. cbn [String.length]. pose proof (pretty_length v Hv). lia.
Qed.

Definition entries_text (l : list (string * Z)) : string := "[" +:+ join "," (map entry_text l) +:+ "]".

Lemma stringify_entries l : stringify (JArr (map (fun e => JArr [JStr e.1; JNum (NInt e.2)]) l)) = entries_text l.
Proof.
  unfold entries_text. cbn [stringify]. rewrite map_map. do 3 f_equal.
Qed.

Definition file_text (l : list (string * Z)) : string :=
  "{" +:+ join "," [quote "version" +:+ ":" +:+ "1"; quote "entries" +:+ ":" +:+ entries_text l] +:+ "}".

Lemma stringify_cache l : stringify (cache_json l) = file_text l.
Proof. unfold file_text. rewrite <- stringify_entries. reflexivity. Qed.

Lemma file_bound l :
  Forall entry_form l -> (Z.of_nat (String.length (utf8 (stringify (cache_json l)))) <= 40 + 279 * Z.of_nat (length l))%Z.
Proof.
  intros H. assert (Forall (fun e => clean ascii_char (entry_text e) /\ String.length (entry_text e) <= 278) l) as He
    by (eapply Forall_impl; [exact H|apply entry_text_bound]).
  rewrite stringify_cache. rewrite utf8_ascii.
  - unfold file_text. rewrite !length_append. change (join "," [?a; ?b]) with (a +:+ "," +:+ b). rewrite !length_append.
    assert (String.length (entries_text l) <= 2 + 279 * length l).
    { unfold entries_text. rewrite !length_append. cbn [String.length]. pose proof (join_length "," (map entry_text l) eq_refl) as Hj.
      rewrite length_map, total_map in Hj.
      assert (total (fun e => String.length (entry_text e)) l <= 278 * length l)
        by (apply total_upper; eapply Forall_impl; [exact He|by intros ? [_ ?]]). lia. }
    change (String.length (quote "version")) with 9. change (String.length (quote "entries")) with 9. cbn [String.length]. lia.
  - assert (clean ascii_char (entries_text l)) as Hc.
    { unfold entries_text. apply clean_app. split; [by repeat constructor|]. apply clean_app. split; [|by repeat constructor].
      apply join_clean; [by repeat constructor|]. apply Forall_map. eapply Forall_impl; [exact He|by intros ? [? _]]. }
    unfold file_text. change (join "," [?a; ?b]) with (a +:+ "," +:+ b). rewrite !clean_app.
    split_and!; first [exact Hc|by repeat constructor].
Qed.

(** ** The caches of a service with the default bound *)

Definition restartable (cache : ReplayCache) : Prop :=
  NoDup (keys cache) /\ Forall entry_form (entries cache) /\ (Z.of_nat (length (entries cache)) <= DEFAULT_REPLAY_LIMIT)%Z.

Lemma read_entries_ok l :
  Forall entry_form l -> map_result read_entry (map (fun e => JArr [JStr e.1; JNum (NInt e.2)]) l) = Ok l.
Proof.
  induction 1 as [|[k v] l [[_ Hk] Hv] _ IH]; [done|]. cbn [map map_result fst snd read_entry] in *.
  rewrite (proj2 (Nat.ltb_ge _ _)) by lia. cbn [safe_integer]. rewrite (proj2 (Z.leb_le _ _)) by lia. cbn [of_option mbind result_bind].
  rewrite (proj2 (Z.ltb_ge _ _)) by lia. cbn [mbind result_bind]. by rewrite IH.
Qed.

Lemma restarts cache :
  restartable cache ->
  createPersistentReplayCache private_directory (Some (persist cache)) JUndefined = Ok (mkCache (entries cache) (Some DEFAULT_REPLAY_LIMIT)).
Proof.
  intros (Hd & Hf & Hl). unfold createPersistentReplayCache. change (negb (isDirectory private_directory) || _ || _ || _) with false.
  change (or_throw (createReplayCache JUndefined) LimitInvalid) with (Ok (E := cache_error) (mkCache [] (Some DEFAULT_REPLAY_LIMIT))).
  cbn [mbind result_bind]. unfold persist, atomicReplayWrite. cbn [stat content].
  set (bytes := Z.of_nat _). assert (bytes <= MAX_CACHE_BYTES)%Z as Hb.
  { pose proof (file_bound (entries cache) Hf). unfold MAX_CACHE_BYTES, DEFAULT_REPLAY_LIMIT in *. lia. }
  change (negb (isFile (private_file bytes)) || _ || _ || _ || _ || _) with ((MAX_CACHE_BYTES <? bytes)%Z || false || false).
  rewrite (proj2 (Z.ltb_ge _ _)) by done. cbn [orb of_option mbind result_bind].
  change (is_int (get (cache_json (entries cache)) "version") 1) with true.
  change (get (cache_json (entries cache)) "entries") with (JArr (map (fun e => JArr [JStr e.1; JNum (NInt e.2)]) (entries cache))).
  cbn [negb mbind result_bind maxEntries default]. rewrite length_map. unfold id. rewrite (proj2 (Z.ltb_ge _ _)) by done.
  rewrite read_entries_ok by done. cbn [mbind result_bind]. by rewrite (fold_set _ []).
Qed.

Definition is_delete (w : CacheWrite) : Prop := match w with CacheDelete _ => True | CacheSet _ _ => False end.

Lemma deletes_restartable ws cache : Forall is_delete ws -> restartable cache -> restartable (after_writes cache ws).
Proof.
  intros H. revert cache. induction H as [|w ws Hw _ IH]; intros cache Hr; [done|]. apply IH. destruct w as [|key]; [done|].
  destruct Hr as (Hd & Hf & Hl). split_and!; cbn [apply_write entries].
  - by apply filter_distinct.
  - apply Forall_forall. intros e [_ Hin]%list_elem_of_filter. rewrite list.Forall_forall in Hf. by apply Hf.
  - pose proof (length_filter (fun e : string * Z => String.eqb e.1 key = false) (entries cache)). unfold DEFAULT_REPLAY_LIMIT in *. lia.
Qed.

Lemma purge_deletes cache now : Forall is_delete (purgeReplayCache cache now).
Proof. apply Forall_map, Forall_true. done. Qed.

Lemma map_set_form key v l : entry_form (key, v) -> Forall entry_form l -> Forall entry_form (map_set key v l).
Proof.
  intros He. induction 1 as [|[k x] l Hx Hl IH]; cbn [map_set]; [by apply Forall_singleton|]. destruct (String.eqb k key); by constructor.
Qed.

Lemma map_set_length key v l : length (map_set key v l) <= S (length l).
Proof. induction l as [|[k x] l IH]; cbn [map_set length]; [lia|]. destruct (String.eqb k key); cbn [length]; lia. Qed.

Lemma set_restartable cache key v :
  restartable cache -> entry_form (key, v) -> (Z.of_nat (length (entries cache)) < DEFAULT_REPLAY_LIMIT)%Z ->
  restartable (apply_write cache (CacheSet key v)).
Proof.
  intros (Hd & Hf & _) He Hl. split_and!; cbn [apply_write entries]; [by apply set_distinct|by apply map_set_form|].
  pose proof (map_set_length key v (entries cache)). unfold DEFAULT_REPLAY_LIMIT in *. lia.
Qed.

Lemma take_last {A} n (l : list A) x : take n (l ++ [x])%list = take n l \/ take n (l ++ [x])%list = (l ++ [x])%list.
Proof.
  destruct (decide (n <= length l)) as [Hn|Hn]; [left; by rewrite take_app_le|right]. apply take_ge. rewrite length_app. cbn. lia.
Qed.

Section Service.
Context `{HHash : Sha256} `{HUrl : UrlParser} `{HKeys : KeyObjects} `{HEc : EcKeys} `{HRead : Base64Reader}.

(** What a service of the default bound has in memory, or on disk after it
    stopped: it starts with no nonces, serves calls and restarts. *)
Definition served (latest : Z) (cache : ReplayCache) : Prop :=
  rtc (fun c c' => serves latest c c' /\ maxEntries c' = Some DEFAULT_REPLAY_LIMIT) (mkCache [] (Some DEFAULT_REPLAY_LIMIT)) cache.

Lemma serves_restartable latest cache cache' :
  serves latest cache cache' -> maxEntries cache = Some DEFAULT_REPLAY_LIMIT -> (latest + REPLAY_RETENTION_MS <= MAX_SAFE_INTEGER)%Z ->
  restartable cache -> restartable cache'.
Proof.
  intros [request enrolled options clock now r ws n c Hn Hl Hc Hv|parent limit c c' Hr] Hm Hlast Hok.
  - assert (forall ws', Forall is_delete ws' -> restartable (after_writes c (take n ws'))) as Hdel
      by (intros ws' Hw; apply deletes_restartable; [by apply Forall_take|done]).
    destruct (verify_writes _ _ _ _ _ _ _ _ Hv Hn Hc) as [->|[->|(key & Hk & Hlow & c' & Ec & _ & Hroom & ->)]].
    + by apply Hdel.
    + apply Hdel, purge_deletes.
    + rewrite Hc in Ec. injection Ec as <-. destruct (take_last n (purgeReplayCache c now) (CacheSet key (now + REPLAY_RETENTION_MS))) as [->| ->].
      { apply Hdel, purge_deletes. }
      unfold after_writes. rewrite fold_left_app. apply set_restartable; [by apply deletes_restartable; [apply purge_deletes|]| |by apply Hroom].
      split; [done|]. unfold REPLAY_RETENTION_MS, CLOCK_WINDOW_MS in *. cbn [snd]. lia.
  - destruct Hok as (Hd & Hok). pose proof (reload _ _ _ _ Hd Hr) as E. unfold restartable, keys. by rewrite E.
Qed.

(** A service of the default bound can always restart, with the cache it
    had: whatever it served, and wherever it stopped between two writes, the
    file fits the bound on its size and is read as it was written (for times
    whose expiry is a safe integer). *)
Theorem restart_reads_cache latest cache :
  (latest + REPLAY_RETENTION_MS <= MAX_SAFE_INTEGER)%Z -> served latest cache ->
  createPersistentReplayCache private_directory (Some (persist cache)) JUndefined = Ok cache.
Proof.
  intros Hlast Hs. assert (restartable cache /\ maxEntries cache = Some DEFAULT_REPLAY_LIMIT) as [Hr Hm].
  { assert (restartable (mkCache [] (Some DEFAULT_REPLAY_LIMIT))) as H0 by (split_and!; [constructor|constructor|vm_compute; discriminate]).
    unfold served in Hs. remember (mkCache [] (Some DEFAULT_REPLAY_LIMIT)) as start eqn:E. assert (maxEntries start = Some DEFAULT_REPLAY_LIMIT) as Hm by (by rewrite E).
    clear E. induction Hs as [c|c1 c2 c3 [Hs1 Hm2] _ IH]; [done|]. apply IH; [|done]. by eapply serves_restartable. }
  rewrite restarts by done. rewrite <- Hm. by destruct cache.
Qed.
End Service.

#[local] Existing Instances toy_sha256 DeviceRequest.Sample.url_parser DeviceAuthSpec.Sample.key_objects DeviceAuthSpec.Sample.ec_keys
  DeviceAuthSpec.Sample.reader.

Lemma restart_reads_cache_witness :
  createPersistentReplayCache private_directory
    (Some (persist (after_writes Run.empty (take 1 (snd (Run.present Run.empty 1000000)))))) JUndefined =
  Ok (after_writes Run.empty (take 1 (snd (Run.present Run.empty 1000000)))).
Proof.
  apply (restart_reads_cache 1000000); [vm_compute; congruence|]. apply rtc_once. split; [|vm_compute; reflexivity].
  eapply (serves_call 1000000 _ _ (Run.options Run.empty 1000000) 0 1000000);
    [reflexivity|vm_compute; congruence|reflexivity|exact (Run.presented Run.empty 1000000 ltac:(vm_compute; reflexivity))].
Defined.
