(* ===== verification/ApiToken.v ===== *)
(** * API tokens and roles (apps/cloud-api/src/auth.mjs)

    A member's token is kept as a salted key that scrypt derives from it; a
    token authenticates as the first active record whose key it gives, and the
    principal's role is compared with the one that a route requires. *)

From stdpp Require Import base tactics list sets strings pretty.
From Stdlib Require Import Ascii.
From S2P Require Import Prelude JsValue Regex Json Objects Crypto Capability DeviceRequest.
Local Open Scope string_scope.
Local Open Scope js_scope.

(** ** Constants and services of the host *)

Definition TOKEN_KEY_BYTES : nat := 32.
Definition TOKEN_SALT_BYTES : nat := 16.
Definition SCRYPT_N : N := 16384.
Definition SCRYPT_R : N := 8.
Definition SCRYPT_P : N := 1.

(** [crypto.scryptSync] of the bytes of a token and a salt, with the
    parameters above; [None] when it throws. *)
Class Scrypt := {
  scrypt : string -> string -> option string;
  scrypt_length : forall token salt key, scrypt token salt = Some key -> String.length key = TOKEN_KEY_BYTES
}.

(** [Buffer.from(text, "base64url")], and [toString("base64url")]. *)
Class Base64UrlReader := {
  base64url_reader : string -> string;
  base64url_reader_encoded : forall bytes, base64url_reader (url_text (base64 bytes)) = bytes
}.

Definition base64url (bytes : string) : string := url_text (base64 bytes).

(** ** Roles *)

Definition ROLES : list string := ["owner"; "admin"; "auditor"; "viewer"].

Definition ROLE_LEVEL (role : string) : nat :=
  if String.eqb role "owner" then 4 else if String.eqb role "admin" then 3
  else if String.eqb role "auditor" then 2 else if String.eqb role "viewer" then 1 else 0.

Definition roleAllows (actualRole requiredRole : jsval) : bool :=
  match actualRole, requiredRole with
  | JStr a, JStr r => includes ROLES a && includes ROLES r && Nat.leb (ROLE_LEVEL r) (ROLE_LEVEL a)
  | _, _ => false
  end.

Definition PRINCIPAL_FIELDS : list string := ["token_id"; "organization_id"; "member_id"; "role"].

(** The fields of a record that are defined. *)
Definition principalOf (record : jsval) : jsval :=
  JObj (flat_map (fun k => if is_undefined (get record k) then [] else [(k, get record k)]) PRINCIPAL_FIELDS).

(** [typeof principal === "object"], and the organization is the one asked
    for; organizations are texts. *)
Definition of_organization (principal organizationId : jsval) : bool :=
  is_object principal && bool_decide (get principal "organization_id" = organizationId).

Definition requireOrganizationRole (principal organizationId requiredRole : jsval) : result auth_error jsval :=
  throw_if negb (of_organization principal organizationId) with OrganizationMismatch ;;
  throw_if negb (roleAllows (get principal "role") requiredRole) with RoleDenied ;;
  Ok (principalOf principal).

(** With two arguments the second is the role; without an organization only
    the role is compared. *)
Definition requireRole (principal organizationId requiredRole : jsval) : result auth_error jsval :=
  let '(organizationId, requiredRole) :=
    if is_undefined requiredRole then (JUndefined, organizationId) else (organizationId, requiredRole) in
  if is_undefined organizationId then
    throw_if negb (is_object principal) || negb (roleAllows (get principal "role") requiredRole) with RoleDenied ;;
    Ok (principalOf principal)
  else requireOrganizationRole principal organizationId requiredRole.

(** ** Records of tokens *)

Definition url_char (c : ascii) : bool := alnum c || in_chars "_-" c.

Definition control_char (c : ascii) : bool := Nat.ltb (code c) 32 || Nat.eqb (code c) 127.

Definition assertToken (token : jsval) : result auth_error string :=
  match token with
  | JStr t =>
      throw_if Nat.ltb (String.length t) 16 || Nat.ltb 512 (String.length t) || existsb control_char (chars t) with InvalidToken ;;
      Ok t
  | _ => Throw InvalidToken
  end.

(** The text after a prefix; the longest prefix in a class and the rest. *)
Fixpoint strip (prefix s : string) : option string :=
  match prefix, s with
  | EmptyString, _ => Some s
  | String c p, String d s => if Ascii.eqb c d then strip p s else None
  | _, EmptyString => None
  end.

Fixpoint span (p : ascii -> bool) (s : string) : string * string :=
  match s with
  | String c s' => if p c then let '(a, b) := span p s' in (String c a, b) else ("", s)
  | EmptyString => ("", "")
  end.

(** A group of one or more characters of a class. *)
Definition group (p : ascii -> bool) (s : string) : option (string * string) :=
  let '(a, b) := span p s in if String.eqb a "" then None else Some (a, b).

(** [TOKEN_HASH_PATTERN.exec(stored)]: no separator is in the class of the
    group before it, so every group is as long as it can be. *)
Definition token_hash (stored : string) : option (string * string * string * string * string) :=
  s ← strip "scrypt$N=" stored; '(n, s) ← group digit s;
  s ← strip ",r=" s; '(r, s) ← group digit s;
  s ← strip ",p=" s; '(p, s) ← group digit s;
  s ← strip "$" s; '(salt, s) ← group url_char s;
  s ← strip "." s; '(digest, s) ← group url_char s;
  if String.eqb s "" then Some (n, r, p, salt, digest) else None.

Section Tokens.
Context `{HScrypt : Scrypt} `{HReader : Base64UrlReader}.

Definition token_record (salt digest : string) : string :=
  "scrypt$N=" +:+ pretty SCRYPT_N +:+ ",r=" +:+ pretty SCRYPT_R +:+ ",p=" +:+ pretty SCRYPT_P +:+ "$" +:+
  base64url salt +:+ "." +:+ base64url digest.

(** [salt] is what [crypto.randomBytes] returns. *)
Definition hashApiToken (token : jsval) (salt : string) : result auth_error string :=
  token ← assertToken token;
  digest ← of_option TypeFailure (scrypt (utf8 token) salt);
  Ok (token_record salt digest).

Definition decodeBase64Url (value : string) (expectedLength : nat) : option string :=
  if re_test (some url_char) value then
    let bytes := base64url_reader value in
    if Nat.eqb (String.length bytes) expectedLength && String.eqb (base64url bytes) value then Some bytes else None
  else None.

Definition is_number (n : N) (text : string) : bool := bool_decide (read_digits 0 text = Some n).

Definition verifyApiToken (token stored : jsval) : bool :=
  match token, stored with
  | JStr token, JStr stored =>
      match token_hash stored with
      | Some (n, r, p, saltText, digestText) =>
          if is_number SCRYPT_N n && is_number SCRYPT_R r && is_number SCRYPT_P p then
            match decodeBase64Url saltText TOKEN_SALT_BYTES, decodeBase64Url digestText TOKEN_KEY_BYTES with
            | Some salt, Some expected =>
                match scrypt (utf8 token) salt with Some actual => String.eqb actual expected | None => false end
            | _, _ => false
            end
          else false
      | None => false
      end
  | _, _ => false
  end.

Definition TOKEN_INPUTS : list string := ["token"; "tokenId"; "organizationId"; "memberId"; "role"].

Definition nonempty (v : jsval) : bool := match v with JStr s => negb (String.eqb s "") | _ => false end.

(** [createApiTokenRecord]; [uuid] and [salt] are what the host draws. *)
Definition createApiTokenRecord (input : jsval) (uuid salt : string) : result auth_error jsval :=
  throw_if bool_decide (input = JNull) with TypeFailure ;;
  let tokenId := match get input "tokenId" with JUndefined => JStr uuid | v => v end in
  throw_if negb (forallb (includes TOKEN_INPUTS) (map fst (fields_of input))) || negb (nonempty tokenId) with TokenRecord ;;
  throw_if negb (nonempty (get input "organizationId")) || negb (nonempty (get input "memberId")) with TokenRecord ;;
  throw_if negb (one_of ROLES (get input "role")) with TokenRecord ;;
  hash ← hashApiToken (get input "token") salt;
  Ok (JObj [("token_id", tokenId); ("organization_id", get input "organizationId"); ("member_id", get input "memberId");
            ("role", get input "role"); ("token_hash", JStr hash)]).

(** The collections that hold records: a [Map], an array, or an object. *)
Inductive TokenRecords := TokenMap (records : list jsval) | TokenValue (v : jsval).

Definition tokenRecords (records : TokenRecords) : list jsval :=
  match records with
  | TokenMap l | TokenValue (JArr l) => l
  | TokenValue (JObj fs) => match get (JObj fs) "tokens" with JArr l => l | _ => ordered_values fs end
  | TokenValue (JBytes b) => map (fun c => JNum (NInt (Z.of_nat (code c)))) (chars b)
  | TokenValue _ => []
  end.

Definition active (record : jsval) : bool :=
  truthy record && negb (bool_decide (get record "revoked" = JBool true)) && negb (bool_decide (get record "disabled" = JBool true))
  && is_undefined (get record "revoked_at").

Definition record_hash (record : jsval) : jsval :=
  nullish (get record "token_hash") (nullish (get record "tokenHash") (get record "hash")).

Definition authenticateApiToken (token : jsval) (records : TokenRecords) : result auth_error jsval :=
  match token, records with
  | JStr _, TokenValue (JHost _) => Throw OutsideModel
  | JStr _, _ =>
      match find (fun record => active record && verifyApiToken token (record_hash record)) (tokenRecords records) with
      | Some record => Ok (principalOf record)
      | None => Throw InvalidToken
      end
  | _, _ => Throw InvalidToken
  end.
End Tokens.

(** ** Lemmas *)

Lemma span_clean p a b : clean p a -> match b with String c _ => p c = false | EmptyString => True end -> span p (a +:+ b) = (a, b).
Proof.
  intros Ha Hb. induction a as [|c a IH].
  - change ("" +:+ b) with b. destruct b as [|c b]; [done|]. cbn [span]. by rewrite Hb.
  - apply Forall_cons in Ha as [Hc Ha]. change (String c a +:+ b) with (String c (a +:+ b)). cbn [span]. by rewrite Hc, (IH Ha).
Qed.

Lemma group_clean p a b :
  clean p a -> a <> "" -> match b with String c _ => p c = false | EmptyString => True end -> group p (a +:+ b) = Some (a, b).
Proof. intros Ha Hne Hb. unfold group. rewrite span_clean by done. by rewrite (proj2 (String.eqb_neq _ _)). Qed.

Lemma strip_app p s : strip p (p +:+ s) = Some s.
Proof.
  induction p as [|c p IH]; [done|]. change (strip (String c p) (String c (p +:+ s)) = Some s). cbn [strip]. by rewrite Ascii.eqb_refl.
Qed.

Lemma url_text_clean s : clean (fun c => Capability.b64_char c || Ascii.eqb c "=") s -> clean url_char (url_text s).
Proof.
  induction s as [|c s IH]; [intros _; constructor|]. intros (Hc & Hs)%Forall_cons. cbn [url_text]. destruct (Ascii.eqb c "=") eqn:E; [by apply IH|].
  apply Forall_cons. split; [|by apply IH]. cbv beta in Hc. rewrite ?E, orb_false_r in Hc.
  assert (class_sub Capability.b64_char (fun c => url_char (if Ascii.eqb c "+" then "-" else if Ascii.eqb c "/" then "_" else c)%char) = true) as H
    by (vm_compute; reflexivity).
  exact (class_sub_spec _ _ _ H Hc).
Qed.

Lemma base64url_clean bytes : clean url_char (base64url bytes).
Proof.
  apply url_text_clean, (clean_matches Capability.BASE64); [vm_compute; reflexivity|]. apply re_test_spec, Capability.base64_matches.
Qed.

Section Facts.
Context `{HScrypt : Scrypt} `{HReader : Base64UrlReader}.

Lemma base64url_nonempty bytes : bytes <> "" -> base64url bytes <> "".
Proof.
  intros H E. apply H. apply (f_equal base64url_reader) in E. unfold base64url in E. rewrite base64url_reader_encoded in E.
  rewrite E. exact (base64url_reader_encoded "").
Qed.

Lemma group_number (n : N) b :
  match b with String c _ => digit c = false | EmptyString => True end -> group digit (pretty n +:+ b) = Some (pretty n, b).
Proof.
  intros Hb. destruct (pretty_N_numeral n) as [[->|(c & r & -> & Hc & _ & Hr)] _]; (apply group_clean; [|done..]); [by repeat constructor|].
  by apply Forall_cons.
Qed.

Lemma group_url bytes b :
  bytes <> "" -> match b with String c _ => url_char c = false | EmptyString => True end ->
  group url_char (base64url bytes +:+ b) = Some (base64url bytes, b).
Proof. intros H Hb. apply group_clean; [apply base64url_clean|by apply base64url_nonempty|done]. Qed.

Lemma record_read salt digest :
  salt <> "" -> digest <> "" ->
  token_hash (token_record salt digest) = Some (pretty SCRYPT_N, pretty SCRYPT_R, pretty SCRYPT_P, base64url salt, base64url digest).
Proof.
  intros Hs Hd. unfold token_record, token_hash.
  do 3 (rewrite strip_app; cbn [mbind option_bind]; rewrite group_number by done; cbn [mbind option_bind]).
  rewrite strip_app. cbn [mbind option_bind]. rewrite group_url by done. cbn [mbind option_bind].
  rewrite strip_app. cbn [mbind option_bind]. by rewrite <- (string_app_nil (base64url digest)), group_url, string_app_nil by done.
Qed.

Lemma decode_encoded bytes n : bytes <> "" -> String.length bytes = n -> decodeBase64Url (base64url bytes) n = Some bytes.
Proof.
  intros Hne Hn. unfold decodeBase64Url. assert (re_test (some url_char) (base64url bytes) = true) as ->.
  { apply re_test_spec, class_inv. split_and!; [apply base64url_clean| |done].
    pose proof (base64url_nonempty _ Hne). destruct (base64url bytes); [done|]. cbn. lia. }
  cbv zeta. assert (base64url_reader (base64url bytes) = bytes) as -> by apply base64url_reader_encoded.
  by rewrite Hn, Nat.eqb_refl, String.eqb_refl.
Qed.

Lemma verify_sound token stored :
  verifyApiToken token stored = true ->
  exists t text n r p salt key, token = JStr t /\ stored = JStr text /\ token_hash text = Some (n, r, p, base64url salt, base64url key) /\
    String.length salt = TOKEN_SALT_BYTES /\ scrypt (utf8 t) salt = Some key.
Proof.
  unfold verifyApiToken. intros H. destruct token as [ | | | |t| | | | | ]; try done. destruct stored as [ | | | |text| | | | | ]; try done.
  destruct (token_hash text) as [[[[[n r] p] st] dt]|] eqn:Et; [|done]. destruct (is_number SCRYPT_N n && _ && _); [|done].
  assert (forall value k bytes, decodeBase64Url value k = Some bytes -> value = base64url bytes /\ String.length bytes = k) as Hdec.
  { unfold decodeBase64Url. intros value k bytes Hb. destruct (re_test _ value); [|done]. destruct (_ && _) eqn:E; [|done].
    injection Hb as <-. guards. split; [done|by apply Nat.eqb_eq]. }
  destruct (decodeBase64Url st _) as [salt|] eqn:Es; [|done]. destruct (decodeBase64Url dt _) as [key|] eqn:Ed; [|done].
  apply Hdec in Es as [-> Hs], Ed as [-> Hk]. destruct (scrypt (utf8 t) salt) as [actual|] eqn:Ek; [|done].
  apply String.eqb_eq in H as ->. by exists t, text, n, r, p, salt, key.
Qed.

(** ** Properties *)

(** The record of a token verifies exactly the texts from which scrypt
    derives the key that it derives from the token. *)
Theorem token_record_verifies token salt record other :
  hashApiToken (JStr token) salt = Ok record -> String.length salt = TOKEN_SALT_BYTES ->
  (verifyApiToken (JStr other) (JStr record) = true <-> scrypt (utf8 other) salt = scrypt (utf8 token) salt).
Proof.
  intros H Hs. unfold hashApiToken in H. run_steps H. injection H as <-.
  match goal with H : assertToken _ = Ok _ |- _ => unfold assertToken in H; run_steps H; injection H as <- end.
  match goal with H : scrypt _ _ = Some ?d |- _ => rename d into digest, H into Hd end.
  pose proof (scrypt_length _ _ _ Hd) as Hl.
  assert (salt <> "" /\ digest <> "") as [Hns Hnd] by (unfold TOKEN_SALT_BYTES, TOKEN_KEY_BYTES in *; split; intros ->; discriminate).
  unfold verifyApiToken. rewrite record_read by done. change (is_number SCRYPT_N _ && _ && _) with true.
  rewrite !decode_encoded by done. rewrite Hd. destruct (scrypt (utf8 other) salt) as [actual|]; [|done].
  rewrite String.eqb_eq. naive_solver.
Qed.

Lemma role_rank actual required :
  roleAllows actual required = true <->
  exists a r, actual = JStr a /\ required = JStr r /\ a ∈ ROLES /\ r ∈ ROLES /\ ROLE_LEVEL r <= ROLE_LEVEL a.
Proof.
  split.
  - destruct actual as [ | | | |a| | | | | ]; try done. destruct required as [ | | | |r| | | | | ]; try done. cbn [roleAllows]. intros H.
    guards. exists a, r. rewrite <- !includes_true. split_and!; try done. by apply Nat.leb_le.
  - intros (a & r & -> & -> & Ha%includes_true & Hr%includes_true & Hl%Nat.leb_le). cbn [roleAllows]. by rewrite Ha, Hr, Hl.
Qed.

Lemma principal_get record k : get (principalOf record) k = if bool_decide (k ∈ PRINCIPAL_FIELDS) then get record k else JUndefined.
Proof.
  unfold principalOf. unfold PRINCIPAL_FIELDS. cbn [flat_map app].
  destruct (is_undefined (get record "token_id")) eqn:E1, (is_undefined (get record "organization_id")) eqn:E2,
    (is_undefined (get record "member_id")) eqn:E3, (is_undefined (get record "role")) eqn:E4;
    rewrite ?is_undefined_true in *; case_bool_decide as Hk;
    repeat first [apply elem_of_cons in Hk as [->|Hk] | by apply elem_of_nil in Hk]; cbn; try congruence;
    rewrite !not_elem_of_cons in Hk; destruct_and!; by rewrite ?(proj2 (String.eqb_neq _ _)).
Qed.

Lemma principal_idem record : principalOf (principalOf record) = principalOf record.
Proof.
  unfold principalOf at 1 3. f_equal. assert (forall l, (forall k, k ∈ l -> k ∈ PRINCIPAL_FIELDS) ->
    flat_map (fun k => if is_undefined (get (principalOf record) k) then [] else [(k, get (principalOf record) k)]) l =
    flat_map (fun k => if is_undefined (get record k) then [] else [(k, get record k)]) l) as H; [|by apply H].
  induction l as [|k l IH]; intros Hl; [done|]. cbn [flat_map]. rewrite principal_get, bool_decide_true by (apply Hl; left).
  f_equal. apply IH. intros k' Hk. apply Hl. by right.
Qed.

(** C9: when [authenticateApiToken] accepts a token and [requireOrganizationRole]
    accepts its principal for an organization and a role, the token verifies
    against an active record, which is of that organization and has a role of at
    least the rank that is required; the principal is that of the record,
    without the hash.  (Of the routes this covers those that are reached with a
    token: with human sessions configured the service authenticates the session
    instead, and calls only the second function.) *)
Theorem organization_access token records organizationId requiredRole principal q :
  authenticateApiToken token records = Ok principal ->
  requireOrganizationRole principal organizationId requiredRole = Ok q ->
  exists record, record ∈ tokenRecords records /\ active record = true /\ verifyApiToken token (record_hash record) = true /\
    get record "organization_id" = organizationId /\ roleAllows (get record "role") requiredRole = true /\
    q = principalOf record /\ get q "token_hash" = JUndefined.
Proof.
  intros Ha Hr. assert (exists record, find (fun record => active record && verifyApiToken token (record_hash record)) (tokenRecords records) = Some record
    /\ principal = principalOf record) as (record & Hf & ->).
  { unfold authenticateApiToken in Ha. destruct token as [ | | | |t| | | | | ]; try done.
    destruct (find _ (tokenRecords records)) as [record|]; [exists record; split; [done|]|]; destruct records as [|[]]; naive_solver. }
  apply find_some in Hf as [Hin Hf]. guards. unfold requireOrganizationRole in Hr. run_steps Hr. injection Hr as <-. guards.
  match goal with H : of_organization _ _ = true |- _ => unfold of_organization in H end. guards.
  rewrite principal_idem. exists record. split_and!; [by apply list_elem_of_In|done|done| | |done|by rewrite principal_get].
  - by match goal with H : get (principalOf record) _ = organizationId |- _ => rewrite principal_get in H end.
  - by match goal with H : roleAllows (get (principalOf record) _) _ = true |- _ => rewrite principal_get in H end.
Qed.
End Facts.

(** ** Examples *)

Module Sample.
Definition standard_char (c : ascii) : ascii := if Ascii.eqb c "-" then "+"%char else if Ascii.eqb c "_" then "/"%char else c.

Fixpoint pad (s : string) : string :=
  match s with
  | String a (String b (String c (String d s))) => String a (String b (String c (String d (pad s))))
  | String a (String b (String c EmptyString)) => String a (String b (String c "="))
  | String a (String b EmptyString) => String a (String b "==")
  | s => s
  end.

Definition url_bytes (s : string) : string := Capability.base64_bytes (pad (map_chars standard_char s)).

Lemma digit_back n : n < 64 ->
  Ascii.eqb (b64_digit n) "=" = false /\
  standard_char (if Ascii.eqb (b64_digit n) "+" then "-" else if Ascii.eqb (b64_digit n) "/" then "_" else b64_digit n)%char = b64_digit n.
Proof. intros H. do 64 (destruct n as [|n]; [split; reflexivity|]). lia. Qed.

Lemma url_digit n s : n < 64 -> map_chars standard_char (url_text (String (b64_digit n) s)) = String (b64_digit n) (map_chars standard_char (url_text s)).
Proof. intros H. destruct (digit_back n H) as [H1 H2]. cbn [url_text]. rewrite H1. cbn [map_chars]. by rewrite H2. Qed.

Lemma padded bytes : pad (map_chars standard_char (url_text (base64 bytes))) = base64 bytes.
Proof.
  assert (forall a, code a / 4 < 64) as H1 by (intros a; apply Nat.Div0.div_lt_upper_bound; apply code_below).
  assert (forall a b, code a mod 4 * 16 + code b / 16 < 64) as H2.
  { intros a b. pose proof (Nat.mod_upper_bound (code a) 4). pose proof (code_below b).
    assert (code b / 16 < 16) by (apply Nat.Div0.div_lt_upper_bound; lia). lia. }
  assert (forall b c, code b mod 16 * 4 + code c / 64 < 64) as H3.
  { intros b c. pose proof (Nat.mod_upper_bound (code b) 16). pose proof (code_below c).
    assert (code c / 64 < 4) by (apply Nat.Div0.div_lt_upper_bound; lia). lia. }
  assert (forall c, code c mod 64 < 64) as H4 by (intros c; by apply Nat.mod_upper_bound).
  assert (forall a, code a mod 4 * 16 < 64) as H5 by (intros a; pose proof (Nat.mod_upper_bound (code a) 4); lia).
  assert (forall a, code a mod 16 * 4 < 64) as H6 by (intros a; pose proof (Nat.mod_upper_bound (code a) 16); lia).
  revert bytes. fix IH 1. intros [|a [|b [|c s]]]; cbn [base64]; [done| | |]; rewrite !url_digit by auto; cbn [pad];
    [reflexivity|reflexivity|]. by rewrite IH.
Qed.

Definition reader : Base64UrlReader := {|
  base64url_reader := url_bytes;
  base64url_reader_encoded := fun bytes => eq_trans (f_equal Capability.base64_bytes (padded bytes)) (Capability.base64_bytes_base64 bytes) |}.

Lemma toy_length k n : String.length (hex_word n k) = k.
Proof. revert n. induction k as [|k IH]; intros n; [done|]. cbn [hex_word String.length]. by rewrite IH. Qed.

Definition toy_key (token salt : string) : string := hex_word (text_sum (salt +:+ token)) TOKEN_KEY_BYTES.

Lemma toy_key_length token salt key : Some (toy_key token salt) = Some key -> String.length key = TOKEN_KEY_BYTES.
Proof.
  assert (forall k, k = key -> toy_key token salt = k -> String.length key = TOKEN_KEY_BYTES) as H by (intros k -> <-; apply toy_length).
  intros E. apply (H key); [done|]. exact (f_equal (default "") E).
Qed.

Definition toy_scrypt : Scrypt := {| scrypt := fun token salt => Some (toy_key token salt); scrypt_length := toy_key_length |}.
#[local] Existing Instances reader toy_scrypt.

Definition salt : string := "0123456789abcdef".
Definition token : string := "ap_0123456789abcdef".
Definition input : jsval :=
  JObj [("token", JStr token); ("organizationId", JStr "org-1"); ("memberId", JStr "member-1"); ("role", JStr "admin")].
Definition record : jsval := match createApiTokenRecord input "token-1" salt with Ok r => r | Throw _ => JUndefined end.
Definition hash : string := match hashApiToken (JStr token) salt with Ok h => h | Throw _ => "" end.
Definition records : TokenRecords := TokenValue (JObj [("tokens", JArr [JNull; record])]).
Definition principal : jsval := principalOf record.

Example wrong_organization : requireOrganizationRole principal (JStr "org-2") (JStr "viewer") = Throw OrganizationMismatch.
Proof. vm_compute. reflexivity. Qed.
Example role_too_low : requireOrganizationRole principal (JStr "org-1") (JStr "owner") = Throw RoleDenied.
Proof. vm_compute. reflexivity. Qed.
End Sample.

Lemma token_record_verifies_witness :
  @verifyApiToken Sample.toy_scrypt Sample.reader (JStr Sample.token) (JStr Sample.hash) = true <->
  @scrypt Sample.toy_scrypt (utf8 Sample.token) Sample.salt = @scrypt Sample.toy_scrypt (utf8 Sample.token) Sample.salt.
Proof.
  apply (@token_record_verifies Sample.toy_scrypt Sample.reader Sample.token Sample.salt Sample.hash Sample.token);
    [vm_compute; reflexivity|reflexivity].
Defined.

Lemma organization_access_witness :
  exists record, record ∈ tokenRecords Sample.records /\ active record = true /\
    @verifyApiToken Sample.toy_scrypt Sample.reader (JStr Sample.token) (record_hash record) = true /\
    get record "organization_id" = JStr "org-1" /\ roleAllows (get record "role") (JStr "auditor") = true /\
    Sample.principal = principalOf record /\ get Sample.principal "token_hash" = JUndefined.
Proof.
  apply (@organization_access Sample.toy_scrypt Sample.reader (JStr Sample.token) Sample.records (JStr "org-1") (JStr "auditor")
    Sample.principal Sample.principal); vm_compute; reflexivity.
Defined.
