(* ===== verification/CloudControl.v ===== *)
(** * The client of the cloud's control bundles (lib/cloud-control.mjs)

    The broker's client signs a request for the device's bundle, verifies what
    the service answers and installs it as the device's head.  Its functions
    are programs over what they ask of the host: the clock, the nonce, the
    signer, [fetch], the timer, the files of the head and the variables of the
    client.  A response is a record with the chunks of its body; texts are
    those whose code units are below 256. *)

From stdpp Require Import base tactics list sets strings pretty relations.
From Stdlib Require Import Ascii.
From S2P Require Import Prelude JsValue Regex IsoTime Json NodePath Crypto FileSystem Program Capability BundleJson ControlBundle ControlBundleState.
From S2P Require Import DeviceRequest DeviceAuth.
Local Open Scope string_scope.
Local Open Scope js_scope.

(** ** Errors and constants *)

Inductive cloud_reason :=
| INVALID_CONFIG | INVALID_URL | TIMEOUT | NETWORK | HTTP | REDIRECT | RESPONSE | RESPONSE_TOO_LARGE | SIGNATURE
| OFFLINE_UNAVAILABLE | STATE.

#[export] Instance cloud_reason_eq_dec : EqDecision cloud_reason.
Proof. solve_decision. Defined.

(** What is thrown: a [CloudControlError], an error of control-bundle-v2.mjs,
    or another error, which may be an [AbortError]. *)
Inductive cloud_exn := CloudControlError (r : cloud_reason) | Bundled (e : bundle_exn) | Other (abort : bool).

Definition of_bundle {A} (r : result bundle_exn A) : result cloud_exn A :=
  match r with Ok a => Ok a | Throw PlainError => Throw (Other false) | Throw e => Throw (Bundled e) end.

Definition of_auth {A} (r : result auth_error A) : result cloud_exn A :=
  match r with
  | Ok a => Ok a
  | Throw DeviceRequest.OutsideModel => Throw (Bundled BundleJson.OutsideModel)
  | Throw _ => Throw (Other false)
  end.

Definition outside {A} : result cloud_exn A := Throw (Bundled BundleJson.OutsideModel).

Definition CLOUD_CONTROL_MAX_RESPONSE_BYTES : Z := CONTROL_BUNDLE_MAX_BYTES.
Definition CLOUD_CONTROL_DEFAULT_TIMEOUT_MS : Z := 15000.
Definition LOOPBACK : list string := ["localhost"; "127.0.0.1"; "::1"].

Definition stableError (e : cloud_exn) : cloud_exn :=
  match e with
  | CloudControlError _ => e
  | Bundled PlainError | Other _ => CloudControlError STATE
  | Bundled _ => e
  end.

(** ** The configuration *)

(** The URLs of the host: [new URL(text)], which throws for the empty text, and
    [new URL(path, base)]. *)
Record Url := mkUrl {
  protocol : string; hostname : string; username : string; password : string; hash : string; url_path : string;
  search : string; href : string
}.

Class Urls := {
  read_url : string -> option Url;
  resolve_url : string -> Url -> option Url;
  read_url_empty : read_url "" = None
}.

(** The functions used where none are given. *)
Definition date_now : jsval := JFun 0.
Definition random_nonce : jsval := JFun 1.
Definition global_fetch : jsval := JFun 2.

Record Config := mkConfig {
  endpoint : Url; organizationId : jsval; deviceId : jsval; audience : jsval; trust : jsval; statePath : string;
  clock : jsval; nonce : jsval; fetchImpl : jsval; signer : jsval; privateKey : jsval;
  timeoutMs : Z; maxResponseBytes : Z
}.

(** [input.a ?? input.b ?? ...] *)
Fixpoint aliases (input : jsval) (names : list string) : jsval :=
  match names with
  | [] => JUndefined
  | [k] => get input k
  | k :: names => nullish (get input k) (aliases input names)
  end.

Definition boundedInteger (v : jsval) (min max : Z) : result cloud_exn Z :=
  match safe_integer v with
  | Some n => throw_if (n <? min)%Z || (max <? n)%Z with CloudControlError INVALID_CONFIG ;; Ok n
  | None => Throw (CloudControlError INVALID_CONFIG)
  end.

(** [clockMilliseconds(value)] of a primitive; texts and objects are converted
    by the host. *)
Definition clockMilliseconds (v : jsval) : result cloud_exn Z :=
  let number := match v with
                | JNull | JBool false => Ok (JNum (NInt 0))
                | JBool true => Ok (JNum (NInt 1))
                | JNum _ => Ok v
                | JUndefined => Ok (JNum NNaN)
                | _ => outside
                end in
  n ← number;
  match safe_integer n with
  | Some n => throw_if (n <? 0)%Z with CloudControlError INVALID_CONFIG ;; Ok n
  | None => Throw (CloudControlError INVALID_CONFIG)
  end.

(** [hostname.replace(/^\[|\]$/g, "")] *)
Definition without_brackets (s : string) : string :=
  let s := match s with String "[" s => s | _ => s end in
  match rev (chars s) with
  | c :: l => if Ascii.eqb c "]" then String.string_of_list_ascii (rev l) else s
  | [] => s
  end.

Definition path_join (dir file : string) : string :=
  normalize (if String.eqb dir "" then file else dir +:+ "/" +:+ file).

(** [path.basename]: the last segment that is not empty. *)
Definition basename (p : string) : string :=
  List.last (filter (fun s => s <> "") (NodePath.split_on "/" p)) "".

(** A path option: absolute, with a proper last segment. *)
Definition check_path (v : jsval) : result cloud_exn unit :=
  match v with
  | JStr p => throw_if negb (isAbsolute p) || String.eqb (basename p) "." || String.eqb (basename p) ".."
                with CloudControlError INVALID_CONFIG ;; Ok tt
  | _ => Throw (Other false)
  end.

Section Configuration.
Context `{HKeys : KeyObjects} `{HUrls : Urls}.

Definition private_pem : re := somewhere (lit "PRIVATE KEY").

(** An object that says it is a public key and is none is not modelled. *)
Definition assertPublicKey (v : jsval) : result cloud_exn unit :=
  let bad := CloudControlError INVALID_CONFIG in
  throw_if match v with JStr s | JBytes s => re_test private_pem s | _ => false end with bad ;;
  throw_if bool_decide (value_type v = Some "private") with bad ;;
  key ← if bool_decide (value_type v = Some "public") then of_option (Bundled BundleJson.OutsideModel) (object_key v)
        else of_option bad (import_value v);
  throw_if negb (String.eqb (asymmetricKeyType key) "ed25519") || negb (String.eqb (key_type key) "public") with bad ;;
  Ok tt.

Definition validateEndpoint (value : string) (loopbackTestMode : bool) : result cloud_exn Url :=
  parsed ← of_option (CloudControlError INVALID_URL) (read_url value);
  throw_if negb (String.eqb (protocol parsed) "https:")
           && negb (loopbackTestMode && String.eqb (protocol parsed) "http:" && includes LOOPBACK (without_brackets (hostname parsed)))
    with CloudControlError INVALID_URL ;;
  throw_if negb (String.eqb (username parsed) "") || negb (String.eqb (password parsed) "") || negb (String.eqb (hash parsed) "")
    with CloudControlError INVALID_URL ;;
  Ok parsed.

(** The checks of the names and the key that both functions below make. *)
Definition check_subject (organization device issuer keyId publicKey : jsval) : result cloud_exn unit :=
  throw_if negb (coerced_test UUID (nullish organization (JStr ""))) || negb (coerced_test UUID (nullish device (JStr "")))
    with CloudControlError INVALID_CONFIG ;;
  throw_if negb (coerced_test IDENTIFIER (nullish issuer (JStr ""))) || negb (coerced_test IDENTIFIER (nullish keyId (JStr "")))
    with CloudControlError INVALID_CONFIG ;;
  assertPublicKey publicKey.

Definition trust_js (publicKey issuer keyId : jsval) : jsval :=
  JObj [("public_key", publicKey); ("issuer", issuer); ("key_id", keyId)].
Definition audience_of (organization device : jsval) : jsval :=
  JObj [("organization_id", organization); ("device_id", device)].

Definition is_true (v : jsval) : bool := bool_decide (v = JBool true).

(** [/v1/organizations/.../bundles/...] *)
Definition bundle_path (organization device : jsval) : result cloud_exn string :=
  o ← of_option (Other false) (to_string organization);
  d ← of_option (Other false) (to_string device);
  Ok ("/v1/organizations/" +:+ percent_encode uri_mark (utf8 o) +:+ "/bundles/" +:+ percent_encode uri_mark (utf8 d)).

(** [normalizeOptions]; [cwd] is the working directory. *)
Definition normalizeOptions (input : jsval) (cwd : string) : result cloud_exn Config :=
  throw_if negb (is_plain input) with CloudControlError INVALID_CONFIG ;;
  let organizationId := aliases input ["organizationId"; "organization_id"] in
  let deviceId := aliases input ["deviceId"; "device_id"] in
  let issuer := aliases input ["issuer"; "controlIssuer"] in
  let keyId := aliases input ["keyId"; "key_id"; "controlKeyId"] in
  let publicKey := aliases input ["publicKey"; "public_key"; "controlPublicKey"] in
  _ ← check_subject organizationId deviceId issuer keyId publicKey;
  let loopbackTestMode := is_true (get input "loopbackTestMode") || is_true (get input "allowLoopbackHttp") in
  suppliedUrl ← of_option (CloudControlError INVALID_CONFIG) (as_str (aliases input ["endpoint"; "url"; "baseUrl"]));
  parsed ← validateEndpoint suppliedUrl loopbackTestMode;
  endpoint ← if truthy (get input "endpoint") then Ok parsed
             else path ← bundle_path organizationId deviceId; of_option (Other false) (resolve_url path parsed);
  statePath ← match aliases input ["statePath"; "state_path"] with
              | JUndefined | JNull =>
                  dir ← of_option (Other false) (as_str (nullish (get input "stateDir") (JStr cwd)));
                  Ok (path_join dir "control-v2.state.json")
              | v => of_option (Other false) (as_str v)
              end;
  throw_if negb (isAbsolute statePath) with CloudControlError INVALID_CONFIG ;;
  let clock := nullish (aliases input ["clock"; "now"]) date_now in
  let nonce := nullish (get input "nonce") random_nonce in
  let fetchImpl := nullish (aliases input ["fetchImpl"; "fetch"]) global_fetch in
  throw_if negb (is_function clock) || negb (is_function nonce) || negb (is_function fetchImpl) with CloudControlError INVALID_CONFIG ;;
  timeoutMs ← boundedInteger (nullish (get input "timeoutMs") (JNum (NInt CLOUD_CONTROL_DEFAULT_TIMEOUT_MS))) 1 120000;
  maxResponseBytes ← boundedInteger (nullish (get input "maxResponseBytes") (JNum (NInt CLOUD_CONTROL_MAX_RESPONSE_BYTES))) 1 4194304;
  Ok {| endpoint := endpoint; organizationId := organizationId; deviceId := deviceId;
        audience := audience_of organizationId deviceId; trust := trust_js publicKey issuer keyId; statePath := statePath;
        clock := clock; nonce := nonce; fetchImpl := fetchImpl;
        signer := aliases input ["signer"; "sign"; "signRequest"; "signing"];
        privateKey := aliases input ["privateKey"; "devicePrivateKey"; "signingKey"];
        timeoutMs := timeoutMs; maxResponseBytes := maxResponseBytes |}.

(** An option that must be [true] when it is given. *)
Definition only_true (v : jsval) : result cloud_exn unit :=
  throw_if negb (is_undefined v) && negb (is_true v) with CloudControlError INVALID_CONFIG ;; Ok tt.

(** [if (v !== undefined) check(v)], and the property it becomes. *)
Definition if_given (v : jsval) (check : jsval -> result cloud_exn unit) : result cloud_exn unit :=
  if is_undefined v then Ok tt else check v.
Definition given (name : string) (v : jsval) : list (string * jsval) := if is_undefined v then [] else [(name, v)].

Definition check_url (loopbackTestMode : bool) (v : jsval) : result cloud_exn unit :=
  text ← of_option (CloudControlError INVALID_URL) (to_string v);
  _ ← validateEndpoint text loopbackTestMode; Ok tt.

Definition check_boolean (v : jsval) : result cloud_exn unit :=
  match v with JBool _ => Ok tt | _ => Throw (CloudControlError INVALID_CONFIG) end.

(** [buildCloudControlConfigFragment] *)
Definition buildCloudControlConfigFragment (input : jsval) : result cloud_exn jsval :=
  throw_if negb (is_plain input) with CloudControlError INVALID_CONFIG ;;
  let organizationId := aliases input ["organizationId"; "organization_id"] in
  let deviceId := aliases input ["deviceId"; "device_id"] in
  let issuer := aliases input ["issuer"; "controlIssuer"] in
  let keyId := aliases input ["keyId"; "key_id"; "controlKeyId"] in
  let publicKey := aliases input ["publicKey"; "public_key"; "controlPublicKey"] in
  _ ← check_subject organizationId deviceId issuer keyId publicKey;
  _ ← only_true (get input "required");
  _ ← only_true (aliases input ["capabilityRequired"; "capability_required"]);
  let url := aliases input ["url"; "baseUrl"; "endpoint"] in
  _ ← if_given url (check_url (is_true (get input "loopbackTestMode") || is_true (get input "allowLoopbackHttp")));
  let statePath := aliases input ["statePath"; "state_path"] in
  _ ← if_given statePath check_path;
  let devicePrivateKeyPath := aliases input ["devicePrivateKeyPath"; "device_private_key_path"] in
  _ ← if_given devicePrivateKeyPath check_path;
  let allowOffline := aliases input ["allowOffline"; "allow_offline"] in
  _ ← if_given allowOffline check_boolean;
  let refreshSeconds := nullish (aliases input ["refreshSeconds"; "refresh_seconds"])
                          (if is_undefined url then JUndefined else JNum (NInt 60)) in
  _ ← if_given refreshSeconds (fun v => _ ← boundedInteger v 15 3600; Ok tt);
  url_text ← if is_undefined url then Ok JUndefined else JStr <$> of_option (Other false) (to_string url);
  Ok (JObj [("control_v2", JObj ([("required", JBool true); ("capability_required", JBool true); ("public_key", publicKey);
       ("issuer", issuer); ("key_id", keyId); ("organization_id", organizationId); ("device_id", deviceId)]
       ++ given "url" url_text ++ given "state_path" statePath ++ given "refresh_seconds" refreshSeconds
       ++ given "allow_offline" allowOffline ++ given "device_private_key_path" devicePrivateKeyPath)%list)]).
End Configuration.

(** The options that the broker's [processRequest] gives for its
    configuration [control_v2]. *)
Definition broker_options (control privateKey : jsval) (defaultStatePath : string) : jsval :=
  JObj [("endpoint", get control "url"); ("organizationId", get control "organization_id"); ("deviceId", get control "device_id");
        ("issuer", get control "issuer"); ("keyId", get control "key_id"); ("publicKey", get control "public_key");
        ("privateKey", privateKey); ("statePath", nullish (get control "state_path") (JStr defaultStatePath))].

(** ** Responses *)

(** The body of a response: a reader or an iterator, with the chunks it yields
    and whether it then ends or fails; the whole as bytes or as text, unless
    reading it fails; or none of these. *)
Inductive Body := Chunks (l : list string) (ends : bool) | ArrayBuffer (bytes : option string) | TextBody (text : option string) | NoBody.

(** [declared] is what [headers.get("content-length")] returns, [undefined]
    when there is no such method. *)
Record Response := mkResponse { status : jsval; declared : jsval; headers : jsval; body : Body }.

(** The chunks, while their sum is within the bound. *)
Fixpoint add_chunks (maxBytes : Z) (total : string) (l : list string) : result cloud_exn string :=
  match l with
  | [] => Ok total
  | chunk :: l =>
      let total := total +:+ chunk in
      throw_if (maxBytes <? Z.of_nat (String.length total))%Z with CloudControlError RESPONSE_TOO_LARGE ;;
      add_chunks maxBytes total l
  end.

Definition check_declared (v : jsval) (maxBytes : Z) : result cloud_exn unit :=
  match v with
  | JUndefined | JNull | JStr "" => Ok tt
  | _ =>
      text ← of_option (Bundled BundleJson.OutsideModel) (to_string v);
      throw_if negb (re_test (some digit) text) with CloudControlError RESPONSE_TOO_LARGE ;;
      n ← of_option (Bundled BundleJson.OutsideModel) (read_integer text);
      throw_if (maxBytes <? n)%Z with CloudControlError RESPONSE_TOO_LARGE ;; Ok tt
  end.

(** [readBoundedBody] *)
Definition readBoundedBody (response : Response) (maxBytes : Z) : result cloud_exn string :=
  _ ← check_declared (nullish (declared response)
                        (nullish (get (headers response) "content-length") (get (headers response) "Content-Length"))) maxBytes;
  bytes ← match body response with
          | Chunks l ends => bytes ← add_chunks maxBytes "" l; throw_if negb ends with CloudControlError RESPONSE ;; Ok bytes
          | ArrayBuffer b => b ← of_option (CloudControlError RESPONSE) b; add_chunks maxBytes "" [b]
          | TextBody t => t ← of_option (CloudControlError RESPONSE) t; add_chunks maxBytes "" [utf8 t]
          | NoBody => Throw (CloudControlError RESPONSE)
          end;
  throw_if Nat.eqb (String.length bytes) 0 with CloudControlError RESPONSE ;;
  Ok bytes.

(** The text of bytes in UTF-8 ([TextDecoder] with [fatal]): none, when they
    are not, and outside of the model when a code unit is 256 or more or the
    text starts with a byte order mark. *)
Fixpoint decode_utf8 (bytes : string) : result bundle_exn (option string) :=
  match bytes with
  | EmptyString => Ok (Some "")
  | String a rest =>
      if Nat.ltb (code a) 128 then option_map (String a) <$> decode_utf8 rest
      else match rest with
           | String b rest =>
               if in_range 194 195 (code a) && in_range 128 191 (code b)
               then option_map (String (ascii_of_nat (64 * (code a - 192) + (code b - 128)))) <$> decode_utf8 rest
               else if in_range 196 244 (code a) then Throw BundleJson.OutsideModel else Ok None
           | EmptyString => Ok None
           end
  end.

Definition parse_response `{NumberText} (bytes : string) (maxBytes : Z) : result bundle_exn jsval :=
  text ← decode_utf8 bytes;
  parseControlBundleJson MAX_JSON_DEPTH text (Z.of_nat (String.length bytes)) maxBytes.

(** [extractBundle] *)
Definition extractBundle (value : jsval) : result cloud_exn jsval :=
  let bad := CloudControlError RESPONSE in
  throw_if negb (is_plain value) with bad ;;
  if has_own value "bundle" then
    throw_if negb (forallb (includes ["bundle"; "desired_generation"; "request_id"]) (own_keys value)) with bad ;;
    let generation := get value "desired_generation" in
    throw_if negb (is_undefined generation) && negb (integer_in 1 MAX_SAFE_INTEGER generation) with bad ;;
    let request_id := get value "request_id" in
    throw_if negb (is_undefined request_id)
             && match request_id with JStr s => Nat.ltb 128 (String.length s) | _ => true end with bad ;;
    Ok (get value "bundle")
  else Ok value.

(** ** Effects *)

(** What [fetch] does before the timer: it responds (perhaps with nothing),
    fails, or is overtaken. *)
Inductive fetched := Responded (r : option Response) | Rejected (e : cloud_exn) | TimerFirst.

(** The calls of the functions of the configuration, whether the timer fired,
    the files of the head, and the client's own [lastFetchAt] and
    [lastFetchError]. *)
Inductive Effect :=
| CallClock | CallNonce | CallSigner (request : jsval) | Fetch (url : string) (headers : jsval) | TimerFired
| ReadFiles | WriteFile (w : Write)
| ReadStatus | NoteFetched (at_ : Z) | NoteError (e : cloud_exn).

Definition resp (e : Effect) : Type :=
  match e with
  | CallClock | CallNonce | CallSigner _ => result cloud_exn jsval
  | Fetch _ _ => fetched
  | TimerFired => bool
  | ReadFiles => Disk
  | WriteFile _ | NoteFetched _ | NoteError _ => unit
  | ReadStatus => (option Z * option cloud_exn)%type
  end.

Notation async := (async resp cloud_exn).

(** [clockMilliseconds(config.clock())] *)
Definition read_clock : async Z :=
  await r := ask CallClock in sync (v ← r; clockMilliseconds v).

Section Client.
Context `{HParse : DateParse} `{HKeys : KeyObjects} `{HSha : Sha256} `{HNumber : NumberText} `{HUrl : UrlParser}
  `{HEc : EcKeys} `{HPrivate : SigningKeys} {HSign : EcSigningKeys}.

(** ** The request *)

Definition target (c : Config) : string := url_path (endpoint c) +:+ search (endpoint c).

(** The request as it is signed, and as it is given to a signer. *)
Definition request_js (c : Config) (timestamp : Z) (nonce : string) : jsval :=
  JObj [("method", JStr "GET"); ("path", JStr (target c)); ("body_digest", JStr (sha256 ""));
        ("timestamp", JNum (NInt timestamp)); ("nonce", JStr nonce)].
Definition signer_request (c : Config) (canonical : string) (timestamp : Z) (nonce : string) : jsval :=
  JObj [("canonical", JStr canonical); ("method", JStr "GET"); ("path", JStr (target c)); ("body", JBytes "");
        ("bodyDigest", JStr (sha256 "")); ("timestamp", JNum (NInt timestamp)); ("nonce", JStr nonce)].

(** [typeof signer === "function" ? signer : signer?.sign] *)
Definition sign_function (c : Config) : jsval :=
  if is_function (signer c) then signer c else get (signer c) "sign".

(** The signature of what a signer returns. *)
Definition signature_text (result : jsval) : Prelude.result cloud_exn string :=
  let result := match result with JObj _ | JArr _ => Ok (get result "signature") | JHost _ => outside | _ => Ok result end in
  result ← result;
  match match result with JBytes b => JStr (base64 b) | v => v end with
  | JStr s => throw_if negb (re_test BASE64 s) || negb (Nat.eqb (String.length (base64_bytes s)) 64)
                       || negb (String.eqb (base64 (base64_bytes s)) s) with CloudControlError SIGNATURE ;; Ok s
  | _ => Throw (CloudControlError SIGNATURE)
  end.

(** [signRequest] *)
Definition signRequest (c : Config) (canonical : string) (timestamp : Z) (nonce : string) : async string :=
  await result := catch
    (if truthy (sign_function c) then
       if is_function (sign_function c)
       then await r := ask (CallSigner (signer_request c canonical timestamp nonce)) in sync r
       else throw (Other false)
     else if is_undefined (privateKey c) then throw (Other false)
     else sync (JStr <$> of_auth (createDeviceSignature (request_js c timestamp nonce) (privateKey c))))
    (fun e => throw match e with Bundled BundleJson.OutsideModel => e | _ => CloudControlError SIGNATURE end) in
  sync (signature_text result).

Definition request_headers (c : Config) (timestamp : Z) (nonce signature : string) : jsval :=
  JObj [("accept", JStr "application/json"); ("AgentPass-Device", deviceId c); ("AgentPass-Timestamp", JStr (pretty timestamp));
        ("AgentPass-Nonce", JStr nonce); ("AgentPass-Content-SHA256", JStr (sha256 "")); ("AgentPass-Signature", JStr signature)].

Definition check_nonce (v : jsval) : result cloud_exn string :=
  match v with
  | JStr s => throw_if negb (re_test NONCE s) with CloudControlError INVALID_CONFIG ;; Ok s
  | _ => Throw (CloudControlError INVALID_CONFIG)
  end.

(** The response's bundle: the body of the [try] after [fetch]. *)
Definition response_bundle (c : Config) (r : option Response) : result cloud_exn jsval :=
  response ← of_option (CloudControlError RESPONSE) r;
  code ← of_option (CloudControlError RESPONSE) (js_integer (status response));
  throw_if (300 <=? code)%Z && (code <? 400)%Z with CloudControlError REDIRECT ;;
  throw_if (code <? 200)%Z || (300 <=? code)%Z with CloudControlError HTTP ;;
  bytes ← readBoundedBody response (maxResponseBytes c);
  parsed ← of_bundle (parse_response bytes (maxResponseBytes c));
  extractBundle parsed.

(** [requestBundle]: the bundle and the time after it was received. *)
Definition requestBundle (c : Config) : async (jsval * Z) :=
  await timestamp := read_clock in
  await drawn := ask CallNonce in
  await nonce := sync (v ← drawn; check_nonce v) in
  await canonical := sync (of_auth (signed_text (request_js c timestamp nonce))) in
  await signature := signRequest c canonical timestamp nonce in
  catch
    (await answer := ask (Fetch (href (endpoint c)) (request_headers c timestamp nonce signature)) in
     await response := sync match answer with
                            | Responded r => Ok r
                            | Rejected e => Throw e
                            | TimerFirst => Throw (CloudControlError TIMEOUT)
                            end in
     await found := sync (response_bundle c response) in
     await now := read_clock in
     return_ (found, now))
    (fun e =>
       match e with
       | CloudControlError _ | Bundled _ => throw e
       | Other abort =>
           await late := ask TimerFired in
           throw (CloudControlError (if late || abort then TIMEOUT else NETWORK))
       end).

(** ** The client *)

(** [{ now, audience, sequenceState }] and [{ now, audience }] *)
Definition verify_options (c : Config) (now : Z) (s : State) : jsval :=
  JObj [("now", JNum (NInt now)); ("audience", audience c); ("sequenceState", state_js s)].
Definition apply_options (c : Config) (now : Z) : jsval := JObj [("now", JNum (NInt now)); ("audience", audience c)].

Definition load_state : async State :=
  await files := ask ReadFiles in sync (of_bundle (loadControlBundleState files)).

(** [new Date(now).toISOString()] throws above the greatest time value. *)
Definition MAX_TIME : Z := 8640000000000000.

(** [catch (error) { lastFetchError = ...; throw stableError(error) }] *)
Definition note_and_throw {A} (e : cloud_exn) : async A :=
  await _ := ask (NoteError (stableError e)) in throw (stableError e).

Definition fetchBundle (c : Config) : async jsval :=
  catch
    (await received := requestBundle c in
     await state := load_state in
     await verified := sync (of_bundle (verifyControlBundle received.1 (trust c) (verify_options c received.2 state) 0)) in
     await _ := sync (throw_if (MAX_TIME <? received.2)%Z with Other false ;; Ok tt) in
     await _ := ask (NoteFetched received.2) in
     return_ (JObj (ControlBundle.signed_fields verified.1.1 verified.1.2)))
    note_and_throw.

Record Applied := mkApplied { updated : bool; a_sequence : jsval; a_bundle : list (string * jsval); last_fetch_at : option Z }.

Definition active_sequence (active : option (list (string * jsval))) : jsval :=
  match active with Some fs => get (JObj fs) "sequence" | None => JUndefined end.

(** [applyControlBundle] of control-bundle-v2.mjs, write by write. *)
Definition apply_files (found : jsval) (c : Config) (now : Z) : async (list (string * jsval)) :=
  await files := ask ReadFiles in
  let '(result, writes) := applyControlBundle found (trust c) (apply_options c now) 0 files in
  await _ := for_each (fun w => ask (WriteFile w) : async unit) writes in
  sync (of_bundle result).

Definition applyBundle (c : Config) (found : jsval) : async Applied :=
  await previous := catch (await s := load_state in return_ (active_bundle s)) (fun e => throw (stableError e)) in
  catch
    (await now := read_clock in
     await applied := apply_files found c now in
     await status := ask ReadStatus in
     return_ (mkApplied (negb (bool_decide (active_sequence previous = get (JObj applied) "sequence")))
                (get (JObj applied) "sequence") applied status.1))
    note_and_throw.

(** [sync] *)
Definition synchronize (c : Config) : async Applied :=
  await found := fetchBundle c in applyBundle c found.

Definition load_cached (c : Config) : async (Bundle * string) :=
  await now := read_clock in
  await state := load_state in
  await active := sync (of_option (CloudControlError OFFLINE_UNAVAILABLE) (active_bundle state)) in
  await verified := sync (of_bundle (verifyCachedControlBundle (JObj active) (trust c) (verify_options c now state) 0)) in
  return_ verified.1.

Definition loadCached (c : Config) : async (Bundle * string) := catch (load_cached c) (fun e => throw (stableError e)).

(** What [status] reports besides [last_fetch_at] and [last_fetch_error]. *)
Inductive Report :=
| Missing
| Cached (sequence : Z) (expires_at offline_expires_at : string) (revoked : bool) (devices agents capabilities : nat)
| Invalid (error : cloud_exn).

Definition report_of (b : Bundle) : Report :=
  Cached (ControlBundle.sequence b) (to_iso (expires_at b)) (to_iso (expires_at b + offline_ttl_ms b)) (global_revoked b)
    (length (revoked_devices b)) (length (revoked_agents b)) (length (revoked_capabilities b)).

Definition client_status (c : Config) : async (Report * (option Z * option cloud_exn)) :=
  await report := catch
    (await s := load_state in
     match active_bundle s with
     | None => return_ Missing
     | Some _ => await cached := loadCached c in return_ (report_of cached.1)
     end)
    (fun e => return_ (Invalid (stableError e))) in
  await noted := ask ReadStatus in
  return_ (report, noted).
End Client.

(** ** The world of a client *)

(** The files of the head, the client's variables, and the clock's last
    answer. *)
Record World := mkWorld {
  files : Disk; fetched_at : option Z; fetch_error : option cloud_exn; told : result cloud_exn jsval
}.

Definition with_files (d : Disk) (w : World) : World := mkWorld d (fetched_at w) (fetch_error w) (told w).

Section Answers.
Context `{HParse : DateParse} `{HKeys : KeyObjects} `{HSha : Sha256} `{HNumber : NumberText}.

(** While the client waits, other tasks may install bundles; the calls of the
    configuration and [fetch] answer anything. *)
Definition others (w w' : World) : Prop := exists d, rtc ControlBundleState.step (files w) d /\ w' = with_files d w.

Definition answers (w : World) (e : Effect) : resp e -> World -> Prop :=
  match e with
  | CallClock => fun r w' => w' = mkWorld (files w) (fetched_at w) (fetch_error w) r
  | CallNonce | CallSigner _ => fun _ w' => others w w'
  | Fetch _ _ => fun _ w' => others w w'
  | TimerFired => fun _ w' => w' = w
  | ReadFiles => fun d w' => d = files w /\ w' = w
  | WriteFile x => fun _ w' => w' = with_files (ControlBundleState.apply_write x (files w)) w
  | ReadStatus => fun r w' => r = (fetched_at w, fetch_error w) /\ w' = w
  | NoteFetched t => fun _ w' => w' = mkWorld (files w) (Some t) None (told w)
  | NoteError err => fun _ w' => w' = mkWorld (files w) (fetched_at w) (Some err) (told w)
  end.
End Answers.
