(* ===== verification/CloudControlFacts.v ===== *)
(** * The client installs only what it verified (lib/cloud-control.mjs)

    Over every execution of [sync], which may stop anywhere and during whose
    waits other tasks install bundles too, the head does not roll back, and a
    bundle that is reported as installed is signed, addressed and timely. *)

From stdpp Require Import base tactics list sets strings pretty relations.
From Stdlib Require Import Ascii.
From S2P Require Import Prelude JsValue Regex IsoTime Json Crypto FileSystem Program Capability BundleJson ControlBundle ControlBundleState.
From S2P Require Import DeviceRequest DeviceAuth CloudControl.
Local Open Scope string_scope.
Local Open Scope js_scope.

(** ** Lemmas: what an application returns *)

Section Sound.
Context `{HParse : DateParse} `{HKeys : KeyObjects} `{HSha : Sha256} `{HNumber : NumberText}.

(** What the client requires of a bundle at a time; a cached one may serve for
    its offline time. *)
Record trusted (c : Config) (offline : bool) (now : Z) (b : Bundle) (sig : string) : Prop := mkTrusted {
  t_signed : exists key bytes, resolvePublicKey (trust c) (JStr (key_id b)) (JStr (issuer b)) (JObj []) = Ok key /\
               asymmetricKeyType key = "ed25519" /\ sig = base64 bytes /\ String.length bytes = SIGNATURE_LENGTH /\
               verify_with key (canonicalJson (bundle_js b)) bytes = Some true;
  t_addressed : validateAudience (audience c) = Ok (organization_id b, ControlBundle.device_id b);
  t_issued : (issued_at b <= now + CLOCK_SKEW_MS)%Z;
  t_timely : (now < expires_at b \/ offline = true /\ now < expires_at b + offline_ttl_ms b)%Z
}.

(** The options of the client's calls. *)
Definition client_options (c : Config) (now : Z) (options : jsval) : Prop :=
  options = apply_options c now \/ exists s, options = verify_options c now s.

Lemma client_options_get c now options :
  client_options c now options ->
  get options "allowFuture" = JUndefined /\ clock_skew options = Ok CLOCK_SKEW_MS /\ get options "now" = JNum (NInt now) /\
  get options "audience" = audience c /\ allow_offline options = false /\ get options "legacyMode" = JUndefined /\ limited options /\
  forall keyId issuer, resolvePublicKey (trust c) keyId issuer options = resolvePublicKey (trust c) keyId issuer (JObj []).
Proof.
  intros [->|[s ->]]; (split_and!; [reflexivity..|by intros n [= <-]|reflexivity]).
Qed.

Lemma verified_trusted c now options offline st v b sig st' :
  client_options c now options ->
  verify_body v (trust c) options offline (audience c) st (JNum (NInt now)) = Ok ((b, sig), st') -> trusted c offline now b sig.
Proof.
  intros (Hf & Hskew & _ & _ & _ & _ & _ & Hres)%client_options_get.
  intros (now' & key & bytes & Hn & Hv & Hk & Hs & Hver & _ & Ha & Ho & He)%verify_body_ok.
  assert (now' = now) as -> by (apply of_option_ok, safe_integer_Some in Hn as [[= ->] _]; done).
  pose proof (resolvePublicKey_ok _ _ _ _ _ Hk) as Ht. apply decodeSignature_ok in Hs as (Hsig & Hlen & Hb64).
  apply validate_ok in Hv as (L & M & now' & _ & _ & Hn' & _ & Hexp & Hfut).
  assert (now' = now) as -> by (apply of_option_ok, safe_integer_Some in Hn' as [[= ->] _]; done).
  rewrite Hf in Hfut. destruct (Hfut eq_refl) as (skew & Hsk & Hissued). rewrite Hskew in Hsk. injection Hsk as <-.
  constructor; [|by apply checkAudience_ok|done|].
  - exists key, bytes. rewrite <- Hres. split_and!; try done.
    unfold verifies, canonicalJsonSafe in Hver. destruct (canonicalValue (bundle_js b)) as [text|] eqn:Et; [|done].
    apply canonicalValue_text in Et as ->. cbn [or_throw] in Hver. by destruct (verify_with key _ bytes) as [[]|].
  - destruct offline; [|left; by apply Hexp]. cbn [andb] in Ho. apply andb_false_iff in Ho as [Ho|Ho]; guards; auto.
Qed.

(** The configurations that the client is made with. *)
Definition configured `{Urls} (c : Config) : Prop := exists input cwd, normalizeOptions input cwd = Ok c.

Lemma configured_audience `{Urls} c : configured c -> exists o d, audience c = audience_of o d.
Proof. intros (input & cwd & Hn). unfold normalizeOptions in Hn. run_steps Hn. injection Hn as <-. by eexists _, _. Qed.

(** A bundle that was applied is the bundle verified. *)
Lemma applied_trusted c now found d fs ws o dv :
  audience c = audience_of o dv ->
  applyControlBundle found (trust c) (apply_options c now) 0 d = (Ok fs, ws) ->
  exists b sig, fs = ControlBundle.signed_fields b sig /\ trusted c false now b sig.
Proof.
  intros Ha. unfold applyControlBundle. intros (s' & ? & ? & [Hs ->]%lift_ok & H & _)%obind_ok. destruct (negb _).
  - change (truthy (get (apply_options c now) "legacyMode")) with false in H. by apply lift_ok in H as [? _].
  - apply obind_ok in H as ([[b sig] st] & ? & ? & [Ev ->]%lift_ok & H & _).
    apply obind_ok in H as (h & ? & ? & _ & H & _). apply obind_ok in H as ([] & ? & ? & _ & H & _).
    apply obind_ok in H as (n & ? & ? & _ & H & _). apply lift_ok in H as [[= <-] _].
    exists b, sig. split; [done|]. eapply verified_trusted; [by left|].
    assert (expected_audience (apply_options c now) (trust c) = audience c) as <- by (unfold expected_audience, apply_options; by rewrite Ha).
    exact Ev.
Qed.
End Sound.

(** ** Lemmas: programs that do not write *)

Definition writes (e : Effect) : bool := match e with WriteFile _ => true | _ => false end.

Lemma avoids_ask e : writes e = false -> avoids writes (ask e : async (resp e)).
Proof. by split. Qed.

#[local] Hint Resolve avoids_ask : quiet.

Ltac quiet :=
  repeat first
    [ done
    | apply avoids_abind; [|intros ?]
    | apply avoids_catch; [|intros ?]
    | match goal with |- avoids _ (match ?x with _ => _ end) => destruct x end
    | split; [done|intros ?]
    | progress autounfold with quiet ].

#[local] Hint Unfold read_clock load_state note_and_throw load_cached loadCached signRequest requestBundle fetchBundle : quiet.

Section Installs.
Context `{HParse : DateParse} `{HKeys : KeyObjects} `{HSha : Sha256} `{HNumber : NumberText} `{HUrl : UrlParser}
  `{HEc : EcKeys} `{HPrivate : SigningKeys} {HSign : EcSigningKeys} `{HUrls : Urls}.
#[local] Existing Instance rolls_forward_preorder.

Lemma fetch_quiet c : avoids writes (fetchBundle c).
Proof. quiet. Qed.

(** The head of the files has not rolled back from [s0]. *)
Definition keeps (s0 : ControlBundle.State) (w : World) : Prop :=
  exists s, loadControlBundleState (files w) = Ok s /\ rolls_forward s0 s.

Notation safe := (safe answers).

Lemma applied_keeps s0 d d' s :
  loadControlBundleState d = Ok s -> rolls_forward s0 s -> rtc ControlBundleState.step d d' ->
  exists s', loadControlBundleState d' = Ok s' /\ rolls_forward s0 s'.
Proof.
  intros Hl Hf Hr. revert s Hl Hf. induction Hr as [d|d d1 d2 [found tr options now r ws k Hlim Ha] _ IH]; intros s Hl Hf; [eauto|].
  destruct (trail_loads _ _ _ _ k Hl (apply_trail _ _ _ _ _ _ _ _ Hl Hlim Ha)) as (s' & Hl' & Hf' & _).
  apply (IH s'); [done|]. by transitivity s.
Qed.

Lemma answers_keep s0 w e r w' : writes e = false -> answers w e r w' -> keeps s0 w -> keeps s0 w'.
Proof.
  assert (others w w' -> keeps s0 w -> keeps s0 w') as Ho.
  { intros (d & Hr & ->) (s & Hl & Hf). destruct (applied_keeps s0 _ d s Hl Hf Hr) as (s' & ? & ?). by exists s'. }
  destruct e; cbn [writes answers]; try done; try (by intros _ [_ ->]); try (by intros _ ->); by intros _ H; auto.
Qed.

(** A program that does not write is safe. *)
Lemma quiet_safe {A} (p : async A) s0 w : keeps s0 w -> avoids writes p -> safe (keeps s0) p w (post (fun _ _ => True) (fun _ _ => True)).
Proof.
  revert w. induction p as [a|e k IH]; intros w Hk; cbn [avoids]; [by intros _; split; [|destruct a]|].
  intros [He Hq]. split; [done|]. intros r w' Ha. apply IH; [|done]. by eapply answers_keep.
Qed.

(** The writes of an application, one after the other. *)
Lemma apply_safe c s0 w found now o dv :
  audience c = audience_of o dv -> keeps s0 w ->
  safe (keeps s0) (apply_files found c now) w
    (post (fun fs w' => told w' = told w /\ exists s b sig, loadControlBundleState (files w') = Ok s /\ rolls_forward s0 s /\
                          active_bundle s = Some (fields_of (normal (JObj fs))) /\ fs = ControlBundle.signed_fields b sig /\
                          trusted c false now b sig)
          (fun _ _ => True)).
Proof.
  intros Ha (s & Hl & Hf). unfold apply_files.
  refine (safe_abind _ _ _ _ _ (fun (d : resp ReadFiles) w' => d = files w /\ w' = w) _ _ _ _).
  { refine (safe_ask _ _ ReadFiles _ _ _ _ _); [by exists s|]. intros r w' [-> ->]. split; [by exists s|done]. }
  intros d w' _ [-> ->].
  destruct (applyControlBundle found (trust c) (apply_options c now) 0 (files w)) as [r ws] eqn:E.
  assert (limited (apply_options c now)) as Hlim by (by intros n [= <-]).
  pose proof (apply_trail _ _ _ _ _ _ _ _ Hl Hlim E) as Ht.
  assert (forall k, keeps s0 (with_files (apply (take k ws) (files w)) w)) as Hk.
  { intros k. destruct (trail_loads _ _ _ _ k Hl Ht) as (s' & Hl' & Hf' & _). exists s'. split; [done|by transitivity s]. }
  refine (safe_abind _ _ _ _ _ (fun _ w' => w' = with_files (apply ws (files w)) w) _ _ _ _).
  - refine (safe_for_each _ _ _ _ _ (fun done _ w' => w' = with_files (apply done (files w)) w) _ _ _ _); [by exists s|by destruct w|].
    intros done bs x w' [rest Hp] Hi ->. refine (safe_ask _ _ (WriteFile x) _ _ _ _ _); [done|]. intros [] w1 ->. split.
    + replace (with_files _ _) with (with_files (apply (take (length (done ++ [x])) ws) (files w)) w); [apply Hk|].
      rewrite Hp, take_app_length. unfold apply. by rewrite fold_left_app.
    + unfold apply. by rewrite fold_left_app.
  - intros _ w' Hi ->. apply safe_sync; [done| |done]. intros fs Hr. assert (r = Ok fs) as -> by (by destruct r as [|[]]; inversion Hr).
    split; [done|]. destruct (applied_trusted _ _ _ _ _ _ _ _ Ha E) as (b & sig & Hfs & Htr).
    destruct (trail_loads _ _ _ _ (length ws) Hl Ht) as (s' & Hl' & Hf' & [[_ [Hx|[e [=]]]]|(_ & fs' & [= <-] & Hact)]); [lia|].
    rewrite take_ge in Hl' by done. exists s', b, sig. split_and!; [done|by transitivity s|done..].
Qed.

Lemma stable_again e : stableError (stableError e) = stableError e.
Proof. by destruct e as [|[]|]. Qed.

(** An error that the client reports. *)
Definition reported (e : cloud_exn) (w : World) : Prop := stableError e = e /\ fetch_error w = Some e.

Lemma note_safe {A} s0 e w (Q : A -> World -> Prop) :
  keeps s0 w -> safe (keeps s0) (note_and_throw e : async A) w (post Q reported).
Proof.
  intros Hk. refine (safe_abind _ _ _ _ _ (fun _ w' => fetch_error w' = Some (stableError e)) _ _ _ _).
  - refine (safe_ask _ _ (NoteError (stableError e)) _ _ _ Hk _). by intros r w' ->.
  - intros _ w' Hi He. apply safe_throw; [done|]. split; [apply stable_again|done].
Qed.

Lemma load_safe s0 w :
  keeps s0 w -> safe (keeps s0) load_state w (post (fun _ w' => w' = w) (fun _ _ => False)).
Proof.
  intros Hk. refine (safe_abind _ _ _ _ _ (fun (d : resp ReadFiles) w' => d = files w /\ w' = w) _ _ _ _).
  { refine (safe_ask _ _ ReadFiles _ _ _ Hk _). intros r w' [-> ->]. done. }
  intros d w' _ [-> ->]. destruct Hk as (s & Hl & Hf). rewrite Hl. apply safe_return; [by exists s|done].
Qed.

(** The clock is the one that the world told. *)
Lemma clock_safe s0 w :
  keeps s0 w ->
  safe (keeps s0) read_clock w (post (fun now w' => exists v, told w' = Ok v /\ clockMilliseconds v = Ok now) (fun _ _ => True)).
Proof.
  intros Hk. refine (safe_abind _ _ _ _ _ (fun (r : resp CallClock) w' => told w' = r) _ _ _ _).
  { refine (safe_ask _ _ CallClock _ _ _ Hk _). by intros r w' ->. }
  intros r w' Hi Hr. apply safe_sync; [done| |done]. intros now Hn. rewrite Hr. destruct r as [v|]; [by exists v|done].
Qed.

(** What the client reports as installed is the head, and is trusted. *)
Definition installed (c : Config) (s0 : ControlBundle.State) (out : Applied) (w : World) : Prop :=
  exists s b sig now v, loadControlBundleState (files w) = Ok s /\ rolls_forward s0 s /\
    active_bundle s = Some (fields_of (normal (JObj (a_bundle out)))) /\ a_bundle out = ControlBundle.signed_fields b sig /\
    a_sequence out = JNum (NInt (sequence b)) /\ told w = Ok v /\ clockMilliseconds v = Ok now /\ trusted c false now b sig.

Lemma install_safe c s0 w found o dv :
  audience c = audience_of o dv -> keeps s0 w -> safe (keeps s0) (applyBundle c found) w (post (installed c s0) reported).
Proof.
  intros Ha Hk. unfold applyBundle. refine (safe_abind _ _ _ _ _ (fun _ _ => True) _ _ _ _).
  - refine (safe_catch _ _ _ _ _ _ (fun _ _ => False) _ _ _); [|done].
    refine (safe_abind _ _ _ _ _ (fun _ _ => True) _ _ _ _); [|intros s w' Hi _; by apply safe_return].
    refine (safe_mono _ _ _ _ _ _ (load_safe s0 w Hk) _). by intros [].
  - intros previous w1 Hk1 _. refine (safe_catch _ _ _ _ _ _ (fun _ _ => True) _ _ _); [|intros; by apply note_safe].
    refine (safe_abind _ _ _ _ _ _ _ _ (clock_safe s0 w1 Hk1) _). intros now w2 Hk2 (v & Hv & Hn).
    refine (safe_abind _ _ _ _ _ _ _ _ (apply_safe c s0 w2 found now o dv Ha Hk2) _).
    intros fs w3 Hk3 (Ht & s & b & sig & Hl & Hf & Hact & -> & Htr).
    refine (safe_abind _ _ _ _ _ (fun (r : resp ReadStatus) w' => w' = w3) _ _ _ _).
    { refine (safe_ask _ _ ReadStatus _ _ _ Hk3 _). by intros r w' [_ ->]. }
    intros r w' _ ->. apply safe_return; [done|]. exists s, b, sig, now, v. split_and!; try done.
    by rewrite Ht.
Qed.

(** C18: the client installs only what it verified, and never rolls back.  Whatever
    the service, the signer and other tasks do, and wherever the process stops
    during [sync]: the files load and the head has not moved backwards.  When
    [sync] returns, the active bundle is the one it reports, signed by the
    pinned key for the client's audience, issued by now and not expired.  When
    it throws, the error is one of its own or of the bundle's checks, and
    [status] reports it. *)
Theorem sync_installs_verified c s0 w w' o :
  configured c -> loadControlBundleState (files w) = Ok s0 -> exec answers w (synchronize c) w' o ->
  (exists s, loadControlBundleState (files w') = Ok s /\ rolls_forward s0 s) /\
  (forall out, o = Some (Ok out) -> installed c s0 out w') /\
  (forall e, o = Some (Throw e) -> stableError e = e /\ fetch_error w' = Some e).
Proof.
  intros (org & dv & Ha)%configured_audience Hl He. assert (keeps s0 w) as Hk by (by exists s0).
  assert (safe (keeps s0) (synchronize c) w (post (installed c s0) reported)) as Hs.
  { refine (safe_abind _ _ _ _ _ (fun _ _ => True) _ _ _ _).
    - refine (safe_catch _ _ _ _ _ _ (fun _ _ => True) _ _ _); [|intros; by apply note_safe].
      apply quiet_safe; [done|]. quiet.
    - intros found w1 Hk1 _. by eapply install_safe. }
  destruct (safe_exec _ _ _ _ _ _ _ Hs He) as [Hk' Hr]. split_and!; [done|..].
  - intros out ->. exact (Hr _ eq_refl).
  - intros e ->. exact (Hr _ eq_refl).
Qed.
End Installs.
