(* ===== verification/CloudControlSpec.v ===== *)
(** * The client and the cloud (lib/cloud-control.mjs)

    The requests that the client sends are admitted by the service of
    DeviceAuth; what [status] reports; the configuration that enrollment writes
    is the configuration that the broker's client takes; a run. *)

From stdpp Require Import base tactics list sets strings pretty relations.
From Stdlib Require Import Ascii.
From S2P Require Import Prelude JsValue Regex IsoTime Json NodePath Crypto FileSystem Program Capability BundleJson ControlBundle ControlBundleState.
From S2P Require Import DeviceRequest DeviceAuth DeviceAuthFacts DeviceAuthSpec CloudControl CloudControlFacts.
Local Open Scope string_scope.
Local Open Scope js_scope.

(** ** The device's name *)

Lemma uuid_device_id id : re_test UUID id = true -> re_test DEVICE_ID_PATTERN id = true.
Proof.
  intros H%re_test_spec. apply re_test_spec. pose proof (matches_max_len UUID id 36 eq_refl H) as Hl.
  assert (Forall (fun c => id_char c = true) (chars id)) as Hc by (apply (matches_only_chars id_char UUID); [vm_compute; reflexivity|done]).
  assert (exists c r, id = String c r /\ alnum c = true) as (c & r & -> & Ha).
  { unfold UUID, seqs in H. cbn in H. inversion H as [| |? ? s1 s2 H1 H2 E1 E2| | | |]; subst. inversion H1 as [|? ? ? ? Hf Hlo Hhi| | | | |]; subst.
    destruct s1 as [|c s1]; [cbn in Hlo; lia|]. apply Forall_cons in Hf as [Hf _]. exists c, (s1 +:+ s2). split; [done|].
    assert (class_sub hex_any alnum = true) as Hsub by (vm_compute; reflexivity). exact (class_sub_spec _ _ _ Hsub Hf). }
  change (String c r) with (String c "" +:+ r). apply Forall_cons in Hc as [_ Hc]. cbn [chars length] in Hl.
  constructor; constructor; cbn [chars length]; try lia; try done. by repeat constructor.
Qed.

(** ** The requests *)

Definition fetches (e : Effect) : bool := match e with Fetch _ _ => true | _ => false end.

#[local] Hint Unfold read_clock load_state note_and_throw : silent.
Ltac silent :=
  repeat first
    [ done
    | apply avoids_abind; [|intros ?]
    | apply avoids_catch; [|intros ?]
    | split; [done|intros ?]
    | progress autounfold with silent ].

Section Requests.
Context `{HParse : DateParse} `{HKeys : KeyObjects} `{HSha : Sha256} `{HNumber : NumberText} `{HUrl : UrlParser}
  `{HEc : EcKeys} `{HRead : Base64Reader} `{HPrivate : SigningKeys} {HSign : EcSigningKeys} `{HUrls : Urls}.

(** The client signs with a key of its own. *)
Definition signs_with (c : Config) (private : PrivateKey) : Prop :=
  truthy (sign_function c) = false /\ import_private (privateKey c) = Some private.

(** A request that is sent: its headers carry the signature of its text. *)
Definition sends (c : Config) (private : PrivateKey) (e : Effect) : Prop :=
  match e with
  | Fetch url headers =>
      url = href (endpoint c) /\
      exists timestamp nonce text, (0 <= timestamp <= MAX_SAFE_INTEGER)%Z /\ re_test NONCE nonce = true /\
        signed_text (request_js c timestamp nonce) = Ok text /\
        headers = request_headers c timestamp nonce (base64 (sign_device private text))
  | _ => True
  end.

Lemma clock_emits c private : emits (sends c private) read_clock (returns (fun t => (0 <= t <= MAX_SAFE_INTEGER)%Z)).
Proof.
  refine (emits_abind _ _ _ (fun _ => True) _ _ _); [by apply emits_ask|]. intros r _. apply emits_sync.
  intros t (v & _ & Ht)%bind_ok. unfold clockMilliseconds in Ht. apply bind_ok in Ht as (n & _ & Ht).
  destruct (safe_integer n) as [z|] eqn:Ez; [|done]. apply safe_integer_Some in Ez as [_ Hz]. run_steps Ht. injection Ht as <-. guards. lia.
Qed.

Lemma sign_emits c private canonical timestamp nonce :
  signs_with c private ->
  emits (sends c private) (signRequest c canonical timestamp nonce)
    (returns (fun s => exists text, signed_text (request_js c timestamp nonce) = Ok text /\ s = base64 (sign_device private text))).
Proof.
  intros [Hs Hp]. unfold signRequest. rewrite Hs.
  refine (emits_abind _ _ _ (fun v => exists text, signed_text (request_js c timestamp nonce) = Ok text /\ v = JStr (base64 (sign_device private text))) _ _ _).
  - apply emits_catch; [|done]. destruct (is_undefined (privateKey c)); [done|]. apply emits_sync. intros v Hv.
    destruct (createDeviceSignature _ _) as [s|e] eqn:E; [|by destruct e]. injection Hv as <-.
    unfold createDeviceSignature in E. rewrite Hp in E. cbn [of_option mbind result_bind] in E. run_steps E. injection E as <-. eauto.
  - intros v (text & Ht & ->). apply emits_sync. intros s Hv. exists text. split; [done|]. unfold signature_text in Hv.
    cbn [mbind result_bind] in Hv. run_steps Hv. by injection Hv.
Qed.

Lemma request_emits c private : signs_with c private -> emits (sends c private) (requestBundle c) (returns (fun _ => True)).
Proof.
  intros Hs. unfold requestBundle. refine (emits_abind _ _ _ _ _ (clock_emits c private) _). intros timestamp Ht.
  refine (emits_abind _ _ _ (fun _ => True) _ _ _); [by apply emits_ask|]. intros drawn _.
  refine (emits_abind _ _ _ (fun nonce => re_test NONCE nonce = true) _ _ _).
  { apply emits_sync. intros nonce (v & _ & Hn)%bind_ok. destruct v; try done. unfold check_nonce in Hn. run_steps Hn. injection Hn as <-. by guards. }
  intros nonce Hn. refine (emits_abind _ _ _ (fun _ => True) _ _ _); [by apply emits_sync|]. intros canonical _.
  refine (emits_abind _ _ _ _ _ (sign_emits c private canonical timestamp nonce Hs) _). intros s (text & Htext & ->).
  apply emits_catch.
  - refine (emits_abind _ _ _ (fun _ => True) _ _ _).
    { apply emits_ask; [|done]. split; [done|]. eauto 8. }
    intros answer _. refine (emits_abind _ _ _ (fun _ => True) _ _ _); [by apply emits_sync|]. intros response _.
    refine (emits_abind _ _ _ (fun _ => True) _ _ _); [by apply emits_sync|]. intros found _.
    by refine (emits_abind _ _ _ _ _ (clock_emits c private) _).
  - intros [r|e|abort]; [done|done|]. refine (emits_abind _ _ _ (fun _ => True) _ _ _); [by apply emits_ask|done].
Qed.

Lemma silent_emits {A} c private (p : async A) : avoids fetches p -> emits (sends c private) p (returns (fun _ => True)).
Proof.
  induction p as [a|e k IH]; cbn [emits avoids]; [by destruct a|]. intros [He Hk]. split; [by destruct e|]. intros r. apply IH, Hk.
Qed.

Lemma sync_emits c private : signs_with c private -> emits (sends c private) (synchronize c) (returns (fun _ => True)).
Proof.
  intros Hs. refine (emits_abind _ _ _ (fun _ => True) _ _ _).
  - apply emits_catch; [|intros e; apply silent_emits; by repeat (split; [done|intros ?])].
    refine (emits_abind _ _ _ _ _ (request_emits c private Hs) _). intros received _. apply silent_emits. silent.
  - intros found _. apply silent_emits. unfold applyBundle. silent.
    destruct (applyControlBundle _ _ _ _ _) as [r ws]. apply avoids_abind; [|silent]. apply avoids_for_each. by split.
Qed.

(** The request as the service receives it: the path and the query of the URL
    that was fetched. *)
Definition received (c : Config) (headers : jsval) : jsval :=
  JObj [("method", JStr "GET"); ("path", JStr (url_path (endpoint c) +:+ search (endpoint c))); ("headers", headers)].

Lemma accept_skipped v fs : parseDeviceHeaders (JObj (("accept", v) :: fs)) = parseDeviceHeaders (JObj fs).
Proof. reflexivity. Qed.

Lemma configured_device c id : configured c -> deviceId c = JStr id -> re_test UUID id = true.
Proof.
  intros (input & cwd & Hn) Hd. unfold normalizeOptions in Hn. run_steps Hn. injection Hn as <-. change (aliases input ["deviceId"; "device_id"] = JStr id) in Hd.
  match goal with H : check_subject _ _ _ _ _ = Ok _ |- _ => unfold check_subject in H; run_steps H end. guards.
  match goal with H : coerced_test UUID (nullish (aliases input ["deviceId"; "device_id"]) _) = true |- _ => rewrite Hd in H; exact H end.
Qed.

(** C27: the client and the service agree.  Every request that a configured
    client, whose device identifier is a text, sends in [sync], signed by its own
    private key, is for its endpoint, and is admitted by [verifyDeviceRequest] of
    the service, whether it adds the authentication metadata or not: when the
    enrolled device is enabled, of the organization that is asked for, and has
    the public key that verifies the client's signatures of 64 bytes; the time of
    the service is within a minute; and, unless the service defers the replay
    check to a consumer of its own, the nonce is not in its cache, which has
    room.  The nonce is then recorded for two minutes, or, when deferred, nothing
    is. *)
Theorem client_request_admitted c private id t r url headers answer :
  configured c -> signs_with c private -> deviceId c = JStr id ->
  runs (synchronize c) t r -> ev (Fetch url headers) answer ∈ t ->
  url = href (endpoint c) /\
  exists timestamp nonce,
    get headers "AgentPass-Timestamp" = JStr (pretty timestamp) /\ get headers "AgentPass-Nonce" = JStr nonce /\
    forall enrolled options clock now cache,
      admits private enrolled options clock id nonce timestamp now cache ->
      exists p, verifyDeviceRequest (received c headers) enrolled (Some options) clock =
        (Ok p, nonce_writes options id nonce now cache).
Proof.
  intros Hc Hs Hid Hr Hin. pose proof (configured_device c id Hc Hid) as Hu.
  destruct (emits_runs _ _ _ _ _ (sync_emits c private Hs) Hr) as [Hf _].
  rewrite list.Forall_forall in Hf. destruct (Hf _ Hin) as (Hurl & timestamp & nonce & text & Ht & Hn & Htext & Hh). split; [done|].
  exists timestamp, nonce. split; [by rewrite Hh|]. split; [by rewrite Hh|]. intros enrolled options clk now cache Ha.
  refine (presented_accepted (received c headers) private enrolled options clk id nonce timestamp now cache (sha256 "") text
            eq_refl eq_refl Htext _ Hn Ht Ha).
  change (nullish (get (received c headers) "headers") (received c headers)) with (nullish headers (received c headers)).
  rewrite Hh. unfold request_headers. rewrite Hid. cbn [nullish]. rewrite accept_skipped.
  pose proof (headers_read (mkHeaders id (pretty timestamp) nonce (sha256 "") (base64 (sign_device private text)))) as Hread.
  unfold header_object in Hread. cbn [h_device h_timestamp h_nonce h_digest h_signature] in Hread. apply Hread.
  split_and!; [by apply uuid_device_id|by eexists|done|apply sha256_hex|by apply re_test_spec, base64_matches|]. cbn [h_signature].
  intros E. pose proof (a_length _ _ _ _ _ _ _ _ _ Ha text) as Hl. destruct (sign_device private text) as [|x [|y [|z s]]]; done.
Qed.
End Requests.

(** ** What is reported *)

Section Status.
Context `{HParse : DateParse} `{HKeys : KeyObjects} `{HSha : Sha256} `{HNumber : NumberText} `{HUrl : UrlParser}
  `{HEc : EcKeys} `{HPrivate : SigningKeys} {HSign : EcSigningKeys} `{HUrls : Urls}.

Notation safe := (safe answers).

(** The world after the clock was read at most. *)
Definition same_world (w w' : World) : Prop :=
  files w' = files w /\ fetched_at w' = fetched_at w /\ fetch_error w' = fetch_error w.

(** A bundle that may serve now, of the head in the files. *)
Definition serves_now (c : Config) (s : ControlBundle.State) (b : Bundle) (sig : string) (w : World) : Prop :=
  exists v now, told w = Ok v /\ clockMilliseconds v = Ok now /\ trusted c true now b sig /\ (highest_sequence s <= sequence b)%Z.

Lemma load_exact w w0 :
  same_world w w0 ->
  safe (same_world w) load_state w0
    (post (fun s w' => w' = w0 /\ loadControlBundleState (files w) = Ok s)
          (fun _ w' => w' = w0 /\ exists e, loadControlBundleState (files w) = Throw e)).
Proof.
  intros Hw. refine (safe_abind _ _ _ _ _ (fun (d : resp ReadFiles) w' => d = files w /\ w' = w0) _ _ _ _).
  { refine (safe_ask _ _ ReadFiles _ _ _ Hw _). intros r w' [-> ->]. split; [done|]. by destruct Hw as [-> _]. }
  intros d w' Hi [-> ->]. destruct (loadControlBundleState (files w)) as [s|e] eqn:E; [by apply safe_sync; [|intros ? [= <-]|]|].
  apply safe_sync; [done|by destruct e|]. by eauto.
Qed.

Lemma cached_exact c w w0 o dv s fs :
  audience c = audience_of o dv -> loadControlBundleState (files w) = Ok s -> active_bundle s = Some fs -> same_world w w0 ->
  safe (same_world w) (loadCached c) w0 (post (fun found w' => serves_now c s found.1 found.2 w') (fun e _ => stableError e = e)).
Proof.
  intros Ha Hl Hact Hw. unfold loadCached.
  refine (safe_catch _ _ _ _ _ _ (fun _ _ => True) _ _ _); [|intros e w' Hi _; apply safe_throw; [done|apply stable_again]].
  unfold load_cached. refine (safe_abind _ _ _ _ _ (fun now w' => exists v, told w' = Ok v /\ clockMilliseconds v = Ok now) _ _ _ _).
  { refine (safe_abind _ _ _ _ _ (fun (r : resp CallClock) w' => told w' = r) _ _ _ _).
    { refine (safe_ask _ _ CallClock _ _ _ Hw _). by intros r w' ->. }
    intros r w' Hi Hr. apply safe_sync; [done| |done]. intros now Hn. rewrite Hr. destruct r as [v|]; [by exists v|done]. }
  intros now w1 Hw1 (v & Hv & Hn).
  refine (safe_abind _ _ _ _ _ (fun s' w' => w' = w1 /\ s' = s) _ _ _ _).
  { refine (safe_mono _ _ _ _ _ _ (load_exact w w1 Hw1) _). intros [s'|e] w' _; [|done]. intros [-> Hs]. split; [done|]. congruence. }
  intros s' w2 Hw2 [-> ->]. rewrite Hact.
  refine (safe_abind _ _ _ _ _ (fun a w' => w' = w1 /\ a = fs) _ _ _ _); [by apply safe_return|]. intros a w3 Hw3 [-> ->].
  refine (safe_abind _ _ _ _ _ (fun found w' => serves_now c s found.1.1 found.1.2 w') _ _ _ _); [|intros found w4 Hw4 Hf; by apply safe_return].
  apply safe_sync; [done| |done]. intros [[b sig] st] Hver.
  destruct (verifyCachedControlBundle _ _ _ _) as [x|e] eqn:E; [injection Hver as ->|by destruct e].
  exists v, now. split_and!; [done..| |].
  - unfold verifyCachedControlBundle in E. change (option_clock (verify_options c now s) 0) with (JNum (NInt now)) in E.
    assert (expected_audience (verify_options c now s) (trust c) = audience c) as Hx by (unfold expected_audience, verify_options; by rewrite Ha).
    rewrite Hx in E. by eapply verified_trusted; [right; eexists|].
  - unfold verifyCachedControlBundle in E. apply verify_body_ok in E as (? & ? & ? & _ & _ & _ & _ & _ & _ & _ & _ & He).
    change (sequence_state (verify_options c now s) (trust c)) with (state_js s) in He.
    apply enforceHead_state in He as (h & _ & Hc & _). cbn [fst]. destruct (check_head_ok _ _ _ _ Hc) as [|[? _]]; lia.
Qed.

(** What [status] reports is what the files and the clock say.  It never throws
    and changes nothing; it reports a missing bundle when the files load without
    an active one, and a cached bundle only when that bundle is signed by the
    pinned key for the client's audience, within its offline time, and not
    below the head. *)
Theorem status_reports_usable c w w' r :
  configured c -> exec answers w (client_status c) w' (Some r) ->
  same_world w w' /\
  exists report, r = Ok (report, (fetched_at w, fetch_error w)) /\
    match report with
    | Missing => exists s, loadControlBundleState (files w) = Ok s /\ active_bundle s = None
    | Invalid e => stableError e = e
    | Cached _ _ _ _ _ _ _ =>
        exists s fs b sig, loadControlBundleState (files w) = Ok s /\ active_bundle s = Some fs /\ report = report_of b /\
          serves_now c s b sig w'
    end.
Proof.
  intros (o & dv & Ha)%configured_audience He.
  set (good := fun report w1 => match report with
    | Missing => exists s, loadControlBundleState (files w) = Ok s /\ active_bundle s = None
    | Invalid e => stableError e = e
    | Cached _ _ _ _ _ _ _ =>
        exists s fs b sig, loadControlBundleState (files w) = Ok s /\ active_bundle s = Some fs /\ report = report_of b /\
          serves_now c s b sig w1
    end).
  assert (safe (same_world w) (client_status c) w
    (post (fun x w1 => x.2 = (fetched_at w, fetch_error w) /\ good x.1 w1) (fun _ _ => False))) as Hs.
  { assert (same_world w w) as Hw by done.
    refine (safe_abind _ _ _ _ _ good _ _ _ _).
    - refine (safe_catch _ _ _ _ _ _ (fun _ _ => True) _ _ _); [|intros e w1 Hw1 _; apply safe_return; [done|apply stable_again]].
      refine (safe_abind _ _ _ _ _ (fun s w' => w' = w /\ loadControlBundleState (files w) = Ok s) _ _ _ _).
      { refine (safe_mono _ _ _ _ _ _ (load_exact w w Hw) _). by intros []. }
      intros s w1 _ [-> Hl]. destruct (active_bundle s) as [fs|] eqn:Hact; [|apply safe_return; [done|]; by exists s].
      refine (safe_abind _ _ _ _ _ (fun found w' => serves_now c s found.1 found.2 w') _ _ _ _).
      { refine (safe_mono _ _ _ _ _ _ (cached_exact c w w o dv s fs Ha Hl Hact Hw) _). by intros []. }
      intros [b sig] w1 Hw1 Hf. apply safe_return; [done|]. by exists s, fs, b, sig.
    - intros report w1 Hw1 Hg. refine (safe_abind _ _ _ _ _ (fun (x : resp ReadStatus) w2 => x = (fetched_at w, fetch_error w) /\ w2 = w1) _ _ _ _).
      { refine (safe_ask _ _ ReadStatus _ _ _ Hw1 _). intros x w2 [-> ->]. split_and!; [done| |done]. by destruct Hw1 as (_ & -> & ->). }
      intros x w2 Hw2 [-> ->]. by apply safe_return. }
  destruct (safe_exec _ _ _ _ _ _ _ Hs He) as [Hw' Hr]. split; [done|]. specialize (Hr _ eq_refl).
  destruct r as [[report noted]|e]; [|done]. destruct Hr as [Hx Hg]. cbn in Hx. subst noted. by exists report.
Qed.
End Status.

(** ** The configuration of an enrolled device *)

Section Fragment.
Context `{HKeys : KeyObjects} `{HUrls : Urls}.

(** The properties of [control_v2]: no key, token or other secret. *)
Definition CONTROL_KEYS : list string :=
  ["required"; "capability_required"; "public_key"; "issuer"; "key_id"; "organization_id"; "device_id"; "url"; "state_path";
   "refresh_seconds"; "allow_offline"; "device_private_key_path"].

Lemma given_value r v d : re_test r "" = false -> coerced_test r (nullish v (JStr "")) = true -> nullish v d = v.
Proof.
  intros Hr H. destruct v; try done; change (re_test r "" = true) in H; congruence.
Qed.

Lemma given_keys name v : map fst (given name v) ⊆ [name].
Proof. unfold given. destruct (is_undefined v); set_solver. Qed.

Lemma get_given name v fs k :
  get (JObj (given name v ++ fs)%list) k = if String.eqb k name && negb (is_undefined v) then v else get (JObj fs) k.
Proof. unfold given. destruct (is_undefined v); [by rewrite andb_false_r|]. cbn. by destruct (String.eqb k name). Qed.

Lemma get_given_last name v k : get (JObj (given name v)) k = if String.eqb k name && negb (is_undefined v) then v else JUndefined.
Proof. rewrite <- (app_nil_r (given name v)). by rewrite get_given. Qed.

(** The properties that are written. *)
Definition control_fields (organization device issuer keyId publicKey url statePath refresh offline keyPath : jsval) : list (string * jsval) :=
  ([("required", JBool true); ("capability_required", JBool true); ("public_key", publicKey); ("issuer", issuer); ("key_id", keyId);
    ("organization_id", organization); ("device_id", device)]
   ++ given "url" url ++ given "state_path" statePath ++ given "refresh_seconds" refresh ++ given "allow_offline" offline
   ++ given "device_private_key_path" keyPath)%list.

Lemma ok_same {E A} (a b : A) : Ok (E := E) a = Ok b -> a = b.
Proof. congruence. Qed.

Lemma fragment_ok input fragment :
  buildCloudControlConfigFragment input = Ok fragment ->
  exists organization device issuer keyId publicKey url statePath refresh offline keyPath,
    fragment = JObj [("control_v2", JObj (control_fields organization device issuer keyId publicKey url statePath refresh offline keyPath))] /\
    check_subject organization device issuer keyId publicKey = Ok tt /\
    (url = JUndefined \/ exists text parsed loopback, url = JStr text /\ validateEndpoint text loopback = Ok parsed) /\
    if_given statePath check_path = Ok tt.
Proof.
  unfold buildCloudControlConfigFragment. intros H. run_steps H. apply ok_same in H as <-.
  repeat match goal with x : () |- _ => destruct x end. do 10 eexists. split; [reflexivity|]. split; [eassumption|]. split; [|eassumption].
  unfold if_given at 1 in E3. unfold check_url in E3.
  destruct (is_undefined (aliases input ["url"; "baseUrl"; "endpoint"])); [left; congruence|right].
  destruct (to_string (aliases input ["url"; "baseUrl"; "endpoint"])) as [text|]; [|done]. apply ok_same in E8 as <-.
  cbn [of_option mbind result_bind] in E3. apply bind_ok in E3 as (parsed & Hp & _). by eexists _, _, _.
Qed.

Lemma control_get organization device issuer keyId publicKey url statePath refresh offline keyPath :
  let control := JObj (control_fields organization device issuer keyId publicKey url statePath refresh offline keyPath) in
  get control "url" = url /\ get control "state_path" = statePath.
Proof.
  cbv zeta. unfold control_fields. assert (forall v, (if negb (is_undefined v) then v else JUndefined) = v) as Hv by (by intros []).
  split.
  - change (get (JObj (given "url" url ++ given "state_path" statePath ++ given "refresh_seconds" refresh ++ given "allow_offline" offline
      ++ given "device_private_key_path" keyPath)%list) "url" = url). rewrite !get_given, get_given_last. cbn [String.eqb Ascii.eqb Bool.eqb andb]. apply Hv.
  - change (get (JObj (given "url" url ++ given "state_path" statePath ++ given "refresh_seconds" refresh ++ given "allow_offline" offline
      ++ given "device_private_key_path" keyPath)%list) "state_path" = statePath). rewrite !get_given, get_given_last.
    cbn [String.eqb Ascii.eqb Bool.eqb andb]. apply Hv.
Qed.

(** Enrollment and the broker agree.  The configuration that
    [buildCloudControlConfigFragment] writes holds no secrets and requires
    bundles and capabilities; when its URL is one of HTTPS, the options that the
    broker makes of it are accepted by [createCloudControlClient], for that
    URL, device and key. *)
Theorem fragment_configures_client input fragment url parsed pem key defaultStatePath cwd :
  buildCloudControlConfigFragment input = Ok fragment -> isAbsolute defaultStatePath = true ->
  let control := get fragment "control_v2" in
  get control "url" = JStr url -> read_url url = Some parsed -> protocol parsed = "https:" -> get control "public_key" = JStr pem ->
  own_keys control ⊆ CONTROL_KEYS /\ get control "required" = JBool true /\ get control "capability_required" = JBool true /\
  exists c, normalizeOptions (broker_options control key defaultStatePath) cwd = Ok c /\
    endpoint c = parsed /\ audience c = audience_of (get control "organization_id") (get control "device_id") /\
    trust c = trust_js (JStr pem) (get control "issuer") (get control "key_id") /\
    privateKey c = nullish key JUndefined /\ truthy (sign_function c) = false.
Proof.
  intros (org & dev & iss & kid & pk & u & sp & rs & ao & dk & -> & Hs & Hu & Hsp)%fragment_ok Habs control.
  change control with (JObj (control_fields org dev iss kid pk u sp rs ao dk)). clear control.
  destruct (control_get org dev iss kid pk u sp rs ao dk) as [-> Gsp]. intros -> Hparsed Hhttps Hpem. change (pk = JStr pem) in Hpem. subst pk.
  split_and!; [|done|done|].
  - cbn [own_keys]. unfold control_fields. rewrite !map_app, !list_subseteq_app_iff_l.
    split_and!; [|etransitivity; [apply given_keys|]..]; apply (bool_decide_eq_true_1 (_ ⊆ _)); reflexivity.
  - pose proof Hs as Hsubject. unfold check_subject in Hs. run_steps Hs. guards. set (input' := broker_options _ _ _).
    assert (aliases input' ["organizationId"; "organization_id"] = org) as Ao by (by apply (given_value UUID org JUndefined)).
    assert (aliases input' ["deviceId"; "device_id"] = dev) as Ad by (by apply (given_value UUID dev JUndefined)).
    assert (aliases input' ["issuer"; "controlIssuer"] = iss) as Ai by (by apply (given_value IDENTIFIER iss JUndefined)).
    assert (aliases input' ["keyId"; "key_id"; "controlKeyId"] = kid) as Ak by (by apply (given_value IDENTIFIER kid JUndefined)).
    assert (aliases input' ["publicKey"; "public_key"; "controlPublicKey"] = JStr pem) as Ap by reflexivity.
    assert (aliases input' ["endpoint"; "url"; "baseUrl"] = JStr url) as Au.
    { change (nullish (get (JObj (control_fields org dev iss kid (JStr pem) (JStr url) sp rs ao dk)) "url") JUndefined = JStr url).
      by rewrite (proj1 (control_get org dev iss kid (JStr pem) (JStr url) sp rs ao dk)). }
    assert (exists p, aliases input' ["statePath"; "state_path"] = JStr p /\ isAbsolute p = true) as (p & As & Hp).
    { change (exists p, nullish (nullish (get (JObj (control_fields org dev iss kid (JStr pem) (JStr url) sp rs ao dk)) "state_path")
        (JStr defaultStatePath)) JUndefined = JStr p /\ isAbsolute p = true). rewrite Gsp.
      destruct sp; try (by exists defaultStatePath); try done. cbn [if_given is_undefined check_path] in Hsp. run_steps Hsp. guards. by eexists. }
    assert (validateEndpoint url false = Ok parsed) as Hv.
    { destruct Hu as [[=]|(text & parsed' & loopback & [= <-] & Hv)]. unfold validateEndpoint in *. rewrite Hparsed in *.
      cbn [of_option mbind result_bind] in *. rewrite Hhttps, String.eqb_refl. cbn [negb andb]. run_steps Hv. by injection Hv as <-. }
    assert (url <> "") as Hne by (intros ->; by rewrite read_url_empty in Hparsed).
    unfold normalizeOptions. rewrite Ao, Ad, Ai, Ak, Ap, Au, As, Hsubject.
    change (is_plain input') with true. change (is_true (get input' "loopbackTestMode") || is_true (get input' "allowLoopbackHttp")) with false.
    cbn [negb mbind result_bind of_option as_str]. rewrite Hv. cbn [mbind result_bind].
    assert (truthy (get input' "endpoint") = true) as ->.
    { change (get input' "endpoint") with (get (JObj (control_fields org dev iss kid (JStr pem) (JStr url) sp rs ao dk)) "url").
      rewrite (proj1 (control_get org dev iss kid (JStr pem) (JStr url) sp rs ao dk)). cbn. by rewrite (proj2 (String.eqb_neq _ _)). }
    cbn [mbind result_bind]. rewrite Hp. eexists. split; [reflexivity|]. by split_and!.
Qed.
End Fragment.

(** ** A run *)

Module Session.
Import ControlBundle.Sample.
Definition url : string := "https://control.example/v1/bundles/device".
Definition urls : Urls := {|
  read_url := fun s => if String.eqb s url then Some (mkUrl "https:" "control.example" "" "" "" "/v1/bundles/device" "" url) else None;
  resolve_url := fun path base => Some (mkUrl (protocol base) (hostname base) "" "" "" path "" (href base +:+ path));
  read_url_empty := eq_refl |}.
#[local] Existing Instances iso_date_parse toy_sha256 integer_text DeviceRequest.Sample.url_parser DeviceAuthSpec.Sample.key_objects
  DeviceAuthSpec.Sample.ec_keys DeviceAuthSpec.Sample.reader Capability.Sample.signing_keys DeviceAuthSpec.Sample.ec_signing urls.

(** What enrollment writes, and the client that the broker makes of it. *)
Definition enrollment : jsval :=
  JObj [("organizationId", JStr organization); ("deviceId", JStr device); ("issuer", JStr "cloud"); ("keyId", JStr "key-1");
        ("publicKey", JStr "pem"); ("url", JStr url); ("token", JStr "secret")].
Definition fragment : jsval := match buildCloudControlConfigFragment enrollment with Ok f => f | Throw _ => JUndefined end.
Definition broker_input : jsval := broker_options (get fragment "control_v2") (JStr "device-key") "/state/control-v2.state.json".
Definition no_config : Config :=
  mkConfig (mkUrl "" "" "" "" "" "" "" "") JUndefined JUndefined JUndefined JUndefined "" JUndefined JUndefined JUndefined JUndefined JUndefined 0 0.
Definition config : Config := match normalizeOptions broker_input "/" with Ok c => c | Throw _ => no_config end.

(** The service answers with the first bundle. *)
Definition nonce : string := DeviceRequest.Sample.nonce.
Definition answer : fetched :=
  Responded (Some (mkResponse (JNum (NInt 200)) JUndefined JUndefined (Chunks [canonicalJson (JObj [("bundle", bundle 1 [])])] true))).
Definition handler (w : World) (e : Effect) : resp e * World :=
  match e with
  | CallClock => (Ok (JNum (NInt time)), mkWorld (files w) (fetched_at w) (fetch_error w) (Ok (JNum (NInt time))))
  | CallNonce => (Ok (JStr nonce), w)
  | CallSigner _ => (Throw (Other false), w)
  | Fetch _ _ => (answer, w)
  | TimerFired => (false, w)
  | ReadFiles => (files w, w)
  | WriteFile x => (tt, with_files (ControlBundleState.apply_write x (files w)) w)
  | ReadStatus => ((fetched_at w, fetch_error w), w)
  | NoteFetched t => (tt, mkWorld (files w) (Some t) None (told w))
  | NoteError err => (tt, mkWorld (files w) (fetched_at w) (Some err) (told w))
  end.

Lemma client_handler_answers w e : answers w e (fst (handler w e)) (snd (handler w e)).
Proof.
  assert (others w w) as Ho by (exists (files w); split; [apply rtc_refl|by destruct w]).
  by destruct e.
Qed.

Definition start : World := mkWorld ControlBundleState.HeadSample.fresh None None (Ok JUndefined).
Definition ended : result cloud_exn Applied * World := interpret handler (synchronize config) start.
Definition reported_ : result cloud_exn (Report * (option Z * option cloud_exn)) * World :=
  interpret handler (client_status config) (snd ended).

Example updated_ok : match fst ended with Ok a => updated a && bool_decide (a_sequence a = JNum (NInt 1)) | Throw _ => false end = true.
Proof. vm_compute. reflexivity. Qed.
Example cached_ok : match fst reported_ with Ok (Cached 1 _ _ _ _ _ _, _) => true | _ => false end = true.
Proof. vm_compute. reflexivity. Qed.
End Session.

#[local] Existing Instances iso_date_parse toy_sha256 integer_text DeviceRequest.Sample.url_parser DeviceAuthSpec.Sample.key_objects
  DeviceAuthSpec.Sample.ec_keys DeviceAuthSpec.Sample.reader Capability.Sample.signing_keys DeviceAuthSpec.Sample.ec_signing Session.urls.

Lemma session_configured : configured Session.config.
Proof.
  exists Session.broker_input, "/". assert (is_ok (normalizeOptions Session.broker_input "/") = true) as (c & E)%is_ok_true by (vm_compute; reflexivity).
  unfold Session.config. by rewrite E.
Qed.

Lemma session_exec : exec answers Session.start (synchronize Session.config) (snd Session.ended) (Some (fst Session.ended)).
Proof. exact (interpret_exec answers Session.handler (synchronize Session.config) Session.start Session.client_handler_answers). Qed.

Lemma session_updated : is_ok (fst Session.ended) = true.
Proof. vm_compute. reflexivity. Qed.

Lemma sync_installs_verified_witness :
  exists out, fst Session.ended = Ok out /\ installed Session.config createControlBundleState out (snd Session.ended).
Proof.
  destruct (sync_installs_verified Session.config createControlBundleState Session.start (snd Session.ended) (Some (fst Session.ended))
    session_configured eq_refl session_exec) as (_ & Hi & _).
  destruct (proj1 (is_ok_true _) session_updated) as [out E]. exists out. exact (conj E (Hi out (f_equal Some E))).
Defined.

Lemma status_reports_usable_witness : same_world (snd Session.ended) (snd Session.reported_).
Proof.
  exact (proj1 (status_reports_usable Session.config (snd Session.ended) (snd Session.reported_) (fst Session.reported_) session_configured
    (interpret_exec answers Session.handler (client_status Session.config) (snd Session.ended) Session.client_handler_answers))).
Defined.

(** The first request of a trace. *)
Fixpoint first_request (t : list (event resp)) : option (string * jsval * fetched) :=
  match t with
  | [] => None
  | existT e r :: t =>
      match e return resp e -> option (string * jsval * fetched) with
      | Fetch url headers => fun r => Some (url, headers, r)
      | _ => fun _ => first_request t
      end r
  end.

Lemma first_request_in t url headers answer : first_request t = Some (url, headers, answer) -> ev (Fetch url headers) answer ∈ t.
Proof.
  induction t as [|[e r] t IH]; [done|]. cbn [first_request]. destruct e; try (intros H; right; by apply IH).
  intros [= -> -> ->]. left.
Qed.

Definition session_trace : list (event resp) := trace Session.handler (synchronize Session.config) Session.start.
Definition session_headers : jsval := match first_request session_trace with Some (_, h, _) => h | None => JUndefined end.
Definition session_device : jsval :=
  JObj [("device_id", JStr ControlBundle.Sample.device); ("organization_id", JStr "org-1"); ("public_key", JStr "pem")].
Definition session_enrolled : Enrolled := DeviceValue (JArr [session_device]).

(** The options of the device routes of the service, with its own consumer of
    nonces ([deferred]) or without. *)
Definition service_options (organizationId : jsval) (now : Z) (replayCache : ReplayCache) (deferred : bool) : Options :=
  mkOptions (JNum (NInt now)) organizationId JUndefined (JBool deferred) (Cache replayCache) NoCache JUndefined (JBool true).
Definition session_options (deferred : bool) : Options :=
  service_options (JStr "org-1") ControlBundle.Sample.time Run.empty deferred.

Lemma session_admits deferred :
  admits (tt : @PrivateKey Capability.Sample.signing_keys) session_enrolled
    (session_options deferred) 0 ControlBundle.Sample.device Session.nonce ControlBundle.Sample.time ControlBundle.Sample.time Run.empty.
Proof.
  refine (mkAdmits _ session_enrolled (session_options deferred) 0 _ _ _ _ Run.empty _ _ eq_refl eq_refl _ _).
  - exists session_device, Capability.Sample.issuer_key. split_and!; [destruct deferred; vm_compute; reflexivity|vm_compute; reflexivity|].
    intros text. exact (String.eqb_refl _).
  - intros text. exact (sign_text_length text).
  - vm_compute. congruence.
  - intros _. split; [reflexivity|]. split; [vm_compute; reflexivity|].
    exists DEFAULT_REPLAY_LIMIT. split_and!; [reflexivity|vm_compute; congruence|vm_compute; reflexivity].
Qed.

Lemma session_request : first_request session_trace = Some (Session.url, session_headers, Session.answer).
Proof. vm_compute. reflexivity. Qed.

Lemma client_request_admitted_witness :
  (exists p, verifyDeviceRequest (received Session.config session_headers) session_enrolled (Some (session_options false)) 0 =
    (Ok p, [CacheSet (ControlBundle.Sample.device +:+ String ":" Session.nonce) (ControlBundle.Sample.time + REPLAY_RETENTION_MS)])) /\
  (exists p, verifyDeviceRequest (received Session.config session_headers) session_enrolled (Some (session_options true)) 0 = (Ok p, [])).
Proof.
  destruct (client_request_admitted Session.config (tt : @PrivateKey Capability.Sample.signing_keys) ControlBundle.Sample.device session_trace
    (fst Session.ended) Session.url session_headers Session.answer session_configured (conj eq_refl eq_refl) eq_refl
    (interpret_runs Session.handler (synchronize Session.config) Session.start) (first_request_in _ _ _ _ session_request))
    as (_ & timestamp & nonce & Ht & Hn & H).
  assert (get session_headers "AgentPass-Timestamp" = JStr (pretty ControlBundle.Sample.time)) as Et by (vm_compute; reflexivity).
  assert (get session_headers "AgentPass-Nonce" = JStr Session.nonce) as En by (vm_compute; reflexivity).
  rewrite Et in Ht. rewrite En in Hn. injection Hn as <-. injection Ht as Ht. apply (inj pretty) in Ht as <-.
  exact (conj (H _ _ _ _ _ (session_admits false)) (H _ _ _ _ _ (session_admits true))).
Defined.

Lemma session_fragment : buildCloudControlConfigFragment Session.enrollment = Ok Session.fragment.
Proof. vm_compute. reflexivity. Qed.

Lemma session_url :
  get (get Session.fragment "control_v2") "url" = JStr Session.url /\
  get (get Session.fragment "control_v2") "public_key" = JStr "pem".
Proof. vm_compute. done. Qed.

Lemma session_parsed :
  read_url Session.url = Some (mkUrl "https:" "control.example" "" "" "" "/v1/bundles/device" "" Session.url).
Proof. vm_compute. reflexivity. Qed.

Lemma fragment_configures_client_witness :
  own_keys (get Session.fragment "control_v2") ⊆ CONTROL_KEYS.
Proof.
  exact (proj1 (fragment_configures_client Session.enrollment Session.fragment Session.url _ "pem" (JStr "device-key")
    "/state/control-v2.state.json" "/" session_fragment eq_refl (proj1 session_url) session_parsed eq_refl (proj2 session_url))).
Defined.
