(* ===== verification/BrokerLock.v ===== *)
(** * The broker's lease (lib/broker.mjs)

    One broker at a time serves a socket: it creates a lock file with its
    process id, and takes over the lock of a process that is gone.  The brokers
    run at once; a step of one is one call of the file system or of [kill].
    Creating the file and writing it are two steps, and unlinking is by name,
    whatever file has it. *)

From stdpp Require Import base tactics numbers gmap.
From S2P Require Import Prelude.
Local Open Scope Z_scope.

(** ** Data *)

(** What a lock file holds: nothing yet, the id of a process, or something
    that is no lease; and whether it is a regular file of the user. *)
Inductive Content := Empty | Lease (pid : Z) | Garbage.
Record Inode := mkInode { content : Content; safe : bool }.

Inductive lock_error := LockInvalid | AlreadyRunning | UnsafeLock | UnableToAcquire | LockGone.

(** Where a broker is: in which attempt and whether it took a lock over;
    [Writing] has created the file, [Failed] has thrown. *)
Inductive Phase :=
| Opening (attempt : nat) (recovered : bool)
| Writing (file : nat) (recovered : bool)
| Reading (attempt : nat) (recovered : bool)
| Probing (attempt : nat) (recovered : bool) (pid : Z)
| Inspecting (attempt : nat) (recovered : bool)
| Unlinking (attempt : nat) (recovered : bool)
| Holding (recovered : bool)
| ReadingOwn
| UnlinkingOwn
| Released
| Failed (e : lock_error).

(** The file that the name stands for, the files that were created, and the
    brokers; [gone] are the processes that died. *)
Record State := mkState {
  name : option nat; inodes : gmap nat Inode; brokers : gmap Z Phase; gone : list Z
}.

Definition set_phase (p : Z) (ph : Phase) (s : State) : State :=
  mkState (name s) (inodes s) (<[p := ph]> (brokers s)) (gone s).
Definition set_name (n : option nat) (s : State) : State := mkState n (inodes s) (brokers s) (gone s).
Definition set_inode (n : nat) (i : Inode) (s : State) : State := mkState (name s) (<[n := i]> (inodes s)) (brokers s) (gone s).

Definition lock_file (s : State) : option Inode := n ← name s; inodes s !! n.

Section Lock.
(** The processes that are no brokers. *)
Context (other_process : Z -> bool).

(** [process.kill(pid, 0)] does not fail with [ESRCH]. *)
Definition alive (s : State) (pid : Z) : bool :=
  bool_decide (is_Some (brokers s !! pid)) && negb (bool_decide (pid ∈ gone s)) || other_process pid.

(** ** [acquireBrokerLock] and [releaseBrokerLock] *)

Definition ATTEMPTS : nat := 2.

Definition step_phase (p : Z) (ph : Phase) (s : State) : State :=
  match ph with
  | Opening attempt recovered =>
      if Nat.leb ATTEMPTS attempt then set_phase p (Failed UnableToAcquire) s
      else match name s with
           | Some _ => set_phase p (Reading attempt recovered) s
           | None =>
               let n := fresh (dom (inodes s)) in
               set_phase p (Writing n recovered) (set_name (Some n) (set_inode n (mkInode Empty true) s))
           end
  | Writing n recovered => set_phase p (Holding recovered) (set_inode n (mkInode (Lease p) true) s)
  | Reading attempt recovered =>
      match content <$> lock_file s with
      | Some (Lease pid) => set_phase p (Probing attempt recovered pid) s
      | _ => set_phase p (Failed LockInvalid) s
      end
  | Probing attempt recovered pid =>
      if alive s pid then set_phase p (Failed AlreadyRunning) s else set_phase p (Inspecting attempt recovered) s
  | Inspecting attempt recovered =>
      match lock_file s with
      | Some i => set_phase p (if safe i then Unlinking attempt recovered else Failed UnsafeLock) s
      | None => set_phase p (Failed LockGone) s
      end
  | Unlinking attempt recovered =>
      match name s with
      | Some _ => set_phase p (Opening (S attempt) true) (set_name None s)
      | None => set_phase p (Failed LockGone) s
      end
  | Holding _ => set_phase p ReadingOwn s
  | ReadingOwn =>
      match content <$> lock_file s with
      | Some (Lease pid) => set_phase p (if Z.eqb pid p then UnlinkingOwn else Released) s
      | _ => set_phase p Released s
      end
  | UnlinkingOwn => set_phase p Released (set_name None s)
  | Released | Failed _ => s
  end.

(** A step of a broker that is alive. *)
Definition step_broker (p : Z) (s : State) : State :=
  match brokers s !! p with Some ph => if negb (bool_decide (p ∈ gone s)) then step_phase p ph s else s | None => s end.

Definition run (schedule : list Z) (s : State) : State := fold_left (fun s p => step_broker p s) schedule s.

Inductive step : State -> State -> Prop :=
| step_run p s : step s (step_broker p s).

(** The same with brokers that die. *)
Inductive step_or_die : State -> State -> Prop :=
| sd_step s t : step s t -> step_or_die s t
| sd_die p s : step_or_die s (mkState (name s) (inodes s) (brokers s) (p :: gone s)).

(** Brokers that start where there is no lock. *)
Definition init (s : State) : Prop :=
  name s = None /\ gone s = [] /\ (forall n i, inodes s !! n = Some i -> content i <> Empty /\ forall p, content i <> Lease p) /\
  forall p ph, brokers s !! p = Some ph -> ph = Opening 0 false.

(** A broker that has the lock, or is giving it back. *)
Definition owns (s : State) (p : Z) : Prop :=
  match brokers s !! p with Some (Writing _ _ | Holding _ | ReadingOwn | UnlinkingOwn) => True | _ => False end.

(** ** Mutual exclusion *)

Definition phase_ok (s : State) (ph : Phase) : Prop :=
  match ph with
  | Probing _ _ q => is_Some (brokers s !! q)
  | Inspecting _ _ | Unlinking _ _ => False
  | Writing _ _ | Holding _ | ReadingOwn | UnlinkingOwn => name s <> None
  | _ => True
  end.

(** While no broker dies every lease is of a broker that is alive, so that no
    lock is taken over; an owner's lock has its name. *)
Definition Inv (s : State) : Prop :=
  gone s = [] /\ (forall n i p, inodes s !! n = Some i -> content i = Lease p -> is_Some (brokers s !! p)) /\
  (forall p ph, brokers s !! p = Some ph -> phase_ok s ph) /\ (forall p q, owns s p -> owns s q -> p = q).

Definition owner_phase (ph : Phase) : bool :=
  match ph with Writing _ _ | Holding _ | ReadingOwn | UnlinkingOwn => true | _ => false end.

Lemma owns_phase s p : owns s p <-> exists ph, brokers s !! p = Some ph /\ owner_phase ph = true.
Proof.
  unfold owns. destruct (brokers s !! p) as [ph|]; [|naive_solver]. split; [intros H; exists ph; by destruct ph|].
  intros (ph' & [= <-] & H). by destruct ph.
Qed.

Lemma init_inv s : init s -> Inv s.
Proof.
  intros (Hn & Hg & Hi & Hb). split_and!; [done| | |].
  - intros n i p Hl Hc. destruct (Hi n i Hl) as [_ H]. by destruct (H p).
  - intros p ph H%Hb. by subst.
  - by intros p q (ph & ->%Hb & Hph)%owns_phase.
Qed.

(** A broker that moves to a phase that does not own keeps the invariant, if
    the name stays; so does one that stays an owner. *)
Lemma still_there s p ph q : is_Some (brokers s !! q) -> is_Some (<[p := ph]> (brokers s) !! q).
Proof. rewrite lookup_insert_is_Some. destruct (decide (p = q)); auto. Qed.

Lemma move_inv s p old new :
  Inv s -> brokers s !! p = Some old -> phase_ok s new -> (owner_phase new = true -> owner_phase old = true) -> Inv (set_phase p new s).
Proof.
  intros (Hg & Hi & Hb & Ho) Hp Hnew Hown.
  pose proof (still_there s p (new)) as Hdom.
  assert (forall ph, phase_ok s ph -> phase_ok (set_phase p new s) ph) as Hok by (intros []; cbn; auto).
  split_and!; cbn [set_phase gone inodes]; [done| | |].
  - intros n i q Hn Hc. apply Hdom. by eapply Hi.
  - intros q ph Hq. cbn [set_phase brokers] in Hq. apply Hok. apply lookup_insert_Some in Hq as [[<- <-]|[_ Hq]]; [done|by eapply Hb].
  - assert (forall q, owns (set_phase p new s) q -> owns s q) as Hback.
    { intros q. rewrite !owns_phase. intros (ph & Hq & Hph). cbn [set_phase brokers] in Hq.
      apply lookup_insert_Some in Hq as [[<- <-]|[_ Hq]]; eauto. }
    auto.
Qed.

(** Where the name is free no broker owns, so that a broker may create. *)
Lemma no_owner s p : Inv s -> name s = None -> ~ owns s p.
Proof. intros (_ & _ & Hb & _) Hn (ph & Hp & Hph)%owns_phase. pose proof (Hb p ph Hp) as H. by destruct ph. Qed.

Lemma create_inv s p n k r i :
  Inv s -> brokers s !! p = Some (Opening k r) -> name s = None -> (forall q, content i <> Lease q) ->
  Inv (set_phase p (Writing n r) (set_name (Some n) (set_inode n i s))).
Proof.
  intros HI Hp Hn Hc. pose proof HI as (Hg & Hi & Hb & _). assert (forall q, ~ owns s q) as Hno by (intros q; by apply no_owner).
 pose proof (still_there s p (Writing n r)) as Hdom.
  split_and!; cbn [set_phase set_name set_inode gone inodes brokers]; [done| | |].
  - intros m j q [[<- <-]|[_ Hm]]%lookup_insert_Some Hl; [by destruct (Hc q)|]. apply Hdom. by eapply Hi.
  - intros q ph [[<- <-]|[_ Hq]]%lookup_insert_Some; [done|]. pose proof (Hb q ph Hq) as H. destruct ph; try done. by apply Hdom.
  - assert (forall q, owns (set_phase p (Writing n r) (set_name (Some n) (set_inode n i s))) q -> q = p) as H.
    { intros q (ph & Hq & Hph)%owns_phase. cbn in Hq. apply lookup_insert_Some in Hq as [[<- _]|[_ Hq]]; [done|].
      destruct (Hno q). apply owns_phase. eauto. }
    intros q q' ->%H ->%H. done.
Qed.

Lemma write_inv s p n i : Inv s -> is_Some (brokers s !! p) -> content i = Lease p -> Inv (set_inode n i s).
Proof.
  intros (Hg & Hi & Hb & Ho) Hp Hc. split_and!; [done| |exact Hb|exact Ho].
  cbn [set_inode inodes brokers]. intros m j q [[<- <-]|[_ Hm]]%lookup_insert_Some Hl; [|by eapply Hi]. congruence.
Qed.

Lemma release_inv s p : Inv s -> brokers s !! p = Some UnlinkingOwn -> Inv (set_phase p Released (set_name None s)).
Proof.
  intros (Hg & Hi & Hb & Ho) Hp. assert (owns s p) as Hown by (unfold owns; by rewrite Hp).
 pose proof (still_there s p (Released)) as Hdom.
  assert (forall q ph, q <> p -> brokers s !! q = Some ph -> owner_phase ph = false) as Hno.
  { intros q ph Hne Hq. destruct (owner_phase ph) eqn:E; [|done]. destruct Hne. apply Ho; [|done]. apply owns_phase. eauto. }
  split_and!; cbn [set_phase set_name gone inodes brokers]; [done| | |].
  - intros m j q Hm Hl. apply Hdom. by eapply Hi.
  - intros q ph [[<- <-]|[Hne Hq]]%lookup_insert_Some; [done|]. pose proof (Hb q ph Hq) as H.
    pose proof (Hno q ph (not_eq_sym Hne) Hq). destruct ph; try done. by apply Hdom.
  - intros q q' (ph & Hq & Hph)%owns_phase _. cbn in Hq. apply lookup_insert_Some in Hq as [[<- <-]|[Hne Hq]]; [done|].
    pose proof (Hno q ph (not_eq_sym Hne) Hq). congruence.
Qed.

Lemma lease_step_inv s t : Inv s -> step s t -> Inv t.
Proof.
  intros HI Hst. revert HI. destruct Hst as [p s']. intros HI. pose proof HI as (Hg & Hi & Hb & Ho). unfold step_broker. destruct (brokers s' !! p) as [ph|] eqn:Hp; [|done].
  destruct (negb _); [|done]. pose proof (Hb p ph Hp) as Hok. destruct ph as [k r|n r|k r|k r q|k r|k r|r| | | |e]; cbn [step_phase]; try done.
  - destruct (Nat.leb _ _); [by eapply move_inv|]. destruct (name s') eqn:En; [by eapply move_inv|]. by apply create_inv with (k := k) (r := r).
  - apply (move_inv _ _ (Writing n r)); [by apply (write_inv _ p); [|eexists|]|done..].
  - destruct (content <$> lock_file s') as [[]|] eqn:El; [by eapply move_inv| |by eapply move_inv..]. eapply move_inv; [done..| |done].
    unfold lock_file in El. destruct (name s') as [m|]; [|done]. cbn [mbind option_bind] in El.
    apply fmap_Some in El as (i & Hm & Hc). by eapply Hi.
  - cbn in Hok. unfold alive. rewrite bool_decide_true, Hg by done. rewrite bool_decide_false by (apply not_elem_of_nil).
    by eapply move_inv.
  - by eapply move_inv.
  - destruct (content <$> lock_file s') as [[]|]; eapply move_inv; try done; by destruct (Z.eqb _ _).
  - by apply release_inv.
Qed.

(** ** Properties *)

(** C10: brokers that start where there is no lock, however their steps
    interleave, never hold it together, while none of them dies. *)
Theorem one_broker_holds s p q : reach init step s -> owns s p -> owns s q -> p = q.
Proof. intros H. eapply (reach_invariant init step Inv init_inv (fun s t _ => lease_step_inv s t)) in H as (_ & _ & _ & Ho). apply Ho. Qed.

Lemma own_step s p ph : brokers s !! p = Some ph -> p ∉ gone s -> step_broker p s = step_phase p ph s.
Proof. intros Hp Hg. unfold step_broker. rewrite Hp. by rewrite bool_decide_false. Qed.

Lemma free_lock_taken t p k r :
  name t = None -> brokers t !! p = Some (Opening k r) -> (k < ATTEMPTS)%nat -> p ∉ gone t ->
  let u := step_broker p (step_broker p t) in
  brokers u !! p = Some (Holding r) /\ lock_file u = Some (mkInode (Lease p) true).
Proof.
  intros Hn Hp Hk Hg. rewrite (own_step t p _ Hp Hg). cbn [step_phase]. rewrite (proj2 (Nat.leb_gt _ _)), Hn by done. cbv zeta.
  erewrite own_step; [|apply lookup_insert_eq|done]. cbn [step_phase]. split; [apply lookup_insert_eq|].
  unfold lock_file. cbn [set_phase set_inode set_name name inodes mbind option_bind]. apply lookup_insert_eq.
Qed.

(** A broker alone takes over the lease of a process that is gone: seven
    steps from its start it holds the lock, which has its id. *)
Theorem stale_lease_recovered s n i q p :
  name s = Some n -> inodes s !! n = Some i -> content i = Lease q -> safe i = true -> alive s q = false ->
  brokers s !! p = Some (Opening 0 false) -> p ∉ gone s ->
  let t := run (repeat p 7) s in
  brokers t !! p = Some (Holding true) /\ lock_file t = Some (mkInode (Lease p) true).
Proof.
  intros Hn Hi Hc Hs Ha Hp Hg. unfold run, repeat. cbn [fold_left].
  assert (content <$> lock_file s = Some (Lease q)) as Hl by (unfold lock_file; rewrite Hn; cbn; by rewrite Hi, <- Hc).
  assert (lock_file s = Some i) as Hf by (unfold lock_file; by rewrite Hn).
  assert (forall ph, brokers (set_phase p ph s) !! p = Some ph) as Hset by (intros; apply lookup_insert_eq).
  assert (forall ph ph' t, set_phase p ph' (set_phase p ph t) = set_phase p ph' t) as Hss
    by (intros; unfold set_phase; cbn; by rewrite insert_insert_eq).
  assert (forall ph, alive (set_phase p ph s) q = false) as Hal.
  { intros ph. unfold alive in *. apply orb_false_iff in Ha as [Ha ->]. rewrite orb_false_r. cbn [set_phase brokers gone].
    destruct (decide (p = q)) as [->|Hne]; [|by rewrite lookup_insert_ne].
    rewrite (bool_decide_true (is_Some (brokers s !! q))) in Ha by (rewrite Hp; by eexists). cbn in Ha. apply negb_false_iff, bool_decide_eq_true in Ha. done. }
  rewrite (own_step s p _ Hp Hg). cbn [step_phase Nat.leb ATTEMPTS]. rewrite Hn.
  rewrite (own_step _ p _ (Hset _)) by done. cbn [step_phase]. change (lock_file (set_phase p ?ph s)) with (lock_file s). rewrite Hl, Hss.
  rewrite (own_step _ p _ (Hset _)) by done. cbn [step_phase]. rewrite Hal, Hss.
  rewrite (own_step _ p _ (Hset _)) by done. cbn [step_phase]. change (lock_file (set_phase p ?ph s)) with (lock_file s). rewrite Hf, Hs, Hss.
  rewrite (own_step _ p _ (Hset _)) by done. cbn [step_phase]. change (name (set_phase p ?ph s)) with (name s). rewrite Hn.
  apply (free_lock_taken _ p 1 true); [done|apply lookup_insert_eq|unfold ATTEMPTS; lia|done].
Qed.
End Lock.

(** ** Examples *)

Module Sample.
Definition none (_ : Z) : bool := false.
Definition two (first : gmap nat Inode) (n : option nat) : State :=
  mkState n first (<[1 := Opening 0 false]> (<[2 := Opening 0 false]> ∅)) [].
Definition free : State := two ∅ None.
Definition stale : State := two {[0%nat := mkInode (Lease 9) true]} (Some 0%nat).

Definition phases (s : State) : list (option Phase) := map (fun p => brokers s !! p) [1; 2].
End Sample.

Example second_broker_refused :
  Sample.phases (run Sample.none [1; 2; 1; 2; 2] Sample.free) = [Some (Holding false); Some (Failed AlreadyRunning)].
Proof. vm_compute. reflexivity. Qed.

(** A broker that looks between the creation and the write refuses to start. *)
Example empty_lock_refused :
  Sample.phases (run Sample.none [1; 2; 2; 1] Sample.free) = [Some (Holding false); Some (Failed LockInvalid)].
Proof. vm_compute. reflexivity. Qed.

(** Two brokers that both find the lease of a process that is gone: the second
    unlinks the lock that the first has just taken, and both hold. *)
Theorem two_brokers_take_over :
  Sample.phases (run Sample.none [1; 2; 1; 2; 1; 2; 1; 2; 1; 1; 1; 2; 2; 2] Sample.stale) = [Some (Holding true); Some (Holding true)].
Proof. vm_compute. reflexivity. Qed.

Lemma free_init : init Sample.free.
Proof.
  split_and!; [reflexivity|reflexivity| |].
  - intros n i Hi. change ((∅ : gmap nat Inode) !! n = Some i) in Hi. by rewrite lookup_empty in Hi.
  - intros p ph Hp. change ((<[1 := Opening 0 false]> (<[2 := Opening 0 false]> (∅ : gmap Z Phase))) !! p = Some ph) in Hp.
    apply lookup_insert_Some in Hp as [[_ <-]|[_ [[_ <-]|[_ H]]%lookup_insert_Some]]; [done|done|]. by rewrite lookup_empty in H.
Qed.

Lemma one_broker_holds_witness : owns (run Sample.none [1; 1] Sample.free) 1 /\ ~ owns (run Sample.none [1; 1] Sample.free) 2.
Proof.
  assert (owns (run Sample.none [1; 1] Sample.free) 1) as H1 by (vm_compute; exact I). split; [exact H1|]. intros H2.
  discriminate (one_broker_holds Sample.none (run Sample.none [1; 1] Sample.free) 1 2
    (reach_step _ _ _ _ (reach_step _ _ _ _ (reach_init _ _ _ free_init) (step_run Sample.none 1 _)) (step_run Sample.none 1 _)) H1 H2).
Defined.

Lemma stale_lease_recovered_witness :
  brokers (run Sample.none (repeat 1 7) Sample.stale) !! 1 = Some (Holding true) /\
  lock_file (run Sample.none (repeat 1 7) Sample.stale) = Some (mkInode (Lease 1) true).
Proof.
  apply (stale_lease_recovered Sample.none Sample.stale 0 (mkInode (Lease 9) true) 9 1);
    [reflexivity|reflexivity|reflexivity|reflexivity|reflexivity|reflexivity|apply not_elem_of_nil].
Defined.
