(* ===== verification/BrokerChecks.v ===== *)
(** * The checks of the broker (lib/broker.mjs)

    The functions of the broker that only compute: the decoding of a payload,
    the commit object in it, the arguments of the signer, the session, the
    digest of the configuration.  A payload is a text of bytes; its header is
    tested for ASCII words only, which decoding UTF-8 leaves as they are. *)

From stdpp Require Import base tactics sets list strings.
From Stdlib Require Import Ascii.
From S2P Require Import Prelude JsValue Regex IsoTime Json Objects Crypto Capability FileSystem NodePath.
Local Open Scope string_scope.
Local Open Scope js_scope.

(** ** Constants and errors *)

Definition MAX_PAYLOAD_BYTES : Z := 8388608.
Definition MAX_DEVICE_KEY_BYTES : Z := 16384.
Definition OBJECT_ID : re := RClass hex_lower 40 (Some 64).

Inductive check_error :=
| PayloadMissing | PayloadEncoding | PayloadSize | PayloadNul | PayloadReturn | NotCommit | ContinuedHeader | SignedHeader
| HeaderCount | ObjectIdInvalid | TreeMismatch | UnexpectedParent | ParentMismatch | MergeHeadNotRegular | MergeHeadInvalid
| ArgumentsMissing | ArgumentUnsupported | NotGitSign | KeyNotAbsolute
| DeviceKeyPath | DeviceKeyDirectory | DeviceKeyUnsafe | DeviceKeyChanged | DeviceKeyType
| CheckTypeFailure | CheckHostError | CheckOutsideModel.

#[export] Instance check_error_eq_dec : EqDecision check_error.
Proof. solve_decision. Defined.

(** ** Texts *)

(** [text.startsWith(word)], and the text after the word. *)
Fixpoint after_word (word s : string) : option string :=
  match word, s with
  | EmptyString, _ => Some s
  | String c word, String d s => if Ascii.eqb c d then after_word word s else None
  | _, EmptyString => None
  end.

Definition startsWith (s word : string) : bool := bool_decide (is_Some (after_word word s)).

Definition newline : ascii := "010".

Definition has_byte (n : nat) (s : string) : bool := existsb (fun c => Nat.eqb (code c) n) (chars s).

(** ** The payload *)

(** [decodePayload] *)
Definition decodePayload (value : jsval) : result check_error string :=
  match value with
  | JStr s =>
      throw_if negb (Nat.eqb (String.length s mod 4) 0) || negb (re_test BASE64 s) with PayloadEncoding ;;
      let payload := base64_bytes s in
      throw_if Nat.eqb (String.length payload) 0 || (MAX_PAYLOAD_BYTES <? Z.of_nat (String.length payload))%Z with PayloadSize ;;
      Ok payload
  | _ => Throw PayloadMissing
  end.

(** [payload.subarray(0, payload.indexOf("\n\n"))] *)
Fixpoint header_of (payload : string) : option string :=
  match payload with
  | String c rest =>
      match rest with
      | String d _ => if Ascii.eqb c newline && Ascii.eqb d newline then Some "" else option_map (String c) (header_of rest)
      | EmptyString => None
      end
  | EmptyString => None
  end.

Record Commit := mkCommit { tree : string; parents : list string }.

(** The lines that start with a word, without it. *)
Definition lines_of (word : string) (lines : list string) : list string := omap (after_word word) lines.

(** [validateCommitPayload] up to its first call of git. *)
Definition parse_commit (payload : string) : result check_error Commit :=
  throw_if Nat.eqb (String.length payload) 0 || (MAX_PAYLOAD_BYTES <? Z.of_nat (String.length payload))%Z with PayloadSize ;;
  throw_if has_byte 0 payload with PayloadNul ;;
  throw_if has_byte 13 payload with PayloadReturn ;;
  header ← of_option NotCommit (header_of payload);
  let lines := split_on newline header in
  throw_if existsb (fun l => startsWith l " ") lines with ContinuedHeader ;;
  throw_if existsb (fun l => startsWith l "gpgsig " || startsWith l "gpgsig-sha256 ") lines with SignedHeader ;;
  throw_if negb (Nat.eqb (length (lines_of "author " lines)) 1) || negb (Nat.eqb (length (lines_of "committer " lines)) 1)
    with HeaderCount ;;
  match lines_of "tree " lines with
  | [t] =>
      let ps := lines_of "parent " lines in
      throw_if negb (re_test OBJECT_ID t) || existsb (fun p => negb (re_test OBJECT_ID p)) ps with ObjectIdInvalid ;;
      Ok (mkCommit t ps)
  | _ => Throw HeaderCount
  end.

(** The rest: the tree is that of the index, the parents are [HEAD] (empty
    when there is none) and those of a merge. *)
Definition check_commit (c : Commit) (expectedTree head : string) (merge_heads : list string) : result check_error Commit :=
  throw_if negb (String.eqb (tree c) expectedTree) with TreeMismatch ;;
  if String.eqb head "" then
    throw_if negb (Nat.eqb (length (parents c)) 0) with UnexpectedParent ;; Ok (mkCommit (tree c) [])
  else throw_if negb (bool_decide (parents c = head :: merge_heads)) with ParentMismatch ;; Ok c.

(** What [MERGE_HEAD] is: absent, or an entry with its text. *)
Definition merge_heads (file : option (Stat * option string)) : result check_error (list string) :=
  match file with
  | None => Ok []
  | Some (s, text) =>
      throw_if negb (isFile s) || isSymbolicLink s with MergeHeadNotRegular ;;
      text ← of_option CheckHostError text;
      let heads := filter (fun l => String.eqb l "" = false) (split_on newline (trim text)) in
      throw_if Nat.eqb (length heads) 0 || existsb (fun h => negb (re_test OBJECT_ID h)) heads with MergeHeadInvalid ;;
      Ok heads
  end.

(** ** The arguments of the signer *)

Definition HASHES : list string := ["hashalg=sha256"; "hashalg=sha512"].

(** The loop of [sanitizeSignArgs]: [operation], [namespace] and [options]. *)
Fixpoint scan_args (args : list jsval) (operation namespace : bool) (options : list string)
    : result check_error (bool * bool * list string) :=
  match args with
  | [] => Ok (operation, namespace, options)
  | value :: rest =>
      match rest with
      | next :: rest' =>
          if is_str value "-Y" && is_str next "sign" then scan_args rest' true namespace options
          else if is_str value "-n" && is_str next "git" then scan_args rest' operation true options
          else if is_str value "-f" && truthy next then scan_args rest' operation namespace options
          else if is_str value "-O" && one_of HASHES next then
            scan_args rest' operation namespace (options ++ ["-O"; default "" (as_str next)])
          else if is_str value "-q" then scan_args rest operation namespace options
          else Throw ArgumentUnsupported
      | [] => if is_str value "-q" then Ok (operation, namespace, options) else Throw ArgumentUnsupported
      end
  end.

Definition sanitizeSignArgs (args : jsval) (configuredKey : string) : result check_error (list string) :=
  match args with
  | JArr args =>
      '(operation, namespace, options) ← scan_args args false false [];
      throw_if negb operation || negb namespace with NotGitSign ;;
      throw_if String.eqb configuredKey "" || negb (isAbsolute configuredKey) with KeyNotAbsolute ;;
      Ok (["-Y"; "sign"; "-n"; "git"; "-f"; configuredKey] ++ options)%list
  | _ => Throw ArgumentsMissing
  end.

(** [expandHome]: [path.join] of the home directory, or [path.resolve], of a
    process whose home and working directory are absolute. *)
Definition without_slash (p : string) : string :=
  if String.eqb p "/" then p else if ends_with_slash p then String.substring 0 (String.length p - 1) p else p.

Definition resolve (working p : string) : string :=
  without_slash (normalize (if isAbsolute p then p else working +:+ "/" +:+ p)).

Definition expandHome (home working : string) (value : jsval) : result check_error string :=
  if negb (truthy value) then Ok "" else
  match value with
  | JStr s =>
      match after_word "~/" s with
      | Some rest => Ok (normalize (if String.eqb rest "" then home else home +:+ "/" +:+ rest))
      | None => Ok (resolve working s)
      end
  | _ => Throw CheckTypeFailure
  end.

(** ** The session and the configuration *)

(** [Buffer.from(text, "hex")]: up to the first pair that is not of digits. *)
Definition hex_value (c : ascii) : nat := hex_code (if upper c then ascii_of_nat (code c + 32) else c).

Fixpoint hex_bytes (s : string) : string :=
  match s with
  | String a (String b s) =>
      if hex_any a && hex_any b then String (ascii_of_nat (16 * hex_value a + hex_value b)) (hex_bytes s) else ""
  | _ => ""
  end.

(** [Buffer.from(v, "hex")]; arrays and objects of bytes are outside of the
    model. *)
Definition bytes_of_hash (v : jsval) : result check_error string :=
  match v with
  | JStr s => Ok (hex_bytes s)
  | JArr _ | JObj _ | JBytes _ | JHost _ => Throw CheckOutsideModel
  | _ => Throw CheckTypeFailure
  end.

Section Sessions.
Context `{HParse : DateParse} `{HSha : Sha256}.

(** [now >= Date.parse(v)]: false when the text is not a date. *)
Definition reached (now : Z) (v : jsval) : result check_error bool :=
  match to_string v with
  | None => Throw CheckTypeFailure
  | Some s => Ok match date_parse s with Some t => (t <=? now)%Z | None => false end
  end.

(** [a === b] of JSON values that are not objects. *)
Definition same_scalar (a b : jsval) : bool :=
  match a, b with
  | JNum NNaN, _ => false
  | JUndefined, _ | JNull, _ | JBool _, _ | JNum _, _ | JStr _, _ => bool_decide (a = b)
  | _, _ => false
  end.

(** [validateSession] *)
Definition validateSession (session supplied generation agentId : jsval) (now : Z) : result check_error bool :=
  match supplied with
  | JStr token =>
      if negb (truthy session) then Ok false else
      late ← reached now (get session "expires_at");
      if (late : bool) || negb (same_scalar (get session "generation") generation)
         || negb (same_scalar (get session "agent_id") agentId) then Ok false else
      expected ← bytes_of_hash (get session "token_hash");
      Ok (String.eqb (unhex (sha256 token)) expected)
  | _ => Ok false
  end.

(** [digestConfig] *)
Definition digestConfig (config : jsval) : string :=
  sha256 (stringify (match config with JObj fs => JObj (delete_field "audit_anchor" fs) | v => v end)).
End Sessions.

(** ** The device key *)

(** What the file system says of a key file: its directory, the entry before
    it was opened, that what was opened is that entry, and the key in it. *)
Record DeviceKeyFile := mkDeviceKeyFile {
  key_directory : option Stat; key_entry : option Stat; same_entry : option bool; key_content : option (string * string)
}.

(** [readProtectedDevicePrivateKey]: the asymmetric type of the key and its
    curve. *)
Definition readProtectedDevicePrivateKey (file : jsval) (f : DeviceKeyFile) : result check_error (string * string) :=
  throw_if negb (match file with JStr p => isAbsolute p | _ => false end) with DeviceKeyPath ;;
  parent ← of_option CheckHostError (key_directory f);
  before ← of_option CheckHostError (key_entry f);
  throw_if negb (isDirectory parent) || isSymbolicLink parent || negb (owned parent) || permissive parent with DeviceKeyDirectory ;;
  throw_if negb (isFile before) || isSymbolicLink before || negb (Z.eqb (nlink before) 1) || negb (owned before)
           || permissive before || (MAX_DEVICE_KEY_BYTES <? byte_size before)%Z with DeviceKeyUnsafe ;;
  same ← of_option CheckHostError (same_entry f);
  throw_if negb same with DeviceKeyChanged ;;
  key ← of_option CheckHostError (key_content f);
  throw_if negb (includes ["ed25519"; "ec"] key.1) || (String.eqb key.1 "ec" && negb (String.eqb key.2 "prime256v1")) with DeviceKeyType ;;
  Ok key.

(** ** Lemmas: payloads and arguments *)

Lemma decoded_payload value payload :
  decodePayload value = Ok payload -> payload <> "" /\ (Z.of_nat (String.length payload) <= MAX_PAYLOAD_BYTES)%Z.
Proof.
  unfold decodePayload. destruct value; try done. intros H. run_steps H. injection H as <-. guards. split; [|lia].
  intros E. by rewrite E in *.
Qed.

(** The options that a caller may choose. *)
Definition hash_options (hs : list string) : list string := flat_map (fun h => ["-O"; h]) hs.

Lemma scan_options args op ns opts op' ns' opts' :
  scan_args args op ns opts = Ok (op', ns', opts') -> exists hs, Forall (fun h => h ∈ HASHES) hs /\ opts' = (opts ++ hash_options hs)%list.
Proof.
  assert (exists n, length args <= n) as [n Hn] by (by exists (length args)).
  revert args op ns opts Hn. induction n as [|n IH]; intros args op ns opts Hn H.
  - destruct args; [|cbn in Hn; lia]. injection H as <- <- <-. exists []. by rewrite app_nil_r.
  - destruct args as [|v [|next rest]]; cbn [scan_args length] in *.
    + injection H as <- <- <-. exists []. by rewrite app_nil_r.
    + destruct (is_str v "-q"); [|done]. injection H as <- <- <-. exists []. by rewrite app_nil_r.
    + destruct (_ && _); [by apply IH in H; [|lia]|]. destruct (_ && _); [by apply IH in H; [|lia]|].
      destruct (_ && _); [by apply IH in H; [|lia]|]. destruct (is_str v "-O" && one_of HASHES next) eqn:EO.
      * apply IH in H as (hs & Hhs & ->); [|lia]. apply andb_true_iff in EO as [_ EO]. apply one_of_true in EO as (h & -> & Hh).
        exists (h :: hs). split; [by constructor|]. cbn [as_str]. by rewrite <- app_assoc.
      * destruct (is_str v "-q"); [|done]. apply (IH (next :: rest)) in H; [done|cbn [length]; lia].
Qed.

Lemma sanitized args key out :
  sanitizeSignArgs args key = Ok out ->
  isAbsolute key = true /\ exists hs, Forall (fun h => h ∈ HASHES) hs /\ out = (["-Y"; "sign"; "-n"; "git"; "-f"; key] ++ hash_options hs)%list.
Proof.
  unfold sanitizeSignArgs. destruct args as [ | | | | |l| | | | ]; try done. intros H. run_steps H.
  destruct x as [[op ns] opts]. run_steps H. injection H as <-. guards. split; [done|].
  match goal with H : scan_args _ _ _ _ = Ok _ |- _ => apply scan_options in H as (hs & Hhs & ->) end. by exists hs.
Qed.

Lemma parse_commit_ok payload c :
  parse_commit payload = Ok c ->
  exists header, header_of payload = Some header /\ lines_of "tree " (split_on newline header) = [tree c] /\
    lines_of "parent " (split_on newline header) = parents c /\ re_test OBJECT_ID (tree c) = true.
Proof.
  unfold parse_commit. intros H. run_steps H. exists x. split; [done|].
  destruct (lines_of "tree " _) as [|t [|]]; try done. run_steps H. injection H as <-. guards. done.
Qed.

Lemma check_commit_ok c tree' head merges c' :
  check_commit c tree' head merges = Ok c' ->
  tree c' = tree' /\ c' = c /\ parents c' = if String.eqb head "" then [] else head :: merges.
Proof.
  unfold check_commit. intros H. run_steps H. guards. destruct (String.eqb head "").
  - run_steps H. injection H as <-. guards. destruct c as [t [|]]; [done|done].
  - run_steps H. injection H as <-. by guards.
Qed.

Section Sessions.
Context `{HParse : DateParse} `{HSha : Sha256}.

Lemma session_valid session supplied generation agentId now :
  validateSession session supplied generation agentId now = Ok true <->
  exists token hash, supplied = JStr token /\ truthy session = true /\ reached now (get session "expires_at") = Ok false /\
    same_scalar (get session "generation") generation = true /\ same_scalar (get session "agent_id") agentId = true /\
    get session "token_hash" = JStr hash /\ unhex (sha256 token) = hex_bytes hash.
Proof.
  unfold validateSession. destruct supplied as [ | | | |token| | | | | ]; try (split; [done|]; by intros (? & ? & [=] & _)).
  destruct (truthy session); cbn [negb]; [|split; [done|by intros (? & ? & _ & [=] & _)]].
  destruct (reached now _) as [late|]; cbn [mbind result_bind]; [|split; [done|by intros (? & ? & _ & _ & [=] & _)]].
  destruct late; cbn [orb]; [split; [done|by intros (? & ? & _ & _ & [=] & _)]|].
  destruct (same_scalar _ generation); cbn [orb negb]; [|split; [done|by intros (? & ? & _ & _ & _ & [=] & _)]].
  destruct (same_scalar _ agentId); cbn [orb negb]; [|split; [done|by intros (? & ? & _ & _ & _ & _ & [=] & _)]].
  destruct (get session "token_hash") as [ | | | |h| | | | | ]; cbn [bytes_of_hash mbind result_bind];
    try (split; [done|by intros (? & ? & _ & _ & _ & _ & _ & [=] & _)]).
  split.
  - intros [= E%String.eqb_eq]. by exists token, h.
  - intros (t & h' & [= <-] & _ & _ & _ & _ & [= <-] & ->). by rewrite String.eqb_refl.
Qed.
End Sessions.

(** ** Commit objects *)

(** The text of a commit object, as git writes it before it is signed. *)
Definition commit_lines (c : Commit) (author committer : string) : list string :=
  (("tree " +:+ tree c) :: map (fun p => "parent " +:+ p) (parents c) ++ ["author " +:+ author; "committer " +:+ committer])%list.

Definition commit_text (c : Commit) (author committer message : string) : string :=
  join (String newline "") (commit_lines c author committer) +:+ String newline (String newline message).

Lemma has_byte_app n s t : has_byte n (s +:+ t) = has_byte n s || has_byte n t.
Proof. unfold has_byte. by rewrite chars_app, existsb_app. Qed.

Lemma has_byte_join n sep l : has_byte n sep = false -> has_byte n (join sep l) = existsb (has_byte n) l.
Proof.
  intros Hs. induction l as [|s [|t l] IH]; [done|cbn; by rewrite orb_false_r|].
  change (join sep (s :: t :: l)) with (s +:+ sep +:+ join sep (t :: l)). rewrite !has_byte_app, Hs, IH. done.
Qed.

Lemma newline_free s c rest : has_byte 10 (String c rest) = false -> s = rest -> Ascii.eqb c newline = false /\ has_byte 10 rest = false.
Proof.
  intros H _. unfold has_byte in *. cbn [chars existsb] in H. apply orb_false_iff in H as [H1 H2]. split; [|done].
  destruct (Ascii.eqb_spec c newline) as [->|]; [discriminate H1|done].
Qed.

Lemma split_line s rest : has_byte 10 s = false -> split_on newline (s +:+ String newline rest) = s :: split_on newline rest.
Proof.
  induction s as [|c s IH]; [done|]. intros H. destruct (newline_free s c s H eq_refl) as [Hc Hs].
  change (String c s +:+ ?x) with (String c (s +:+ x)). cbn [split_on]. by rewrite Hc, (IH Hs).
Qed.

Lemma split_last s : has_byte 10 s = false -> split_on newline s = [s].
Proof.
  induction s as [|c s IH]; [done|]. intros H. destruct (newline_free s c s H eq_refl) as [Hc Hs].
  cbn [split_on]. by rewrite Hc, (IH Hs).
Qed.

Lemma split_join l : l <> [] -> Forall (fun s => has_byte 10 s = false) l -> split_on newline (join (String newline "") l) = l.
Proof.
  intros Hl H. induction H as [|s l Hs H IH]; [done|]. destruct l as [|t l]; [by apply split_last|].
  change (join ?sep (s :: t :: l)) with (s +:+ String newline (join sep (t :: l))). rewrite split_line by done. by rewrite IH.
Qed.

Lemma header_line s rest :
  has_byte 10 s = false -> header_of (s +:+ String newline (String newline rest)) = Some s.
Proof.
  induction s as [|c s IH]; [done|]. intros H. destruct (newline_free s c s H eq_refl) as [Hc Hs].
  change (String c s +:+ ?x) with (String c (s +:+ x)). specialize (IH Hs).
  destruct (s +:+ String newline (String newline rest)) as [|d x] eqn:Ed; [by destruct s|].
  change (header_of (String c (String d x))) with
    (if Ascii.eqb c newline && Ascii.eqb d newline then Some "" else option_map (String c) (header_of (String d x))).
  by rewrite Hc, IH.
Qed.

Lemma header_next s c rest :
  has_byte 10 s = false -> Ascii.eqb c newline = false -> header_of (s +:+ String newline (String c rest)) =
  option_map (fun h => s +:+ String newline h) (header_of (String c rest)).
Proof.
  intros Hs Hc. induction s as [|a s IH].
  - change ("" +:+ ?x) with x. change (header_of (String newline (String c rest))) with
      (if Ascii.eqb newline newline && Ascii.eqb c newline then Some "" else option_map (String newline) (header_of (String c rest))).
    by rewrite Hc, andb_false_r.
  - destruct (newline_free s a s Hs eq_refl) as [Ha Hs']. specialize (IH Hs').
    change (String a s +:+ ?x) with (String a (s +:+ x)).
    destruct (s +:+ String newline (String c rest)) as [|d x] eqn:Ed; [by destruct s|].
    change (header_of (String a (String d x))) with
      (if Ascii.eqb a newline && Ascii.eqb d newline then Some "" else option_map (String a) (header_of (String d x))).
    rewrite Ha, IH. cbn [andb]. by destruct (header_of (String c rest)).
Qed.

Lemma header_join l rest :
  l <> [] -> Forall (fun s => s <> "" /\ has_byte 10 s = false) l ->
  header_of (join (String newline "") l +:+ String newline (String newline rest)) = Some (join (String newline "") l).
Proof.
  intros Hl H. induction H as [|s l [_ Hs] H IH]; [done|]. destruct l as [|t l]; [by apply header_line|].
  change (join ?sep (s :: t :: l)) with (s +:+ String newline (join sep (t :: l))).
  specialize (IH ltac:(done)). apply Forall_cons in H as [[Ht1 Ht2] _]. destruct t as [|c t]; [done|].
  assert (exists x, join (String newline "") (String c t :: l) = String c x) as [x Hx] by (destruct l; by eexists).
  rewrite Hx in *. rewrite string_app_assoc. change (String newline (String c x) +:+ ?y) with (String newline (String c (x +:+ y))).
  destruct (newline_free t c t Ht2 eq_refl) as [Hc _]. rewrite header_next by done.
  change (String c x +:+ ?y) with (String c (x +:+ y)) in IH. by rewrite IH.
Qed.

Lemma object_id_clean t n : re_test OBJECT_ID t = true -> n < 48 -> has_byte n t = false.
Proof.
  intros H%re_test_spec Hn. apply class_inv in H as (H & _). unfold has_byte. apply existsb_not_elem_of. intros c Hc.
  rewrite Forall_forall in H. specialize (H c Hc). unfold hex_lower, digit, between in H. apply Nat.eqb_neq. intros <-.
  rewrite orb_true_iff, !andb_true_iff, !Nat.leb_le in H. change (code "0") with 48 in H. change (code "a") with 97 in H. lia.
Qed.

(** Words of the header. *)
Lemma after_word_app w s : after_word w (w +:+ s) = Some s.
Proof. induction w as [|c w IH]; [done|]. change (String c w +:+ s) with (String c (w +:+ s)). cbn [after_word]. by rewrite Ascii.eqb_refl. Qed.

Lemma lines_of_app w l l' : lines_of w (l ++ l') = (lines_of w l ++ lines_of w l')%list.
Proof. unfold lines_of. by rewrite omap_app. Qed.

Lemma lines_of_words w v l : (forall s, after_word w (v +:+ s) = None) -> lines_of w (map (fun s => v +:+ s) l) = [].
Proof. intros H. induction l as [|s l IH]; [done|]. unfold lines_of in *. cbn [map omap list_omap]. by rewrite H. Qed.

Lemma lines_of_same w l : lines_of w (map (fun s => w +:+ s) l) = l.
Proof. induction l as [|s l IH]; [done|]. unfold lines_of in *. cbn [map omap list_omap]. rewrite after_word_app. f_equal. exact IH. Qed.

Lemma commit_words c author committer w :
  lines_of w (commit_lines c author committer) =
  (lines_of w ["tree " +:+ tree c] ++ lines_of w (map (fun p => "parent " +:+ p) (parents c))
   ++ lines_of w ["author " +:+ author; "committer " +:+ committer])%list.
Proof. unfold commit_lines. change (?a :: ?l) with ([a] ++ l)%list at 1. by rewrite !lines_of_app. Qed.

Lemma commit_starts c author committer w :
  after_word w ("tree " +:+ tree c) = None -> (forall s, after_word w ("parent " +:+ s) = None) ->
  after_word w ("author " +:+ author) = None -> after_word w ("committer " +:+ committer) = None ->
  existsb (fun l => startsWith l w) (commit_lines c author committer) = false.
Proof.
  intros H1 H2 H3 H4. apply existsb_not_elem_of. intros l Hl. apply bool_decide_false. rewrite <- eq_None_not_Some.
  unfold commit_lines in Hl. apply elem_of_cons in Hl as [-> | Hl]; [done|]. apply elem_of_app in Hl as [Hl|Hl].
  - apply list_elem_of_fmap in Hl as (s & -> & _). apply H2.
  - apply elem_of_cons in Hl as [-> | Hl]; [done|]. by apply list_elem_of_singleton in Hl as ->.
Qed.

Definition clean (s : string) : Prop := has_byte 0 s = false /\ has_byte 10 s = false /\ has_byte 13 s = false.

Lemma commit_clean c author committer n :
  re_test OBJECT_ID (tree c) = true -> Forall (fun p => re_test OBJECT_ID p = true) (parents c) ->
  has_byte n author = false -> has_byte n committer = false -> n < 14 ->
  Forall (fun s => has_byte n s = false) (commit_lines c author committer).
Proof.
  intros Ht Hp Ha Hc Hn.
  assert (forall w, Forall (fun d => n <> code d) (chars w) -> has_byte n w = false) as Hw.
  { intros w Hw. unfold has_byte. apply existsb_not_elem_of. intros d Hd. rewrite Forall_forall in Hw. apply Nat.eqb_neq. intros <-. by apply (Hw d). }
  assert (Forall (fun w => has_byte n w = false) ["tree "; "parent "; "author "; "committer "]) as Hws.
  { do 14 (destruct n as [|n]; [repeat constructor|]). lia. }
  repeat (apply Forall_cons in Hws as [? Hws]). unfold commit_lines. constructor; [rewrite has_byte_app, (object_id_clean (tree c)) by (done || lia); by apply orb_false_iff|].
  apply Forall_app. split.
  - apply Forall_fmap. eapply Forall_impl; [exact Hp|]. intros p Hpp. unfold compose. cbn beta. rewrite has_byte_app, (object_id_clean p) by (done || lia). by apply orb_false_iff.
  - apply Forall_cons. split; [|apply Forall_cons; split; [|done]]; cbn beta; rewrite has_byte_app; by apply orb_false_iff.
Qed.

Lemma commit_parsed c author committer message :
  re_test OBJECT_ID (tree c) = true -> Forall (fun p => re_test OBJECT_ID p = true) (parents c) ->
  clean author -> clean committer -> has_byte 0 message = false -> has_byte 13 message = false ->
  (Z.of_nat (String.length (commit_text c author committer message)) <= MAX_PAYLOAD_BYTES)%Z ->
  parse_commit (commit_text c author committer message) = Ok c.
Proof.
  intros Ht Hp (Ha0 & Ha10 & Ha13) (Hc0 & Hc10 & Hc13) Hm0 Hm13 Hsize.
  assert (forall n, n < 14 -> n <> 10 -> has_byte n author = false -> has_byte n committer = false -> has_byte n message = false ->
            has_byte n (commit_text c author committer message) = false) as Hfree.
  { intros n Hn H10 Ha Hc Hm. unfold commit_text. rewrite has_byte_app.
    assert (has_byte n (String newline "") = false) as Hnl by (unfold has_byte; cbn; rewrite orb_false_r; apply Nat.eqb_neq; by intros <-).
    rewrite has_byte_join by done. change (String newline (String newline message)) with (String newline "" +:+ String newline "" +:+ message).
    rewrite !has_byte_app, Hnl, Hm, !orb_false_r. apply existsb_not_elem_of, Forall_forall. by apply commit_clean. }
  pose proof (commit_clean c author committer 10 Ht Hp Ha10 Hc10 ltac:(lia)) as Hnl.
  unfold parse_commit. rewrite (proj2 (Nat.eqb_neq _ _)) by (by destruct c as [t [|p ps]]). rewrite (proj2 (Z.ltb_ge _ _)) by done.
  rewrite !Hfree by (done || lia). cbn [orb]. unfold commit_text. rewrite header_join; [|done|].
  2: { apply Forall_and. split; [|done]. unfold commit_lines. apply Forall_cons. split; [done|]. apply Forall_app. split.
       - by apply Forall_fmap, Forall_true.
       - by do 2 (apply Forall_cons; split; [done|]). }
  cbn [of_option mbind result_bind]. rewrite split_join by done.
  rewrite commit_starts by done. replace (existsb _ _) with false.
  2: { symmetry. apply existsb_not_elem_of. intros l Hl. apply orb_false_iff.
       split; revert l Hl; apply existsb_not_elem_of; by apply commit_starts. }
  rewrite !commit_words, lines_of_same, !lines_of_words by done.
  unfold lines_of at 1 2 3 4 5 6. cbn [omap list_omap app length Nat.eqb negb orb]. rewrite !after_word_app. cbn [app length Nat.eqb negb orb].
  replace (lines_of "parent " _) with (@nil string) by done. rewrite app_nil_r.
  rewrite Ht. rewrite (proj2 (existsb_not_elem_of _ _)); [by destruct c|].
  intros p Hpp. rewrite Forall_forall in Hp. by rewrite Hp.
Qed.

(** ** Properties *)

(** The text of a commit object, with its identities on one line each, is
    accepted as a payload, and its tree and parents are read back from it. *)
Theorem commit_text_accepted c author committer message :
  re_test OBJECT_ID (tree c) = true -> Forall (fun p => re_test OBJECT_ID p = true) (parents c) ->
  clean author -> clean committer -> has_byte 0 message = false -> has_byte 13 message = false ->
  (Z.of_nat (String.length (commit_text c author committer message)) <= MAX_PAYLOAD_BYTES)%Z ->
  parse_commit (commit_text c author committer message) = Ok c.
Proof. exact (commit_parsed c author committer message). Qed.

(** The arguments of the signer are those of a signature for git with the
    configured key, whatever key the caller names, and at most the options of
    a hash that the caller chooses. *)
Theorem signer_arguments_fixed args key out :
  sanitizeSignArgs args key = Ok out ->
  isAbsolute key = true /\ exists hs, Forall (fun h => h ∈ HASHES) hs /\ out = (["-Y"; "sign"; "-n"; "git"; "-f"; key] ++ hash_options hs)%list.
Proof. exact (sanitized args key out). Qed.

(** A session is valid exactly for the token whose digest it holds, the
    agent and the generation it was made for, before its expiry; so a session
    whose expiry is not a date never expires. *)
Theorem validateSession_spec `{DateParse} `{Sha256} session supplied generation agentId now :
  (validateSession session supplied generation agentId now = Ok true <->
   exists token hash, supplied = JStr token /\ truthy session = true /\ reached now (get session "expires_at") = Ok false /\
     same_scalar (get session "generation") generation = true /\ same_scalar (get session "agent_id") agentId = true /\
     get session "token_hash" = JStr hash /\ unhex (sha256 token) = hex_bytes hash) /\
  (forall s, get session "expires_at" = JStr s -> date_parse s = None ->
     forall now', validateSession session supplied generation agentId now' = validateSession session supplied generation agentId now).
Proof.
  split; [apply session_valid|]. intros s Hs Hd now'. unfold validateSession, reached. rewrite Hs. cbn [to_string]. by rewrite Hd.
Qed.

(** ** Examples *)

Module Sample.
Definition object (c : ascii) : string := String.string_of_list_ascii (repeat c 40).
Definition commit : Commit := mkCommit (object "a") [object "b"; object "c"].
Definition author : string := "A U Thor <author@example.com> 1700000000 +0000".
Definition message : string := "A merge" +:+ String newline "".
End Sample.

Lemma commit_text_accepted_witness :
  parse_commit (commit_text Sample.commit Sample.author Sample.author Sample.message) = Ok Sample.commit.
Proof.
  apply commit_text_accepted; [reflexivity|repeat constructor|repeat split|repeat split|reflexivity..|vm_compute; discriminate].
Defined.

Lemma signer_arguments_fixed_witness :
  exists hs, ["-Y"; "sign"; "-n"; "git"; "-f"; "/keys/id"; "-O"; "hashalg=sha512"] = (["-Y"; "sign"; "-n"; "git"; "-f"; "/keys/id"] ++ hash_options hs)%list.
Proof.
  destruct (signer_arguments_fixed (JArr (map JStr ["-Y"; "sign"; "-n"; "git"; "-f"; "/tmp/other"; "-O"; "hashalg=sha512"])) "/keys/id"
    ["-Y"; "sign"; "-n"; "git"; "-f"; "/keys/id"; "-O"; "hashalg=sha512"] eq_refl) as (_ & hs & _ & H).
  exists hs. exact H.
Defined.
