(* ===== verification/AuditTransaction.v ===== *)
(** * Authorization audit transactions (lib/audit-transaction.mjs)

    The fence around a decision and its signer: an intent is appended to the
    audit log before the signer is called, its result before the signature is
    returned, and what lies between is kept in a state file, so that a process
    that dies leaves an entry that is never signed again.  Entries are the
    objects of the file, changed property by property as the code does; the
    operations are programs over the state file, its lock, the audit log and
    the signer (Program), in a world that records what was logged, signed and
    dropped.  AuditTransactionFacts proves what they guarantee.

    The state is JSON: what is written is read back without the properties
    that [JSON.stringify] omits ([json_clone]); a [Buffer] given as a digest is
    outside of the model. *)

From stdpp Require Import base tactics list strings pretty.
From Stdlib Require Import Ascii.
From S2P Require Import Prelude JsValue Regex Json Objects Crypto Capability FileSystem Program BundleJson.
Local Open Scope string_scope.
Local Open Scope js_scope.

(** ** Constants and errors *)

Definition VERSION : Z := 1.
Definition EMPTY_HASH : string := "0000000000000000000000000000000000000000000000000000000000000000".
Definition MAX_STATE_BYTES : Z := 2097152.
Definition MAX_REQUESTS : nat := 4096.
Definition MAX_SIGNATURE_BYTES : Z := 1048576.
Definition MAX_ID_LENGTH : nat := 128.
Definition MAX_REASON_LENGTH : nat := 64.
Definition DIGEST : re := times hex_lower 64.
Definition REQUEST_ID : re := RSeq (one alnum) (upto (fun c => alnum c || in_chars "._:-" c) 127).
Definition SAFE_REASON : re := RSeq (one lower) (upto (fun c => lower c || digit c || in_chars "._:-" c) 63).

(** What is thrown: a [transactionError] by its code, the errors of the files
    and of the lock, and those of the host.  [OutsideModel] is the conversion
    of an object to bytes. *)
Inductive exn :=
| TransactionError (code : string)
| Unsafe | LockInvalid | Busy
| TypeFailure | RangeFailure | HostError | OutsideModel.

#[export] Instance exn_eq_dec : EqDecision exn.
Proof. solve_decision. Defined.

Definition transactionError {A} (code : string) : result exn A := Throw (TransactionError code).

(** The property [outcome] of the error. *)
Definition error_outcome (e : exn) : option string :=
  match e with TransactionError "result_not_durable" => Some "outcome_unknown" | _ => None end.

Definition assertBoundedNumber (v : jsval) (min max : Z) : result exn Z :=
  match safe_integer v with
  | Some z => throw_if (z <? min)%Z || (max <? z)%Z with RangeFailure ;; Ok z
  | None => Throw RangeFailure
  end.

(** [a === b]: two objects are never the same here, each being built anew. *)
Definition strict_equal (a b : jsval) : bool :=
  match a, b with
  | JNum NNaN, _ => false
  | JUndefined, _ | JNull, _ | JBool _, _ | JNum _, _ | JStr _, _ => bool_decide (a = b)
  | _, _ => false
  end.

(** ** Requests *)

Definition assertRequestId (v : jsval) : result exn string :=
  match v with
  | JStr s =>
      throw_if Nat.ltb MAX_ID_LENGTH (String.length s) || negb (re_test REQUEST_ID s) with TransactionError "request_id_invalid" ;;
      Ok s
  | _ => transactionError "request_id_invalid"
  end.

Definition intent_fields : list string :=
  ["request_id"; "request_digest"; "trusted_context_digest"; "policy_sequence"; "capability_sequence"; "payload_digest"].

(** [Number.isSafeInteger(v) && v >= 0] *)
Definition natural (v : jsval) : bool := match safe_integer v with Some z => (0 <=? z)%Z | None => false end.

(** [{ ...(value === undefined ? {} : { [k]: value }) }] *)
Definition optional (k : string) (v : jsval) : list (string * jsval) := if is_undefined v then [] else [(k, v)].

Definition intent_of (id : string) (value : jsval) : jsval :=
  JObj ([("request_id", JStr id)] ++ optional "request_digest" (get value "request_digest")
        ++ [("trusted_context_digest", get value "trusted_context_digest"); ("policy_sequence", get value "policy_sequence");
            ("capability_sequence", get value "capability_sequence"); ("payload_digest", get value "payload_digest")])%list.

Definition normalizeIntent (value : jsval) : result exn jsval :=
  throw_if negb (is_object value) with TransactionError "request_invalid" ;;
  throw_if negb (forallb (includes intent_fields) (own_keys value))
    with TransactionError "request_contains_sensitive_or_unknown_field" ;;
  id ← assertRequestId (get value "request_id");
  throw_if negb (coerced_test DIGEST (nullish (get value "trusted_context_digest") (JStr "")))
    with TransactionError "trusted_context_digest_invalid" ;;
  throw_if negb (coerced_test DIGEST (nullish (get value "payload_digest") (JStr "")))
    with TransactionError "payload_digest_invalid" ;;
  throw_if negb (is_undefined (get value "request_digest")) && negb (coerced_test DIGEST (get value "request_digest"))
    with TransactionError "request_digest_invalid" ;;
  throw_if negb (natural (get value "policy_sequence")) with TransactionError "policy_sequence_invalid" ;;
  throw_if negb (natural (get value "capability_sequence")) with TransactionError "capability_sequence_invalid" ;;
  Ok (intent_of id value).

Record Input := mkInput { i_intent : jsval; i_decision : jsval; i_reason : jsval; i_signer : jsval }.

(** The properties that are not destructured. *)
Definition direct (input : jsval) : jsval :=
  match input with
  | JObj fs => JObj (filter (fun kv => includes ["intent"; "decision"; "reason"; "signer"; "request"] kv.1 = false) fs)
  | v => v
  end.

Definition splitInput (input : jsval) : result exn Input :=
  throw_if negb (is_object input) with TransactionError "request_invalid" ;;
  let decision := if is_undefined (get input "decision") then JStr "allow" else get input "decision" in
  Ok (mkInput (nullish (get input "intent") (nullish (get input "request") (direct input))) decision
        (get input "reason") (get input "signer")).

Definition normalizeReason (value : jsval) (fallback : string) : result exn string :=
  match value with
  | JUndefined => Ok fallback
  | JStr s =>
      throw_if Nat.ltb MAX_REASON_LENGTH (String.length s) || negb (re_test SAFE_REASON s) with TransactionError "reason_invalid" ;;
      Ok s
  | _ => transactionError "reason_invalid"
  end.

Definition intentEvent (intent : jsval) : jsval :=
  JObj ([("event", JStr "authorized_intent"); ("request_id", get intent "request_id")]
        ++ (if truthy (get intent "request_digest") then [("request_digest", get intent "request_digest")] else [])
        ++ [("trusted_context_digest", get intent "trusted_context_digest"); ("policy_sequence", get intent "policy_sequence");
            ("capability_sequence", get intent "capability_sequence"); ("payload_digest", get intent "payload_digest")])%list.

Definition resultEvent (entry : jsval) : jsval :=
  JObj [("event", get (get entry "result") "decision"); ("request_id", get entry "request_id");
        ("intent_hash", nullish (get entry "intent_hash") (JStr EMPTY_HASH)); ("reason", get (get entry "result") "reason")].

(** [const hash = value?.hash ?? value?.event_hash ?? value?.audit_hash] *)
Definition auditHash (value : jsval) : jsval :=
  let hash := nullish (get value "hash") (nullish (get value "event_hash") (get value "audit_hash")) in
  if str_test DIGEST hash then hash else JNull.

(** ** Results of the signer *)

(** [Buffer.from(value)] *)
Definition buffer_from (v : jsval) : result exn string :=
  match v with
  | JBytes b => Ok b
  | JStr s => Ok (utf8 s)
  | JArr l => zs ← of_option OutsideModel (option_all (map js_integer l));
              Ok (String.string_of_list_ascii (map (fun z => ascii_of_nat (Z.to_nat (z mod 256))) zs))
  | JObj _ | JHost _ => Throw OutsideModel
  | _ => Throw TypeFailure
  end.

Record Signed := mkSigned { s_signature : option string; s_audit : jsval; s_result : jsval }.

Definition make_result (decision reason : string) : jsval := JObj [("decision", JStr decision); ("reason", JStr reason)].

Definition succeeded (signature : string) : result exn Signed :=
  throw_if Nat.eqb (String.length signature) 0 || (MAX_SIGNATURE_BYTES <? Z.of_nat (String.length signature))%Z
    with TransactionError "signer_output_invalid" ;;
  Ok (mkSigned (Some signature)
        (JObj [("status", JStr "succeeded"); ("bytes", JNum (NInt (Z.of_nat (String.length signature))))])
        (make_result "allow" "allowed")).

Definition failed (status : jsval) : Signed :=
  mkSigned None
    (JObj (("status", JStr "failed") :: (match safe_integer status with Some z => [("status_code", JNum (NInt z))] | None => [] end)))
    (make_result "error" "signer_failed").

Definition is_failure (value : jsval) : bool :=
  bool_decide (get value "ok" = JBool false)
  || match js_integer (get value "status") with Some z => negb (Z.eqb z 0) | None => false end.

Definition normalizeSignerResult (value : jsval) : result exn Signed :=
  match value with
  | JBytes _ | JStr _ => b ← buffer_from value; succeeded b
  | JObj _ | JArr _ | JHost _ =>
      if bool_decide (get value "ok" = JBool true) || is_int (get value "status") 0 then
        let signature := nullish (get value "signature") (get value "stdout") in
        throw_if is_undefined signature with TransactionError "signer_result_invalid" ;;
        b ← buffer_from signature; succeeded b
      else if is_failure value then Ok (failed (get value "status"))
      else transactionError "signer_result_invalid"
  | _ => transactionError "signer_result_invalid"
  end.

(** ** Entries and outcomes *)

Section Entries.
Context `{HSha : Sha256}.

Definition fingerprint (intent : jsval) : string := sha256 (canonicalJson intent).

Definition newEntry (intent : jsval) (phase : string) : jsval :=
  JObj [("request_id", get intent "request_id"); ("fingerprint", JStr (fingerprint intent)); ("intent", intent);
        ("phase", JStr phase); ("intent_hash", JNull); ("signer", JNull); ("signature_base64", JNull); ("result", JNull);
        ("result_hash", JNull)].

Record Outcome := mkOutcome {
  o_request_id : jsval; o_outcome : jsval; o_reason : jsval; o_replayed : bool; o_signature : option string
}.

Definition publicOutcome (entry : jsval) : Outcome :=
  let outcome := nullish (get (get entry "result") "decision") (JStr "outcome_unknown") in
  let replayed := is_str (get entry "phase") "terminal" in
  mkOutcome (get entry "request_id") outcome (nullish (get (get entry "result") "reason") (JStr "outcome_unknown")) replayed
    (match get entry "signature_base64" with
     | JStr s => if is_str outcome "allow" && replayed && negb (String.eqb s "") then Some (base64_bytes s) else None
     | _ => None
     end).

Definition assertSameRequest (entry intent : jsval) : result exn unit :=
  throw_if negb (is_str (get entry "fingerprint") (fingerprint intent)) with TransactionError "request_id_reuse" ;; Ok tt.

(** ** The state *)

Definition emptyState : jsval := JObj [("version", JNum (NInt VERSION)); ("requests", JObj [])].

(** [state.requests] and [state.requests[id]] *)
Definition requests (state : jsval) : list (string * jsval) := fields_of (get state "requests").
Definition request (state : jsval) (id : string) : jsval := member (get state "requests") id.
Definition with_requests (state : jsval) (fs : list (string * jsval)) : jsval := assign state "requests" (JObj fs).

(** [state.requests[entry.request_id] = entry] *)
Definition put (state entry : jsval) : jsval :=
  with_requests state (set_field (default "" (to_string (get entry "request_id"))) entry (requests state)).

Definition set_phase (entry : jsval) (phase : string) : jsval := assign entry "phase" (JStr phase).

(** The loop of [compactTerminalRequests]: whether it deleted something, and
    what is left. *)
Fixpoint compact (ids : list string) (remaining : nat) (fs : list (string * jsval)) : bool * list (string * jsval) :=
  match ids with
  | [] => (false, fs)
  | id :: ids =>
      if Nat.leb remaining 1024 then (false, fs)
      else if one_of ["terminal"; "outcome_unknown"] (get (default JUndefined (assoc id fs)) "phase")
      then (true, snd (compact ids (remaining - 1) (delete_field id fs)))
      else compact ids remaining fs
  end.

Definition compactTerminalRequests (state : jsval) : bool * jsval :=
  let ids := ordered_keys (requests state) in
  if Nat.ltb (length ids) 2048 then (false, state)
  else let '(changed, fs) := compact ids (length ids) (requests state) in (changed, with_requests state fs).

Definition phases : list string :=
  ["intent_durable"; "signer_started"; "signer_completed"; "result_pending"; "outcome_unknown_pending"; "outcome_unknown"; "terminal"].

(** [Math.ceil(MAX_SIGNATURE_BYTES * 4 / 3) + 8] *)
Definition MAX_SIGNATURE_TEXT : Z := 1398110.

(** The tests of [signature_base64].  [base64_bytes] is the host's decoding of
    canonical texts; of any other text the encoding of the bytes differs. *)
Definition valid_signature (v : jsval) : bool :=
  match v with
  | JNull => true
  | JStr s =>
      (Z.of_nat (String.length s) <=? MAX_SIGNATURE_TEXT)%Z
      && (Z.of_nat (String.length (base64_bytes s)) <=? MAX_SIGNATURE_BYTES)%Z && String.eqb (base64 (base64_bytes s)) s
  | _ => false
  end.

Definition valid_hash (v : jsval) : bool := bool_decide (v = JNull) || coerced_test DIGEST v.

Definition valid_result (v : jsval) : bool :=
  bool_decide (v = JNull)
  || truthy v && one_of ["allow"; "deny"; "error"; "outcome_unknown"] (get v "decision")
     && coerced_test SAFE_REASON (nullish (get v "reason") (JStr "")).

Definition valid_entry (kv : string * jsval) : bool :=
  let '(id, entry) := kv in
  is_str (get entry "request_id") id && re_test REQUEST_ID id
  && coerced_test DIGEST (nullish (get entry "fingerprint") (JStr ""))
  && one_of phases (get entry "phase")
  && valid_signature (get entry "signature_base64")
  && match normalizeIntent (get entry "intent") with
     | Ok intent => is_str (get entry "fingerprint") (fingerprint intent)
     | Throw _ => false
     end
  && valid_hash (get entry "intent_hash") && valid_hash (get entry "result_hash")
  && valid_result (get entry "result").

Definition validateState (state : jsval) : result exn unit :=
  throw_if negb (is_int (get state "version") VERSION) || negb (is_object (get state "requests"))
    with TransactionError "transaction_state_invalid" ;;
  throw_if Nat.ltb MAX_REQUESTS (length (own_keys (get state "requests"))) with TransactionError "transaction_state_too_large" ;;
  throw_if negb (forallb valid_entry (requests state)) with TransactionError "transaction_state_invalid" ;;
  Ok tt.
End Entries.

(** ** Effects *)

Inductive Probe := Alive | ESRCH | OtherError.
Inductive Opened := Made | Exists | NotOpened.

Inductive Effect :=
(** the state file: its entry with what it holds; its atomic replacement *)
| ReadState
| WriteState (state : jsval)
(** the injected audit log and the signer of the request *)
| AppendAudit (event : jsval)
| VerifyAudit
| CallSigner (signer request_id payload_digest : jsval)
(** the lock file, the clock, the random token and the probe of a process *)
| NewToken
| OpenLock
| WriteLease (lease : jsval)
| InspectLock
| RemoveLock
| Clock
| ProbeProcess (pid : Z)
| Pause.

(** The answers: [None] and [false] when the call throws. *)
Definition resp (e : Effect) : Type :=
  match e with
  | ReadState | InspectLock => Entry File
  | AppendAudit _ | VerifyAudit | CallSigner _ _ _ => option jsval
  | WriteState _ | WriteLease _ | RemoveLock => bool
  | NewToken => string
  | OpenLock => Opened
  | Clock => Z
  | ProbeProcess _ => Probe
  | Pause => unit
  end.

Notation prog := (prog resp).
Notation async := (async resp exn).
Notation event := (event resp).

Definition tx {A} (code : string) : async A := throw (TransactionError code).

(** A call that may throw. *)
Definition attempted {A} (o : option A) : async A := match o with Some a => return_ a | None => throw HostError end.
Definition completed (ok : bool) : async unit := if ok then return_ tt else throw HostError.

(** ** Files *)

Definition assertSafeFile (file : Entry File) (missingAllowed : bool) : result exn unit :=
  match file with
  | Missing => if missingAllowed then Ok tt else Throw HostError
  | Denied => Throw HostError
  | Present f =>
      throw_if negb (isFile (stat f)) || isSymbolicLink (stat f) || negb (Z.eqb (nlink (stat f)) 1) with Unsafe ;;
      throw_if negb (owned (stat f)) with Unsafe ;;
      throw_if permissive (stat f) with Unsafe ;;
      Ok tt
  end.

Section Operations.
Context `{HSha : Sha256}.

Definition load_state (file : Entry File) : result exn jsval :=
  _ ← assertSafeFile file true;
  match file with
  | Present f =>
      throw_if (MAX_STATE_BYTES <? byte_size (stat f))%Z with TransactionError "transaction_state_too_large" ;;
      parsed ← of_option (TransactionError "transaction_state_invalid") (content f);
      _ ← validateState parsed;
      Ok parsed
  | _ => Ok emptyState
  end.

Definition _loadState : async jsval := await file := ask ReadState in sync (load_state file).

(** The checks made of the state before it is written. *)
Definition check_state (state : jsval) : result exn unit :=
  _ ← validateState state;
  throw_if (MAX_STATE_BYTES <? byteLength (stringify state))%Z with TransactionError "transaction_state_too_large" ;;
  Ok tt.

Definition _saveState (state : jsval) : async unit :=
  await _ := sync (check_state state) in
  await file := ask ReadState in
  await _ := sync (assertSafeFile file true) in
  await ok := ask (WriteState state) in
  completed ok.

(** ** The transaction *)

(** [verified && verified.valid === false] *)
Definition unhealthy (verified : jsval) : bool := bool_decide (get verified "valid" = JBool false).

Definition _assertAuditHealthy : async unit :=
  await answer := ask VerifyAudit in
  await verified := attempted answer in
  if unhealthy verified then tx "audit_chain_invalid" else return_ tt.

Definition appendAudit (event : jsval) : async jsval :=
  await answer := ask (AppendAudit event) in attempted answer.

Definition _finishOrWithhold (entry : jsval) : async Outcome :=
  if one_of ["outcome_unknown"; "outcome_unknown_pending"] (get entry "phase") then return_ (publicOutcome entry) else
  let entry := set_phase entry "result_pending" in
  await state := _loadState in
  await _ := _saveState (put state entry) in
  await _ := _assertAuditHealthy in
  catch (await resultRecord := appendAudit (resultEvent entry) in
         let entry := set_phase (assign entry "result_hash" (auditHash resultRecord)) "terminal" in
         await _ := _saveState (put state entry) in
         return_ (publicOutcome entry))
        (fun _ => tx "result_not_durable").

Definition _recoverOne (entry : jsval) : async Outcome :=
  await state := _loadState in
  let entry := assign (set_phase entry "outcome_unknown_pending") "result" (make_result "outcome_unknown" "restart_recovery") in
  await _ := _saveState (put state entry) in
  await recorded := catch (await record := appendAudit (resultEvent entry) in return_ (Some record)) (fun _ => return_ None) in
  match recorded with
  | Some record =>
      let entry := set_phase (assign entry "result_hash" (auditHash record)) "outcome_unknown" in
      catch (await _ := _saveState (put state entry) in return_ (publicOutcome entry))
            (fun _ => return_ (publicOutcome entry))
  | None => return_ (publicOutcome entry)
  end.

Definition _retryResult (entry : jsval) : async Outcome :=
  if truthy (get entry "result") then _finishOrWithhold entry else _recoverOne entry.

Definition _recordNewDecision (intent : jsval) (decision reason : string) : async Outcome :=
  await state := _loadState in
  let entry := assign (newEntry intent "result_pending") "result" (make_result decision reason) in
  await _ := _saveState (put state entry) in
  _finishOrWithhold entry.

(** [if (compactTerminalRequests(initialState)) this._saveState(initialState)] *)
Definition save_compacted (initialState : jsval) : async unit :=
  let '(changed, state) := compactTerminalRequests initialState in
  if changed then _saveState state else return_ tt.

(** What [execute] does with a request that has an entry. *)
Definition replay (existing intent : jsval) : async Outcome :=
  await _ := sync (assertSameRequest existing intent) in
  let phase := get existing "phase" in
  if is_str phase "terminal" then return_ (publicOutcome existing)
  else if one_of ["outcome_unknown_pending"; "outcome_unknown"] phase then return_ (publicOutcome existing)
  else if one_of ["result_pending"; "signer_completed"] phase then _retryResult existing
  else _recoverOne existing.

Definition complete_entry (entry : jsval) (signed : Signed) : jsval :=
  let entry := assign (assign (set_phase entry "signer_completed") "signer" (s_audit signed)) "result" (s_result signed) in
  match s_signature signed with Some s => assign entry "signature_base64" (JStr (base64 s)) | None => entry end.

Definition ambiguous (entry : jsval) : jsval :=
  assign (assign (set_phase entry "signer_completed") "signer" (JObj [("status", JStr "ambiguous")]))
    "result" (make_result "outcome_unknown" "signer_outcome_unknown").

(** What [execute] does with a new request that is allowed. *)
Definition sign_new (intent signer : jsval) : async Outcome :=
  await _ := _assertAuditHealthy in
  await intentRecord := catch (appendAudit (intentEvent intent)) (fun _ => tx "intent_not_durable") in
  await state := _loadState in
  let entry := assign (newEntry intent "intent_durable") "intent_hash" (auditHash intentRecord) in
  await _ := _saveState (put state entry) in
  let entry := set_phase entry "signer_started" in
  await _ := _saveState (put state entry) in
  await answer := ask (CallSigner signer (get intent "request_id") (get intent "payload_digest")) in
  match answer with
  | None =>
      let entry := ambiguous entry in
      await _ := _saveState (put state entry) in _finishOrWithhold entry
  | Some signerResult =>
      await normalizedSigner := sync (normalizeSignerResult signerResult) in
      let entry := complete_entry entry normalizedSigner in
      await _ := _saveState (put state entry) in _finishOrWithhold entry
  end.

Definition fallback (decision : jsval) : string :=
  if is_str decision "deny" then "denied" else if is_str decision "error" then "error" else "allowed".

Definition __execute (input : jsval) : async Outcome :=
  await i := sync (splitInput input) in
  await normalized := sync (normalizeIntent (i_intent i)) in
  await initialState := _loadState in
  let existing := request initialState (default "" (as_str (get normalized "request_id"))) in
  if truthy existing then replay existing normalized else
  await _ := save_compacted initialState in
  match i_decision i with
  | JStr decision =>
      if negb (includes ["allow"; "deny"; "error"] decision) then tx "invalid_decision" else
      await safeReason := sync (normalizeReason (i_reason i) (fallback (i_decision i))) in
      if negb (String.eqb decision "allow") then _recordNewDecision normalized decision safeReason else
      if negb (is_function (i_signer i)) then tx "signer_required" else sign_new normalized (i_signer i)
  | _ => tx "invalid_decision"
  end.

Definition __recordDecision (input : jsval) : async Outcome :=
  if match input with JNull => true | _ => false end then throw TypeFailure else
  await normalized := sync (normalizeIntent (nullish (get input "intent") (nullish (get input "request") input))) in
  match get input "decision" with
  | JStr decision =>
      if negb (includes ["deny"; "error"] decision) then tx "non_signing_decision_required" else
      await initialState := _loadState in
      let existing := request initialState (default "" (as_str (get normalized "request_id"))) in
      if truthy existing then
        await _ := sync (assertSameRequest existing normalized) in
        if one_of ["terminal"; "outcome_unknown"; "outcome_unknown_pending"] (get existing "phase")
        then return_ (publicOutcome existing)
        else if is_str (get existing "phase") "result_pending" then _retryResult existing
        else _recoverOne existing
      else
        await _ := save_compacted initialState in
        await reason := sync (normalizeReason (get input "reason") (fallback (JStr decision))) in
        _recordNewDecision normalized decision reason
  | _ => tx "non_signing_decision_required"
  end.

(** The body of the loop of [recover]. *)
Definition recover_entry (entry : jsval) : async Outcome :=
  if one_of ["terminal"; "outcome_unknown"] (get entry "phase") then return_ (publicOutcome entry) else _recoverOne entry.

Definition __recover : async (list Outcome) :=
  await state := _loadState in for_each recover_entry (ordered_values (requests state)).

(** [getOutcome(requestId, options)], on the state file it finds. *)
Definition getOutcome (requestId options : jsval) (file : Entry File) : result exn (option Outcome) :=
  id ← assertRequestId requestId;
  state ← load_state file;
  let entry := request state id in
  if negb (truthy entry) then Ok None else
  let digest := get options "requestDigest" in
  if is_undefined digest then Ok (Some (publicOutcome entry)) else
  throw_if negb (coerced_test DIGEST digest) with TransactionError "request_id_reuse" ;;
  throw_if is_undefined (get entry "intent") with TypeFailure ;;
  throw_if negb (strict_equal (get (get entry "intent") "request_digest") digest) with TransactionError "request_id_reuse" ;;
  Ok (Some (publicOutcome entry)).
End Operations.

(** ** The lock *)

Record Owner := mkOwner { pid : Z; lockStaleMs : Z }.

Definition LOCK_TOKEN : re := times hex_lower 32.

Record Lease := mkLease { l_pid : Z; l_created : Z; l_token : string }.

(** The lease that an existing lock file holds. *)
Definition read_lease (file : Entry File) : result exn Lease :=
  _ ← assertSafeFile file false;
  lease ← of_option LockInvalid
    (match file with Present f => if (1024 <? byte_size (stat f))%Z then None else content f | _ => None end);
  throw_if match lease with JNull | JUndefined => true | _ => false end with TypeFailure ;;
  p ← of_option LockInvalid (js_integer (get lease "pid"));
  created ← of_option LockInvalid (safe_integer (get lease "created_at"));
  token ← of_option LockInvalid (as_str (get lease "token"));
  throw_if negb (re_test LOCK_TOKEN token) with LockInvalid ;;
  Ok (mkLease p created token).

Definition lease_js (o : Owner) (now : Z) (token : string) : jsval :=
  JObj [("pid", JNum (NInt (pid o))); ("created_at", JNum (NInt now)); ("token", JStr token)].

Fixpoint acquireLock (o : Owner) (attempts : nat) : async string :=
  match attempts with
  | 0 => throw Busy
  | S attempts =>
      await token := ask NewToken in
      await opened := ask OpenLock in
      match opened with
      | Made =>
          await now := ask Clock in
          await ok := ask (WriteLease (lease_js o now token)) in
          await _ := completed ok in
          return_ token
      | NotOpened => throw HostError
      | Exists =>
          await file := ask InspectLock in
          await lease := sync (read_lease file) in
          await now := ask Clock in
          if (lockStaleMs o <=? now - l_created lease)%Z then
            await probe := ask (ProbeProcess (l_pid lease)) in
            match probe with
            | ESRCH => await ok := ask RemoveLock in await _ := completed ok in acquireLock o attempts
            | Alive | OtherError => await _ := ask Pause in acquireLock o attempts
            end
          else await _ := ask Pause in acquireLock o attempts
      end
  end.

(** The [finally] of [withFileLock], whose errors are swallowed. *)
Definition releaseLock (token : string) : async unit :=
  catch (await file := ask InspectLock in
         await _ := sync (assertSafeFile file false) in
         let lease := match file with Present f => content f | _ => None end in
         if match lease with Some l => is_str (get l "token") token | None => false end
         then await ok := ask RemoveLock in completed ok
         else return_ tt)
        (fun _ => return_ tt).

(** [try { return await operation() } finally { release }] *)
Definition finally {A} (p : async A) (release : async unit) : async A :=
  pbind p (fun r => pbind release (fun _ => Done r)).

Definition withFileLock {A} (o : Owner) (attempts : nat) (operation : async A) : async A :=
  await token := acquireLock o attempts in finally operation (releaseLock token).

(** ** The transaction object *)

Record Transaction := mkTransaction { owner : Owner; maxLockAttempts : nat }.

(** The constructor: its functions, which default to those of the audit log,
    and its numbers. *)
Definition make_transaction (process : Z) (options : jsval) : result exn Transaction :=
  let append := nullish (get options "appendAudit") (nullish (get options "appendEvent") (nullish (get options "append") (JFun 0))) in
  let verify := nullish (get options "verifyAudit") (nullish (get options "verifyChain") (nullish (get options "verify") (JFun 1))) in
  throw_if negb (is_function append) || negb (is_function verify) with TypeFailure ;;
  stale ← assertBoundedNumber (nullish (get options "lockStaleMs") (JNum (NInt 10000))) 0 86400000;
  attempts ← assertBoundedNumber (nullish (get options "maxLockAttempts") (JNum (NInt 200))) 1 10000;
  Ok (mkTransaction (mkOwner process stale) (Z.to_nat attempts)).

(** [secureDirectory]: the directory found after [mkdirSync] ([None] when it
    or [lstatSync] throws), the real path of it and what is found there. *)
Definition secureDirectory (value : jsval) (found : option Stat) (realpath : option string)
    (canonical : option Stat) : result exn string :=
  throw_if negb (match value with JStr (String "/" _) => true | _ => false end) with TypeFailure ;;
  stat ← of_option Unsafe found;
  throw_if negb (isDirectory stat) || isSymbolicLink stat with Unsafe ;;
  real ← of_option HostError realpath;
  canonicalStat ← of_option HostError canonical;
  throw_if negb (isDirectory canonicalStat) || isSymbolicLink canonicalStat with Unsafe ;;
  Ok real.

(** A parameter with the default [{}], and what [{ ...value }] copies. *)
Definition defaulted (input : jsval) : jsval := if is_undefined input then JObj [] else input.

Definition own_fields (v : jsval) : list (string * jsval) :=
  match v with
  | JObj fs => fs
  | JArr l => map (fun p => (pretty (Z.of_nat (fst p)), snd p)) (combine (seq 0 (length l)) l)
  | JBytes b => byte_fields b
  | _ => []
  end.

Section Public.
Context `{HSha : Sha256}.
Variable t : Transaction.

Definition execute (input : jsval) : async Outcome :=
  withFileLock (owner t) (maxLockAttempts t) (__execute (defaulted input)).

(** [authorize(input, signer)]: the input with the signer in it. *)
Definition authorize (input signer : jsval) : async Outcome :=
  let input := defaulted input in
  if match input with JNull | JObj _ | JArr _ | JBytes _ | JHost _ => negb (is_undefined signer) | _ => false end
  then execute (JObj (set_field "signer" signer (own_fields input)))
  else execute input.

Definition recordDecision (input : jsval) : async Outcome :=
  withFileLock (owner t) (maxLockAttempts t) (__recordDecision (defaulted input)).

Definition recover : async (list Outcome) := withFileLock (owner t) (maxLockAttempts t) __recover.
End Public.
