(* ===== verification/AuditTransactionFacts.v ===== *)
(** * What audit transactions guarantee

    A world is the state file with the history of what was logged, signed and
    dropped from the file.  Operations run in it one at a time, under the lock,
    and may die anywhere.  The invariant counts the calls of the signer per
    request and backs every signature kept by the call that made it; the
    properties follow from it for every sequence of operations and crashes. *)

From stdpp Require Import base tactics sets list strings.
From Stdlib Require Import Ascii.
From S2P Require Import Prelude JsValue Regex Json Objects Crypto Capability FileSystem Program BundleJson AuditTransaction.
Local Open Scope string_scope.
Local Open Scope js_scope.

(** ** Worlds *)

Inductive Fact :=
| Logged (event : jsval)
| SignerCalled (signer request_id payload_digest : jsval) (answer : option jsval)
| Dropped (id : string).

Record World := mkWorld { state_file : Entry File; history : list Fact }.

Definition empty_world : World := mkWorld Missing [].
Definition content_of (w : World) : jsval := match state_file w with Present f => default JUndefined (content f) | _ => JUndefined end.
Definition happened (w : World) (f : Fact) : World := mkWorld (state_file w) (history w ++ [f]).

(** The requests that one state has and the next has not. *)
Definition dropped (old new : jsval) : list Fact :=
  map Dropped (filter (fun id => assoc id (requests new) = None) (map fst (requests old))).

Definition written (w : World) (state : jsval) : World :=
  mkWorld (Present (mkFile (private_file (byteLength (stringify state) + 1)) (Some (json_clone state))))
    (history w ++ dropped (content_of w) state).

(** What effects do: a write or an append that throws may have happened; a
    call of the signer has happened whatever it answers. *)
Definition answers (w : World) (e : Effect) : resp e -> World -> Prop :=
  match e with
  | ReadState => fun r w' => r = state_file w /\ w' = w
  | WriteState s => fun r w' => w' = written w s \/ r = false /\ w' = w
  | AppendAudit event => fun r w' => w' = happened w (Logged event) \/ r = None /\ w' = w
  | CallSigner s id d => fun r w' => w' = happened w (SignerCalled s id d r)
  | _ => fun _ w' => w' = w
  end.

Notation exec := (exec answers).
Notation safe := (safe answers).

Section Reachable.
Context `{HSha : Sha256}.

(** One operation of one process, complete or cut short. *)
Inductive step (w w' : World) : Prop :=
| step_execute t input o : exec w (execute t input) w' o -> step w w'
| step_record t input o : exec w (recordDecision t input) w' o -> step w w'
| step_recover t o : exec w (recover t) w' o -> step w w'.

Definition reachable : World -> Prop := reach (fun w => w = empty_world) step.
End Reachable.

(** ** Objects as they are read back *)

Lemma get_clone v k : omitted (get v k) = false -> get (json_clone v) k = json_clone (get v k).
Proof.
  destruct v as [ | | |[]| | |fs| | | ]; try done. cbn [get]. rewrite clone_object. cbn [get].
  induction fs as [|[k' x] fs IH]; [done|]. cbn [assoc]. unfold clone_fields. cbn [flat_map fst snd]. fold (clone_fields fs).
  destruct (String.eqb k k') eqn:Ek.
  - change (omitted x = false -> default JUndefined (assoc k ((if omitted x then [] else [(k', json_clone x)]) ++ clone_fields fs)) = json_clone x).
    intros ->. cbn [app assoc]. by rewrite Ek.
  - intros Ho. destruct (omitted x); [by apply IH|]. cbn [app assoc]. rewrite Ek. by apply IH.
Qed.

Lemma get_clone_str v k s : get v k = JStr s -> get (json_clone v) k = JStr s.
Proof. intros H. by rewrite get_clone, H by (by rewrite H). Qed.

Lemma get_clone_null v k : get v k = JNull -> get (json_clone v) k = JNull.
Proof. intros H. by rewrite get_clone, H by (by rewrite H). Qed.

Lemma assoc_clone_some k fs x : assoc k fs = Some x -> omitted x = false -> assoc k (clone_fields fs) = Some (json_clone x).
Proof.
  induction fs as [|[k' y] fs IH]; [done|]. cbn [assoc]. unfold clone_fields. cbn [flat_map fst snd]. fold (clone_fields fs).
  destruct (String.eqb k k') eqn:Ek.
  - intros [= ->] ->. cbn [app assoc]. by rewrite Ek.
  - intros H Ho. destruct (omitted y); [by apply IH|]. cbn [app assoc]. rewrite Ek. by apply IH.
Qed.

Lemma assoc_clone_none k fs : assoc k fs = None -> assoc k (clone_fields fs) = None.
Proof. rewrite !assoc_None. intros H Hk. by apply H, clone_keys. Qed.

(** ** Tables: what the invariant sees of a state *)

Record View := mkView { v_phase : option string; v_fingerprint : option string; v_signature : option string; v_decision : option string }.

Definition view (entry : jsval) : View :=
  mkView (as_str (get entry "phase")) (as_str (get entry "fingerprint")) (as_str (get entry "signature_base64"))
    (as_str (get (get entry "result") "decision")).

Definition table (state : jsval) (id : string) : option View := view <$> assoc id (requests state).

Section Tables.
Context `{HSha : Sha256}.

Definition checked (state : jsval) : Prop := validateState state = Ok tt.

Lemma checked_inv state :
  checked state -> is_plain state = true /\ is_object (get state "requests") = true /\
  forall id e, assoc id (requests state) = Some e -> valid_entry (id, e) = true.
Proof.
  unfold checked, validateState. intros H. inv_result. guards.
  match goal with H : forallb _ _ = true |- _ => rename H into Hf end. rewrite forallb_elem_of in Hf. split_and!.
  - destruct state; try discriminate; done.
  - done.
  - intros id e Ha%assoc_Some_elem. exact (Hf _ Ha).
Qed.

Lemma valid_entry_inv id e :
  valid_entry (id, e) = true ->
  get e "request_id" = JStr id /\ is_plain e = true /\ (exists p, get e "phase" = JStr p) /\ (exists f, get e "fingerprint" = JStr f) /\
  (get e "signature_base64" = JNull \/ exists s, get e "signature_base64" = JStr s) /\
  (get e "result" = JNull \/ exists d, is_plain (get e "result") = true /\ get (get e "result") "decision" = JStr d).
Proof.
  unfold valid_entry. rewrite !andb_true_iff. intros ((((((((H1 & _) & _) & H2) & H3) & H4) & _) & _) & H5).
  apply is_str_true in H1. split; [done|]. split; [by destruct e; try discriminate|].
  apply one_of_true in H2 as (p & Hp & _). split; [eauto|].
  destruct (normalizeIntent _); [|done]. apply is_str_true in H4. split; [eauto|].
  split.
  - unfold valid_signature in H3. destruct (get e "signature_base64"); try done; eauto.
  - unfold valid_result in H5. apply orb_true_iff in H5 as [H5|H5]; [left; by apply bool_decide_eq_true in H5|right].
    rewrite !andb_true_iff in H5. destruct H5 as [[_ H5] _]. apply one_of_true in H5 as (d & Hd & _).
    exists d. split; [by destruct (get e "result")|done].
Qed.

Lemma view_clone id e : valid_entry (id, e) = true -> view (json_clone e) = view e.
Proof.
  intros (_ & _ & (p & Hp) & (f & Hf) & Hs & Hr)%valid_entry_inv. unfold view.
  rewrite (get_clone_str _ _ _ Hp), (get_clone_str _ _ _ Hf), Hp, Hf. f_equal.
  - destruct Hs as [Hs|[s Hs]]; [by rewrite (get_clone_null _ _ Hs), Hs|by rewrite (get_clone_str _ _ _ Hs), Hs].
  - destruct Hr as [Hr|(d & Hr & Hd)]; [by rewrite (get_clone_null _ _ Hr), Hr|].
    rewrite get_clone by (by apply is_plain_true in Hr as [? ->]). by rewrite (get_clone_str _ _ _ Hd), Hd.
Qed.

Lemma requests_clone state : checked state -> requests (json_clone state) = clone_fields (requests state).
Proof.
  intros (_ & Ho & _)%checked_inv. unfold requests. rewrite get_clone by (by destruct (get state "requests")).
  by destruct (get state "requests").
Qed.

Lemma table_clone state id : checked state -> table (json_clone state) id = table state id.
Proof.
  intros Hc. unfold table. rewrite requests_clone by exact Hc. apply checked_inv in Hc as (_ & _ & He).
  destruct (assoc id (requests state)) as [e|] eqn:Ea.
  - rewrite (assoc_clone_some _ _ _ Ea). 2: { destruct (valid_entry_inv _ _ (He _ _ Ea)) as (_ & Hp & _). by apply is_plain_true in Hp as [? ->]. }
    cbn. f_equal. exact (view_clone _ _ (He _ _ Ea)).
  - by rewrite (assoc_clone_none _ _ Ea).
Qed.

Lemma requests_with state fs : is_plain state = true -> requests (with_requests state fs) = fs.
Proof. intros Hp. unfold requests, with_requests. by rewrite get_assign. Qed.

Lemma table_put state e id id' :
  is_plain state = true -> get e "request_id" = JStr id ->
  table (put state e) id' = if String.eqb id' id then Some (view e) else table state id'.
Proof.
  intros Hp He. unfold table, put. rewrite requests_with, He, set_field_get by done. change (default "" (to_string (JStr id))) with id.
  destruct (String.eqb id' id); reflexivity.
Qed.

Lemma put_request state e id : is_plain state = true -> get e "request_id" = JStr id -> assoc id (requests (put state e)) = Some e.
Proof.
  intros Hp He. unfold put. rewrite requests_with, He, set_field_get by done. change (default "" (to_string (JStr id))) with id. by rewrite String.eqb_refl.
Qed.
End Tables.

(** ** The invariant *)

Fixpoint count {A} (f : A -> bool) (l : list A) : nat :=
  match l with [] => 0 | a :: l => (if f a then 1 else 0) + count f l end.

Definition calls (id : string) : Fact -> bool := fun f => match f with SignerCalled _ (JStr i) _ _ => String.eqb i id | _ => false end.
Definition drops (id : string) : Fact -> bool := fun f => match f with Dropped i => String.eqb i id | _ => false end.

(** A request whose entry is past [intent_durable] may have been signed. *)
Definition spent (v : option View) : nat :=
  match v with Some v => if bool_decide (v_phase v = Some "intent_durable") then 0 else 1 | None => 0 end.

(** Every call of the signer follows the record of its intent. *)
Definition intents_first (h : list Fact) : Prop :=
  forall h1 h2 s i d a, h = (h1 ++ SignerCalled s i d a :: h2)%list ->
  exists n, Logged (intentEvent n) ∈ h1 /\ get n "request_id" = i /\ get n "payload_digest" = d.

Section Invariant.
Context `{HSha : Sha256}.

(** The signature [s] was made for the request [id] of the fingerprint [fp]:
    by a call after the record of its intent. *)
Definition made (h1 h2 h : list Fact) (id fp s : string) : Prop :=
  exists signer n answer signed,
    h = (h1 ++ SignerCalled signer (JStr id) (get n "payload_digest") (Some answer) :: h2)%list /\
    Logged (intentEvent n) ∈ h1 /\ get n "request_id" = JStr id /\ fp = fingerprint n /\
    normalizeSignerResult answer = Ok signed /\ s_signature signed = Some s /\ exists value, normalizeIntent value = Ok n.

(** The result that allows the request [id] was logged. *)
Definition allowed (h : list Fact) (id : string) : Prop :=
  exists e, Logged (resultEvent e) ∈ h /\ get (get e "result") "decision" = JStr "allow" /\ get e "request_id" = JStr id.

(** What is known of an entry: its signature was made, and when it is final
    its result is in the log. *)
Definition backed (h : list Fact) (id : string) (v : View) : Prop :=
  forall b, v_signature v = Some b -> b <> "" ->
  exists h1 h2 fp s, made h1 h2 h id fp s /\ v_fingerprint v = Some fp /\ b = base64 s /\
    (v_phase v = Some "terminal" -> v_decision v = Some "allow" -> allowed h2 id).

Definition entry_of (w : World) (id : string) : option View := table (content_of w) id.

Record Inv (w : World) : Prop := mkInv {
  inv_count id : count (calls id) (history w) <= count (drops id) (history w) + spent (entry_of w id);
  inv_intents : intents_first (history w);
  inv_backed id v : entry_of w id = Some v -> backed (history w) id v
}.

(** A state read from the file of a world. *)
Definition loaded (w : World) (s : jsval) : Prop := checked s /\ forall id, table s id = entry_of w id.

Lemma count_app {A} (f : A -> bool) l1 l2 : count f (l1 ++ l2) = count f l1 + count f l2.
Proof. induction l1 as [|a l1 IH]; [done|]. cbn. rewrite IH. lia. Qed.

Lemma count_none {A} (f : A -> bool) l : (forall a, a ∈ l -> f a = false) -> count f l = 0.
Proof.
  induction l as [|a l IH]; [done|]. intros H. cbn [count]. rewrite (H a) by left. apply IH. intros x Hx. apply H. by right.
Qed.

Lemma count_some {A} (f : A -> bool) l a : a ∈ l -> f a = true -> 1 <= count f l.
Proof.
  intros H Hf. induction H as [l|a b l _ IH]; cbn [count]; [rewrite Hf; lia|]. specialize (IH Hf). lia.
Qed.

Lemma spent_le v : spent v <= 1.
Proof. destruct v as [v|]; simpl; [case_bool_decide|]; lia. Qed.

Lemma backed_app h h' id v : backed h id v -> backed (h ++ h') id v.
Proof.
  intros H b Hb Hne. destruct (H b Hb Hne) as (h1 & h2 & fp & s & (sg & n & a & sd & -> & Hm) & Hf & Hs & Ha).
  exists h1, (h2 ++ h')%list, fp, s. split_and!; [|done..|].
  - exists sg, n, a, sd. split; [by rewrite <- app_assoc|done].
  - intros Hp Hd. destruct (Ha Hp Hd) as (event & He & Hev). exists event. split; [|done]. apply elem_of_app. by left.
Qed.

Lemma intents_first_snoc h f :
  intents_first h ->
  (forall s i d a, f = SignerCalled s i d a -> exists n, Logged (intentEvent n) ∈ h /\ get n "request_id" = i /\ get n "payload_digest" = d) ->
  intents_first (h ++ [f]).
Proof.
  intros H Hf h1 h2 s i d a E. destruct h2 as [|x h2 _] using rev_ind.
  - apply app_inj_tail in E as [-> ->]. by eapply Hf.
  - rewrite app_comm_cons, app_assoc in E. apply app_inj_tail in E as [-> _]. by eapply H.
Qed.

Lemma intents_first_app h fs :
  intents_first h -> (forall f s i d a, f ∈ fs -> f <> SignerCalled s i d a) -> intents_first (h ++ fs).
Proof.
  revert h. induction fs as [|f fs IH]; intros h H Hn; [by rewrite app_nil_r|].
  replace (h ++ f :: fs)%list with ((h ++ [f]) ++ fs)%list by (by rewrite <- app_assoc). apply IH.
  - apply intents_first_snoc; [done|]. intros s i d a ->. destruct (Hn (SignerCalled s i d a) s i d a); [left|done].
  - intros g s i d a Hg. apply Hn. by right.
Qed.

Lemma inv_empty : Inv empty_world.
Proof. split; [intros; cbn; lia| |done]. intros h1 h2 s i d a E. by destruct h1. Qed.

Lemma entry_written w s id : checked s -> entry_of (written w s) id = table s id.
Proof. intros Hc. exact (table_clone s id Hc). Qed.

Lemma dropped_facts old new f : f ∈ dropped old new -> exists id, f = Dropped id /\ assoc id (requests new) = None.
Proof. intros (id & -> & [H _]%list_elem_of_filter)%list_elem_of_fmap. eauto. Qed.

Lemma dropped_elem old new id v : table old id = Some v -> table new id = None -> Dropped id ∈ dropped old new.
Proof.
  unfold table. intros Ho Hn. apply list_elem_of_fmap. exists id. split; [done|]. apply list_elem_of_filter. split.
  - by destruct (assoc id (requests new)).
  - destruct (assoc id (requests old)) eqn:E; [|done]. apply assoc_Some_elem in E. apply list_elem_of_fmap. by eexists (id, _).
Qed.

(** A write of a valid state, when what it holds is accounted for. *)
Lemma inv_written w s :
  Inv w -> checked s ->
  (forall id v, table s id = Some v ->
     backed (history w) id v /\ count (calls id) (history w) <= count (drops id) (history w) + spent (Some v)) ->
  Inv (written w s).
Proof.
  intros [Hc Hi Hb] Hs Hv. split.
  - intros id. rewrite entry_written by done. cbn [written history]. rewrite !count_app.
    rewrite (count_none (calls id) (dropped _ _)) by (by intros f (i & -> & _)%dropped_facts). rewrite Nat.add_0_r.
    destruct (table s id) as [v|] eqn:E; [specialize (Hv id v E) as [_ Hv]; lia|]. specialize (Hc id).
    destruct (entry_of w id) as [v|] eqn:Ew; cbn [spent] in *; [|lia].
    pose proof (count_some (drops id) _ _ (dropped_elem _ _ _ _ Ew E) (String.eqb_refl id)).
    pose proof (spent_le (Some v)). cbn [spent] in *. lia.
  - cbn [written history]. apply intents_first_app; [done|]. intros f sg i d a (id & -> & _)%dropped_facts. done.
  - intros id v. rewrite entry_written by done. intros E. cbn [written history]. apply backed_app. by apply (Hv id v E).
Qed.

Lemma inv_logged w event : Inv w -> Inv (happened w (Logged event)).
Proof.
  intros [Hc Hi Hb]. split; cbn [happened history].
  - intros id. rewrite !count_app. cbn [count calls drops]. specialize (Hc id). unfold entry_of in *. cbn [content_of happened state_file] in *.
    change (content_of (happened w (Logged event))) with (content_of w). lia.
  - apply intents_first_snoc; [done|]. by intros.
  - intros id v E. apply backed_app. by apply Hb.
Qed.

(** Loading, and saving an entry. *)
Lemma checked_empty : checked emptyState.
Proof. reflexivity. Qed.

Lemma load_loaded w s : load_state (state_file w) = Ok s -> loaded w s.
Proof.
  unfold load_state, loaded, entry_of, content_of. intros H. apply bind_ok in H as (_ & _ & H). destruct (state_file w) as [| |f].
  - injection H as <-. split; [exact checked_empty|done].
  - injection H as <-. split; [exact checked_empty|done].
  - destruct (MAX_STATE_BYTES <? _)%Z; [discriminate H|]. apply bind_ok in H as (c & Hc & H). apply of_option_ok in Hc. rewrite Hc.
    apply bind_ok in H as ([] & Hv & [= <-]). by split.
Qed.
End Invariant.

(** ** Programs *)

Section Programs.
Context `{HSha : Sha256}.
Notation safe := (safe Inv).

(** Effects that change neither the state file nor the history. *)
Definition touches (e : Effect) : bool :=
  match e with WriteState _ | AppendAudit _ | CallSigner _ _ _ => true | _ => false end.

Lemma inert_safe {A} (p : prog A) w : Inv w -> avoids touches p -> safe p w (fun _ w' => w' = w).
Proof.
  intros HI. induction p as [a|e k IH]; intros Hp; (split; [done|]); [done|]. destruct Hp as [He Hk].
  intros r w' Ha. assert (w' = w) as -> by (destruct e; try discriminate He; try exact Ha; by destruct Ha). auto.
Qed.

Lemma inert {A} (p : async A) w : Inv w -> avoids touches p -> safe p w (post (fun _ w' => w' = w) (fun _ w' => w' = w)).
Proof. intros HI Hp. eapply safe_mono; [by apply inert_safe|]. by intros [a|e] w' _ ->. Qed.

Lemma safe_load w : Inv w -> safe _loadState w (post (fun s w' => w' = w /\ loaded w s) (fun _ w' => w' = w)).
Proof.
  intros HI. split; [done|]. intros file w' [-> ->]. split; [done|]. unfold post.
  destruct (load_state (state_file w)) as [s|e] eqn:E; [|done]. split; [done|by apply load_loaded].
Qed.

Lemma check_state_checked s : check_state s = Ok tt -> checked s.
Proof. unfold check_state. by intros ([] & H & _)%bind_ok. Qed.

(** What a save leaves: the state it wrote, or (when it throws) that or the
    one before. *)
Lemma safe_save w s :
  Inv w -> (checked s -> Inv (written w s)) ->
  safe (_saveState s) w
    (post (fun _ w' => w' = written w s /\ checked s) (fun _ w' => w' = w \/ w' = written w s /\ checked s)).
Proof.
  intros HI Hw. unfold _saveState. eapply (safe_abind _ _ _ _ _ (fun _ w' => w' = w /\ checked s)).
  { apply safe_sync; [done| |by left]. intros [] H. split; [done|by apply check_state_checked]. }
  intros [] w1 _ [-> Hc]. eapply (safe_abind _ _ _ _ _ (fun _ w' => w' = w)).
  { apply safe_ask; [done|]. by intros file w' [_ ->]. }
  intros file w1 _ ->. eapply (safe_abind _ _ _ _ _ (fun _ w' => w' = w)); [apply safe_sync; auto|].
  intros _ w1 _ ->.
  eapply (safe_abind _ _ _ _ _ (fun ok w' => if (ok : bool) then w' = written w s else w' = w \/ w' = written w s)).
  { refine (safe_ask _ _ (WriteState s) w (fun ok w' => if (ok : bool) then w' = written w s else w' = w \/ w' = written w s) _ HI _).
    intros ok w' [-> | [-> ->]]; [split; [by apply Hw|destruct ok; auto]|by split; [|left]]. }
  intros [] w1 HI1 H1; [by apply safe_return|apply safe_throw; [done|]]. naive_solver.
Qed.

Lemma loaded_plain w s : loaded w s -> is_plain s = true.
Proof. intros [Hc _]. by apply checked_inv in Hc as [Hp _]. Qed.

(** [state.requests[id] = entry; this._saveState(state)] *)
Lemma safe_put w s e id :
  Inv w -> is_plain s = true -> (forall id', id' <> id -> table s id' = entry_of w id') ->
  get e "request_id" = JStr id ->
  (checked (put s e) -> backed (history w) id (view e) /\
     count (calls id) (history w) <= count (drops id) (history w) + spent (Some (view e))) ->
  safe (_saveState (put s e)) w
    (post (fun _ w' => history w' = history w /\ loaded w' (put s e))
          (fun _ w' => w' = w \/ history w' = history w /\ loaded w' (put s e))).
Proof.
  intros HI Hp Ht He Hb. eapply safe_mono; [apply safe_save; [done|]|].
  - intros Hc. apply inv_written; [done..|]. intros i v. rewrite (table_put _ _ id) by done.
    destruct (String.eqb_spec i id) as [->|Hne]; [intros [= <-]; by apply Hb|].
    rewrite Ht by done. intros E. split; [by apply inv_backed|]. destruct HI as [Hcount _ _]. specialize (Hcount i). by rewrite E in Hcount.
  - assert (checked (put s e) -> history (written w (put s e)) = history w /\ loaded (written w (put s e)) (put s e)) as Hw.
    2: { intros [a|x] w' _ H; unfold post in *; [by destruct H as [-> H]; auto|]. destruct H as [-> | [-> H]]; auto. }
    intros Hc. split; [|split; [done|intros; by rewrite entry_written]].
    cbn [written history]. replace (dropped (content_of w) (put s e)) with (@nil Fact); [apply app_nil_r|].
    symmetry. destruct (dropped (content_of w) (put s e)) as [|f l] eqn:E; [done|].
    assert (f ∈ dropped (content_of w) (put s e)) as Hf by (rewrite E; left).
    apply list_elem_of_fmap in Hf as (i & -> & [Hn Hi]%list_elem_of_filter).
    assert (table (put s e) i = None) as Hnone by (unfold table; by rewrite Hn).
    rewrite (table_put _ _ id) in Hnone by done. destruct (String.eqb_spec i id) as [->|Hne]; [done|].
    rewrite Ht in Hnone by done. unfold entry_of, table in Hnone.
    destruct (assoc i (requests (content_of w))) eqn:Ea; [done|]. by apply assoc_None in Ea.
Qed.

Lemma plain_assign e k x : is_plain (assign e k x) = is_plain e.
Proof. by destruct e. Qed.

Lemma backed_keep h id v v' :
  backed h id v -> v_signature v' = v_signature v -> v_fingerprint v' = v_fingerprint v -> v_phase v' <> Some "terminal" ->
  backed h id v'.
Proof.
  intros H Es Ef Hp b Hb Hne. rewrite Es in Hb. destruct (H b Hb Hne) as (h1 & h2 & fp & s & Hm & Hf & E & _).
  exists h1, h2, fp, s. rewrite Ef. by split_and!.
Qed.

Lemma backed_unsigned h id v : v_signature v = None -> backed h id v.
Proof. intros E b Hb. congruence. Qed.

(** The signature of an outcome was made for its request, and the result that
    allows it was logged after that. *)
Definition released (h : list Fact) (id fp s : string) : Prop := exists h1 h2, made h1 h2 h id fp s /\ allowed h2 id.

Definition released_by (out : Outcome) (h : list Fact) (id fp : string) : Prop :=
  forall s, o_signature out = Some s -> released h id fp s.

Lemma outcome_signature e s :
  o_signature (publicOutcome e) = Some s ->
  get e "phase" = JStr "terminal" /\ get (get e "result") "decision" = JStr "allow" /\
  exists b, get e "signature_base64" = JStr b /\ b <> "" /\ s = base64_bytes b.
Proof.
  unfold publicOutcome. cbn [o_signature]. destruct (get e "signature_base64"); try done.
  destruct (is_str (nullish _ _) "allow") eqn:E1; [|done]. destruct (is_str (get e "phase") "terminal") eqn:E2; [|done]. cbn [andb].
  destruct (String.eqb_spec s0 ""); [done|]. cbn [negb]. intros [= <-]. apply is_str_true in E1, E2. split_and!; [done| |eauto].
  by destruct (get (get e "result") "decision").
Qed.

Lemma outcome_released h id e fp :
  backed h id (view e) -> v_fingerprint (view e) = Some fp -> released_by (publicOutcome e) h id fp.
Proof.
  intros Hb Hf s (Hp & Hd & b & Eb & Hne & ->)%outcome_signature.
  destruct (Hb b) as (h1 & h2 & fp' & s' & Hm & Hf' & -> & Ha); [by cbn; rewrite Eb|done|].
  rewrite Hf in Hf'. injection Hf' as <-. exists h1, h2. rewrite base64_bytes_base64. split; [done|].
  apply Ha; cbn; [by rewrite Hp|by rewrite Hd].
Qed.

(** Compute the view of a changed entry. *)
Ltac entry :=
  repeat first
    [ progress unfold set_phase, view in *
    | progress cbn [v_phase v_fingerprint v_signature v_decision] in *
    | rewrite get_assign by (rewrite ?plain_assign; first [done|assumption])
    | progress (cbn [String.eqb Ascii.eqb Bool.eqb as_str]) ].

Lemma backed_logged h id e x :
  is_plain e = true -> get e "request_id" = JStr id -> backed h id (view e) ->
  backed (h ++ [Logged (resultEvent e)]) id (view (set_phase (assign e "result_hash" x) "terminal")).
Proof.
  intros Hp Hid Hb b. entry. intros Eb Hne.
  destruct (Hb b Eb Hne) as (h1 & h2 & fp & s & (sg & n & a & sd & -> & Hm) & Hf & Hs & _).
  exists h1, (h2 ++ [Logged (resultEvent e)])%list, fp, s. split_and!; [|exact Hf|done|].
  - exists sg, n, a, sd. split; [by rewrite <- app_assoc|done].
  - intros _ Hd. exists e. split; [apply elem_of_app; right; left|]. split; [|done].
    destruct (get (get e "result") "decision"); try discriminate Hd. by injection Hd as ->.
Qed.

(** ** The operations keep the invariant *)

Notation any := (fun _ _ => True).

Lemma count_le w id : Inv w -> count (calls id) (history w) <= count (drops id) (history w) + 1.
Proof. intros [H _ _]. specialize (H id). pose proof (spent_le (entry_of w id)). lia. Qed.

(** Saving an entry that is past [intent_durable]. *)
Lemma safe_put_spent w s e id :
  Inv w -> is_plain s = true -> (forall id', id' <> id -> table s id' = entry_of w id') ->
  get e "request_id" = JStr id -> v_phase (view e) <> Some "intent_durable" -> backed (history w) id (view e) ->
  safe (_saveState (put s e)) w
    (post (fun _ w' => history w' = history w /\ loaded w' (put s e))
          (fun _ w' => w' = w \/ history w' = history w /\ loaded w' (put s e))).
Proof.
  intros HI Hp Ht He Hph Hb. apply (safe_put _ _ _ id); try done. intros _. split; [done|].
  cbn [spent]. rewrite bool_decide_false by done. by apply count_le.
Qed.

(** A postcondition that says nothing of errors. *)
Lemma safe_any {A} (p : async A) w Q E : safe p w (post Q E) -> safe p w (post Q any).
Proof. intros H. eapply safe_mono; [exact H|]. by intros [|]. Qed.

Lemma table_others w s e id :
  is_plain s = true -> get e "request_id" = JStr id -> loaded w (put s e) -> forall id', id' <> id -> table s id' = entry_of w id'.
Proof.
  intros Hp He [_ Ht] id' Hne. rewrite <- Ht, (table_put _ _ id) by done. by rewrite (proj2 (String.eqb_neq id' id)).
Qed.

Lemma safe_healthy w : Inv w -> safe _assertAuditHealthy w (post (fun _ w' => w' = w) any).
Proof.
  intros HI. eapply safe_mono; [apply inert; [done|]|by intros [|] w' _ H].
  unfold _assertAuditHealthy. split; [done|]. intros [v|]; [|exact I]. unfold attempted, abind, return_. cbn [pbind]. destruct (unhealthy v); exact I.
Qed.

(** What an append leaves. *)
Lemma safe_append w event :
  Inv w -> safe (appendAudit event) w
    (post (fun _ w' => w' = happened w (Logged event)) (fun _ w' => w' = happened w (Logged event) \/ w' = w)).
Proof.
  intros HI. split; [done|]. intros r w' Ha.
  assert (Inv w' /\ (w' = happened w (Logged event) \/ w' = w /\ r = None)) as [HI' Hw].
  { destruct Ha as [-> | [-> ->]]; [split; [by apply inv_logged|by left]|split; [done|by right]]. }
  destruct r as [v|]; (split; [done|]); [|simpl; naive_solver]. by destruct Hw as [|[_ [=]]].
Qed.

Lemma safe_finish w e id fp :
  Inv w -> is_plain e = true -> get e "request_id" = JStr id -> v_fingerprint (view e) = Some fp -> backed (history w) id (view e) ->
  safe (_finishOrWithhold e) w (post (fun out w' => released_by out (history w') id fp) any).
Proof.
  intros HI Hp Hid Hf Hb. unfold _finishOrWithhold.
  destruct (one_of _ _); [apply safe_return; [done|by apply outcome_released]|].
  assert (backed (history w) id (view (set_phase e "result_pending"))) as Hb1 by (eapply backed_keep; [exact Hb|entry; done..]).
  assert (is_plain (set_phase e "result_pending") = true) as Hp1 by (by rewrite <- Hp; destruct e).
  assert (get (set_phase e "result_pending") "request_id" = JStr id) as Hid1 by (by entry).
  assert (v_fingerprint (view (set_phase e "result_pending")) = Some fp) as Hf1 by (entry; exact Hf).
  assert (v_phase (view (set_phase e "result_pending")) <> Some "intent_durable") as Hph1 by (entry; done).
  generalize dependent (set_phase e "result_pending"). clear e Hp Hid Hf Hb. intros e Hb Hp Hid Hf Hph.
  eapply safe_abind; [by eapply safe_any, safe_load|]. intros s w1 _ [-> Hs]. pose proof (loaded_plain _ _ Hs) as Hps.
  eapply safe_abind; [eapply safe_any, (safe_put_spent _ _ _ id); try done; intros; by apply Hs|]. intros _ w1 HI1 [Eh Hs1].
  eapply safe_abind; [by apply safe_healthy|]. intros _ w2 _ ->.
  eapply (safe_catch _ _ _ _ _ _ any); [|intros; by apply safe_throw].
  eapply safe_abind; [eapply safe_mono; [by apply safe_append|]|].
  { intros [v|x] w2 _ H; [exact H|exact I]. }
  intros record w2 HI2 ->. rewrite <- Eh in Hb.
  pose proof (backed_logged _ _ _ (auditHash record) Hp Hid Hb) as Hb2.
  eapply safe_abind; [eapply safe_any, (safe_put_spent _ _ _ id)|].
  - exact HI2.
  - exact Hps.
  - intros id' Hne. rewrite (table_others w1 s e id); done.
  - by entry.
  - by entry.
  - exact Hb2.
  - intros _ w3 HI3 [Eh3 _]. apply safe_return; [done|]. rewrite Eh3. apply outcome_released; [exact Hb2|]. entry. exact Hf.
Qed.

(** What recovering an entry leaves: it is settled, the others are as they
    were, and nothing is released. *)
Definition unknown (v : View) : Prop := v_phase v = Some "outcome_unknown" \/ v_phase v = Some "outcome_unknown_pending".

Definition recovered (w : World) (id : string) (w' : World) : Prop :=
  (exists ext, history w' = (history w ++ ext)%list) /\
  (forall id', id' <> id -> entry_of w' id' = entry_of w id') /\
  exists v, entry_of w' id = Some v /\ unknown v.

Lemma outcome_unsigned e : get e "phase" <> JStr "terminal" -> o_signature (publicOutcome e) = None.
Proof. intros H. destruct (o_signature (publicOutcome e)) eqn:E; [|done]. by apply outcome_signature in E as [? _]. Qed.

Lemma unknown_unsigned e : unknown (view e) -> o_signature (publicOutcome e) = None.
Proof. intros Hu. apply outcome_unsigned. intros H. unfold unknown, view in Hu. cbn in Hu. rewrite H in Hu. by destruct Hu. Qed.

(** A state in which the entry was put is one in which it is recovered. *)
Lemma recovered_put w s e id w' ext :
  is_plain s = true -> get e "request_id" = JStr id -> unknown (view e) ->
  (forall id', id' <> id -> table s id' = entry_of w id') -> history w' = (history w ++ ext)%list -> loaded w' (put s e) ->
  recovered w id w'.
Proof.
  intros Hps Hid Hu Ho Eh Hs. split_and!; [by exists ext| |].
  - intros id' Hne. rewrite <- (table_others w' s e id) by done. by apply Ho.
  - exists (view e). split; [|done]. destruct Hs as [_ <-]. rewrite (table_put _ _ id) by done. by rewrite String.eqb_refl.
Qed.

(** The last save of a recovery, whose errors are swallowed. *)
Lemma safe_unknown w w2 s e id ext :
  Inv w2 -> is_plain s = true -> get e "request_id" = JStr id -> unknown (view e) -> backed (history w2) id (view e) ->
  (forall id', id' <> id -> table s id' = entry_of w2 id') -> (forall id', id' <> id -> table s id' = entry_of w id') ->
  history w2 = (history w ++ ext)%list -> recovered w id w2 ->
  safe (catch (await _ := _saveState (put s e) in return_ (publicOutcome e)) (fun _ => return_ (publicOutcome e))) w2
    (post (fun out w' => o_signature out = None /\ recovered w id w') any).
Proof.
  intros HI Hps Hid Hu Hb Ho2 Ho Eh Hr. pose proof (unknown_unsigned _ Hu) as Hn.
  assert (forall w3, history w3 = history w2 -> loaded w3 (put s e) -> recovered w id w3) as Hafter.
  { intros w3 Eh3. apply (recovered_put w s e id w3 ext); try done. by rewrite Eh3. }
  eapply (safe_catch _ _ _ _ _ _ (fun _ w' => w' = w2 \/ history w' = history w2 /\ loaded w' (put s e))).
  - eapply safe_abind; [apply (safe_put_spent _ _ _ id); try done; destruct Hu as [-> | ->]; done|]. intros _ w3 HI3 [Eh3 Hs3].
    apply safe_return; [done|]. split; [done|]. exact (Hafter _ Eh3 Hs3).
  - intros x w3 HI3 H. apply safe_return; [done|]. split; [done|].
    destruct H as [-> | [Eh3 Hs3]]; [done|]. exact (Hafter _ Eh3 Hs3).
Qed.

Lemma safe_recoverOne w e id :
  Inv w -> is_plain e = true -> get e "request_id" = JStr id -> backed (history w) id (view e) ->
  safe (_recoverOne e) w (post (fun out w' => o_signature out = None /\ recovered w id w') any).
Proof.
  intros HI Hp Hid Hb. unfold _recoverOne.
  eapply safe_abind; [by eapply safe_any, safe_load|]. intros s w1 _ [-> Hs]. pose proof (loaded_plain _ _ Hs) as Hps.
  set (e1 := assign (set_phase e "outcome_unknown_pending") "result" _).
  assert (is_plain e1 = true) as Hp1 by (by unfold e1, set_phase; rewrite !plain_assign).
  assert (get e1 "request_id" = JStr id) as Hid1 by (unfold e1; by entry).
  assert (view e1 = mkView (Some "outcome_unknown_pending") (v_fingerprint (view e)) (v_signature (view e)) (Some "outcome_unknown"))
    as Ev1 by (unfold e1; by entry).
  assert (unknown (view e1)) as Hu1 by (right; by rewrite Ev1).
  assert (backed (history w) id (view e1)) as Hb1 by (rewrite Ev1; by eapply backed_keep).
  clearbody e1.
  eapply safe_abind; [eapply safe_any, (safe_put_spent _ _ _ id); try done; [intros; by apply Hs|by rewrite Ev1]|].
  intros _ w1 HI1 [Eh Hs1].
  assert (recovered w id w1) as Hr1.
  { apply (recovered_put w s e1 id w1 []); try done; [intros; by apply Hs|by rewrite app_nil_r]. }
  eapply (safe_abind _ _ _ _ _ (fun o w' => (w' = happened w1 (Logged (resultEvent e1)) \/ w' = w1))).
  { eapply (safe_catch _ _ _ _ _ _ (fun _ w' => w' = happened w1 (Logged (resultEvent e1)) \/ w' = w1)).
    - eapply safe_abind; [by apply safe_append|]. intros v w2 HI2 ->. apply safe_return; [done|by left].
    - intros x w2 HI2 H. by apply safe_return. }
  intros recorded w2 HI2 Hw2.
  assert ((exists ext, history w2 = (history w ++ ext)%list) /\ forall id', entry_of w2 id' = entry_of w1 id') as [[ext Ex] Ho2].
  { destruct Hw2 as [-> | ->]; (split; [|done]); [exists [Logged (resultEvent e1)]; cbn [happened history]; by rewrite Eh|exists []; by rewrite Eh, app_nil_r]. }
  assert (recovered w id w2) as Hr2.
  { destruct Hr1 as (_ & Ho & v & Hv & Hvu). split_and!; [by exists ext|intros; rewrite Ho2; by apply Ho|exists v; by rewrite Ho2]. }
  destruct recorded as [record|]; [|apply safe_return; [done|]; split; [by apply unknown_unsigned|done]].
  set (e2 := set_phase (assign e1 "result_hash" (auditHash record)) "outcome_unknown").
  assert (view e2 = mkView (Some "outcome_unknown") (v_fingerprint (view e)) (v_signature (view e)) (Some "outcome_unknown")) as Ev2.
  { transitivity (mkView (Some "outcome_unknown") (v_fingerprint (view e1)) (v_signature (view e1)) (v_decision (view e1)));
      [unfold e2; by entry|by rewrite Ev1]. }
  apply (safe_unknown w w2 s e2 id ext); try done; [unfold e2; by entry|left; by rewrite Ev2| | |intros; by apply Hs].
  - rewrite Ev2, Ex. apply backed_app. by apply (backed_keep _ _ (view e)).
  - intros id' Hne. by rewrite (table_others w1 s e1 id), Ho2 by done.
Qed.

Lemma unsigned_released out h id fp : o_signature out = None -> released_by out h id fp.
Proof. intros H s E. congruence. Qed.

Lemma safe_retry w e id fp :
  Inv w -> is_plain e = true -> get e "request_id" = JStr id -> v_fingerprint (view e) = Some fp -> backed (history w) id (view e) ->
  safe (_retryResult e) w (post (fun out w' => released_by out (history w') id fp) any).
Proof.
  intros HI Hp Hid Hf Hb. unfold _retryResult. destruct (truthy _); [by apply safe_finish|].
  eapply safe_mono; [by apply safe_recoverOne|]. intros [out|] w' _ H; [|done]. by apply unsigned_released, H.
Qed.

(** An entry of a loaded state. *)
Lemma loaded_entry w s id e :
  loaded w s -> Inv w -> assoc id (requests s) = Some e ->
  is_plain e = true /\ get e "request_id" = JStr id /\ backed (history w) id (view e) /\
  exists fp, get e "fingerprint" = JStr fp.
Proof.
  intros [Hc Ht] HI Ea. destruct (checked_inv _ Hc) as (_ & _ & Hv).
  destruct (valid_entry_inv _ _ (Hv _ _ Ea)) as (Hid & Hp & _ & Hf & _). split_and!; try done.
  apply (inv_backed w HI). rewrite <- Ht. unfold table. by rewrite Ea.
Qed.

(** What is found under the id of a request: nothing, its entry, or a member
    of [Object.prototype]. *)
Lemma request_cases w s id :
  loaded w s -> Inv w ->
  truthy (request s id) = false /\ entry_of w id = None \/
  (exists e, request s id = e /\ truthy e = true /\ assoc id (requests s) = Some e) \/
  (request s id = JFun 0 /\ entry_of w id = None).
Proof.
  intros Hl HI. pose proof (proj2 Hl id) as Ht. unfold table, requests in Ht. unfold request, member, requests.
  pose proof (loaded_entry w s id) as He. unfold requests in He. destruct (get s "requests") as [ | | | | | |fs| | | ]; try (left; by rewrite <- Ht).
  cbn [fields_of] in *. destruct (assoc id fs) as [e|] eqn:Ea.
  - right; left. exists e. destruct (He e Hl HI eq_refl) as (Hp & _). split_and!; [done| |done]. apply is_plain_true in Hp as [? ->]. done.
  - cbn in Ht. destruct (includes OBJECT_PROTOTYPE id); [right; right|left]; (split; [done|]); by rewrite <- Ht.
Qed.

Lemma safe_replay w e n id :
  Inv w -> is_plain e = true -> get e "request_id" = JStr id -> backed (history w) id (view e) ->
  safe (replay e n) w (post (fun out w' => released_by out (history w') id (fingerprint n)) any).
Proof.
  intros HI Hp Hid Hb. unfold replay. eapply (safe_abind _ _ _ _ _ (fun _ w' => w' = w /\ v_fingerprint (view e) = Some (fingerprint n))).
  { apply safe_sync; [done| |done]. unfold assertSameRequest. intros [] H. inv_result. guards.
    match goal with H : is_str _ _ = true |- _ => apply is_str_true in H; cbn; by rewrite H end. }
  intros _ w1 _ [-> Hf].
  destruct (is_str _ _); [apply safe_return; [done|by apply outcome_released]|].
  destruct (one_of _ _); [apply safe_return; [done|by apply outcome_released]|].
  destruct (one_of _ _); [by apply safe_retry|].
  eapply safe_mono; [by apply safe_recoverOne|]. intros [out|] w' _ H; [|done]. by apply unsigned_released, H.
Qed.

Lemma intent_id v n : normalizeIntent v = Ok n -> exists id, get n "request_id" = JStr id /\ is_plain n = true.
Proof. unfold normalizeIntent. intros H. run_steps H. injection H as <-. unfold intent_of. by eexists. Qed.

Lemma safe_recordNew w n id decision reason :
  Inv w -> get n "request_id" = JStr id ->
  safe (_recordNewDecision n decision reason) w (post (fun out w' => released_by out (history w') id (fingerprint n)) any).
Proof.
  intros HI Hid. unfold _recordNewDecision. eapply safe_abind; [by eapply safe_any, safe_load|]. intros s w1 _ [-> Hs].
  pose proof (loaded_plain _ _ Hs) as Hps.
  set (e := assign (newEntry n "result_pending") "result" (make_result decision reason)).
  assert (get e "request_id" = JStr id) as Hid' by exact Hid.
  assert (forall h, backed h id (view e)) as Hb by (intros h; by apply backed_unsigned).
  eapply safe_abind; [eapply safe_any, (safe_put_spent _ _ _ id); try done; intros; by apply Hs|].
  intros _ w1 HI1 _. by apply safe_finish.
Qed.

(** Compaction only removes requests. *)
Lemma compact_assoc ids n fs id e : assoc id (snd (compact ids n fs)) = Some e -> assoc id fs = Some e.
Proof.
  revert n fs. induction ids as [|i ids IH]; intros n fs; cbn [compact]; [done|]. destruct (Nat.leb n 1024); [done|].
  destruct (one_of _ _); [|apply IH]. cbn [snd]. intros H%IH. destruct (decide (id = i)) as [->|Hne]; [|by rewrite <- (delete_get i)].
  exfalso. apply assoc_Some_elem, list_elem_of_filter in H as [H _]. cbn in H. by rewrite String.eqb_refl in H.
Qed.

Lemma compact_table s id v : is_plain s = true -> table (snd (compactTerminalRequests s)) id = Some v -> table s id = Some v.
Proof.
  intros Hp. unfold compactTerminalRequests. destruct (Nat.ltb _ 2048); [done|].
  destruct (compact _ _ _) as [c fs] eqn:E. cbn [snd]. unfold table. rewrite requests_with by done.
  destruct (assoc id fs) eqn:Ea; [|done]. intros [= <-].
  rewrite (compact_assoc (ordered_keys (requests s)) (length (ordered_keys (requests s))) (requests s) id j); [done|]. by rewrite E.
Qed.

Lemma safe_compacted w s id :
  Inv w -> loaded w s -> entry_of w id = None ->
  safe (save_compacted s) w (post (fun _ w' => entry_of w' id = None) any).
Proof.
  intros HI Hs He. unfold save_compacted. destruct (compactTerminalRequests s) as [[] s'] eqn:E; [|by apply safe_return].
  assert (forall i v, table s' i = Some v -> entry_of w i = Some v) as Ht.
  { intros i v Hv. rewrite <- (proj2 Hs). apply compact_table; [by eapply loaded_plain|]. by rewrite E. }
  eapply safe_mono; [apply safe_save; [done|]|].
  - intros Hc. apply inv_written; [done..|]. intros i v Hv%Ht. split; [by apply inv_backed|]. pose proof (inv_count _ HI i) as Hn.
    by rewrite Hv in Hn.
  - intros [[]|] w' _ H; [|done]. destruct H as [-> Hc]. unfold post. rewrite entry_written by done.
    destruct (table s' id) eqn:Et; [|done]. apply Ht in Et. by rewrite He in Et.
Qed.

(** ** Signing *)

Lemma inv_called w sg id n a :
  Inv w -> get n "request_id" = JStr id -> Logged (intentEvent n) ∈ history w ->
  count (calls id) (history w) <= count (drops id) (history w) -> spent (entry_of w id) = 1 ->
  Inv (happened w (SignerCalled sg (JStr id) (get n "payload_digest") a)).
Proof.
  intros [Hc Hi Hb] Hid Hlog Hfresh Hsp. split; cbn [happened history].
  - intros i. change (entry_of (happened w _) i) with (entry_of w i). rewrite !count_app. cbn [count calls drops].
    specialize (Hc i). destruct (String.eqb_spec id i) as [->|]; lia.
  - apply intents_first_snoc; [done|]. intros s i d a' [= _ <- <- _]. by exists n.
  - intros i v E. apply backed_app. by apply Hb.
Qed.

(** A write leaves the signer's answer to be kept and finished. *)
Lemma safe_keep_finish w s e id fp :
  Inv w -> is_plain s = true -> (forall id', id' <> id -> table s id' = entry_of w id') ->
  is_plain e = true -> get e "request_id" = JStr id -> v_fingerprint (view e) = Some fp -> v_phase (view e) = Some "signer_completed" ->
  backed (history w) id (view e) ->
  safe (await _ := _saveState (put s e) in _finishOrWithhold e) w (post (fun out w' => released_by out (history w') id fp) any).
Proof.
  intros HI Hps Ht Hp Hid Hf Hph Hb. eapply safe_abind; [eapply safe_any, (safe_put_spent _ _ _ id); try done; by rewrite Hph|].
  intros _ w1 HI1 [Eh _]. apply safe_finish; try done. by rewrite Eh.
Qed.

Lemma normalized_signature answer signed s :
  normalizeSignerResult answer = Ok signed -> s_signature signed = Some s -> s <> "".
Proof.
  assert (forall b sd, succeeded b = Ok sd -> s_signature sd = Some s -> s <> "") as Hs.
  { unfold succeeded. intros b sd H E. inv_result. guards. cbn in E. injection E as ->. by intros ->. }
  unfold normalizeSignerResult. intros H E.
  destruct answer; try discriminate H;
    try (destruct (_ || _) in H; [run_steps H; exact (Hs _ _ H E)|destruct (is_failure _) in H; [injection H as <-|]; discriminate]);
    apply bind_ok in H as (c & _ & H); exact (Hs _ _ H E).
Qed.

Lemma complete_entry_view n e signed :
  is_plain e = true -> view e = mkView (Some "signer_started") (Some (fingerprint n)) None None ->
  v_phase (view (complete_entry e signed)) = Some "signer_completed" /\
  v_fingerprint (view (complete_entry e signed)) = Some (fingerprint n) /\
  v_signature (view (complete_entry e signed)) = base64 <$> s_signature signed /\
  is_plain (complete_entry e signed) = true /\ get (complete_entry e signed) "request_id" = get e "request_id".
Proof.
  intros Hp Hv. injection Hv as _ Hf Hs _. unfold complete_entry. destruct (s_signature signed); split_and!; try by entry.
  all: unfold set_phase; by rewrite ?plain_assign.
Qed.

(** From the call of the signer on, the entry being at [signer_started]. *)
Definition after_start (s e n signer : jsval) : async Outcome :=
  await answer := ask (CallSigner signer (get n "request_id") (get n "payload_digest")) in
  match answer with
  | None =>
      let e := ambiguous e in
      await _ := _saveState (put s e) in _finishOrWithhold e
  | Some signerResult =>
      await normalizedSigner := sync (normalizeSignerResult signerResult) in
      let e := complete_entry e normalizedSigner in
      await _ := _saveState (put s e) in _finishOrWithhold e
  end.

Definition started_view (n : jsval) (phase : string) : View := mkView (Some phase) (Some (fingerprint n)) None None.

Lemma safe_after_start w s e n signer id value :
  Inv w -> normalizeIntent value = Ok n -> loaded w (put s e) -> is_plain s = true -> is_plain e = true ->
  get n "request_id" = JStr id -> get e "request_id" = JStr id -> view e = started_view n "signer_started" ->
  count (calls id) (history w) <= count (drops id) (history w) -> Logged (intentEvent n) ∈ history w ->
  safe (after_start s e n signer) w (post (fun out w' => released_by out (history w') id (fingerprint n)) any).
Proof.
  intros HI Hval Hl Hps Hp Hid He Hv Hfresh Hlog. pose proof (table_others w s e id Hps He Hl) as Ho.
  assert (spent (entry_of w id) = 1) as Hsp.
  { destruct Hl as [_ <-]. rewrite (table_put _ _ id), String.eqb_refl, Hv by done. done. }
  unfold after_start. rewrite Hid.
  eapply (safe_abind _ _ _ _ _ (fun a w' => w' = happened w (SignerCalled signer (JStr id) (get n "payload_digest") a))).
  { refine (safe_ask _ _ (CallSigner _ _ _) w (fun a w' => w' = happened w (SignerCalled _ _ _ a)) _ HI _).
    intros a w4 ->. split; [|done]. by apply inv_called. }
  intros [answer|] w4 HI4 ->.
  - eapply (safe_abind _ _ _ _ _ (fun sd w' => w' = _ /\ normalizeSignerResult answer = Ok sd)); [by apply safe_sync|].
    intros signed w5 _ [-> Hn].
    destruct (complete_entry_view n e signed Hp Hv) as (Hph & Hf & Hsig & Hp2 & Hid2).
    apply safe_keep_finish; try done; [by rewrite Hid2|].
    intros b Hb _. rewrite Hsig in Hb. destruct (s_signature signed) as [sg|] eqn:Es; [|done]. injection Hb as <-.
    exists (history w), [], (fingerprint n), sg. split_and!; [|done|done|by rewrite Hph].
    exists signer, n, answer, signed. split_and!; eauto.
  - injection Hv as _ Hf Hs _. apply safe_keep_finish; try done.
    1: unfold ambiguous, set_phase; by rewrite !plain_assign.
    4: apply backed_unsigned. all: unfold ambiguous; by entry.
Qed.

Lemma safe_sign_new w n signer id value :
  Inv w -> normalizeIntent value = Ok n -> get n "request_id" = JStr id -> entry_of w id = None ->
  safe (sign_new n signer) w (post (fun out w' => released_by out (history w') id (fingerprint n)) any).
Proof.
  intros HI Hval Hid Hnew. unfold sign_new.
  eapply safe_abind; [by apply safe_healthy|]. intros _ w1 _ ->.
  eapply (safe_abind _ _ _ _ _ (fun _ w' => w' = happened w (Logged (intentEvent n)))).
  { eapply safe_catch; [by apply safe_append|]. intros x w1 HI1 _. by apply safe_throw. }
  intros record w1 HI1 ->.
  eapply safe_abind; [by eapply safe_any, safe_load|]. intros s w1 _ [-> Hs]. pose proof (loaded_plain _ _ Hs) as Hps.
  set (e0 := assign (newEntry n "intent_durable") "intent_hash" (auditHash record)).
  assert (get e0 "request_id" = JStr id) as Hid0 by exact Hid.
  assert (view e0 = started_view n "intent_durable") as Hv0 by done.
  assert (is_plain e0 = true) as Hp0 by done. clearbody e0.
  assert (count (calls id) (history w) <= count (drops id) (history w)) as Hfresh.
  { pose proof (inv_count w HI id) as H. rewrite Hnew in H. cbn [spent] in H. lia. }
  set (h1 := history (happened w (Logged (intentEvent n)))).
  assert (count (calls id) h1 <= count (drops id) h1) as Hfresh1
    by (unfold h1; cbn [happened history]; rewrite !count_app; cbn [count calls drops]; lia).
  assert (Logged (intentEvent n) ∈ h1) as Hlog by (unfold h1; cbn; apply elem_of_app; right; left).
  eapply safe_abind.
  { eapply safe_any, (safe_put _ _ _ id); try done; [intros; by apply Hs|]. intros _.
    split; [apply backed_unsigned; by rewrite Hv0|]. fold h1. lia. }
  intros _ w2 HI2 [Eh2 Hs2]. fold h1 in Eh2.
  assert (get (set_phase e0 "signer_started") "request_id" = JStr id) as Hid1 by (by entry).
  assert (view (set_phase e0 "signer_started") = started_view n "signer_started") as Hv1.
  { injection Hv0. intros. unfold started_view. entry. congruence. }
  assert (is_plain (set_phase e0 "signer_started") = true) as Hp1 by (unfold set_phase; by rewrite plain_assign).
  eapply safe_abind.
  { eapply safe_any, (safe_put_spent _ _ _ id); try done; [|by rewrite Hv1|apply backed_unsigned; by rewrite Hv1].
    exact (table_others w2 s e0 id Hps Hid0 Hs2). }
  intros _ w3 HI3 [Eh3 Hs3]. apply (safe_after_start _ _ _ _ _ _ value); try done; by rewrite Eh3, Eh2.
Qed.

(** ** Whole operations *)

Lemma lock_inert o attempts : avoids touches (acquireLock o attempts).
Proof.
  induction attempts as [|attempts IH]; [exact I|]. cbn [acquireLock].
  apply avoids_abind; [by split|]. intros token. apply avoids_abind; [by split|]. intros [| |].
  - apply avoids_abind; [by split|]. intros now. apply avoids_abind; [by split|]. intros [|]; exact I.
  - apply avoids_abind; [by split|]. intros file. apply avoids_abind; [exact I|]. intros lease.
    apply avoids_abind; [by split|]. intros now. destruct (_ <=? _)%Z; [|by apply avoids_abind].
    apply avoids_abind; [by split|]. intros []; apply avoids_abind; try (by split); try done.
    intros ok. apply avoids_abind; [by destruct ok|done].
  - exact I.
Qed.

Lemma release_inert token : avoids touches (releaseLock token).
Proof.
  unfold releaseLock. apply avoids_catch; [|by intros].
  apply avoids_abind; [by split|]. intros file. apply avoids_abind; [exact I|]. intros _.
  destruct (match _ with Some _ => _ | None => _ end); [|exact I]. apply avoids_abind; [by split|]. by intros [|].
Qed.

Lemma safe_locked {A} o attempts (p : async A) w (Q : A -> World -> Prop) :
  Inv w -> safe p w (post Q any) -> safe (withFileLock o attempts p) w (post Q any).
Proof.
  intros HI Hp. unfold withFileLock. eapply safe_abind; [eapply safe_any, inert; [done|apply lock_inert]|].
  intros token w1 _ ->. unfold finally. eapply safe_pbind; [exact Hp|]. intros r w2 HI2 Hr.
  eapply safe_pbind; [apply inert_safe; [done|apply release_inert]|]. intros r' w3 _ ->. by apply safe_done.
Qed.

(** What is released for the intent of a request. *)
Definition released_for (value : jsval) (out : Outcome) (h : list Fact) : Prop :=
  forall s, o_signature out = Some s ->
  exists n id, normalizeIntent value = Ok n /\ get n "request_id" = JStr id /\ released h id (fingerprint n) s.

Lemma released_for_intro value n id (p : async Outcome) w :
  normalizeIntent value = Ok n -> get n "request_id" = JStr id ->
  safe p w (post (fun out w' => released_by out (history w') id (fingerprint n)) any) ->
  safe p w (post (fun out w' => released_for value out (history w')) any).
Proof. intros Hn Hid Hp. eapply safe_mono; [exact Hp|]. intros [out|] w' _ H; [|done]. intros s Hs. exists n, id. auto. Qed.

Lemma reuse_of_function n : assertSameRequest (JFun 0) n = Throw (TransactionError "request_id_reuse").
Proof. done. Qed.

Definition intent_value (input : jsval) : jsval :=
  match splitInput input with Ok i => i_intent i | Throw _ => JUndefined end.

Lemma safe_execute w input :
  Inv w -> safe (__execute input) w (post (fun out w' => released_for (intent_value input) out (history w')) any).
Proof.
  intros HI. unfold __execute. eapply (safe_abind _ _ _ _ _ (fun i w' => w' = w /\ splitInput input = Ok i)); [by apply safe_sync|].
  intros i w1 _ [-> Ei]. eapply (safe_abind _ _ _ _ _ (fun n w' => w' = w /\ normalizeIntent (i_intent i) = Ok n)); [by apply safe_sync|].
  intros n w1 _ [-> En]. destruct (intent_id _ _ En) as (id & Hid & Hpn).
  eapply safe_abind; [by eapply safe_any, safe_load|]. intros s w1 _ [-> Hs].
  rewrite Hid. change (default "" (as_str (JStr id))) with id.
  apply (released_for_intro _ n id); [by unfold intent_value; rewrite Ei|done|].
  destruct (request_cases w s id Hs HI) as [[-> Hnew]|[(e & -> & -> & Ea)|[-> Hnew]]].
  - eapply safe_abind; [by apply safe_compacted|]. intros [] w1 HI1 Hnew1.
    destruct (i_decision i); try by apply safe_throw. destruct (negb _); [by apply safe_throw|].
    eapply safe_abind; [by eapply safe_any, inert|]. intros reason w2 _ ->.
    destruct (negb _); [by apply safe_recordNew|]. destruct (negb _); [by apply safe_throw|]. by eapply safe_sign_new.
  - destruct (loaded_entry w s id e Hs HI Ea) as (Hp & He & Hb & _). by apply safe_replay.
  - cbn [truthy]. unfold replay. rewrite reuse_of_function. by apply safe_throw.
Qed.

Lemma safe_record w input :
  Inv w -> safe (__recordDecision input) w (post (fun _ _ => True) any).
Proof.
  intros HI. unfold __recordDecision. destruct (match input with JNull => true | _ => false end); [by apply safe_throw|].
  eapply (safe_abind _ _ _ _ _ (fun n w' => w' = w /\ normalizeIntent _ = Ok n)); [by apply safe_sync|].
  intros n w1 _ [-> En]. destruct (intent_id _ _ En) as (id & Hid & Hpn).
  destruct (get input "decision"); try by apply safe_throw. destruct (negb _); [by apply safe_throw|].
  eapply safe_abind; [by eapply safe_any, safe_load|]. intros st w1 _ [-> Hs].
  rewrite Hid. change (default "" (as_str (JStr id))) with id.
  destruct (request_cases w st id Hs HI) as [[-> Hnew]|[(e & -> & -> & Ea)|[-> Hnew]]].
  - eapply safe_abind; [by apply safe_compacted|]. intros [] w1 HI1 Hnew1.
    eapply safe_abind; [by eapply safe_any, inert|]. intros reason w2 _ ->.
    eapply safe_mono; [by apply safe_recordNew|]. by intros [|].
  - destruct (loaded_entry w st id e Hs HI Ea) as (Hp & He & Hb & fp & Hf).
    eapply safe_abind; [by eapply safe_any, inert|]. intros _ w1 _ ->.
    destruct (one_of _ _); [by apply safe_return|].
    destruct (is_str _ _); (eapply safe_mono; [|by intros [|]]);
      [eapply (safe_retry _ _ id fp); try done; cbn; by rewrite Hf|by apply (safe_recoverOne _ _ id)].
  - cbn [truthy]. rewrite reuse_of_function. by apply safe_throw.
Qed.

(** ** Recovery *)

Definition final (v : View) : Prop := v_phase v = Some "terminal" \/ unknown v.

(** After some entries of [s], read in the world [w], were recovered. *)
Definition recovering (w : World) (s : jsval) (done : list jsval) (w' : World) : Prop :=
  (exists ext, history w' = (history w ++ ext)%list) /\
  forall id v, entry_of w' id = Some v ->
    final v \/ table s id = Some v /\ forall e, e ∈ done -> get e "request_id" <> JStr id.

Lemma ordered_value fs e : e ∈ ordered_values fs -> exists id, assoc id fs = Some e.
Proof.
  intros (k & -> & Hk)%list_elem_of_fmap. apply elem_of_ordered_keys in Hk. exists k. destruct (assoc k fs) eqn:E; [done|].
  by apply assoc_None in E.
Qed.

Lemma value_ordered fs id e : assoc id fs = Some e -> e ∈ ordered_values fs.
Proof.
  intros E. apply list_elem_of_fmap. exists id. split; [by rewrite E|]. apply elem_of_ordered_keys.
  apply assoc_Some_elem in E. apply list_elem_of_fmap. by exists (id, e).
Qed.

Lemma safe_recover_entry w w' s done e :
  Inv w -> loaded w s -> e ∈ ordered_values (requests s) -> Inv w' -> recovering w s done w' ->
  safe (recover_entry e) w' (post (fun _ => recovering w s (done ++ [e])) any).
Proof.
  intros HI Hs He HI' [[ext Eh] Ht]. apply ordered_value in He as [id Ea].
  destruct (loaded_entry w s id e Hs HI Ea) as (Hp & Hid & Hb & _).
  assert (forall w2, (exists ext, history w2 = (history w ++ ext)%list) ->
            (forall id', id' <> id -> entry_of w2 id' = entry_of w' id') -> (forall v, entry_of w2 id = Some v -> final v) ->
            recovering w s (done ++ [e]) w2) as Hgo.
  { intros w2 Hx Ho Hi. split; [done|]. intros i v E. destruct (decide (i = id)) as [->|Hne]; [left; by apply Hi|].
    rewrite Ho in E by done. destruct (Ht i v E) as [|[Et Hd]]; [by left|right]. split; [done|].
    intros e' [He'| ->%list_elem_of_singleton]%elem_of_app; [by apply Hd|]. rewrite Hid. congruence. }
  unfold recover_entry. destruct (one_of _ _) eqn:Eo.
  - apply safe_return; [done|]. apply Hgo; [by exists ext|done|]. intros v E. destruct (Ht id v E) as [|[Et _]]; [done|].
    unfold table in Et. rewrite Ea in Et. injection Et as <-. apply one_of_true in Eo as (p & Ep & Hin).
    unfold final, unknown. cbn. rewrite Ep. cbn. set_solver.
  - eapply safe_mono; [apply (safe_recoverOne _ _ id); [done..|]|].
    + rewrite Eh. by apply backed_app.
    + intros [out|] w2 _ H; [|done]. destruct H as (_ & (ext2 & Eh2) & Ho & v & Ev & Hu). apply Hgo; [|done|].
      * exists (ext ++ ext2)%list. by rewrite Eh2, Eh, app_assoc.
      * intros v' Ev'. rewrite Ev in Ev'. injection Ev' as <-. by right.
Qed.

Lemma safe_recover w :
  Inv w -> safe __recover w (post (fun _ w' => forall id v, entry_of w' id = Some v -> final v) any).
Proof.
  intros HI. unfold __recover. eapply safe_abind; [by eapply safe_any, safe_load|]. intros s w1 _ [-> Hs].
  eapply safe_mono; [apply (safe_for_each _ _ _ _ _ (fun done _ => recovering w s done)); [done| |]|].
  - split; [exists []; by rewrite app_nil_r|]. intros id v E. right. split; [by rewrite (proj2 Hs)|]. set_solver.
  - intros done bs e w2 [rest Hpre] HI2 Hr. apply safe_recover_entry; try done. rewrite Hpre. set_solver.
  - intros [outs|] w2 _ H; [|done]. intros id v E. destruct (proj2 H id v E) as [|[Et Hd]]; [done|].
    unfold table in Et. destruct (assoc id (requests s)) as [e|] eqn:Ea; [|done].
    destruct (loaded_entry w s id e Hs HI Ea) as (_ & Hid & _). by destruct (Hd e (value_ordered _ _ _ Ea)).
Qed.

Theorem step_inv w w' : step w w' -> Inv w -> Inv w'.
Proof.
  intros [t input o H|t input o H|t o H] HI.
  - exact (proj1 (safe_exec _ _ _ _ _ _ _ (safe_locked _ _ _ _ _ HI (safe_execute w _ HI)) H)).
  - exact (proj1 (safe_exec _ _ _ _ _ _ _ (safe_locked _ _ _ _ _ HI (safe_record w _ HI)) H)).
  - exact (proj1 (safe_exec _ _ _ _ _ _ _ (safe_locked _ _ _ _ _ HI (safe_recover w HI)) H)).
Qed.

Lemma reachable_inv w : reachable w -> Inv w.
Proof. intros H. induction H as [w ->|w w' _ IH Hs]; [apply inv_empty|exact (step_inv _ _ Hs IH)]. Qed.

(** ** Properties *)

(** C2: whatever sequence of operations ran, by whatever processes, whichever
    of them died, whatever the audit log and the signer answered, the signer
    was called for a request at most once more than the request was dropped
    from the state file, and every call followed the record of the intent with
    the payload it was given. *)
Theorem signer_called_once w :
  reachable w ->
  (forall id, count (calls id) (history w) <= S (count (drops id) (history w))) /\ intents_first (history w).
Proof.
  intros HI%reachable_inv. split; [|by apply inv_intents]. intros id. pose proof (count_le w id HI). lia.
Qed.

Lemma execute_released w t input w' out s :
  reachable w -> exec w (execute t input) w' (Some (Ok out)) -> o_signature out = Some s ->
  exists n id h1 h2, normalizeIntent (intent_value (defaulted input)) = Ok n /\ get n "request_id" = JStr id /\
    made h1 h2 (history w') id (fingerprint n) s /\ allowed h2 id.
Proof.
  intros HI%reachable_inv H Hs.
  destruct (proj2 (safe_exec _ _ _ _ _ _ _ (safe_locked _ _ _ _ _ HI (safe_execute w _ HI)) H) _ eq_refl s Hs)
    as (n & id & Hn & Hid & h1 & h2 & Hm & Ha).
  by exists n, id, h1, h2.
Qed.

(** C3: a signature that [execute] returns is the one the signer gave for a
    request with the same fingerprint and id, in a call made after its intent
    was logged; the result that allows it was logged after the call, and
    before the signature was returned. *)
Theorem released_signature_recorded w t input w' out s :
  reachable w -> exec w (execute t input) w' (Some (Ok out)) -> o_signature out = Some s ->
  exists n id h1 h2, normalizeIntent (intent_value (defaulted input)) = Ok n /\ get n "request_id" = JStr id /\
    made h1 h2 (history w') id (fingerprint n) s /\ allowed h2 id.
Proof. exact (execute_released w t input w' out s). Qed.

(** C37: when [recover] returns, no request is left between its intent and its
    result: each entry is final, its outcome known or declared unknown. *)
Theorem recover_settles w t w' outs :
  reachable w -> exec w (recover t) w' (Some (Ok outs)) -> forall id v, entry_of w' id = Some v -> final v.
Proof.
  intros HI%reachable_inv H.
  exact (proj2 (safe_exec _ _ _ _ _ _ _ (safe_locked _ _ _ _ _ HI (safe_recover w HI)) H) _ eq_refl).
Qed.
End Programs.
