(* ===== verification/AuditTransactionSpec.v ===== *)
(** * The behaviour of audit transactions, operation by operation

    What [execute] does with a request it knows, what compaction removes, what
    is read back after a save, whose lock is removed, and the inputs that are
    always refused; with a world that answers, in which the theorems of this
    file and of AuditTransactionFacts are computed. *)

From stdpp Require Import base tactics sets list strings pretty.
From Stdlib Require Import Ascii.
From S2P Require Import Prelude JsValue Regex Json Objects Crypto Capability FileSystem Program BundleJson AuditTransaction.
From S2P Require Import AuditTransactionFacts.
Local Open Scope string_scope.
Local Open Scope js_scope.

(** ** Known requests *)

Section Known.
Context `{HSha : Sha256}.
Notation finishes := (finishes answers).

Lemma finishes_load {A} w s (f : jsval -> async A) w' r :
  load_state (state_file w) = Ok s -> finishes w (abind _loadState f) w' r -> finishes w (f s) w' r.
Proof. intros Hl (file & w1 & [-> ->] & H). cbn [pbind sync] in H. unfold sync in H. by rewrite Hl in H. Qed.

(** An effect that is not performed leaves no trace. *)
Definition calls_signer (e : Effect) : bool := match e with CallSigner _ _ _ => true | _ => false end.

Lemma avoids_calls {A} (p : prog A) w w' a id :
  avoids calls_signer p -> finishes w p w' a -> count (calls id) (history w') = count (calls id) (history w).
Proof.
  revert w. induction p as [b|e k IH]; intros w Hp; cbn [finishes]; [by intros [_ ->]|].
  destruct Hp as [He Hk]. intros (r & w1 & Ha & H). rewrite (IH r w1 (Hk r) H).
  assert (forall w0 f, calls id f = false -> count (calls id) (history (happened w0 f)) = count (calls id) (history w0)) as Hh.
  { intros w0 f Hf. cbn [happened history]. rewrite count_app. cbn [count]. rewrite Hf. lia. }
  destruct e; cbn [answers] in Ha; try discriminate He; try (by rewrite Ha).
  - by destruct Ha as [_ ->].
  - destruct Ha as [-> | [_ ->]]; [|done]. cbn [written history]. rewrite count_app, (count_none (calls id) (dropped _ _)); [lia|].
    by intros f (i & -> & _)%dropped_facts.
  - destruct Ha as [-> | [_ ->]]; [by apply Hh|done].
Qed.

Lemma avoids_attempted {A} (o : option A) : avoids calls_signer (attempted o).
Proof. by destruct o. Qed.
Lemma avoids_completed ok : avoids calls_signer (completed ok).
Proof. by destruct ok. Qed.
Create HintDb quiet.
#[local] Hint Resolve avoids_abind avoids_catch avoids_attempted avoids_completed : quiet.

(** Structural proof that a program does not call the signer. *)
Ltac quiet :=
  repeat first
    [ done | exact I
    | apply avoids_abind; [|intros ?]
    | apply avoids_catch; [|intros ?]
    | progress (auto with quiet nocore)
    | progress (unfold return_, throw, tx, sync, ask; simpl)
    | split; [done|intros ?]
    | case_match ].

Lemma quiet_load : avoids calls_signer _loadState.
Proof. unfold _loadState. quiet. Qed.
Lemma quiet_save s : avoids calls_signer (_saveState s).
Proof. unfold _saveState. quiet. Qed.
Lemma quiet_append e : avoids calls_signer (appendAudit e).
Proof. unfold appendAudit. quiet. Qed.
#[local] Hint Resolve quiet_load quiet_save quiet_append : quiet.
Lemma quiet_healthy : avoids calls_signer _assertAuditHealthy.
Proof. unfold _assertAuditHealthy. quiet. Qed.
#[local] Hint Resolve quiet_healthy : quiet.
Lemma quiet_finish e : avoids calls_signer (_finishOrWithhold e).
Proof. unfold _finishOrWithhold. quiet. Qed.
Lemma quiet_recoverOne e : avoids calls_signer (_recoverOne e).
Proof. unfold _recoverOne. quiet. Qed.
#[local] Hint Resolve quiet_finish quiet_recoverOne : quiet.
Lemma quiet_replay e n : avoids calls_signer (replay e n).
Proof. unfold replay, _retryResult. quiet. Qed.

Lemma execute_known w input i n id s w' r :
  splitInput input = Ok i -> normalizeIntent (i_intent i) = Ok n -> get n "request_id" = JStr id ->
  load_state (state_file w) = Ok s -> truthy (request s id) = true ->
  finishes w (__execute input) w' r -> finishes w (replay (request s id) n) w' r.
Proof.
  intros Hi Hn Hid Hl Ht H. unfold __execute, sync in H. rewrite Hi in H. cbn [abind pbind] in H. unfold abind in H at 1. cbn [pbind] in H.
  rewrite Hn in H. unfold abind in H at 1. cbn [pbind] in H. apply (finishes_load _ _ _ _ _ Hl) in H.
  rewrite Hid in H. change (default "" (as_str (JStr id))) with id in H. by rewrite Ht in H.
Qed.

(** A request that has an entry is never signed.  With another
    fingerprint it is refused and nothing changes; with the same one, when
    its outcome is settled, that outcome is returned and nothing changes. *)
Theorem known_request_replayed w input i n id s e w' r :
  splitInput input = Ok i -> normalizeIntent (i_intent i) = Ok n -> get n "request_id" = JStr id ->
  load_state (state_file w) = Ok s -> assoc id (requests s) = Some e -> exec w (__execute input) w' (Some r) ->
  (forall id', count (calls id') (history w') = count (calls id') (history w)) /\
  (get e "fingerprint" <> JStr (fingerprint n) -> r = Throw (TransactionError "request_id_reuse") /\ w' = w) /\
  (get e "fingerprint" = JStr (fingerprint n) ->
   one_of ["terminal"; "outcome_unknown_pending"; "outcome_unknown"] (get e "phase") = true ->
   r = Ok (publicOutcome e) /\ w' = w).
Proof.
  intros Hi Hn Hid Hl Ea H%exec_finishes. pose proof (load_loaded w s Hl) as [Hc _]. destruct (checked_inv _ Hc) as (_ & _ & Hv).
  destruct (valid_entry_inv _ _ (Hv _ _ Ea)) as (_ & Hp & _).
  assert (request s id = e) as Er.
  { unfold request, member, requests in *. destruct (get s "requests"); try done. cbn [fields_of] in Ea. by rewrite Ea. }
  apply (execute_known w input i n id s) in H; try done. 2: { rewrite Er. by apply is_plain_true in Hp as [? ->]. }
  rewrite Er in H. split_and!.
  - intros id'. by apply (avoids_calls (replay e n) w w' r); [apply quiet_replay|].
  - intros Hf. unfold replay, assertSameRequest in H. destruct (is_str (get e "fingerprint") (fingerprint n)) eqn:E.
    + by apply is_str_true in E.
    + exact H.
  - intros Hf Hph. unfold replay, assertSameRequest in H. rewrite (proj2 (is_str_true _ _) Hf) in H. cbn [negb sync abind pbind] in H.
    apply one_of_true in Hph as (p & Ep & Hin). unfold sync, abind in H. cbn [pbind] in H. rewrite Ep in H.
    assert (p = "terminal" \/ p = "outcome_unknown_pending" \/ p = "outcome_unknown") as [-> |[-> | ->]] by set_solver; exact H.
Qed.
End Known.

(** ** Compaction *)

Section Compaction.
Context `{HSha : Sha256}.

Definition settled (e : jsval) : bool := one_of ["terminal"; "outcome_unknown"] (get e "phase").

Lemma delete_length id fs e : NoDup (map fst fs) -> assoc id fs = Some e -> S (length (delete_field id fs)) = length fs.
Proof.
  induction fs as [|[k v] fs IH]; [done|]. cbn [map fst assoc]. intros [Hn Hd]%NoDup_cons. unfold delete_field.
  destruct (String.eqb_spec id k) as [->|Hne].
  - intros _. rewrite filter_cons_False by (cbn; by rewrite String.eqb_refl). fold (delete_field k fs). by rewrite delete_absent.
  - intros H. rewrite filter_cons_True by (cbn; apply String.eqb_neq; congruence). fold (delete_field id fs). cbn [length].
    by rewrite (IH Hd H).
Qed.

Lemma delete_nodup id fs : NoDup (map fst fs) -> NoDup (map fst (delete_field id fs)).
Proof.
  intros H. eapply sublist_NoDup; [exact H|]. apply (fmap_sublist fst), sublist_filter.
Qed.

Lemma delete_same id fs : assoc id (delete_field id fs) = None.
Proof. apply assoc_None. intros ((k & v) & -> & [H _]%list_elem_of_filter)%list_elem_of_fmap. cbn in H. by rewrite String.eqb_refl in H. Qed.

Lemma compact_facts ids fs :
  NoDup (map fst fs) -> NoDup ids -> (forall id, id ∈ ids -> assoc id fs <> None) ->
  let fs' := snd (compact ids (length fs) fs) in
  (forall id e, assoc id fs = Some e -> settled e = false -> assoc id fs' = Some e) /\
  (1024 <= length fs -> 1024 <= length fs') /\
  (length fs' <= 1024 \/ forall id e, id ∈ ids -> assoc id fs' = Some e -> settled e = false).
Proof.
  revert fs. induction ids as [|i ids IH]; intros fs Hk Hids Hin; cbn [compact]; [split_and!; [done..|]; right; set_solver|].
  apply NoDup_cons in Hids as [Hi Hids]. destruct (Nat.leb_spec (length fs) 1024) as [Hle|Hgt]; [split_and!; auto|].
  destruct (assoc i fs) as [e|] eqn:Ei; [|by destruct (Hin i ltac:(left))]. 
  change (one_of ["terminal"; "outcome_unknown"] (get (default JUndefined (Some e)) "phase")) with (settled e). destruct (settled e) eqn:Es; cbn [snd].
  - pose proof (delete_length _ _ _ Hk Ei) as Hlen. replace (length fs - 1) with (length (delete_field i fs)) by lia.
    destruct (IH (delete_field i fs)) as (H1 & H2 & H3); [by apply delete_nodup|done| |].
    { intros k Hkin. rewrite delete_get by (intros ->; done). apply Hin. by right. }
    split_and!; [|intros _; apply H2; lia|].
    + intros k x Hx Hu. apply H1; [|done]. rewrite delete_get; [done|]. intros ->. congruence.
    + destruct H3 as [H3|H3]; [by left|right]. intros k x [-> |Hkin]%elem_of_cons Hx; [|by eapply H3].
      apply compact_assoc in Hx. by rewrite delete_same in Hx.
  - destruct (IH fs Hk Hids) as (H1 & H2 & H3); [intros k Hkin; apply Hin; by right|]. split_and!; [done..|].
    destruct H3 as [H3|H3]; [by left|right]. intros k x [-> |Hkin]%elem_of_cons Hx; [|by eapply H3].
    rewrite (H1 i e Ei Es) in Hx. congruence.
Qed.

(** Compaction changes nothing below 2,048 requests.  From there on it
    removes only requests whose outcome is settled, keeps at least 1,024, and
    stops there or when no settled request is left. *)
Theorem compaction_spec s :
  is_plain s = true -> NoDup (map fst (requests s)) ->
  let s' := snd (compactTerminalRequests s) in
  (length (requests s) < 2048 -> s' = s) /\
  (2048 <= length (requests s) ->
    (forall id e, assoc id (requests s') = Some e -> assoc id (requests s) = Some e) /\
    (forall id e, assoc id (requests s) = Some e -> settled e = false -> assoc id (requests s') = Some e) /\
    1024 <= length (requests s') /\
    (length (requests s') = 1024 \/ forall id e, assoc id (requests s') = Some e -> settled e = false)).
Proof.
  intros Hp Hk. unfold compactTerminalRequests.
  assert (length (ordered_keys (requests s)) = length (requests s)) as Hlen by (rewrite ordered_keys_perm; apply length_map).
  rewrite Hlen. destruct (Nat.ltb_spec (length (requests s)) 2048); [split; [done|lia]|]. split; [lia|]. intros _.
  destruct (compact _ _ _) as [c fs'] eqn:Ec. cbn [snd]. rewrite requests_with by done.
  destruct (compact_facts (ordered_keys (requests s)) (requests s) Hk) as (H1 & H2 & H3).
  { by rewrite ordered_keys_perm. }
  { by intros id Hid%elem_of_ordered_keys Hn%assoc_None. }
  rewrite Ec in H1, H2, H3. cbn [snd] in *. split_and!; [|done|apply H2; lia|].
  - intros id e He. apply (compact_assoc (ordered_keys (requests s)) (length (requests s))). by rewrite Ec.
  - assert (1024 <= length fs') by (apply H2; lia). destruct H3 as [H3|H3]; [left; lia|right]. intros id e He. apply (H3 id); [|done]. apply elem_of_ordered_keys.
    pose proof (compact_assoc (ordered_keys (requests s)) (length (requests s)) (requests s) id e) as Hc. rewrite Ec in Hc.
    apply assoc_Some_elem in Hc; [|done]. apply list_elem_of_fmap. by exists (id, e).
Qed.
End Compaction.

(** ** The state file *)

Section StateFile.
Context `{HSha : Sha256}.

(** A state that a save accepts is read back as it was written, but for
    one that fills the bound exactly: its file has a line feed more than the
    bound and never loads again. *)
Theorem saved_state_read_back w s :
  json_value s = true -> check_state s = Ok tt ->
  load_state (state_file (written w s)) =
    if Z.eqb (byteLength (stringify s)) MAX_STATE_BYTES then Throw (TransactionError "transaction_state_too_large") else Ok s.
Proof.
  intros Hj H. unfold check_state in H. apply bind_ok in H as ([] & Hv & H).
  destruct (MAX_STATE_BYTES <? byteLength (stringify s))%Z eqn:E; [discriminate H|]. apply Z.ltb_ge in E.
  cbn [written state_file]. unfold load_state. cbn [assertSafeFile stat private_file isFile isSymbolicLink nlink owned mode].
  rewrite clone_json by done.
  cbn [negb orb Z.eqb Pos.eqb].
  change (permissive (private_file (byteLength (stringify s) + 1))) with false.
  cbv beta iota. cbn [mbind result_bind stat byte_size private_file content of_option].
  destruct (Z.eqb_spec (byteLength (stringify s)) MAX_STATE_BYTES) as [->|Hne].
  - by rewrite (proj2 (Z.ltb_lt _ _)) by lia.
  - rewrite (proj2 (Z.ltb_ge _ _)) by lia. by rewrite Hv.
Qed.
End StateFile.

(** ** The lock *)

Section Lock.

Definition opens (x : event) : bool := match projT1 x with OpenLock => true | _ => false end.

(** The lease of the lock that the last three events found dead. *)
Definition found_dead (o : Owner) (t : list event) : Prop :=
  exists t0 file lease now,
    t = (t0 ++ [ev InspectLock file; ev Clock now; ev (ProbeProcess (l_pid lease)) ESRCH])%list /\
    read_lease file = Ok lease /\ (lockStaleMs o <= now - l_created lease)%Z.

Lemma found_dead_app o t t' : found_dead o t' -> found_dead o (t ++ t').
Proof. intros (t0 & f & l & n & -> & H). exists (t ++ t0)%list, f, l, n. by rewrite <- app_assoc. Qed.

(** Every lock removed was found dead just before. *)
Definition careful (o : Owner) (t : list event) : Prop :=
  forall t1 b t2, t = (t1 ++ ev RemoveLock b :: t2)%list -> found_dead o t1.

Definition removes (x : event) : bool := match projT1 x with RemoveLock => true | _ => false end.

Lemma careful_nil o : careful o [].
Proof. intros t1 b t2 E. by destruct t1. Qed.

Lemma careful_cons o x t : removes x = false -> careful o t -> careful o (x :: t).
Proof.
  intros Hx H t1 b t2 E. destruct t1 as [|y t1].
  - injection E as -> _. discriminate Hx.
  - injection E as -> E. apply (found_dead_app o [y]). by eapply H.
Qed.

Lemma careful_removed o t ok t' :
  Forall (fun x => removes x = false) t -> found_dead o t -> careful o t' -> careful o (t ++ ev RemoveLock ok :: t').
Proof.
  intros Hn Hd H t1 b t2 E.
  destruct (app_eq_inv _ _ _ _ E) as [(k & -> & Ek)|(k & -> & Ek)].
  - apply Forall_app in Hn as [_ Hn]. destruct k as [|y k]; [by rewrite app_nil_r in Hd|].
    injection Ek as <- _. by apply Forall_cons in Hn as [Hn _].
  - destruct k as [|y k]; [by rewrite app_nil_r|]. injection Ek as <- Ek.
    rewrite cons_middle, app_assoc. apply found_dead_app. by eapply H.
Qed.

(** What is shown of the traces of [acquireLock]. *)
Definition acquired (o : Owner) (attempts : nat) (t : list event) (r : result exn string) : Prop :=
  count opens t <= attempts /\ careful o t /\
  forall token, r = Ok token -> exists t0 now,
    t = (t0 ++ [ev NewToken token; ev OpenLock Made; ev Clock now; ev (WriteLease (lease_js o now token)) true])%list.

Lemma acquired_cons o n m x t r : removes x = false -> m = count opens [x] + n -> acquired o n t r -> acquired o m (x :: t) r.
Proof.
  intros Hx -> (H1 & H2 & H3). split_and!; [cbn; lia|by apply careful_cons|].
  intros token Hr. destruct (H3 token Hr) as (t0 & now & ->). by exists (x :: t0), now.
Qed.

Lemma acquired_nil o n e : acquired o n [] (Throw e).
Proof. split_and!; [cbn; lia|apply careful_nil|done]. Qed.

(** Acquiring the lock tries to create it at most as often as it is told
    to; it removes a lock only when it has just read its lease, found it stale
    and its process dead; and the token it returns is in the lease it wrote. *)
Theorem lock_taken_from_the_dead o attempts t r : runs (acquireLock o attempts) t r -> acquired o attempts t r.
Proof.
  revert t. induction attempts as [|attempts IH]; intros t; cbn [acquireLock].
  { intros [-> ->]. apply acquired_nil. }
  intros (token & t' & -> & opened & t1 & -> & H).
  destruct opened.
  - destruct H as (now & t2 & -> & ok & t3 & -> & H). destruct ok; destruct H as [-> ->].
    + split_and!; [cbn; lia|by repeat apply careful_cons; try apply careful_nil|]. intros ? [= <-]. by exists [], now.
    + do 4 (eapply acquired_cons; [reflexivity..|]). apply acquired_nil.
  - destruct H as (file & t2 & -> & H). cbn [pbind] in H. unfold sync, abind at 1 in H. cbn [pbind] in H.
    destruct (read_lease file) as [lease|e] eqn:El.
    2: { change (t2 = [] /\ r = Throw e) in H. destruct H as [-> ->]. do 3 (eapply acquired_cons; [reflexivity..|]). apply acquired_nil. }
    destruct H as (now & t3 & -> & H). cbn [pbind] in H. destruct (lockStaleMs o <=? now - l_created lease)%Z eqn:Es.
    + destruct H as (probe & t4 & -> & H). cbn [pbind] in H. destruct probe.
      1, 3: destruct H as (u & t5 & -> & H); do 6 (eapply acquired_cons; [reflexivity..|]); by apply IH.
      destruct H as (ok & t5 & -> & H).
      assert (found_dead o [ev NewToken token; ev OpenLock Exists; ev InspectLock file; ev Clock now; ev (ProbeProcess (l_pid lease)) ESRCH]) as Hd.
      { exists [ev NewToken token; ev OpenLock Exists], file, lease, now. split_and!; [done..|]. by apply Z.leb_le. }
      assert (acquired o attempts t5 r) as (H1 & H2 & H3).
      { destruct ok; [by apply IH|destruct H as [-> ->]; apply acquired_nil]. }
      split_and!; [cbn; cbn in H1; lia| |].
      * apply (careful_removed o [_; _; _; _; _] ok t5); [by repeat (apply Forall_cons; split; [done|]); apply Forall_nil|done..].
      * intros tk Htk. destruct (H3 tk Htk) as (t0 & nw & ->).
        exists (ev NewToken token :: ev OpenLock Exists :: ev InspectLock file :: ev Clock now
                :: ev (ProbeProcess (l_pid lease)) ESRCH :: ev RemoveLock ok :: t0)%list, nw. done.
    + destruct H as (u & t4 & -> & H). do 5 (eapply acquired_cons; [reflexivity..|]). by apply IH.
  - destruct H as [-> ->]. do 2 (eapply acquired_cons; [reflexivity..|]). apply acquired_nil.
Qed.

(** A lock is released by its owner only. *)
Lemma release_own_lock token t r b :
  runs (releaseLock token) t r -> ev RemoveLock b ∈ t ->
  exists f lease, ev InspectLock (Present f) ∈ t /\ content f = Some lease /\ get lease "token" = JStr token.
Proof.
  intros H Hin. destruct H as (file & t' & -> & H).
  apply elem_of_cons in Hin as [E|Hin]; [apply (f_equal (@projT1 _ _)) in E; discriminate E|].
  cbn in H. destruct (assertSafeFile file false); [|by destruct H as [-> _]; apply elem_of_nil in Hin].
  destruct file as [| |f]; cbn in H; try by destruct H as [-> _]; apply elem_of_nil in Hin.
  destruct (content f) as [lease|] eqn:Ec; [|by destruct H as [-> _]; apply elem_of_nil in Hin].
  destruct (is_str (get lease "token") token) eqn:Et; [|by destruct H as [-> _]; apply elem_of_nil in Hin].
  exists f, lease. split_and!; [left|done|by apply is_str_true].
Qed.
End Lock.

(** ** Requests that are always refused *)

Section Refused.
Context `{HSha : Sha256}.
Notation finishes := (finishes answers).

(** C38: a request whose id is the name of a member of [Object.prototype] is
    refused as a reuse, whatever it asks, and has an outcome that nobody
    asked for. *)
Theorem prototype_id_refused w input i n id s w' r :
  splitInput input = Ok i -> normalizeIntent (i_intent i) = Ok n -> get n "request_id" = JStr id ->
  load_state (state_file w) = Ok s -> is_plain (get s "requests") = true -> assoc id (requests s) = None ->
  id ∈ OBJECT_PROTOTYPE -> assertRequestId (JStr id) = Ok id ->
  (exec w (__execute input) w' (Some r) -> r = Throw (TransactionError "request_id_reuse") /\ w' = w) /\
  getOutcome (JStr id) (JObj []) (state_file w)
    = Ok (Some (mkOutcome JUndefined (JStr "outcome_unknown") (JStr "outcome_unknown") false None)).
Proof.
  intros Hi Hn Hid Hl Hp Ha Hin Hok. assert (request s id = JFun 0) as Er.
  { unfold request, member, requests in *. apply is_plain_true in Hp as [fs Hp]. rewrite Hp in *. cbn [fields_of] in Ha. rewrite Ha.
    by rewrite (proj2 (includes_true _ _)). }
  split.
  - intros H%exec_finishes. apply (execute_known w input i n id s) in H; try done; [|by rewrite Er]. rewrite Er in H. exact H.
  - unfold getOutcome. rewrite Hok, Hl. cbn [mbind result_bind]. by rewrite Er.
Qed.

(** A request passed to [recordDecision] itself, as [execute] accepts it, is
    always refused: with a decision it has an unknown field, without one it
    records none. *)
Lemma direct_record_refused w input w' r :
  is_plain input = true -> nullish (get input "intent") (get input "request") = JUndefined ->
  exec w (__recordDecision input) w' (Some r) -> (exists e, r = Throw e) /\ w' = w.
Proof.
  intros Hp Hn H%exec_finishes. apply is_plain_true in Hp as [fs ->]. unfold __recordDecision in H.
  assert (nullish (get (JObj fs) "intent") (nullish (get (JObj fs) "request") (JObj fs)) = JObj fs) as E.
  { by destruct (get (JObj fs) "intent"), (get (JObj fs) "request"). }
  rewrite E in H. unfold sync, abind in H. cbn [pbind] in H. destruct (normalizeIntent (JObj fs)) as [n|e] eqn:En.
  2: { destruct H as [-> ->]. eauto. }
  assert (get (JObj fs) "decision" = JUndefined) as Ed.
  { cbn [get]. destruct (assoc "decision" fs) eqn:Ea; [|done]. exfalso. unfold normalizeIntent in En. run_steps En. guards.
    match goal with H : forallb _ _ = true |- _ => rewrite forallb_elem_of in H; specialize (H "decision") end.
    assert (forall P : Prop, P -> P) as _ by auto.
    match goal with H : _ -> includes _ _ = true |- _ => discriminate H end.
    cbn [own_keys]. apply assoc_Some_elem in Ea. apply list_elem_of_fmap. by eexists (_, _). }
  rewrite Ed in H. destruct H as [-> ->]. eauto.
Qed.
End Refused.

(** ** A world that answers *)

Module Sample.
#[local] Existing Instance toy_sha256.

Definition record : jsval := JObj [("hash", JStr (sha256 "record"))].
Definition signature : string := "signature".

(** Everything succeeds, and the signer signs. *)
Definition handler (w : World) (e : Effect) : resp e * World :=
  match e return resp e * World with
  | ReadState => (state_file w, w)
  | WriteState s => (true, written w s)
  | AppendAudit event => (Some record, happened w (Logged event))
  | VerifyAudit => (Some (JObj [("valid", JBool true)]), w)
  | CallSigner s id d => (Some (JBytes signature), happened w (SignerCalled s id d (Some (JBytes signature))))
  | NewToken => ("00112233445566778899aabbccddeeff", w)
  | OpenLock => (Made, w)
  | WriteLease _ | RemoveLock => (true, w)
  | InspectLock => (Missing, w)
  | Clock => (0%Z, w)
  | ProbeProcess _ => (Alive, w)
  | Pause => (tt, w)
  end.

Lemma handler_answers w e : answers w e (fst (handler w e)) (snd (handler w e)).
Proof. destruct e; cbn; auto. Qed.

Definition transaction : Transaction := mkTransaction (mkOwner 7 10000) 200.
Definition digest (n : nat) : string := sha256 (pretty n).

Definition intent (id : string) (policy : Z) : jsval :=
  JObj [("request_id", JStr id); ("trusted_context_digest", JStr (digest 1)); ("policy_sequence", JNum (NInt policy));
        ("capability_sequence", JNum (NInt 11)); ("payload_digest", JStr (digest 2))].

Definition input (id : string) (policy : Z) : jsval := JObj [("intent", intent id policy); ("signer", JFun 1)].

Definition ran : result exn Outcome * World := interpret handler (execute transaction (input "request-1" 7)) empty_world.
Definition after : World := snd ran.
Definition outcome : Outcome :=
  mkOutcome (JStr "request-1") (JStr "allow") (JStr "allowed") true (Some signature).

Lemma ran_allowed : fst ran = Ok outcome.
Proof. vm_compute. reflexivity. Qed.

Lemma ran_exec : exec empty_world (execute transaction (input "request-1" 7)) after (Some (Ok outcome)).
Proof.
  pose proof (interpret_exec answers handler (execute transaction (input "request-1" 7)) empty_world handler_answers) as H.
  fold ran in H. rewrite ran_allowed in H. exact H.
Qed.

Lemma after_reachable : reachable after.
Proof. eapply reach_step; [by apply reach_init|]. eapply step_execute. exact ran_exec. Qed.

Definition saved : jsval := content_of after.
End Sample.

(** ** Witnesses *)

#[local] Existing Instance toy_sha256.

Lemma signer_called_once_witness :
  count (calls "request-1") (history Sample.after) = 1 /\ count (calls "request-1") (history Sample.after) <= 1.
Proof.
  split; [vm_compute; reflexivity|].
  pose proof (proj1 (signer_called_once Sample.after Sample.after_reachable) "request-1") as H.
  replace (count (drops "request-1") (history Sample.after)) with 0 in H by (vm_compute; reflexivity). exact H.
Defined.

Lemma released_signature_recorded_witness :
  exists n id h1 h2, made h1 h2 (history Sample.after) id (fingerprint n) Sample.signature /\ allowed h2 id.
Proof.
  destruct (released_signature_recorded empty_world Sample.transaction (Sample.input "request-1" 7) Sample.after Sample.outcome
    Sample.signature (reach_init _ _ _ eq_refl) Sample.ran_exec eq_refl) as (n & id & h1 & h2 & _ & _ & H).
  exists n, id, h1, h2. exact H.
Defined.

Lemma recovered_outcome : fst (interpret Sample.handler (recover Sample.transaction) Sample.after) = Ok (E := exn) [Sample.outcome].
Proof. vm_compute. reflexivity. Qed.

Lemma recover_settles_witness :
  exists v, entry_of (snd (interpret Sample.handler (recover Sample.transaction) Sample.after)) "request-1" = Some v /\ final v.
Proof.
  pose proof (interpret_exec answers Sample.handler (recover Sample.transaction) Sample.after Sample.handler_answers) as H.
  rewrite recovered_outcome in H.
  destruct (entry_of (snd (interpret Sample.handler (recover Sample.transaction) Sample.after)) "request-1") as [v|] eqn:E;
    [|vm_compute in E; discriminate E].
  exists v. split; [done|]. exact (recover_settles Sample.after Sample.transaction _ [Sample.outcome] Sample.after_reachable H "request-1" v E).
Defined.

Lemma known_request_replayed_witness :
  let r := interpret Sample.handler (__execute (Sample.input "request-1" 8)) Sample.after in
  fst r = Throw (TransactionError "request_id_reuse") /\ snd r = Sample.after.
Proof.
  intros r.
  assert (exec Sample.after (__execute (Sample.input "request-1" 8)) (snd r) (Some (fst r))) as H
    by (apply interpret_exec, Sample.handler_answers).
  refine (proj1 (proj2 (known_request_replayed Sample.after (Sample.input "request-1" 8) _ (Sample.intent "request-1" 8)
    "request-1" Sample.saved (request Sample.saved "request-1") _ _ eq_refl _ eq_refl _ _ H)) _).
  - vm_compute. reflexivity.
  - vm_compute. reflexivity.
  - vm_compute. reflexivity.
  - vm_compute. discriminate.
Defined.

Lemma compaction_spec_witness : snd (compactTerminalRequests Sample.saved) = Sample.saved.
Proof.
  apply (proj1 (compaction_spec Sample.saved ltac:(vm_compute; reflexivity)
    ltac:(apply (bool_decide_unpack _); vm_compute; reflexivity))).
  apply Nat.ltb_lt. vm_compute. reflexivity.
Defined.

Lemma saved_state_read_back_witness : load_state (state_file (written empty_world Sample.saved)) = Ok Sample.saved.
Proof.
  rewrite (saved_state_read_back empty_world Sample.saved ltac:(vm_compute; reflexivity) ltac:(vm_compute; reflexivity)).
  vm_compute. reflexivity.
Defined.

Lemma lock_taken_from_the_dead_witness :
  let t := [ev NewToken "t"; ev OpenLock Made; ev Clock 5%Z; ev (WriteLease (lease_js (mkOwner 7 10000) 5 "t")) true] in
  acquired (mkOwner 7 10000) 2 t (Ok "t").
Proof. intros t. apply lock_taken_from_the_dead. exists "t". eexists. split; [reflexivity|]. exists Made. eexists. split; [reflexivity|].
  exists 5%Z. eexists. split; [reflexivity|]. exists true. eexists. split; [reflexivity|]. split; reflexivity.
Defined.

Lemma prototype_id_refused_witness :
  getOutcome (JStr "constructor") (JObj []) Missing
    = Ok (Some (mkOutcome JUndefined (JStr "outcome_unknown") (JStr "outcome_unknown") false None)).
Proof.
  refine (proj2 (prototype_id_refused empty_world (Sample.input "constructor" 7) _ (Sample.intent "constructor" 7) "constructor" emptyState empty_world
    (Throw Busy) eq_refl _ eq_refl eq_refl eq_refl eq_refl _ _)).
  - vm_compute. reflexivity.
  - apply (bool_decide_unpack _). vm_compute. reflexivity.
  - vm_compute. reflexivity.
Defined.
