(* ===== verification/AuditedTransaction.v ===== *)
(** * Transactions on the audit log (lib/audit-transaction.mjs, lib/audit.mjs)

    By default a transaction appends to the hash-chained log of audit.mjs and
    verifies it.  This file runs the programs of AuditTransaction on the log of
    AuditLog: such runs are runs in the abstract world of AuditTransactionFacts,
    and the lines of the log are the events that world logged, in their order. *)

From stdpp Require Import base tactics sets list strings.
From Stdlib Require Import Ascii.
From S2P Require Import Prelude JsValue Regex Json Objects Crypto FileSystem AuditLog Program AuditTransaction.
From S2P Require Import AuditTransactionFacts AuditTransactionSpec.
Local Open Scope string_scope.

(** ** The world with the log *)

Record AuditedWorld := mkAudited { world : World; log : option Lines }.

(** [defaultVerifyAudit(directory)] *)
Definition audit_result (res : AuditResult) : jsval :=
  JObj [("valid", JBool (valid res)); ("entries", JNum (NInt (Z.of_nat (entries res))));
        ("invalid_entry", match invalid_entry res with Some n => JNum (NInt (Z.of_nat n)) | None => JNull end);
        ("head_hash", JStr (head_hash res))].

Section Audited.
Context `{HSha : Sha256}.

(** The effects of the log are those of audit.mjs at some time; an append may
    fail before or after it wrote its line. *)
Definition audited (w : AuditedWorld) (e : Effect) : resp e -> AuditedWorld -> Prop :=
  match e with
  | AppendAudit event => fun r w' =>
      r = None /\ w' = w \/
      exists timestamp record file, AuditLog.audit (log w) event timestamp = Ok (record, file) /\
        (r = Some record \/ r = None) /\ w' = mkAudited (happened (world w) (Logged event)) file
  | VerifyAudit => fun r w' =>
      w' = w /\ r = match verifyAudit (log w) with Ok res => Some (audit_result res) | Throw _ => None end
  | e => fun r w' => answers (world w) e r (world w') /\ log w' = log w
  end.

Notation exec_audited := (Program.exec audited).

Inductive audited_step (w w' : AuditedWorld) : Prop :=
| audited_execute t input o : exec_audited w (execute t input) w' o -> audited_step w w'
| audited_record t input o : exec_audited w (recordDecision t input) w' o -> audited_step w w'
| audited_recover t o : exec_audited w (recover t) w' o -> audited_step w w'.

(** From no state file and any log. *)
Definition audited_reachable (file : option Lines) : AuditedWorld -> Prop :=
  reach (fun w => w = mkAudited empty_world file) audited_step.

(** ** Simulation *)

Definition logged (h : list Fact) : list jsval := omap (fun f => match f with Logged event => Some event | _ => None end) h.

(** A line is the record of an event, at some time, after some hash. *)
Definition line_of (event : jsval) (line : option jsval) : Prop :=
  exists timestamp previous, line = Some (json_clone (make_record event timestamp previous)).

(** The log is what it was at first with a line for each event logged since. *)
Definition coherent (file : option Lines) (w : AuditedWorld) : Prop :=
  exists lines, default [] (log w) = (default [] file ++ lines)%list /\ Forall2 line_of (logged (history (world w))) lines.

Lemma logged_app h1 h2 : logged (h1 ++ h2) = (logged h1 ++ logged h2)%list.
Proof. apply omap_app. Qed.

Lemma logged_dropped old new : logged (dropped old new) = [].
Proof. unfold dropped. induction (filter _ _) as [|id l IH]; [done|exact IH]. Qed.

Lemma audited_answers w e r w' : audited w e r w' -> answers (world w) e r (world w').
Proof.
  destruct e; cbn [audited]; try (by intros [H _]).
  - intros [[-> ->]|(ts & record & file & _ & _ & ->)]; [by right|by left].
  - by intros [-> _].
Qed.

Lemma answers_logged w e r w' :
  answers w e r w' -> match e with AppendAudit _ => True | _ => logged (history w') = logged (history w) end.
Proof.
  destruct e; cbn [answers]; try (by intros ->); try done.
  - by intros [_ ->].
  - intros [-> |[_ ->]]; [|done]. cbn [written history]. by rewrite logged_app, logged_dropped, app_nil_r.
  - intros ->. cbn [happened history]. by rewrite logged_app, app_nil_r.
Qed.

Lemma audited_coherent file w e r w' : audited w e r w' -> coherent file w -> coherent file w'.
Proof.
  intros Ha (lines & El & Hl).
  assert (answers (world w) e r (world w')) as Hw by (by apply audited_answers).
  apply answers_logged in Hw. destruct e; cbn [audited] in Ha;
    try (destruct Ha as [_ Elog]; exists lines; by rewrite Elog, Hw); [|destruct Ha as [-> _]; by exists lines].
  clear Hw. destruct Ha as [[_ ->]|(ts & record & file' & Haud & _ & ->)]; [by exists lines|].
  unfold AuditLog.audit in Haud. apply bind_ok in Haud as (res & _ & Haud). destruct (negb (valid res)); [discriminate Haud|].
  injection Haud as _ <-. eexists (lines ++ [_])%list. cbn [log world happened history from_option default].
  split; [rewrite El; by rewrite <- app_assoc|]. rewrite logged_app. apply Forall2_app; [done|].
  constructor; [|constructor]. by eexists _, _.
Qed.

(** On the hash-chained log, transactions run as they do with the abstract
    log, and the log gains a line for every event they log, in their order. *)
Theorem audited_refines {A} file w (p : prog A) w' o :
  exec_audited w p w' o -> coherent file w -> exec (world w) p (world w') o /\ coherent file w'.
Proof.
  intros H. induction H as [w a|w p|w e k r w1 w2 o Ha H IH]; intros Hc; [split; [constructor|done]..|].
  destruct (IH (audited_coherent _ _ _ _ _ Ha Hc)) as [He Hc']. split; [|done].
  econstructor; [by apply audited_answers|done].
Qed.

(** ** What the log holds *)

Lemma record_field fs timestamp previous k x :
  NoDup (map fst fs) -> assoc k fs = Some x -> omitted x = false -> k <> "hash" ->
  get (json_clone (make_record (JObj fs) timestamp previous)) k = json_clone x.
Proof.
  intros Hd Ha Ho Hk. assert (get (make_record (JObj fs) timestamp previous) k = x) as E.
  { unfold make_record. cbn [get]. by rewrite set_field_get, (proj2 (String.eqb_neq _ _) Hk), spread_get, Ha by done. }
  by rewrite get_clone, E by (by rewrite E).
Qed.

Lemma digest_present v : coerced_test DIGEST (nullish v (JStr "")) = true -> omitted v = false.
Proof. by destruct v. Qed.

Lemma intent_payload value n : normalizeIntent value = Ok n -> omitted (get n "payload_digest") = false.
Proof.
  unfold normalizeIntent. intros H. run_steps H. injection H as <-. guards.
  match goal with H : coerced_test DIGEST (nullish (get value "payload_digest") _) = true |- _ => apply digest_present in H; rename H into Ho end.
  unfold intent_of, optional. by destruct (is_undefined _).
Qed.

(** The line of an intent, and the line of a result that allows. *)
Definition intent_line (id : string) (digest : jsval) (line : option jsval) : Prop :=
  exists r, line = Some r /\ get r "event" = JStr "authorized_intent" /\ get r "request_id" = JStr id /\ get r "payload_digest" = digest.

Definition allow_line (id : string) (line : option jsval) : Prop :=
  exists r, line = Some r /\ get r "event" = JStr "allow" /\ get r "request_id" = JStr id.

Lemma line_of_intent value n id line :
  normalizeIntent value = Ok n -> get n "request_id" = JStr id -> line_of (intentEvent n) line ->
  intent_line id (json_clone (get n "payload_digest")) line.
Proof.
  intros Hn Hid (ts & prev & ->). pose proof (intent_payload _ _ Hn) as Ho. eexists. split; [done|]. unfold intentEvent.
  destruct (truthy (get n "request_digest")); (split_and!;
    [apply (record_field _ _ _ "event" (JStr "authorized_intent"))
    |apply (record_field _ _ _ "request_id" (JStr id))
    |apply (record_field _ _ _ "payload_digest" (get n "payload_digest"))]);
    try done; try (apply (bool_decide_unpack _); vm_compute; exact I); cbn; by rewrite Hid.
Qed.

Lemma line_of_allow e id line :
  get (get e "result") "decision" = JStr "allow" -> get e "request_id" = JStr id -> line_of (resultEvent e) line -> allow_line id line.
Proof.
  intros Hd Hid (ts & prev & ->). eexists. split; [done|]. unfold resultEvent. rewrite Hd, Hid.
  split; [apply (record_field _ _ _ "event" (JStr "allow"))|apply (record_field _ _ _ "request_id" (JStr id))];
    try done; apply (bool_decide_unpack _); vm_compute; exact I.
Qed.

(** The signer was called with the id and the digest, and answered with the
    signature. *)
Definition signed_by_call (h : list Fact) (id : string) (payload_digest : jsval) (s : string) : Prop :=
  exists signer answer signed, SignerCalled signer (JStr id) payload_digest (Some answer) ∈ h /\
    normalizeSignerResult answer = Ok signed /\ s_signature signed = Some s.

Lemma logged_elem event h : Logged event ∈ h -> event ∈ logged h.
Proof. intros H. apply list_elem_of_omap. by exists (Logged event). Qed.

Lemma audited_reachable_coherent file w : audited_reachable file w -> reachable (world w) /\ coherent file w.
Proof.
  intros H. induction H as [w ->|w w' _ [Hr Hc] Hs].
  - split; [by apply reach_init|]. exists []. by rewrite app_nil_r.
  - destruct Hs as [t input o H|t input o H|t o H]; destruct (audited_refines file _ _ _ _ H Hc) as [He Hc']; (split; [|done]);
      (eapply reach_step; [exact Hr|]); [by eapply step_execute|by eapply step_record|by eapply step_recover].
Qed.

(** Two events logged one after the other have their lines in that order. *)
Lemma lines_in_order file w h1 f h2 e1 e2 :
  coherent file w -> history (world w) = (h1 ++ f :: h2)%list -> logged [f] = [] -> Logged e1 ∈ h1 -> Logged e2 ∈ h2 ->
  exists l1 line1 l2 line2 l3, default [] (log w) = (l1 ++ line1 :: l2 ++ line2 :: l3)%list /\ line_of e1 line1 /\ line_of e2 line2.
Proof.
  intros (lines & El & Hl) Eh Hf [a1 [b1 E1]]%logged_elem%list_elem_of_split [a2 [b2 E2]]%logged_elem%list_elem_of_split.
  rewrite Eh, logged_app, E1 in Hl. change (logged (f :: h2)) with (logged ([f] ++ h2)) in Hl. rewrite logged_app, Hf, E2, app_nil_l in Hl.
  apply Forall2_app_inv_l in Hl as (x1 & x2 & (y1 & y2 & _ & H1 & ->)%Forall2_app_inv_l & (y3 & y4 & _ & H2 & ->)%Forall2_app_inv_l & ->).
  apply Forall2_cons_inv_l in H1 as (line1 & z1 & Hl1 & _ & ->). apply Forall2_cons_inv_l in H2 as (line2 & z2 & Hl2 & _ & ->).
  exists (default [] file ++ y1)%list, line1, (z1 ++ y3)%list, line2, z2. rewrite El. split_and!; [|done..].
  by simplify_list_eq.
Qed.

(** C24: when a transaction on the log returns a signature, the signer gave it
    when it was called with the request's id and a payload digest, and the log
    holds the record of an intent with that id and that digest, and after it the
    record that allows the request; the intent has the fingerprint of the
    request that the transaction was given. *)
Theorem signature_in_log file w t input w' out s :
  audited_reachable file w -> exec_audited w (execute t input) w' (Some (Ok out)) -> o_signature out = Some s ->
  exists n n' id l1 line1 l2 line2 l3,
    normalizeIntent (intent_value (defaulted input)) = Ok n /\ get n "request_id" = JStr id /\ fingerprint n = fingerprint n' /\
    signed_by_call (history (world w')) id (get n' "payload_digest") s /\
    default [] (log w') = (l1 ++ line1 :: l2 ++ line2 :: l3)%list /\
    intent_line id (json_clone (get n' "payload_digest")) line1 /\ allow_line id line2.
Proof.
  intros [Hr Hc]%audited_reachable_coherent H Hs. destruct (audited_refines file _ _ _ _ H Hc) as [He Hc'].
  destruct (execute_released _ _ _ _ _ _ Hr He Hs) as (n & id & h1 & h2 & Hn & Hid & Hm & e & Hlog & Hd & Hre).
  destruct Hm as (sg & n' & a & sd & Eh & Hlog1 & Hid' & Hf & Hres & Hsig & value & Hv).
  destruct (lines_in_order file w' _ _ _ _ _ Hc' Eh eq_refl Hlog1 Hlog) as (l1 & line1 & l2 & line2 & l3 & El & H1 & H2).
  exists n, n', id, l1, line1, l2, line2, l3. split_and!; [done..| |done|by eapply line_of_intent|by eapply line_of_allow].
  exists sg, a, sd. split; [|done]. rewrite Eh. apply elem_of_app. right. left.
Qed.
End Audited.

(** ** A transaction on an empty log *)

Module Sample.
#[local] Existing Instance toy_sha256.

Definition time : string := "2026-01-01T00:00:00.000Z".

Definition handler (w : AuditedWorld) (e : Effect) : resp e * AuditedWorld :=
  match e return resp e * AuditedWorld with
  | AppendAudit event =>
      match AuditLog.audit (log w) event time with
      | Ok (record, file) => (Some record, mkAudited (happened (world w) (Logged event)) file)
      | Throw _ => (None, w)
      end
  | VerifyAudit => (match verifyAudit (log w) with Ok res => Some (audit_result res) | Throw _ => None end, w)
  | e => let '(r, w') := AuditTransactionSpec.Sample.handler (world w) e in (r, mkAudited w' (log w))
  end.

Lemma handler_audited w e : audited w e (fst (handler w e)) (snd (handler w e)).
Proof.
  destruct e; cbn [handler audited AuditTransactionSpec.Sample.handler fst snd]; try (split; [cbn; auto|done]).
  destruct (AuditLog.audit (log w) event time) as [[record file]|] eqn:E; [|by left].
  right. exists time, record, file. split_and!; [done|by left|done].
Qed.

Definition transaction : Transaction := AuditTransactionSpec.Sample.transaction.
Definition input : jsval := AuditTransactionSpec.Sample.input "request-1" 7.
Definition start : AuditedWorld := mkAudited empty_world None.
Definition ran : result exn Outcome * AuditedWorld := interpret handler (execute transaction input) start.

Lemma audited_exec : Program.exec audited start (execute transaction input) (snd ran) (Some (Ok AuditTransactionSpec.Sample.outcome)).
Proof.
  pose proof (interpret_exec audited handler (execute transaction input) start handler_audited) as H. fold ran in H.
  replace (fst ran) with (Ok (E := exn) AuditTransactionSpec.Sample.outcome) in H by (vm_compute; reflexivity). exact H.
Qed.

Lemma start_coherent : coherent None start.
Proof. exists []. split; [done|constructor]. Qed.
End Sample.

#[local] Existing Instance toy_sha256.

Lemma audited_refines_witness :
  exec (world Sample.start) (execute Sample.transaction Sample.input) (world (snd Sample.ran))
    (Some (Ok AuditTransactionSpec.Sample.outcome)).
Proof. exact (proj1 (audited_refines None _ _ _ _ Sample.audited_exec Sample.start_coherent)). Defined.

Lemma signature_in_log_witness :
  exists id digest l1 line1 l2 line2 l3,
    signed_by_call (history (world (snd Sample.ran))) id digest AuditTransactionSpec.Sample.signature /\
    default [] (log (snd Sample.ran)) = (l1 ++ line1 :: l2 ++ line2 :: l3)%list /\
    intent_line id (json_clone digest) line1 /\ allow_line id line2.
Proof.
  destruct (signature_in_log None Sample.start Sample.transaction Sample.input (snd Sample.ran) AuditTransactionSpec.Sample.outcome
    AuditTransactionSpec.Sample.signature (reach_init _ _ _ eq_refl) Sample.audited_exec eq_refl)
    as (n & n' & id & l1 & line1 & l2 & line2 & l3 & _ & _ & _ & Hs & H & Hi & Ha).
  exists id, (get n' "payload_digest"), l1, line1, l2, line2, l3. exact (conj Hs (conj H (conj Hi Ha))).
Defined.
