(* ===== verification/Broker.v ===== *)
(** * The broker (lib/broker.mjs)

    [processRequest]: the path of a request from the socket to the signer.  It
    composes the other components: the identity of the agent, the remote
    control, the control bundle with its capability, the session, the local
    policy, the reservation of the capability, and the audit transaction in
    which the signer is called.  It is a program over the files, git, the
    clock, the caches of the process and the signer; the transaction's program
    runs inside it. *)

From stdpp Require Import base tactics sets list gmap strings.
From Stdlib Require Import Ascii.
From S2P Require Import Prelude JsValue Regex IsoTime Json Objects Crypto Program Scope Policy Capability FileSystem CapabilityState.
From S2P Require Import RemoteControl BundleJson ControlBundle ControlBundleState Identity AuditTransaction BrokerChecks.
Local Open Scope string_scope.
Local Open Scope js_scope.

(** ** Errors and responses *)

Inductive exn :=
| InvalidRequest | UnsupportedOperation | RequestIdRequired | Check (e : check_error)
| ConfigUnavailable | ConfigChanged | ConfigVersion
| Transaction (e : AuditTransaction.exn) | PreviousOutcome (outcome reason : jsval)
| IdentityRefused (e : identity_error) | Control (e : control_error) | DeniedByControl (reason : string)
| StateUnavailable | CwdInvalid | GitFailed | RealPathFailed
| SyncInvalid | SyncFailed (code : jsval) | BundleMissing | Bundle (e : bundle_exn) | DeniedByBundle (reason : ControlBundle.Decision)
| DeniedByPolicyScope | CapabilityRequired | Ledger (e : ledger_error) | CapabilityRefused (e : cap_exn) | DeniedByCapabilityScope
| SessionUnavailable | PolicyFailed (e : policy_exn) | DeniedByPolicy (reason : string) | AuditFailed | ContextChanged
| SigningFailed (reason : jsval) | BrokerOutsideModel.

(** The cache that [createBroker] makes for its requests. *)
Record ControlCache := mkControlCache {
  highest : Z; bundle : jsval; last_fetch_at : jsval; last_fetch_error : jsval
}.

Inductive Response :=
| Pong (sequence : Z) (expires_at global_revoked revoked_agents revoked_capabilities last_fetch_at last_fetch_error : jsval)
| Signature (request_id : string) (stdout_base64 : string) (replayed : bool).

(** What a spawned [ssh-keygen] leaves: its status ([None] when it was
    killed), the signature file, its errors. *)
Record Spawned := mkSpawned { exit_status : option Z; signature_file : option string; stderr : string }.

(** [runSigner] *)
Definition runSigner (s : Spawned) : jsval :=
  let output := match exit_status s with Some 0%Z => default "" (signature_file s) | _ => "" end in
  JObj [("status", JNum (NInt (default 1%Z (exit_status s)))); ("stdout", JBytes output); ("stderr", JStr (trim (stderr s)))].

(** [client.sync()], or an error of the client's constructor. *)
Inductive Synced := SyncDone (sequence : Z) (bundle last_fetch_at : jsval) | SyncError (code : jsval) | SyncRefused.

(** ** Effects *)

Inductive Effect :=
(** an effect of the audit transaction, and the signer it calls *)
| Tx (e : AuditTransaction.Effect)
| RunSigner (args : list string) (payload : string) (provider : jsval)
(** the files: the configuration, the directory of the transactions, the
    control bundle, the state, a session, the device key, the head of the
    bundles, the ledger of capabilities *)
| LoadConfig | OpenDirectory | ReadControl | LoadState | LoadSession (token_hash : string) | ReadDeviceKey (file : jsval)
| ReadHead (file : jsval) | ReadLedger
| Reserve (capability agent_id request_id : jsval)
(** the clock, the caches of the process, the audit log *)
| Now | GetReplay | SetReplay (cache : ReplayCache) | GetCache | SetCache (cache : ControlCache)
| Audit (event : jsval)
(** git, and the paths it names *)
| Git (cwd : string) (args : list string) | RealPath (p : string) | MergeHead (cwd p : string)
(** the control service *)
| Sync (control : jsval).

(** The answers; [None] is a call that throws, or for git that fails. *)
Definition resp (e : Effect) : Type :=
  match e with
  | Tx e => AuditTransaction.resp e
  | RunSigner _ _ _ => option Spawned
  | LoadConfig | LoadState | LoadSession _ => option jsval
  | OpenDirectory => option Stat * option string * option Stat
  | ReadControl => option File
  | ReadDeviceKey _ => DeviceKeyFile
  | ReadHead _ => Disk
  | ReadLedger => Store
  | Reserve _ _ _ => result ledger_error bool
  | Now => Z
  | GetReplay => ReplayCache
  | SetReplay _ | SetCache _ => unit
  | GetCache => ControlCache
  | Audit _ => bool
  | Git _ _ | RealPath _ => option string
  | MergeHead _ _ => option (Stat * option string)
  | Sync _ => Synced
  end.

Notation prog := (Program.prog resp).
Notation async := (Program.async resp exn).
Notation event := (Program.event resp).
Notation ask := (Program.ask (resp := resp)).

(** The program of a transaction, whose signer is [runSigner] of the
    arguments; its errors are those of the broker. *)
Definition perform (args : list string) (payload : string) (provider : jsval) (e : AuditTransaction.Effect)
    : prog (AuditTransaction.resp e) :=
  match e return prog (AuditTransaction.resp e) with
  | CallSigner _ _ _ => Ask (resp := resp) (RunSigner args payload provider) (fun s => Done (option_map runSigner s))
  | e => Ask (resp := resp) (Tx e) (fun r => Done r)
  end.

Fixpoint lifted {A} (args : list string) (payload : string) (provider : jsval) (p : Program.prog AuditTransaction.resp A) : prog A :=
  match p with
  | Done a => Done a
  | Ask e k => pbind (perform args payload provider e) (fun r => lifted args payload provider (k r))
  end.

Definition errors_as {E A} (f : E -> exn) (r : result E A) : result exn A :=
  match r with Ok a => Ok a | Throw e => Throw (f e) end.

Definition attempted {A} (e : exn) (o : option A) : async A := match o with Some a => return_ a | None => throw e end.

(** ** Git *)

(** [git(cwd, args, optional)] *)
Definition git (cwd : string) (args : list string) (optional : bool) : async string :=
  await output := ask (Git cwd args) in
  match output with
  | Some text => return_ (trim text)
  | None => if optional then return_ "" else throw GitFailed
  end.

Record GitContext := mkGitContext { g_cwd : string; g_branch : string; g_remote : string }.

#[export] Instance git_context_eq_dec : EqDecision GitContext.
Proof. solve_decision. Defined.

Definition trustedGitContext (requestedCwd : jsval) : async GitContext :=
  match requestedCwd with
  | JStr requested =>
      if negb (NodePath.isAbsolute requested) then throw CwdInvalid else
      await cwd := git requested ["rev-parse"; "--show-toplevel"] false in
      await real := ask (RealPath cwd) in
      await real := attempted RealPathFailed real in
      await branch := git cwd ["branch"; "--show-current"] true in
      await remote := git cwd ["remote"; "get-url"; "origin"] true in
      return_ (mkGitContext real (if String.eqb branch "" then "HEAD" else branch) remote)
  | _ => throw CwdInvalid
  end.

Definition readMergeHeads (cwd : string) : async (list string) :=
  await gitPath := git cwd ["rev-parse"; "--git-path"; "MERGE_HEAD"] true in
  if String.eqb gitPath "" then return_ [] else
  await file := ask (MergeHead cwd gitPath) in
  sync (errors_as Check (merge_heads file)).

Definition validateCommitPayload (payload cwd : string) : async Commit :=
  await commit := sync (errors_as Check (parse_commit payload)) in
  await expectedTree := git cwd ["write-tree"] false in
  await _ := sync (if String.eqb (tree commit) expectedTree then Ok tt else Throw (Check TreeMismatch)) in
  await head := git cwd ["rev-parse"; "--verify"; "HEAD"] true in
  await merged := (if String.eqb head "" then return_ [] else readMergeHeads cwd) in
  sync (errors_as Check (check_commit commit expectedTree head merged)).

(** [audit(event, configDir)], which may throw. *)
Definition audited (event : jsval) : async unit :=
  await ok := ask (Audit event) in if ok then return_ tt else throw AuditFailed.

(** ** Requests *)

Section Process.
Context `{HParse : DateParse} `{HSha : Sha256} `{HKeys : KeyObjects} `{HRead : Base64Reader} `{HNumber : NumberText}
  `{HHosts : HostObjects} `{HHooks : Hooks}.
(** The real path of the policy, the home and working directories, the
    process id, the directory of the configuration, and the digest of the
    configuration at the start. *)
Variables (real : jsval -> option string) (home working : string) (process : Z) (configDir : string) (expectedConfigDigest : option string).

Definition operation_name : jsval := JStr "git.commit.sign".

(** [typeof value === "object"] of a value that is not null. *)
Definition is_reference (v : jsval) : bool := match v with JObj _ | JArr _ | JBytes _ | JHost _ => true | _ => false end.

Definition ping : async Response :=
  await cache := ask GetCache in
  let size (v : jsval) := match v with JArr l => JNum (NInt (Z.of_nat (length l))) | _ => JNum (NInt 0) end in
  return_ (Pong (highest cache) (nullish (get (bundle cache) "expires_at") JNull)
             (nullish (get (bundle cache) "global_revoked") (JBool false)) (size (get (bundle cache) "revoked_agents"))
             (size (get (bundle cache) "revoked_capabilities")) (nullish (last_fetch_at cache) JNull) (nullish (last_fetch_error cache) JNull)).

(** [config.version < 4]; a validated configuration has an integer there. *)
Definition old_version (v : jsval) : result exn bool :=
  match js_integer v with Some n => Ok (n <? 4)%Z | None => Throw BrokerOutsideModel end.

Definition loaded_config : async jsval :=
  await config := ask LoadConfig in
  await config := attempted ConfigUnavailable config in
  await _ := sync (match expectedConfigDigest with
                   | Some d => if String.eqb (digestConfig config) d then Ok tt else Throw ConfigChanged
                   | None => Ok tt
                   end) in
  await old := sync (old_version (get config "version")) in
  if old then throw ConfigVersion else return_ config.

(** [createAuthorizationTransaction({ directory: configDir })] *)
Definition openTransaction : async AuditTransaction.Transaction :=
  await found := ask OpenDirectory in
  let '(stat, path, canonical) := found in
  await _ := sync (errors_as Transaction (secureDirectory (JStr configDir) stat path canonical)) in
  sync (errors_as Transaction (make_transaction process (JObj []))).

(** The digest that the agent signed. *)
Definition requestDigest (request : jsval) : string := sha256 (canonicalJson (unsigned request)).

(** A request with an outcome is authenticated, with a cache of its own, and
    answered with it. *)
Definition answer_existing (request config : jsval) (requestId : string) (o : Outcome) : async Response :=
  await now := ask Now in
  await _ := sync (errors_as IdentityRefused (fst (verifyRequestIdentity request config ∅ now))) in
  match o_signature o with
  | Some s => if is_str (o_outcome o) "allow" then return_ (Signature requestId (base64 s) true)
              else throw (PreviousOutcome (o_outcome o) (o_reason o))
  | None => throw (PreviousOutcome (o_outcome o) (o_reason o))
  end.

(** [verifyRequestIdentity(request, config, replayCache)] *)
Definition authenticate (request config : jsval) : async jsval :=
  await replay := ask GetReplay in
  await now := ask Now in
  let '(r, replay) := verifyRequestIdentity request config replay now in
  await _ := ask (SetReplay replay) in
  sync (errors_as IdentityRefused r).

(** [loadControlBundle(config, configDir, controlCache)] *)
Definition load_control (config : jsval) : async (option RemoteControl.Bundle) :=
  if negb (truthy (get config "control")) then return_ None else
  await cache := ask GetCache in
  await file := ask ReadControl in
  await now := ask Now in
  let '(r, h) := loadControlBundle config (mkHost file (mkCache (highest cache) None)) now in
  await loaded := sync (errors_as Control r) in
  await _ := ask (SetCache (mkControlCache (highestSequence (RemoteControl.cache h))
                              (match loaded with Some b => RemoteControl.bundle_js b | None => bundle cache end)
                              (last_fetch_at cache) (last_fetch_error cache))) in
  return_ loaded.

(** The remote control of the first format, when there is no second. *)
Definition check_control (config identity : jsval) (requestId payload : string) : async unit :=
  if truthy (get config "control_v2") then return_ tt else
  await controlBundle := load_control config in
  let decision := evaluateRemoteControl controlBundle (get identity "id") in
  if RemoteControl.allowed decision then return_ tt else
  await _ := audited (JObj [("request_id", JStr requestId); ("operation", operation_name); ("agent_id", get identity "id");
                 ("agent_name", get identity "name"); ("payload_sha256", JStr (sha256 payload)); ("decision", JStr "deny");
                 ("reason", JStr (RemoteControl.reason decision));
                 ("control_sequence", match control_sequence decision with Some n => JNum (NInt n) | None => JUndefined end)]) in
  throw (DeniedByControl (RemoteControl.reason decision)).

(** ** Control bundles and capabilities *)

(** The synchronization with the service, when it has an address and the
    native broker does not make it. *)
Definition synchronize (config control : jsval) : async unit :=
  if negb (truthy (get control "url") && negb (bool_decide (get (get config "native_broker") "enabled" = JBool true))) then return_ tt else
  await key := ask (ReadDeviceKey (get control "device_private_key_path")) in
  await _ := sync (errors_as Check (readProtectedDevicePrivateKey (get control "device_private_key_path") key)) in
  await synced := ask (Sync control) in
  await cache := ask GetCache in
  match synced with
  | SyncRefused => throw SyncInvalid
  | SyncDone seq b at_ => await _ := ask (SetCache (mkControlCache seq b at_ JNull)) in return_ tt
  | SyncError code =>
      let code := nullish code (JStr "control_sync_failed") in
      await _ := ask (SetCache (mkControlCache (highest cache) (bundle cache) (last_fetch_at cache) code)) in
      if bool_decide (get control "allow_offline" = JBool true) then return_ tt else throw (SyncFailed code)
  end.

Definition audience_of (control : jsval) : jsval :=
  JObj [("organization_id", get control "organization_id"); ("device_id", get control "device_id")].

Definition trust_fields (control : jsval) : list (string * jsval) :=
  [("public_key", get control "public_key"); ("issuer", get control "issuer"); ("key_id", get control "key_id")].

(** The bundle in force, as an object. *)
Definition active_bundle_of (control : jsval) (durable : ControlBundle.State) (now : Z) : result exn jsval :=
  active ← of_option BundleMissing (ControlBundle.active_bundle durable);
  let trust := JObj (trust_fields control ++ [("audience", audience_of control); ("sequenceState", ControlBundle.state_js durable)])%list in
  let options := JObj [("audience", audience_of control); ("sequenceState", ControlBundle.state_js durable)] in
  '(verified, _) ← errors_as Bundle (verifyCachedControlBundle (JObj active) trust options now);
  Ok (JObj (ControlBundle.signed_fields verified.1 verified.2)).

Definition bundle_allows (cloudBundle organization device agent capability : jsval) : result exn unit :=
  match evaluateControlBundle cloudBundle organization device agent capability with
  | ControlBundle.Allowed _ => Ok tt
  | ControlBundle.Denied _ _ as d => Throw (DeniedByBundle d)
  end.

Definition scope_request (c : GitContext) : Scope.Request :=
  Scope.mkRequest operation_name (JStr (g_cwd c)) (JStr (g_branch c)) (JStr (g_remote c)) JUndefined.

(** What the ledger knows of the agent. *)
Definition capability_state (s : CapabilityState.State) (agent : jsval) : Capability.SequenceState :=
  match agents s !! CapabilityState.key agent with
  | Some h => Capability.mkState (JNum (NInt (CapabilityState.highest_sequence h)))
                (if truthy (CapabilityState.highest_capability_hash h) then CapabilityState.highest_capability_hash h else JUndefined)
  | None => Capability.mkState (JNum (NInt 0)) JUndefined
  end.

(** The capability of the request, verified against the bundle, the ledger
    and the context of git. *)
Definition check_capability (request control cloudBundle agent : jsval) (c : GitContext) (ledger : Store) (now : Z)
    : result exn (Capability.Statement * string) :=
  state ← errors_as Ledger (loadCapabilityState (JStr (configDir +:+ "/capability.state.json")) ledger);
  '(verified, _) ← errors_as CapabilityRefused
    (verifyCapability (get request "capability") (JObj (trust_fields control))
       (JObj [("audience", JObj [("agent_id", agent); ("device_id", get control "device_id")])])
       (Some (capability_state state agent)) now);
  _ ← bundle_allows cloudBundle JUndefined JUndefined JUndefined (capability_id verified.1);
  allowed ← errors_as CapabilityRefused (scopeAllows (scope_js (scope verified.1)) (scope_request c));
  throw_if negb allowed with DeniedByCapabilityScope ;;
  Ok verified.

(** The second format: the bundle in force allows the agent and what it does,
    and so does its capability.  The bundle and the capability. *)
Definition check_cloud (request config identity : jsval) (c : GitContext) : async (option (jsval * (Capability.Statement * string))) :=
  let control := get config "control_v2" in
  if negb (truthy control) then return_ None else
  await _ := synchronize config control in
  await disk := ask (ReadHead (get control "state_path")) in
  await durable := sync (errors_as Bundle (loadControlBundleState disk)) in
  await now := ask Now in
  await cloudBundle := sync (active_bundle_of control durable now) in
  await _ := sync (bundle_allows cloudBundle (get control "organization_id") (get control "device_id") (get identity "id") JUndefined) in
  await _ := sync (if policyScopeAllows cloudBundle (scope_request c) then Ok tt else Throw DeniedByPolicyScope) in
  await _ := sync (if is_reference (get request "capability") then Ok tt else Throw CapabilityRequired) in
  await ledger := ask ReadLedger in
  await now := ask Now in
  await verified := sync (check_capability request control cloudBundle (get identity "id") c ledger now) in
  return_ (Some (cloudBundle, verified)).

(** ** The decision *)

(** [loadSession(token, configDir)] *)
Definition loadSession (token : jsval) : async jsval :=
  match token with
  | JStr t =>
      if String.eqb t "" then return_ JNull else
      await session := ask (LoadSession (sha256 t)) in attempted SessionUnavailable session
  | _ => return_ JNull
  end.

(** The policy of the configuration, with the validity of the session. *)
Definition session_policy (config : jsval) (valid : bool) : jsval :=
  assign config "session" (JObj (set_field "valid" (JBool valid) (fields_of (get config "session")))).

Definition policy_context (config : jsval) (c : GitContext) (sessionValid : bool) (revoked : jsval) : Policy.Context :=
  Policy.mkContext (session_policy config sessionValid) (JStr (g_cwd c)) (JStr (g_branch c)) (JStr (g_remote c)) operation_name revoked.

Definition base_event (requestId payload : string) (identity : jsval) (c : GitContext) (commit : Commit) (key : string) : list (string * jsval) :=
  [("request_id", JStr requestId); ("operation", operation_name); ("agent_id", get identity "id"); ("agent_name", get identity "name");
   ("cwd", JStr (g_cwd c)); ("branch", JStr (g_branch c)); ("remote", JStr (g_remote c)); ("payload_sha256", JStr (sha256 payload));
   ("tree", JStr (tree commit)); ("parents", JArr (map JStr (parents commit))); ("signing_key", JStr key)].

Definition deny_event (base : list (string * jsval)) (reason : string) : jsval :=
  JObj (base ++ [("decision", JStr "deny"); ("reason", JStr reason)])%list.

(** The local policy, which is asked after everything else: the event of the
    request, and the signing key. *)
Definition check_policy (request config identity state : jsval) (requestId payload : string) (c : GitContext) (commit : Commit)
    : async (list (string * jsval) * string) :=
  await session := loadSession (get request "session") in
  await now := ask Now in
  await valid := sync (errors_as Check (validateSession session (get request "session") (get state "generation") (get identity "id") now)) in
  await decision := sync (errors_as PolicyFailed
                            (evaluateAgentRequest real (policy_context config c valid (get state "revoked")) identity)) in
  await key := sync (errors_as Check (expandHome home working (get (get config "signing") "key"))) in
  let base := base_event requestId payload identity c commit key in
  match decision with
  | Policy.Allowed _ => return_ (base, key)
  | Policy.Denied reason => await _ := audited (deny_event base reason) in throw (DeniedByPolicy reason)
  end.

(** The facts of git, read again before the signer. *)
Definition check_unchanged (base : list (string * jsval)) (payload : string) (c : GitContext) : async unit :=
  await final := trustedGitContext (JStr (g_cwd c)) in
  if negb (bool_decide (final = c)) then
    await _ := audited (deny_event base "git_context_changed") in throw ContextChanged
  else
    await _ := catch (validateCommitPayload payload (g_cwd final))
                 (fun _ => await _ := audited (deny_event base "git_context_changed") in throw ContextChanged) in
    return_ tt.

Definition reserve (verified : option (jsval * (Capability.Statement * string))) (agent : jsval) (requestId : string) : async unit :=
  match verified with
  | None => return_ tt
  | Some (_, c) =>
      await r := ask (Reserve (signed_js c.1 c.2) agent (JStr requestId)) in
      await _ := sync (errors_as Ledger r) in return_ tt
  end.

(** Everything that precedes the transaction, for a new request: what it is
    given to sign. *)
Record Authorized := mkAuthorized {
  a_identity : jsval; a_context : GitContext; a_commit : Commit; a_cloud : option (jsval * (Capability.Statement * string));
  a_args : list string
}.

Definition authorize_request (request config : jsval) (requestId payload : string) : async Authorized :=
  await identity := authenticate request config in
  await _ := check_control config identity requestId payload in
  await state := ask LoadState in
  await state := attempted StateUnavailable state in
  await context := trustedGitContext (get request "cwd") in
  await commit := validateCommitPayload payload (g_cwd context) in
  await cloud := check_cloud request config identity context in
  await checked := check_policy request config identity state requestId payload context commit in
  await _ := check_unchanged (fst checked) payload context in
  await _ := reserve cloud (get identity "id") requestId in
  await args := sync (errors_as Check (sanitizeSignArgs (get request "sign_args") (snd checked))) in
  return_ (mkAuthorized identity context commit cloud args).

Definition trusted_context_digest (c : GitContext) (commit : Commit) : string :=
  sha256 (stringify (JObj [("cwd", JStr (g_cwd c)); ("branch", JStr (g_branch c)); ("remote", JStr (g_remote c));
                           ("tree", JStr (tree commit)); ("parents", JArr (map JStr (parents commit)))])).

(** The input of the transaction; its signer is a closure. *)
Definition transaction_input (request : jsval) (requestId payload : string) (a : Authorized) : jsval :=
  JObj [("intent", JObj [("request_id", JStr requestId); ("request_digest", JStr (requestDigest request));
           ("trusted_context_digest", JStr (trusted_context_digest (a_context a) (a_commit a)));
           ("policy_sequence", match a_cloud a with Some (b, _) => nullish (get b "sequence") (JNum (NInt 0)) | None => JNum (NInt 0) end);
           ("capability_sequence", match a_cloud a with Some (_, c) => JNum (NInt (Capability.sequence c.1)) | None => JNum (NInt 0) end);
           ("payload_digest", JStr (sha256 payload))]);
        ("signer", JFun 0)].

Definition provider_of (config : jsval) : jsval :=
  let p := get (get config "signing") "provider" in if truthy p then p else JStr "/usr/lib/ssh-keychain.dylib".

Definition sign_request (request config : jsval) (requestId payload : string) (t : AuditTransaction.Transaction) (a : Authorized) : async Response :=
  await outcome := pbind (lifted (a_args a) payload (provider_of config) (execute t (transaction_input request requestId payload a)))
                     (fun r => sync (errors_as Transaction r)) in
  match o_signature outcome with
  | Some s => if is_str (o_outcome outcome) "allow" then return_ (Signature requestId (base64 s) false)
              else throw (SigningFailed (o_reason outcome))
  | None => throw (SigningFailed (o_reason outcome))
  end.

(** A request to sign. *)
Definition sign_operation (request : jsval) : async Response :=
  await requestId := sync (match get request "request_id" with
                           | JStr id => if re_test Capability.UUID id then Ok id else Throw RequestIdRequired
                           | _ => Throw RequestIdRequired
                           end) in
  await payload := sync (errors_as Check (decodePayload (get request "payload_base64"))) in
  await config := loaded_config in
  await t := openTransaction in
  await file := ask (Tx ReadState) in
  await existing := sync (errors_as Transaction
    (getOutcome (JStr requestId) (JObj [("requestDigest", JStr (requestDigest request))]) file)) in
  match existing with
  | Some o => answer_existing request config requestId o
  | None => await a := authorize_request request config requestId payload in sign_request request config requestId payload t a
  end.

Definition processRequest (request : jsval) : async Response :=
  if negb (is_reference request) then throw InvalidRequest else
  if is_str (get request "operation") "ping" then ping else
  if negb (is_str (get request "operation") "git.commit.sign") then throw UnsupportedOperation else
  sign_operation request.
End Process.
