(* ===== verification/BrokerFacts.v ===== *)
(** * What the broker signs

    The signer is called only for a request that passed every check, in a
    trace where the effects that each check relied on occur before.  What the
    checks guarantee is said of the answers in a trace [T]. *)

From stdpp Require Import base tactics sets list gmap strings.
From Stdlib Require Import Ascii.
From S2P Require Import Prelude JsValue Regex IsoTime Json Objects Crypto Program Scope Policy Capability FileSystem CapabilityState.
From S2P Require Import RemoteControl BundleJson ControlBundle ControlBundleState Identity AuditTransaction BrokerChecks Broker.
Local Open Scope string_scope.
Local Open Scope js_scope.

Notation ensures := (Program.ensures (resp := resp) (X := exn)).
Notation ev := (Program.ev (resp := resp)).

Lemma errors_as_ok {E A} (f : E -> exn) (r : result E A) a : errors_as f r = Ok a -> r = Ok a.
Proof. destruct r; [|done]. by intros [= ->]. Qed.

Section Facts.
Context `{HParse : DateParse} `{HSha : Sha256} `{HKeys : KeyObjects} `{HRead : Base64Reader} `{HNumber : NumberText}
  `{HHosts : HostObjects} `{HHooks : Hooks}.
Variables (real : jsval -> option string) (home working : string) (process : Z) (configDir : string) (expectedConfigDigest : option string).
(** The effects that happened, with their answers. *)
Variable T : list event.
Notation seen := (fun x => x ∈ T).

(** ** What each check guarantees *)

Definition authenticated (request config identity : jsval) : Prop :=
  exists replay now replay', ev GetReplay replay ∈ T /\ ev Now now ∈ T /\ ev (SetReplay replay') tt ∈ T /\
    accepted request config identity replay replay' now.

(** The bundle of the first format, when it decides. *)
Definition control_permits (config identity : jsval) : Prop :=
  truthy (get config "control_v2") = true \/ truthy (get config "control") = false \/
  exists file now b, ev ReadControl file ∈ T /\ ev Now now ∈ T /\
    RemoteControl.signed b (control_key config) /\ RemoteControl.valid_statement (RemoteControl.statement b) /\
    RemoteControl.timely (RemoteControl.statement b) now /\
    RemoteControl.global_revoked (RemoteControl.statement b) = false /\
    one_of (RemoteControl.revoked_agents (RemoteControl.statement b)) (get identity "id") = false.

(** What git printed; nothing, for an optional command that failed. *)
Definition git_said (cwd : string) (args : list string) (optional : bool) (out : string) : Prop :=
  (exists text, ev (Git cwd args) (Some text) ∈ T /\ out = trim text) \/ (optional = true /\ out = "" /\ ev (Git cwd args) None ∈ T).

Definition context_read (requested : jsval) (c : GitContext) : Prop :=
  exists from cwd b, requested = JStr from /\ git_said from ["rev-parse"; "--show-toplevel"] false cwd /\
    ev (RealPath cwd) (Some (g_cwd c)) ∈ T /\ git_said cwd ["branch"; "--show-current"] true b /\
    g_branch c = (if String.eqb b "" then "HEAD" else b) /\ git_said cwd ["remote"; "get-url"; "origin"] true (g_remote c).

(** The payload is a commit of the index on [HEAD] and the heads of a merge. *)
Definition merges_read (cwd : string) (merged : list string) : Prop :=
  exists p, git_said cwd ["rev-parse"; "--git-path"; "MERGE_HEAD"] true p /\
    if String.eqb p "" then merged = [] else exists file, ev (MergeHead cwd p) file ∈ T /\ merge_heads file = Ok merged.

Definition commit_matches (payload cwd : string) (c : Commit) : Prop :=
  parse_commit payload = Ok c /\ git_said cwd ["write-tree"] false (tree c) /\
  exists head, git_said cwd ["rev-parse"; "--verify"; "HEAD"] true head /\
    if String.eqb head "" then parents c = [] else exists merged, parents c = head :: merged /\ merges_read cwd merged.

(** The bundle of the second format, with the capability. *)
Definition cloud_permits (request config identity : jsval) (c : GitContext) (o : option (jsval * (Capability.Statement * string))) : Prop :=
  let control := get config "control_v2" in
  match o with
  | None => truthy control = false
  | Some (b, v) =>
      exists disk durable now1 store ledger now2 st n1 n2,
        ev (ReadHead (get control "state_path")) disk ∈ T /\ loadControlBundleState disk = Ok durable /\
        ev Now now1 ∈ T /\ active_bundle_of control durable now1 = Ok b /\
        evaluateControlBundle b (get control "organization_id") (get control "device_id") (get identity "id") JUndefined = ControlBundle.Allowed n1 /\
        policyScopeAllows b (scope_request c) = true /\
        ev ReadLedger store ∈ T /\ loadCapabilityState (JStr (configDir +:+ "/capability.state.json")) store = Ok ledger /\
        ev Now now2 ∈ T /\
        verifyCapability (get request "capability") (JObj (trust_fields control))
          (JObj [("audience", JObj [("agent_id", get identity "id"); ("device_id", get control "device_id")])])
          (Some (capability_state ledger (get identity "id"))) now2 = Ok (v, st) /\
        evaluateControlBundle b JUndefined JUndefined JUndefined (capability_id v.1) = ControlBundle.Allowed n2 /\
        scopeAllows (scope_js (scope v.1)) (scope_request c) = Ok true
  end.

(** The local policy, under the session that was read. *)
Definition session_read (token session : jsval) : Prop :=
  match token with
  | JStr t => if String.eqb t "" then session = JNull else ev (LoadSession (sha256 t)) (Some session) ∈ T
  | _ => session = JNull
  end.

Definition policy_permits (request config identity : jsval) (c : GitContext) : Prop :=
  exists state session now valid op, ev LoadState (Some state) ∈ T /\ session_read (get request "session") session /\ ev Now now ∈ T /\
    validateSession session (get request "session") (get state "generation") (get identity "id") now = Ok valid /\
    evaluateAgentRequest real (policy_context config c valid (get state "revoked")) identity = Ok (Policy.Allowed op).

Definition reserved (identity : jsval) (requestId : string) (o : option (jsval * (Capability.Statement * string))) : Prop :=
  match o with
  | None => True
  | Some (_, v) => exists b, ev (Reserve (signed_js v.1 v.2) (get identity "id") (JStr requestId)) (Ok b) ∈ T
  end.

(** ** The checks, one by one *)

Lemma authenticate_ensures request config : ensures seen (authenticate request config) (authenticated request config).
Proof.
  unfold authenticate. eapply ensures_abind; [apply (ensures_ask _ _ (fun r => ev GetReplay r ∈ T)); auto|]. intros replay Hr.
  eapply ensures_abind; [apply (ensures_ask _ _ (fun r => ev Now r ∈ T)); auto|]. intros now Hn.
  destruct (verifyRequestIdentity request config replay now) as [r replay'] eqn:E.
  eapply ensures_abind; [apply (ensures_ask _ _ (fun r => ev (SetReplay replay') r ∈ T)); auto|]. intros [] Hs.
  apply ensures_sync. intros identity ->%errors_as_ok. exists replay, now, replay'. split_and!; try done. by apply verify_accepted in E.
Qed.

Lemma load_control_ensures config :
  truthy (get config "control") = true ->
  ensures seen (load_control config) (fun o => exists file now b, o = Some b /\ ev ReadControl file ∈ T /\ ev Now now ∈ T /\
    RemoteControl.signed b (control_key config) /\ RemoteControl.valid_statement (RemoteControl.statement b) /\
    RemoteControl.timely (RemoteControl.statement b) now).
Proof.
  intros Hc. unfold load_control. rewrite Hc. cbn [negb]. apply ensures_any. intros cache.
  eapply ensures_abind; [apply (ensures_ask _ _ (fun r => ev ReadControl r ∈ T)); auto|]. intros file Hf.
  eapply ensures_abind; [apply (ensures_ask _ _ (fun r => ev Now r ∈ T)); auto|]. intros now Hn.
  destruct (loadControlBundle config _ now) as [r h] eqn:E.
  eapply (ensures_abind _ _ _ (fun o => r = Ok o)); [apply ensures_sync; intros o; apply errors_as_ok|]. intros o ->.
  apply ensures_any. intros _. apply ensures_return. exists file, now.
  pose proof (RemoteControl.cached_load_ok _ _ _ _ _ E) as (_ & _ & Hl). unfold loadControlBundle in E. rewrite Hc in E. cbn [negb] in E.
  destruct (read_bundle config _ now) as [b|]; [|discriminate E]. injection E as <- _. exists b.
  destruct (Hl b eq_refl) as (? & ? & ? & _). done.
Qed.

Lemma check_control_ensures config identity requestId payload :
  ensures seen (check_control config identity requestId payload) (fun _ => control_permits config identity).
Proof.
  unfold check_control. destruct (truthy (get config "control_v2")) eqn:Ev2; [apply ensures_return; by left|].
  destruct (truthy (get config "control")) eqn:Ec.
  - eapply ensures_abind; [by apply load_control_ensures|]. intros o (file & now & b & -> & Hf & Hn & Hs & Hv & Ht).
    destruct (RemoteControl.allowed _) eqn:Ea; [|by apply ensures_any; intros; apply ensures_throw].
    apply ensures_return. right. right. exists file, now, b. unfold evaluateRemoteControl in Ea.
    destruct (RemoteControl.global_revoked _); [done|]. by destruct (one_of _ _).
  - unfold load_control. rewrite Ec. cbn [negb]. apply ensures_any. intros o.
    destruct (RemoteControl.allowed _); [|by apply ensures_any; intros; apply ensures_throw]. apply ensures_return. right. by left.
Qed.

Lemma attempted_ensures {A} e (o : option A) : ensures seen (attempted e o) (fun a => o = Some a).
Proof. destruct o; [by apply ensures_return|apply ensures_throw]. Qed.

Lemma git_ensures cwd args optional : ensures seen (git cwd args optional) (git_said cwd args optional).
Proof.
  unfold git. eapply ensures_abind; [apply (ensures_ask _ _ (fun r => ev (Git cwd args) r ∈ T)); auto|]. intros [text|] Hg.
  - apply ensures_return. left. by exists text.
  - destruct optional; [|apply ensures_throw]. apply ensures_return. by right.
Qed.

Lemma context_ensures requested : ensures seen (trustedGitContext requested) (context_read requested).
Proof.
  unfold trustedGitContext. destruct requested as [ | | | |from| | | | | ]; try apply ensures_throw.
  destruct (NodePath.isAbsolute from); cbn [negb]; [|apply ensures_throw].
  eapply ensures_abind; [apply git_ensures|]. intros cwd Hcwd.
  eapply ensures_abind; [apply (ensures_ask _ _ (fun r => ev (RealPath cwd) r ∈ T)); auto|]. intros r Hr.
  eapply ensures_abind; [apply attempted_ensures|]. intros p ->.
  eapply ensures_abind; [apply git_ensures|]. intros b Hb. eapply ensures_abind; [apply git_ensures|]. intros remote Hm.
  apply ensures_return. by exists from, cwd, b.
Qed.

Lemma merges_ensures cwd : ensures seen (readMergeHeads cwd) (merges_read cwd).
Proof.
  unfold readMergeHeads. eapply ensures_abind; [apply git_ensures|]. intros p Hp. destruct (String.eqb p "") eqn:Ep.
  - apply ensures_return. exists p. split; [done|]. by rewrite Ep.
  - eapply ensures_abind; [apply (ensures_ask _ _ (fun r => ev (MergeHead cwd p) r ∈ T)); auto|]. intros file Hf.
    apply ensures_sync. intros merged Hm%errors_as_ok. exists p. split; [done|]. rewrite Ep. by exists file.
Qed.

Lemma commit_ensures payload cwd : ensures seen (validateCommitPayload payload cwd) (commit_matches payload cwd).
Proof.
  unfold validateCommitPayload. eapply (ensures_abind _ _ _ (fun c => parse_commit payload = Ok c)); [apply ensures_sync; intros c; apply errors_as_ok|].
  intros c Hc. eapply ensures_abind; [apply git_ensures|]. intros expected He.
  eapply (ensures_abind _ _ _ (fun _ => tree c = expected)).
  { apply ensures_sync. intros []. destruct (String.eqb_spec (tree c) expected); done. }
  intros _ <-. eapply ensures_abind; [apply git_ensures|]. intros head Hh.
  eapply (ensures_abind _ _ _ (fun merged => if String.eqb head "" then merged = [] else merges_read cwd merged)).
  { destruct (String.eqb head ""); [by apply ensures_return|apply merges_ensures]. }
  intros merged Hm. apply ensures_sync. intros c' Hc'%errors_as_ok. apply check_commit_ok in Hc' as (Ht & -> & Hp).
  split; [done|]. split; [done|]. exists head. split; [done|]. destruct (String.eqb head ""); [done|]. eauto.
Qed.

Lemma bundle_allows_ok b org dev agent cap u :
  bundle_allows b org dev agent cap = Ok u -> exists n, evaluateControlBundle b org dev agent cap = ControlBundle.Allowed n.
Proof. unfold bundle_allows. destruct (evaluateControlBundle b org dev agent cap); [eauto|done]. Qed.

Lemma capability_checked request control cloudBundle agent c store now v :
  check_capability configDir request control cloudBundle agent c store now = Ok v ->
  exists ledger st n, loadCapabilityState (JStr (configDir +:+ "/capability.state.json")) store = Ok ledger /\
    verifyCapability (get request "capability") (JObj (trust_fields control))
      (JObj [("audience", JObj [("agent_id", agent); ("device_id", get control "device_id")])])
      (Some (capability_state ledger agent)) now = Ok (v, st) /\
    evaluateControlBundle cloudBundle JUndefined JUndefined JUndefined (capability_id v.1) = ControlBundle.Allowed n /\
    scopeAllows (scope_js (scope v.1)) (scope_request c) = Ok true.
Proof.
  unfold check_capability. intros H. apply bind_ok in H as (ledger & Hl%errors_as_ok & H). apply bind_ok in H as ([v' st] & Hv%errors_as_ok & H).
  apply bind_ok in H as (u & (n & Hn)%bundle_allows_ok & H). apply bind_ok in H as (ok & Ho%errors_as_ok & H).
  destruct ok; [|done]. injection H as <-. by exists ledger, st, n.
Qed.

Lemma synchronize_any {A} config control (p : async A) Q : ensures seen p Q -> ensures seen (abind (synchronize config control) (fun _ => p)) Q.
Proof. intros H. by apply ensures_any. Qed.

Lemma cloud_ensures request config identity c :
  ensures seen (check_cloud configDir request config identity c) (cloud_permits request config identity c).
Proof.
  unfold check_cloud. cbv zeta. destruct (truthy (get config "control_v2")) eqn:Ev; cbn [negb]; [|by apply ensures_return].
  apply synchronize_any. set (control := get config "control_v2").
  eapply ensures_abind; [apply (ensures_ask _ _ (fun r => ev (ReadHead (get control "state_path")) r ∈ T)); auto|]. intros disk Hd.
  eapply (ensures_abind _ _ _ (fun d => loadControlBundleState disk = Ok d)); [apply ensures_sync; intros d; apply errors_as_ok|]. intros durable Hdur.
  eapply ensures_abind; [apply (ensures_ask _ _ (fun r => ev Now r ∈ T)); auto|]. intros now1 Hn1.
  eapply (ensures_abind _ _ _ (fun b => active_bundle_of control durable now1 = Ok b)); [by apply ensures_sync|]. intros b Hb.
  eapply (ensures_abind _ _ _ (fun _ => exists n, evaluateControlBundle b (get control "organization_id") (get control "device_id")
                                                    (get identity "id") JUndefined = ControlBundle.Allowed n));
    [apply ensures_sync; intros u; apply bundle_allows_ok|]. intros _ [n1 Hallow].
  eapply (ensures_abind _ _ _ (fun _ => policyScopeAllows b (scope_request c) = true)).
  { apply ensures_sync. intros u. by destruct (policyScopeAllows b (scope_request c)). }
  intros _ Hscope. apply ensures_any. intros _.
  eapply ensures_abind; [apply (ensures_ask _ _ (fun r => ev ReadLedger r ∈ T)); auto|]. intros store Hst.
  eapply ensures_abind; [apply (ensures_ask _ _ (fun r => ev Now r ∈ T)); auto|]. intros now2 Hn2.
  eapply (ensures_abind _ _ _ (fun v => check_capability configDir request control b (get identity "id") c store now2 = Ok v)); [by apply ensures_sync|].
  intros v (ledger & st & n2 & Hl & Hv & Hc & Hs)%capability_checked. apply ensures_return.
  exists disk, durable, now1, store, ledger, now2, st, n1, n2. split_and!; done.
Qed.

Lemma session_ensures token : ensures seen (loadSession token) (session_read token).
Proof.
  unfold loadSession. destruct token as [ | | | |t| | | | | ]; try by apply ensures_return.
  destruct (String.eqb t "") eqn:Et; [apply ensures_return; cbn; by rewrite Et|].
  eapply ensures_abind; [apply (ensures_ask _ _ (fun r => ev (LoadSession (sha256 t)) r ∈ T)); auto|]. intros r Hr.
  intros tr a He Ha. pose proof (attempted_ensures SessionUnavailable r tr a He Ha) as ->. cbn. by rewrite Et.
Qed.

Lemma policy_ensures request config identity state requestId payload c commit :
  ev LoadState (Some state) ∈ T ->
  ensures seen (check_policy real home working request config identity state requestId payload c commit)
    (fun x => policy_permits request config identity c /\ expandHome home working (get (get config "signing") "key") = Ok (snd x)).
Proof.
  intros Hstate. unfold check_policy. eapply ensures_abind; [apply session_ensures|]. intros session Hs.
  eapply ensures_abind; [apply (ensures_ask _ _ (fun r => ev Now r ∈ T)); auto|]. intros now Hn.
  eapply (ensures_abind _ _ _ (fun valid => validateSession session (get request "session") (get state "generation") (get identity "id") now = Ok valid));
    [apply ensures_sync; intros v; apply errors_as_ok|]. intros valid Hv.
  eapply (ensures_abind _ _ _ (fun d => evaluateAgentRequest real (policy_context config c valid (get state "revoked")) identity = Ok d));
    [apply ensures_sync; intros d; apply errors_as_ok|]. intros decision Hd.
  eapply (ensures_abind _ _ _ (fun k => expandHome home working (get (get config "signing") "key") = Ok k));
    [apply ensures_sync; intros k; apply errors_as_ok|]. intros key Hk.
  destruct decision as [op|reason]; [|apply ensures_any; intros; apply ensures_throw].
  apply ensures_return. split; [|done]. exists state, session, now, valid, op. done.
Qed.

Lemma unchanged_ensures base payload c :
  ensures seen (check_unchanged base payload c)
    (fun _ => context_read (JStr (g_cwd c)) c /\ exists commit, commit_matches payload (g_cwd c) commit).
Proof.
  unfold check_unchanged. eapply ensures_abind; [apply context_ensures|]. intros final Hf.
  case_bool_decide as E; cbn [negb]; [|apply ensures_any; intros; apply ensures_throw]. subst final.
  eapply (ensures_abind _ _ _ (fun commit => commit_matches payload (g_cwd c) commit)).
  - apply ensures_catch; [apply commit_ensures|]. intros e. apply ensures_any. intros. apply ensures_throw.
  - intros commit Hc. apply ensures_return. eauto.
Qed.

Lemma reserve_ensures o identity requestId :
  ensures seen (reserve o (get identity "id") requestId) (fun _ => reserved identity requestId o).
Proof.
  unfold reserve. destruct o as [[b v]|]; [|by apply ensures_return].
  eapply ensures_abind; [apply (ensures_ask _ _ (fun r => ev (Reserve (signed_js v.1 v.2) (get identity "id") (JStr requestId)) r ∈ T)); auto|].
  intros r Hr. eapply (ensures_abind _ _ _ (fun b => r = Ok b)); [apply ensures_sync; intros x; apply errors_as_ok|].
  intros x ->. apply ensures_return. by exists x.
Qed.

(** What is known of a request that reaches the transaction. *)
Definition authorized (request config : jsval) (requestId payload : string) (a : Authorized) : Prop :=
  let identity := a_identity a in
  let c := a_context a in
  authenticated request config identity /\ control_permits config identity /\ context_read (get request "cwd") c /\
  commit_matches payload (g_cwd c) (a_commit a) /\ cloud_permits request config identity c (a_cloud a) /\
  policy_permits request config identity c /\ context_read (JStr (g_cwd c)) c /\ reserved identity requestId (a_cloud a) /\
  exists key hs, expandHome home working (get (get config "signing") "key") = Ok key /\ NodePath.isAbsolute key = true /\
    Forall (fun h => h ∈ HASHES) hs /\ a_args a = (["-Y"; "sign"; "-n"; "git"; "-f"; key] ++ hash_options hs)%list.

Lemma authorize_ensures request config requestId payload :
  ensures seen (authorize_request real home working configDir request config requestId payload) (authorized request config requestId payload).
Proof.
  unfold authorize_request. eapply ensures_abind; [apply authenticate_ensures|]. intros identity Hi.
  eapply ensures_abind; [apply check_control_ensures|]. intros ? Hc.
  eapply ensures_abind; [apply (ensures_ask _ _ (fun r => ev LoadState r ∈ T)); auto|]. intros r Hr.
  eapply ensures_abind; [apply attempted_ensures|]. intros state ->.
  eapply ensures_abind; [apply context_ensures|]. intros c Hcontext. eapply ensures_abind; [apply commit_ensures|]. intros commit Hcommit.
  eapply ensures_abind; [apply cloud_ensures|]. intros cloud Hcloud.
  eapply ensures_abind; [by apply policy_ensures|]. intros [base key] [Hpolicy Hkey]. cbn [fst snd] in *.
  eapply ensures_abind; [apply unchanged_ensures|]. intros ? [Hagain _].
  eapply ensures_abind; [apply reserve_ensures|]. intros ? Hres.
  eapply (ensures_abind _ _ _ (fun args => sanitizeSignArgs (get request "sign_args") key = Ok args));
    [apply ensures_sync; intros x; apply errors_as_ok|]. intros args (Habs & hs & Hhs & Hargs)%sanitized.
  apply ensures_return. split_and!; try done. by exists key, hs.
Qed.
End Facts.

(** ** Traces *)

Section Traces.
Context `{HParse : DateParse} `{HSha : Sha256} `{HKeys : KeyObjects} `{HRead : Base64Reader} `{HNumber : NumberText}
  `{HHosts : HostObjects} `{HHooks : Hooks}.
Variables (real : jsval -> option string) (home working : string) (process : Z) (configDir : string) (expectedConfigDigest : option string).

Definition is_signer (e : Effect) : bool := match e with RunSigner _ _ _ => true | _ => false end.
Notation silent := (avoids (resp := resp) is_signer).
Notation before_signer t := (Forall (fun x : event => is_signer (projT1 x) = false) t).

Lemma before_not t (x : event) : before_signer t -> x ∈ t -> is_signer (projT1 x) = true -> False.
Proof. intros Hf Hx Hs. rewrite Forall_forall in Hf. pose proof (Hf x Hx) as Hq. cbv beta in Hq. congruence. Qed.

(** A call of the signer comes after the parts that do not call it. *)
Lemma signer_after {A B} (p : async A) (f : A -> async B) t r (x : event) :
  silent p -> runs (abind p f) t r -> x ∈ t -> is_signer (projT1 x) = true ->
  exists t1 t2 a, t = (t1 ++ t2)%list /\ runs p t1 (Ok a) /\ runs (f a) t2 r /\ x ∈ t2 /\ before_signer t1.
Proof.
  intros Hp [(e & He & _)|(t1 & t2 & a & -> & H1 & H2)]%runs_abind Hx Hs.
  - by destruct (before_not _ _ (avoids_runs _ _ _ _ Hp He) Hx).
  - pose proof (avoids_runs _ _ _ _ Hp H1) as Hf. exists t1, t2, a. split_and!; try done.
    apply elem_of_app in Hx as [Hx|Hx]; [by destruct (before_not _ _ Hf Hx)|done].
Qed.

Lemma no_signer {A} (p : async A) t r (x : event) : silent p -> runs p t r -> x ∈ t -> is_signer (projT1 x) = true -> False.
Proof. intros Hp Hr. exact (before_not _ _ (avoids_runs _ _ _ _ Hp Hr)). Qed.

(** The signer of a transaction is called with what the request was given. *)
Lemma lifted_calls {A} args payload provider (p : Program.prog AuditTransaction.resp A) t a args' payload' provider' s :
  runs (lifted args payload provider p) t a -> ev (RunSigner args' payload' provider') s ∈ t ->
  args' = args /\ payload' = payload /\ provider' = provider.
Proof.
  revert t. induction p as [b|e k IH]; intros t.
  - intros [-> _] H. by apply elem_of_nil in H.
  - intros Hr Hx. cbn [lifted] in Hr. apply runs_pbind in Hr as (t1 & t2 & b & -> & H1 & H2).
    apply elem_of_app in Hx as [Hx|Hx]; [|exact (IH b t2 H2 Hx)].
    destruct e; cbn [perform runs] in H1; destruct H1 as (r & t' & -> & -> & _); apply list_elem_of_singleton in Hx; try (by injection Hx).
Qed.

Ltac silence :=
  repeat first
    [ apply avoids_abind; [|intros ?] | apply avoids_catch; [|intros ?] | (split; [reflexivity|intros ?; exact I]) | exact I
    | match goal with
      | |- avoids _ (if ?b then _ else _) => destruct b
      | |- avoids _ (match ?v with _ => _ end) => destruct v
      | |- avoids _ (let '(_, _) := ?p in _) => destruct p
      end ].

Lemma silent_ask e : is_signer e = false -> silent (ask e : async _).
Proof. intros H. by split. Qed.

Lemma silent_git cwd args o : silent (git cwd args o).
Proof. unfold git. silence. Qed.

Lemma silent_audited e : silent (audited e).
Proof. unfold audited. silence. Qed.

Hint Resolve silent_git silent_audited : core.

Lemma silent_context v : silent (trustedGitContext v).
Proof. unfold trustedGitContext, attempted. silence; auto. Qed.

Lemma silent_commit p c : silent (validateCommitPayload p c).
Proof. unfold validateCommitPayload, readMergeHeads. silence; auto. Qed.

Lemma silent_config : silent (loaded_config expectedConfigDigest).
Proof. unfold loaded_config, attempted. silence. Qed.

Lemma silent_open : silent (openTransaction process configDir).
Proof. unfold openTransaction. silence. Qed.

Lemma silent_control config i r p : silent (check_control config i r p).
Proof. unfold check_control, load_control. cbv zeta. silence; auto. Qed.

Lemma silent_cloud request config i c : silent (check_cloud configDir request config i c).
Proof. unfold check_cloud, synchronize. cbv zeta. silence. Qed.

Lemma silent_policy request config i s r p c k : silent (check_policy real home working request config i s r p c k).
Proof. unfold check_policy, loadSession, attempted. cbv zeta. silence; auto. Qed.

Lemma silent_authorize request config requestId payload :
  silent (authorize_request real home working configDir request config requestId payload).
Proof.
  unfold authorize_request. apply avoids_abind; [unfold authenticate; silence|intros i].
  apply avoids_abind; [apply silent_control|intros _]. apply avoids_abind; [by apply silent_ask|intros s].
  apply avoids_abind; [unfold attempted; silence|intros state]. apply avoids_abind; [apply silent_context|intros c].
  apply avoids_abind; [apply silent_commit|intros commit]. apply avoids_abind; [apply silent_cloud|intros cloud].
  apply avoids_abind; [apply silent_policy|intros checked]. apply avoids_abind.
  { unfold check_unchanged. apply avoids_abind; [apply silent_context|intros final]. destruct (negb _); [silence; auto|].
    apply avoids_abind; [|by intros]. apply avoids_catch; [apply silent_commit|]. intros e. silence; auto. }
  intros _. apply avoids_abind; [unfold reserve; silence|intros _]. silence.
Qed.

(** ** The signer and the response *)

Notation authorized := (authorized real home working configDir).
Notation processRequest := (processRequest real home working process configDir expectedConfigDigest).
Notation sign_operation := (sign_operation real home working process configDir expectedConfigDigest).

Definition config_loaded (T : list event) (config : jsval) : Prop :=
  ev LoadConfig (Some config) ∈ T /\ forall d, expectedConfigDigest = Some d -> digestConfig config = d.

(** The outcome that the transactions had for the request. *)
Definition outcome_found (T : list event) (request : jsval) (requestId : string) (o : option Outcome) : Prop :=
  exists file, ev (Tx ReadState) file ∈ T /\
    getOutcome (JStr requestId) (JObj [("requestDigest", JStr (requestDigest request))]) file = Ok o.

(** A request that may be signed, by what happened in [T]. *)
Definition admitted (T : list event) (request : jsval) (requestId payload : string) (config : jsval) (a : Authorized) : Prop :=
  get request "request_id" = JStr requestId /\ re_test Capability.UUID requestId = true /\
  decodePayload (get request "payload_base64") = Ok payload /\ config_loaded T config /\ outcome_found T request requestId None /\
  authorized T request config requestId payload a.

Lemma config_ensures T : ensures (fun x => x ∈ T) (loaded_config expectedConfigDigest) (config_loaded T).
Proof.
  unfold loaded_config. eapply ensures_abind; [apply (ensures_ask _ _ (fun r => ev LoadConfig r ∈ T)); auto|]. intros r Hr.
  eapply ensures_abind; [apply attempted_ensures|]. intros config ->.
  eapply (ensures_abind _ _ _ (fun _ => forall d, expectedConfigDigest = Some d -> digestConfig config = d)).
  { apply ensures_sync. intros []. destruct expectedConfigDigest as [d|]; [|done]. destruct (String.eqb_spec (digestConfig config) d); [|done].
    by intros _ ? [= <-]. }
  intros ? Hd. apply ensures_any. intros old. destruct old; [apply ensures_throw|by apply ensures_return].
Qed.

Lemma ensures_on {A} (p : async A) (P : list event -> A -> Prop) t a :
  (forall T, ensures (fun x => x ∈ T) p (P T)) -> runs p t (Ok a) -> forall T, t ⊆ T -> P T a.
Proof. intros H Hr T Ht. apply (H T t a); [|done]. apply Forall_forall. exact Ht. Qed.

Definition requested_id (request : jsval) : result exn string :=
  match get request "request_id" with
  | JStr id => if re_test Capability.UUID id then Ok id else Throw RequestIdRequired
  | _ => Throw RequestIdRequired
  end.

Lemma requested_id_ok request id : requested_id request = Ok id -> get request "request_id" = JStr id /\ re_test Capability.UUID id = true.
Proof. unfold requested_id. destruct (get request "request_id"); try done. destruct (re_test _ _) eqn:E; [|done]. by intros [= <-]. Qed.

(** The parts of [sign_operation] before the existing outcome is looked at. *)
Definition prepared (t : list event) (request : jsval) (requestId payload : string) (config : jsval) (o : option Outcome) : Prop :=
  get request "request_id" = JStr requestId /\ re_test Capability.UUID requestId = true /\
  decodePayload (get request "payload_base64") = Ok payload /\ config_loaded t config /\ outcome_found t request requestId o.

(** What [sign_operation] does once it is prepared. *)
Definition decide (request : jsval) (x : string * string * jsval * AuditTransaction.Transaction * option Outcome) : async Response :=
  let '(requestId, payload, config, t, existing) := x in
  match existing with
  | Some o => answer_existing request config requestId o
  | None => await a := authorize_request real home working configDir request config requestId payload in
            sign_request request config requestId payload t a
  end.

Definition prepare (request : jsval) : async (string * string * jsval * AuditTransaction.Transaction * option Outcome) :=
  await requestId := sync (requested_id request) in
  await payload := sync (errors_as Check (decodePayload (get request "payload_base64"))) in
  await config := loaded_config expectedConfigDigest in
  await t := openTransaction process configDir in
  await file := ask (Tx ReadState) in
  await existing := sync (errors_as Transaction
    (getOutcome (JStr requestId) (JObj [("requestDigest", JStr (requestDigest request))]) file)) in
  return_ (requestId, payload, config, t, existing).

Lemma pbind_assoc {A B C} (p : Program.prog resp A) (f : A -> Program.prog resp B) (g : B -> Program.prog resp C) t c :
  runs (pbind (pbind p f) g) t c <-> runs (pbind p (fun a => pbind (f a) g)) t c.
Proof.
  revert t. induction p as [a|e k IH]; intros t; [done|]. cbn [pbind runs].
  split; intros (r & t' & -> & H); exists r, t'; (split; [done|]); by apply IH.
Qed.

Lemma abind_assoc {A B C} (p : async A) (f : A -> async B) (g : B -> async C) t c :
  runs (abind (abind p f) g) t c <-> runs (abind p (fun a => abind (f a) g)) t c.
Proof.
  unfold abind. rewrite pbind_assoc, (runs_pbind p), (runs_pbind p).
  split; intros (t1 & t2 & r & -> & H1 & H2); exists t1, t2, r; (split_and!; [done|done|]); by destruct r.
Qed.

Lemma runs_abind_mono {A B} (p : async A) (f g : A -> async B) :
  (forall a t r, runs (f a) t r -> runs (g a) t r) -> forall t r, runs (abind p f) t r -> runs (abind p g) t r.
Proof.
  intros H t r. rewrite !runs_abind. intros [?|(t1 & t2 & a & -> & H1 & H2)]; [by left|]. right. exists t1, t2, a. eauto.
Qed.

Lemma sign_operation_split request t r : runs (sign_operation request) t r -> runs (abind (prepare request) (decide request)) t r.
Proof.
  unfold prepare. intros H. apply abind_assoc. revert t r H. apply runs_abind_mono. intros requestId t r H.
  apply abind_assoc. revert t r H. apply runs_abind_mono. intros payload t r H.
  apply abind_assoc. revert t r H. apply runs_abind_mono. intros config t r H.
  apply abind_assoc. revert t r H. apply runs_abind_mono. intros tx t r H.
  apply abind_assoc. revert t r H. apply runs_abind_mono. intros file t r H.
  apply abind_assoc. exact H.
Qed.

Lemma prepare_ensures request T :
  ensures (fun x => x ∈ T) (prepare request) (fun '(requestId, payload, config, _, o) => prepared T request requestId payload config o).
Proof.
  unfold prepare. eapply (ensures_abind _ _ _ (fun id => requested_id request = Ok id)); [by apply ensures_sync|]. intros id [Hid Hu]%requested_id_ok.
  eapply (ensures_abind _ _ _ (fun p => decodePayload (get request "payload_base64") = Ok p)); [apply ensures_sync; intros p; apply errors_as_ok|].
  intros payload Hp. eapply ensures_abind; [apply config_ensures|]. intros config Hc. apply ensures_any. intros tx.
  eapply ensures_abind; [apply (ensures_ask _ _ (fun r => ev (Tx ReadState) r ∈ T)); auto|]. intros file Hf.
  eapply (ensures_abind _ _ _ (fun o => getOutcome (JStr id) (JObj [("requestDigest", JStr (requestDigest request))]) file = Ok o));
    [apply ensures_sync; intros o; apply errors_as_ok|]. intros o Ho. apply ensures_return. split_and!; try done. by exists file.
Qed.

Lemma silent_prepare request : silent (prepare request).
Proof.
  unfold prepare. apply avoids_abind; [exact I|intros id]. apply avoids_abind; [exact I|intros p].
  apply avoids_abind; [apply silent_config|intros c]. apply avoids_abind; [apply silent_open|intros t].
  apply avoids_abind; [by apply silent_ask|intros f]. by apply avoids_abind.
Qed.

Lemma process_sign request t r :
  runs (processRequest request) t r ->
  runs (abind (prepare request) (decide request)) t r \/
  before_signer t /\ forall id sig replayed, r <> Ok (Signature id sig replayed).
Proof.
  unfold processRequest. destruct (is_reference request); cbn [negb]; [|by intros [-> ->]; right].
  destruct (is_str (get request "operation") "ping").
  - intros H. right. split; [|by intros id sig b ->; apply runs_abind in H as [(e & _ & [=])|(t1 & t2 & c & _ & _ & [_ [=]])]].
    eapply avoids_runs; [|exact H]. apply avoids_abind; [by apply silent_ask|]. by intros.
  - destruct (is_str (get request "operation") "git.commit.sign"); cbn [negb]; [|by intros [-> ->]; right].
    intros H. left. by apply sign_operation_split.
Qed.

Lemma silent_existing request config id o : silent (answer_existing request config id o).
Proof. unfold answer_existing. silence. Qed.

Lemma admitted_of t1 t2 t3 request requestId payload config tx a :
  runs (prepare request) t1 (Ok (requestId, payload, config, tx, None)) ->
  runs (authorize_request real home working configDir request config requestId payload) t2 (Ok a) ->
  t1 ⊆ t3 -> t2 ⊆ t3 -> admitted t3 request requestId payload config a.
Proof.
  intros H1 H2 Hs1 Hs2. pose proof (ensures_on _ _ _ _ (prepare_ensures request) H1 t3 Hs1) as (? & ? & ? & ? & ?).
  pose proof (ensures_on _ _ _ _ (fun T => authorize_ensures real home working configDir T request config requestId payload) H2 t3 Hs2). done.
Qed.

Lemma signer_admitted request t r args payload provider s :
  runs (processRequest request) t r -> ev (RunSigner args payload provider) s ∈ t ->
  exists T rest requestId config a, t = (T ++ rest)%list /\ before_signer T /\ admitted T request requestId payload config a /\
    args = a_args a /\ provider = provider_of config.
Proof.
  intros [H|[Hb _]]%process_sign Hx; [|by destruct (before_not _ _ Hb Hx)].
  destruct (signer_after _ _ _ _ _ (silent_prepare request) H Hx eq_refl) as (t1 & t2 & a1 & -> & H1 & H2 & Hx2 & Hb1).
  destruct a1 as [[[[requestId payload'] config] tx] [o|]]; [by destruct (no_signer _ _ _ _ (silent_existing _ _ _ _) H2 Hx2)|].
  cbn [decide] in H2.
  destruct (signer_after _ _ _ _ _ (silent_authorize request config requestId payload') H2 Hx2 eq_refl) as (t3 & t4 & a & -> & H3 & H4 & Hx4 & Hb3).
  assert (args = a_args a /\ payload = payload' /\ provider = provider_of config) as (-> & -> & ->).
  { unfold sign_request in H4. apply runs_abind in H4 as [(e & H4 & _)|(t5 & t6 & o & -> & H5 & H6)].
    - apply runs_pbind in H4 as (t5 & t6 & r' & -> & H5 & H6). apply elem_of_app in Hx4 as [Hx4|Hx4]; [exact (lifted_calls _ _ _ _ _ _ _ _ _ _ H5 Hx4)|].
      destruct H6 as [-> _]. by apply elem_of_nil in Hx4.
    - apply elem_of_app in Hx4 as [Hx4|Hx4].
      + apply runs_pbind in H5 as (t7 & t8 & r' & -> & H7 & [-> _]). rewrite app_nil_r in Hx4. exact (lifted_calls _ _ _ _ _ _ _ _ _ _ H7 Hx4).
      + assert (t6 = []) as ->; [|by apply elem_of_nil in Hx4]. destruct (o_signature o); [|by destruct H6]. destruct (is_str _ _); by destruct H6. }
  exists (t1 ++ t3)%list, t4, requestId, config, a. split_and!; [by rewrite app_assoc|by apply Forall_app| |done|done].
  eapply admitted_of; [done|done|set_solver|set_solver].
Qed.

(** ** Properties *)

(** C1: the signer is called only after the request passed the checks of its
    configuration, on what the effects before the call answered.
    Always: the request is signed by an enrolled agent within a minute of its
    time under a fresh nonce; no outcome is recorded under its id; the payload is
    the commit of the index of the repository on its heads; the local policy,
    with the session that was read, allows the repository, branch and remote that
    git named; and the arguments are the configured key with at most a choice of
    hash.
    When a digest of the configuration is expected, the configuration that was
    read has it.
    When [control_v2] is configured: the durable head was read, and its bundle
    of the second format, in force at a time that was read, allows this agent on
    the configured device, by its revocations and its scope; a capability for
    this agent and device is verified against the ledger, is not revoked by the
    bundle, has the request in its scope, and was reserved for the request.
    When only [control] is configured: a bundle of the first format was read that
    its key signed, that is timely and revokes neither everything nor this agent.
    When neither is configured, no bundle and no capability is needed. *)
Theorem signer_needs_authorization request t r args payload provider s :
  runs (processRequest request) t r -> ev (RunSigner args payload provider) s ∈ t ->
  exists T rest requestId config a, t = (T ++ rest)%list /\ before_signer T /\ admitted T request requestId payload config a /\
    args = a_args a /\ provider = provider_of config.
Proof. exact (signer_admitted request t r args payload provider s). Qed.

(** C4: a signature is answered only for an admitted request, or, marked as
    replayed, for a request that was settled before with the same digest, whose
    signature by the agent is verified again. *)
Theorem signature_needs_request request t requestId signature replayed :
  runs (processRequest request) t (Ok (Signature requestId signature replayed)) ->
  if replayed then
    exists config payload o s now identity cache, prepared t request requestId payload config (Some o) /\ ev Now now ∈ t /\
      accepted request config identity ∅ cache now /\ o_outcome o = JStr "allow" /\ o_signature o = Some s /\ signature = base64 s
  else exists payload config a, admitted t request requestId payload config a.
Proof.
  intros [H|[_ Hn]]%process_sign; [|by destruct (Hn requestId signature replayed)].
  apply runs_abind in H as [(e & _ & [=])|(t1 & t2 & [[[[id payload] config] tx] [o|]] & -> & H1 & H2)]; cbn [decide] in H2.
  - pose proof (ensures_on _ _ _ _ (prepare_ensures request) H1 (t1 ++ t2) ltac:(set_solver)) as Hp. cbv beta iota in Hp.
    unfold answer_existing in H2. apply runs_abind in H2 as [(e & _ & [=])|(t3 & t4 & now & -> & (now' & t5 & -> & [-> [= <-]]) & H4)].
    apply runs_abind in H4 as [(e & _ & [=])|(t6 & t7 & identity & -> & [-> Hi] & H7)]. symmetry in Hi. apply errors_as_ok in Hi.
    destruct (o_signature o) as [s|] eqn:Es; [|by destruct H7]. destruct (is_str (o_outcome o) "allow") eqn:Eo; [|by destruct H7].
    destruct H7 as [-> [= -> -> ->]]. apply is_str_true in Eo.
    destruct (verifyRequestIdentity request config ∅ now) as [ri cache] eqn:Ev. cbn [fst] in Hi. subst ri. apply verify_accepted in Ev.
    exists config, payload, o, s, now, identity, cache. split_and!; try done. set_solver.
  - apply runs_abind in H2 as [(e & _ & [=])|(t3 & t4 & a & -> & H3 & H4)].
    assert (replayed = false /\ id = requestId) as [-> ->].
    { unfold sign_request in H4. apply runs_abind in H4 as [(e & _ & [=])|(t5 & t6 & o & -> & _ & H6)].
      destruct (o_signature o); [|by destruct H6]. destruct (is_str _ _); [|by destruct H6]. by destruct H6 as [_ [= -> _ ->]]. }
    exists payload, config, a. eapply admitted_of; [done|done|set_solver|set_solver].
Qed.
End Traces.
