(* ===== verification/BrokerSpec.v ===== *)
(** * An example of the broker

    A broker with one agent signs a commit: the world answers as git, the
    files and the signer do, and the trace of the run witnesses what
    BrokerFacts proves of every run. *)

From stdpp Require Import base tactics sets list gmap strings.
From Stdlib Require Import Ascii.
From S2P Require Import Prelude JsValue Regex IsoTime Json Objects Crypto Program Capability FileSystem Identity AuditTransaction.
From S2P Require Import AuditTransactionFacts AuditTransactionSpec BrokerChecks Broker BrokerFacts.
Local Open Scope string_scope.
Local Open Scope js_scope.

(** ** Recorded runs *)

Section Recorded.
Context {W : Type}.
Variable handler : W -> forall e : Broker.Effect, Broker.resp e * W.

Fixpoint record {A} (p : Program.prog Broker.resp A) (w : W) : list (Program.event Broker.resp) * A :=
  match p with
  | Done a => ([], a)
  | Ask e k => let '(r, w) := handler w e in let '(t, a) := record (k r) w in (Program.ev e r :: t, a)
  end.

Lemma record_runs {A} (p : Program.prog Broker.resp A) w : runs p (fst (record p w)) (snd (record p w)).
Proof.
  revert w. induction p as [a|e k IH]; intros w; cbn [record runs]; [done|].
  destruct (handler w e) as [r w']. specialize (IH r w'). destruct (record (k r) w') as [t a]. by exists r, t.
Qed.
End Recorded.

Module BrokerSample.
#[local] Existing Instances iso_date_parse toy_sha256 Identity.Sample.key_objects Identity.Sample.reader integer_text
  Capability.Sample.hosts Capability.Sample.hooks Capability.Sample.signing_keys.

Definition request_id : string := "0b54e0c0-3f0a-4d5b-9a0e-1234567890ab".
Definition time : Z := 1700000000000.
Definition commit : Commit := mkCommit (BrokerChecks.Sample.object "a") [BrokerChecks.Sample.object "b"].
Definition payload : string := commit_text commit "A <a@b.c> 1 +0000" "A <a@b.c> 1 +0000" "A change".

Definition agent : jsval := JObj [("id", JStr "a-1"); ("name", JStr "agent"); ("public_key", JStr "pem")].
Definition config : jsval :=
  JObj [("version", JNum (NInt 4)); ("agents", JArr [agent]); ("repositories", JArr [JStr "/work/repo"]);
        ("operations", JArr [JStr "git.commit.sign"]); ("branches", JObj [("allow", JArr [JStr "agent/*"])]);
        ("remotes", JObj [("allow", JArr [JStr "*"])]); ("signing", JObj [("key", JStr "/keys/id")]);
        ("session", JObj [("required", JBool false)])].

(** The digest that the process started with. *)
Definition expected_digest : option string := Some (digestConfig config).

Definition unsigned_request : jsval :=
  JObj [("operation", JStr "git.commit.sign"); ("request_id", JStr request_id); ("payload_base64", JStr (base64 payload));
        ("cwd", JStr "/work/repo/src"); ("sign_args", JArr (map JStr ["-Y"; "sign"; "-n"; "git"; "-f"; "/tmp/key"]));
        ("agent_id", JStr "a-1"); ("timestamp_ms", JNum (NInt time)); ("nonce", JStr Identity.Sample.nonce)].
Definition request : jsval :=
  match signRequest unsigned_request (Some (private_file 119)) (JStr "pem") with Ok r => r | Throw _ => JUndefined end.

(** What git prints. *)
Definition git_output (args : list string) : option string :=
  match args with
  | ["rev-parse"; "--show-toplevel"] => Some ("/work/repo" +:+ String newline "")
  | ["branch"; "--show-current"] => Some ("agent/fix" +:+ String newline "")
  | ["write-tree"] => Some (tree commit +:+ String newline "")
  | ["rev-parse"; "--verify"; "HEAD"] => Some (BrokerChecks.Sample.object "b" +:+ String newline "")
  | ["rev-parse"; "--git-path"; "MERGE_HEAD"] => Some (".git/MERGE_HEAD" +:+ String newline "")
  | _ => None
  end.

Definition handler (w : World) (e : Broker.Effect) : Broker.resp e * World :=
  match e return Broker.resp e * World with
  | Tx e => AuditTransactionSpec.Sample.handler w e
  | RunSigner _ _ _ => (Some (mkSpawned (Some 0%Z) (Some "signature") ""), w)
  | LoadConfig => (Some config, w)
  | LoadState => (Some (JObj [("revoked", JBool false); ("generation", JNum (NInt 0))]), w)
  | LoadSession _ => (Some JNull, w)
  | OpenDirectory => (Some private_directory, Some "/home/u/.agentpass", Some private_directory, w)
  | ReadControl => (None, w)
  | ReadDeviceKey _ => (mkDeviceKeyFile None None None None, w)
  | ReadHead _ => (ControlBundleState.mkDisk (ControlBundleState.mkLocation false false None) (ControlBundleState.mkLocation false false None), w)
  | ReadLedger => (CapabilityState.mkStore false None None, w)
  | Reserve _ _ _ => (Throw CapabilityState.LOCKED, w)
  | Now => (time, w)
  | GetReplay => (∅, w)
  | SetReplay _ | SetCache _ => (tt, w)
  | GetCache => (mkControlCache 0 JNull JUndefined JUndefined, w)
  | Audit _ => (true, w)
  | Git _ args => (git_output args, w)
  | RealPath p => (Some p, w)
  | MergeHead _ _ => (None, w)
  | Sync _ => (SyncRefused, w)
  end.

Definition ran := record handler (processRequest as_str "/home/u" "/" 7 "/home/u/.agentpass" expected_digest request) empty_world.
Definition trace := fst ran.
Definition called : Program.event Broker.resp :=
  Program.ev (RunSigner ["-Y"; "sign"; "-n"; "git"; "-f"; "/keys/id"] payload (JStr "/usr/lib/ssh-keychain.dylib"))
    (Some (mkSpawned (Some 0%Z) (Some "signature") "")).
Definition is_called (e : Program.event Broker.resp) : bool := is_signer (projT1 e).

Lemma found : find is_called trace = Some called.
Proof. vm_compute. reflexivity. Qed.

Lemma answered : snd ran = Ok (Signature request_id "c2lnbmF0dXJl" false).
Proof. vm_compute. reflexivity. Qed.

Lemma trace_runs :
  runs (processRequest as_str "/home/u" "/" 7 "/home/u/.agentpass" expected_digest request) trace (Ok (Signature request_id "c2lnbmF0dXJl" false)).
Proof. rewrite <- answered. unfold trace, ran. exact (record_runs handler _ empty_world). Qed.

Lemma signer_called : called ∈ trace.
Proof. apply list_elem_of_In. exact (proj1 (find_some is_called trace found)). Qed.
End BrokerSample.

(** ** Witnesses *)

#[local] Existing Instances iso_date_parse toy_sha256 Identity.Sample.key_objects Identity.Sample.reader integer_text
  Capability.Sample.hosts Capability.Sample.hooks.

Lemma signer_needs_authorization_witness :
  exists T rest requestId config a, BrokerSample.trace = (T ++ rest)%list /\ Forall (fun x => is_signer (projT1 x) = false) T /\
    admitted as_str "/home/u" "/" "/home/u/.agentpass" BrokerSample.expected_digest T BrokerSample.request requestId BrokerSample.payload config a /\
    ["-Y"; "sign"; "-n"; "git"; "-f"; "/keys/id"] = a_args a /\ JStr "/usr/lib/ssh-keychain.dylib" = provider_of config.
Proof.
  apply (signer_needs_authorization as_str "/home/u" "/" 7 "/home/u/.agentpass" BrokerSample.expected_digest BrokerSample.request BrokerSample.trace
           (Ok (Signature BrokerSample.request_id "c2lnbmF0dXJl" false)) _ BrokerSample.payload _ (Some (mkSpawned (Some 0%Z) (Some "signature") ""))).
  - exact BrokerSample.trace_runs.
  - exact BrokerSample.signer_called.
Defined.

Lemma signature_needs_request_witness :
  exists payload config a, admitted as_str "/home/u" "/" "/home/u/.agentpass" BrokerSample.expected_digest BrokerSample.trace BrokerSample.request
    BrokerSample.request_id payload config a.
Proof.
  apply (signature_needs_request as_str "/home/u" "/" 7 "/home/u/.agentpass" BrokerSample.expected_digest BrokerSample.request BrokerSample.trace
           BrokerSample.request_id "c2lnbmF0dXJl" false).
  exact BrokerSample.trace_runs.
Defined.
