(* ===== verification/NativeAudit.v ===== *)
(** * Audit keys (lib/native-audit.mjs, lib/anchor.mjs)

    The keys that sign checkpoints of the audit log: Ed25519 keys, and keys of
    the secure enclave on P-256 in the OpenSSH format, with their signatures
    and the checkpoints of the enclave.  A signature on P-256 is a pair of
    scalars; a strict one has the smaller of the two values for its second. *)

From stdpp Require Import base tactics list strings.
From Stdlib Require Import Ascii.
From S2P Require Import Prelude JsValue Regex IsoTime Json Objects Crypto Capability BundleJson DeviceAuth AuditLog.
Local Open Scope string_scope.
Local Open Scope js_scope.

(** [crypto.createPublicKey] of the JWK of an uncompressed point of P-256;
    [None] when it throws. *)
Class P256Keys := { point_key : string -> option KeyDescription }.

(** ** Encodings *)

(** [Buffer.from(value, "base64").toString("base64") === value], with the
    bytes. *)
Definition canonical_base64 `{Base64Reader} (v : jsval) : option string :=
  match v with
  | JStr s => if re_test BASE64 s && String.eqb (base64 (base64_reader s)) s then Some (base64_reader s) else None
  | _ => None
  end.

Definition take_bytes (n : nat) (s : string) : string := String.substring 0 n s.
Definition drop_bytes (n : nat) (s : string) : string := String.substring n (String.length s - n) s.

(** [readSSHString]: the bytes of a string, and what follows it. *)
Definition readSSHString (blob : string) : option (string * string) :=
  match blob with
  | String a (String b (String c (String d rest))) =>
      let length := (((Z.of_nat (code a) * 256 + Z.of_nat (code b)) * 256 + Z.of_nat (code c)) * 256 + Z.of_nat (code d))%Z in
      if (Z.of_nat (String.length rest) <? length)%Z then None
      else Some (take_bytes (Z.to_nat length) rest, drop_bytes (Z.to_nat length) rest)
  | _ => None
  end.

(** [value.trim().split(/\s+/)]: the runs of characters that are not spaces. *)
Fixpoint words_from (word s : string) : list string :=
  match s with
  | EmptyString => if String.eqb word "" then [] else [word]
  | String c s =>
      if space c then (if String.eqb word "" then words_from "" s else word :: words_from "" s)
      else words_from (word +:+ String c "") s
  end.

Definition words (s : string) : list string := words_from "" s.

(** The integer whose big-endian bytes are given. *)
Fixpoint integer_from (acc : Z) (s : string) : Z :=
  match s with EmptyString => acc | String c s => integer_from (acc * 256 + Z.of_nat (code c)) s end.

Definition integer_of (s : string) : Z := integer_from 0 s.

(** ** Keys *)

Definition P256_ALGORITHM : string := "ecdsa-sha2-nistp256".
Definition P256_CURVE : string := "nistp256".

Record NativeKey := mkNativeKey { authorizedKey : string; key : KeyDescription; point : string }.

Section Keys.
Context `{HSha : Sha256} `{HKeys : KeyObjects} `{HRead : Base64Reader} `{HPoint : P256Keys}.

(** The bytes of the algorithm and of the curve are compared as they are: only
    ASCII bytes decode to an ASCII text. *)
Definition parseNativeAuditPublicKey (value : jsval) : option NativeKey :=
  match value with
  | JStr s =>
      match words s with
      | name :: field :: _ =>
          if negb (String.eqb name P256_ALGORITHM) then None else
          blob ← canonical_base64 (JStr field);
          '(algorithm, rest) ← readSSHString blob;
          '(curve, rest) ← readSSHString rest;
          '(point, rest) ← readSSHString rest;
          if negb (String.eqb rest "") || negb (String.eqb algorithm P256_ALGORITHM) || negb (String.eqb curve P256_CURVE)
             || negb (Nat.eqb (String.length point) 65) || negb (String.eqb (take_bytes 1 point) (String "004" ""))
          then None
          else key ← point_key point; Some (mkNativeKey (P256_ALGORITHM +:+ " " +:+ field) key point)
      | _ => None
      end
  | _ => None
  end.

Definition nativeAuditPublicKeyFingerprint (k : NativeKey) : string := "SHA256:" +:+ sha256_base64url (point k).

(** [identifyAuditPublicKey] of anchor.mjs, with the algorithms "ed25519" and
    "p256-sha256". *)
Record AuditIdentity := mkIdentity { algorithm : string; audit_public_key : string; fingerprint : string }.

Definition assertEd25519PublicKey (value : jsval) : option KeyDescription :=
  key ← public_key value;
  if String.eqb (asymmetricKeyType key) "ed25519" then Some key else None.

Definition identifyAuditPublicKey (value : jsval) : option AuditIdentity :=
  match assertEd25519PublicKey value with
  | Some key => text ← to_string value; Some (mkIdentity "ed25519" text (publicKeyFingerprint key))
  | None =>
      parsed ← parseNativeAuditPublicKey value;
      Some (mkIdentity "p256-sha256" (authorizedKey parsed) (nativeAuditPublicKeyFingerprint parsed))
  end.
End Keys.

(** ** Signatures *)

Definition P256_ORDER : string := unhex "ffffffff00000000ffffffffffffffffbce6faada7179e84f3b9cac2fc632551".
Definition P256_HALF_ORDER : string := unhex "7fffffff800000007fffffffffffffffde737d56d38bcf4279dce5617e3192a8".
Definition P256_ZERO_SCALAR : string := unhex "0000000000000000000000000000000000000000000000000000000000000000".

(** [Buffer.compare(a, b) < 0] *)
Definition bytes_below (a b : string) : bool := String.ltb a b.

Definition hasValidP256P1363Scalars (signature : string) : bool :=
  if negb (Nat.eqb (String.length signature) 64) then false else
  let r := take_bytes 32 signature in
  let s := drop_bytes 32 signature in
  bytes_below P256_ZERO_SCALAR r && bytes_below r P256_ORDER && bytes_below P256_ZERO_SCALAR s && bytes_below s P256_ORDER.

Definition isCanonicalP256P1363Signature (signature : string) : bool :=
  hasValidP256P1363Scalars signature && negb (bytes_below P256_HALF_ORDER (drop_bytes 32 signature)).

Section Signatures.
Context `{HSha : Sha256} `{HKeys : KeyObjects} `{HRead : Base64Reader} `{HPoint : P256Keys} `{HEc : EcKeys}.

(** [verifyAuditKeySignature]; an error of the verifier is a refusal. *)
Definition verifyAuditKeySignature (identity : AuditIdentity) (statement encoded : jsval) (requireLowS : bool) : bool :=
  match canonical_base64 encoded with
  | None => false
  | Some signature =>
      let text := canonicalJson statement in
      if String.eqb (algorithm identity) "p256-sha256" then
        match parseNativeAuditPublicKey (JStr (audit_public_key identity)) with
        | None => false
        | Some parsed =>
            (if requireLowS then isCanonicalP256P1363Signature signature else hasValidP256P1363Scalars signature)
            && bool_decide (verify_sha256 (key parsed) text signature = Some true)
        end
      else
        match assertEd25519PublicKey (JStr (audit_public_key identity)) with
        | None => false
        | Some key => Nat.eqb (String.length signature) 64 && bool_decide (verify_with key text signature = Some true)
        end
  end.

(** [verifyEd25519Signature] *)
Definition verifyEd25519Signature (publicKey : string) (statement encoded : jsval) : bool :=
  match canonical_base64 encoded, assertEd25519PublicKey (JStr publicKey) with
  | Some signature, Some key =>
      Nat.eqb (String.length signature) 64 && bool_decide (verify_with key (canonicalJson statement) signature = Some true)
  | _, _ => false
  end.
End Signatures.

(** ** Checkpoints of the enclave *)

Section Checkpoints.
Context `{HParse : DateParse} `{HSha : Sha256} `{HKeys : KeyObjects} `{HRead : Base64Reader} `{HPoint : P256Keys} `{HEc : EcKeys}.

Definition isHash (v : jsval) : bool := str_test HASH64 v.

(** An object of the named properties of a value. *)
Definition fields (v : jsval) (names : list string) : list (string * jsval) := map (fun k => (k, get v k)) names.

Definition native_fields (record : jsval) : list string :=
  if is_int (get record "version") 2 then (statement_fields ++ ["key_generation"; "lifecycle_head_hash"])%list else statement_fields.

(** [{ ...statement, public_key_fingerprint, signature }] *)
Definition CHECKPOINT_PROOF : list string := ["public_key_fingerprint"; "signature"].
Definition signed_checkpoint (names : list string) (record : jsval) : list (string * jsval) :=
  fields record (names ++ CHECKPOINT_PROOF)%list.

Definition hashCanonical (v : jsval) : string := sha256 (canonicalJson v).

(** [verifyNativeCheckpointRecord] with the text of a key; [previous] is
    [undefined] when it is not given. *)
Definition verifyNativeCheckpointRecord (record : jsval) (publicKey : string) (previous : jsval) : result reason jsval :=
  throw_if negb (truthy record) || negb (is_object record) with invalid_record ;;
  parsed ← of_option public_key_invalid (parseNativeAuditPublicKey (JStr publicKey));
  let statement := fields record (native_fields record) in
  throw_if negb (is_int (get record "version") 1 || is_int (get record "version") 2) || negb (dated (get record "created_at"))
    with invalid_statement ;;
  throw_if negb (integer_in 0 MAX_SAFE_INTEGER (get record "entries")) || negb (isHash (get record "head_hash"))
           || negb (isHash (get record "previous_checkpoint_hash")) with invalid_statement ;;
  throw_if is_int (get record "version") 2
           && (negb (integer_in 1 MAX_SAFE_INTEGER (get record "key_generation")) || negb (isHash (get record "lifecycle_head_hash")))
    with invalid_statement ;;
  throw_if negb (is_undefined previous) && negb (bool_decide (get record "previous_checkpoint_hash" = previous))
    with checkpoint_chain_invalid ;;
  throw_if negb (is_str (get record "public_key_fingerprint") (nativeAuditPublicKeyFingerprint parsed)) with public_key_mismatch ;;
  signature ← of_option signature_encoding_invalid (canonical_base64 (get record "signature"));
  throw_if negb (Nat.eqb (String.length signature) 64
                 && bool_decide (verify_sha256 (key parsed) (canonicalJson (JObj statement)) signature = Some true))
    with signature_invalid ;;
  let copy := signed_checkpoint (native_fields record) record in
  throw_if negb (is_str (get record "checkpoint_hash") (hashCanonical (JObj copy))) with checkpoint_hash_invalid ;;
  Ok (JObj (copy ++ [("checkpoint_hash", get record "checkpoint_hash")])%list).

(** [verifyCheckpointRecord] of lib/audit.mjs, which compares the previous
    hash only when it is given, and what it returns. *)
Definition verify_ed25519_checkpoint (record publicKey previous : jsval) : result reason jsval :=
  _ ← verifyCheckpointRecord record publicKey (if is_undefined previous then get record "previous_checkpoint_hash" else previous);
  Ok (JObj (signed_checkpoint statement_fields record ++ [("checkpoint_hash", get record "checkpoint_hash")])%list).
End Checkpoints.

(** ** Lemmas: scalars *)

Lemma integer_from_split s : forall acc, integer_from acc s = (acc * 256 ^ Z.of_nat (String.length s) + integer_of s)%Z.
Proof.
  induction s as [|c s IH]; intros acc; [unfold integer_of; cbn; lia|]. unfold integer_of. cbn [integer_from String.length].
  rewrite !IH, Nat2Z.inj_succ, Z.pow_succ_r by lia. lia.
Qed.

Lemma integer_cons c s : integer_of (String c s) = (Z.of_nat (code c) * 256 ^ Z.of_nat (String.length s) + integer_of s)%Z.
Proof. unfold integer_of at 1. cbn [integer_from]. by rewrite integer_from_split. Qed.

Lemma integer_bounds s : (0 <= integer_of s < 256 ^ Z.of_nat (String.length s))%Z.
Proof.
  induction s as [|c s IH]; [unfold integer_of; cbn; lia|]. rewrite integer_cons. cbn [String.length].
  rewrite Nat2Z.inj_succ, Z.pow_succ_r by lia. pose proof (nat_ascii_bounded c). unfold code. nia.
Qed.

(** Bytes of one length compare as the integers that they write. *)
Lemma bytes_below_spec a : forall b, String.length a = String.length b -> bytes_below a b = true <-> (integer_of a < integer_of b)%Z.
Proof.
  induction a as [|c a IH]; intros [|d b] Hl; try done. cbn [String.length] in Hl.
  apply Nat.succ_inj in Hl. specialize (IH b Hl). rewrite !integer_cons, Hl.
  pose proof (integer_bounds a) as Ha. pose proof (integer_bounds b) as Hb. rewrite Hl in Ha.
  assert (forall x, Z.of_nat (code x) = Z.of_N (N_of_ascii x)) as Hc by (intros x; unfold code, nat_of_ascii; lia). rewrite !Hc.
  unfold bytes_below, String.ltb in *. cbn [String.compare]. unfold Ascii.compare.
  destruct (N.compare_spec (N_of_ascii c) (N_of_ascii d)) as [He|Hlt|Hgt].
  - rewrite IH, He. lia.
  - split; [intros _; nia|done].
  - split; [done|nia].
Qed.

(** The two scalars of a signature. *)
Definition scalar_r (signature : string) : Z := integer_of (take_bytes 32 signature).
Definition scalar_s (signature : string) : Z := integer_of (drop_bytes 32 signature).
Definition ORDER : Z := integer_of P256_ORDER.

Lemma substring_length n : forall m s, n + m <= String.length s -> String.length (String.substring n m s) = m.
Proof.
  induction n as [|n IH]; intros m s; revert m.
  - induction s as [|c s IHs]; intros [|m] H; cbn in *; try lia. f_equal. apply IHs. lia.
  - destruct s as [|c s]; intros m H; cbn in *; [lia|]. apply IH. lia.
Qed.

(** Two signatures of the same length with a common first scalar, whose second
    scalars are each other's negations. *)
Definition negated (a b : string) : Prop := scalar_r b = scalar_r a /\ scalar_s b = (ORDER - scalar_s a)%Z.

Lemma valid_scalars signature :
  hasValidP256P1363Scalars signature = true <->
  String.length signature = 64 /\ (0 < scalar_r signature < ORDER)%Z /\ (0 < scalar_s signature < ORDER)%Z.
Proof.
  unfold hasValidP256P1363Scalars. destruct (Nat.eqb_spec (String.length signature) 64) as [Hl|]; cbn [negb]; [|naive_solver].
  assert (String.length (take_bytes 32 signature) = 32 /\ String.length (drop_bytes 32 signature) = 32) as [Hr Hs].
  { unfold take_bytes, drop_bytes. rewrite Hl. split; apply substring_length; lia. }
  rewrite !andb_true_iff, !bytes_below_spec by (rewrite ?Hr, ?Hs; reflexivity).
  unfold scalar_r, scalar_s, ORDER. change (integer_of P256_ZERO_SCALAR) with 0%Z. tauto.
Qed.

Lemma canonical_scalars signature :
  isCanonicalP256P1363Signature signature = true <->
  String.length signature = 64 /\ (0 < scalar_r signature < ORDER)%Z /\ (0 < scalar_s signature <= ORDER / 2)%Z.
Proof.
  unfold isCanonicalP256P1363Signature. rewrite andb_true_iff, valid_scalars, negb_true_iff.
  assert (integer_of P256_HALF_ORDER = ORDER / 2)%Z as Hh by (vm_compute; reflexivity).
  assert (0 < ORDER)%Z as Ho by (vm_compute; reflexivity). assert (ORDER / 2 < ORDER)%Z by (apply Z.div_lt; lia).
  assert (String.length signature = 64 -> bytes_below P256_HALF_ORDER (drop_bytes 32 signature) = false <-> (scalar_s signature <= ORDER / 2)%Z) as Hb.
  { intros Hl. rewrite <- not_true_iff_false, bytes_below_spec, Hh; [unfold scalar_s; lia|].
    unfold drop_bytes. rewrite substring_length; [by rewrite Hl|lia]. }
  clear Hh. generalize dependent (bytes_below P256_HALF_ORDER (drop_bytes 32 signature)). intros high Hb.
  generalize dependent (ORDER / 2)%Z. generalize dependent ORDER. intros n Hn h Hlt Hb.
  split; [intros [(Hl & ? & ?) Hc]; apply (Hb Hl) in Hc|intros (Hl & ? & ?); rewrite (Hb Hl)]; split_and!; auto; lia.
Qed.

(** C39: a P-256 signature has one accepted form.  A canonical signature is 64
    bytes whose scalars are in range, the second in the lower half; a valid
    signature or its negation is canonical, and never both. *)
Theorem canonical_signature_unique :
  (forall signature, isCanonicalP256P1363Signature signature = true <->
    String.length signature = 64 /\ (0 < scalar_r signature < ORDER)%Z /\ (0 < scalar_s signature <= ORDER / 2)%Z) /\
  (forall a b, hasValidP256P1363Scalars a = true -> String.length b = 64 -> negated a b ->
    isCanonicalP256P1363Signature b = negb (isCanonicalP256P1363Signature a)).
Proof.
  split; [exact canonical_scalars|]. intros a b (Hla & Hr & Hs)%valid_scalars Hlb [Hrb Hsb].
  assert (ORDER mod 2 = 1)%Z as Ho by (vm_compute; reflexivity). pose proof (Z.div_mod ORDER 2 ltac:(lia)) as Hd. rewrite Ho in Hd.
  pose proof (canonical_scalars a) as Ha. pose proof (canonical_scalars b) as Hb. rewrite Hrb, Hsb in Hb.
  generalize dependent (ORDER / 2)%Z. generalize dependent ORDER. intros n Hr Hs Hsb _ h Hh Ha Hb.
  destruct (isCanonicalP256P1363Signature a).
  - destruct (proj1 Ha eq_refl) as (_ & _ & ?). apply not_true_iff_false. rewrite Hb. lia.
  - apply Hb. destruct (decide (scalar_s a <= h)%Z); [|split_and!; auto; lia]. enough (false = true) by done. apply Ha. split_and!; auto; lia.
Qed.

Lemma canonical_signature_unique_witness :
  let one := unhex "0000000000000000000000000000000000000000000000000000000000000001" in
  let a := one +:+ one in
  let b := one +:+ unhex "ffffffff00000000ffffffffffffffffbce6faada7179e84f3b9cac2fc632550" in
  hasValidP256P1363Scalars a = true /\ negated a b /\ isCanonicalP256P1363Signature b = negb (isCanonicalP256P1363Signature a).
Proof.
  intros one a b. assert (negated a b) as Hn by (split; vm_compute; reflexivity).
  split; [vm_compute; reflexivity|]. split; [exact Hn|].
  exact (proj2 canonical_signature_unique a b ltac:(vm_compute; reflexivity) ltac:(vm_compute; reflexivity) Hn).
Defined.

(** ** Lemmas: the text of a key *)

Definition no_spaces (s : string) : Prop := Forall (fun c => space c = false) (chars s).

Lemma words_run t : forall word rest, no_spaces t -> words_from word (t +:+ rest) = words_from (word +:+ t) rest.
Proof.
  induction t as [|c t IH]; intros word rest H; [by rewrite string_app_nil|]. apply Forall_cons in H as [Hc Ht].
  change (words_from word (String c (t +:+ rest)) = words_from (word +:+ String c t) rest). cbn [words_from]. rewrite Hc, IH by done.
  by rewrite string_app_assoc.
Qed.

Lemma words_two a b : no_spaces a -> no_spaces b -> a <> "" -> b <> "" -> words (a +:+ " " +:+ b) = [a; b].
Proof.
  intros Ha Hb Hna Hnb. unfold words. rewrite words_run by done. change ("" +:+ a) with a. change (words_from a (" " +:+ b)) with
    (if String.eqb a "" then words_from "" b else a :: words_from "" b). apply String.eqb_neq in Hna as ->. f_equal.
  rewrite <- (string_app_nil b) at 1. rewrite words_run by done. change ("" +:+ b) with b. cbn [words_from]. by apply String.eqb_neq in Hnb as ->.
Qed.

Lemma base64_no_spaces s : re_test BASE64 s = true -> no_spaces s.
Proof.
  intros H%re_test_spec. eapply Forall_impl; [exact (matches_only_chars (fun c => negb (space c)) BASE64 s ltac:(vm_compute; reflexivity) H)|].
  intros c Hc. by apply negb_true_iff.
Qed.

Section ParseAgain.
Context `{HSha : Sha256} `{HKeys : KeyObjects} `{HRead : Base64Reader} `{HPoint : P256Keys}.

(** A key that was read is read again from the text that is kept of it. *)
Lemma parse_authorized v k : parseNativeAuditPublicKey v = Some k -> parseNativeAuditPublicKey (JStr (authorizedKey k)) = Some k.
Proof.
  destruct v as [| | | |s| | | | |]; try done. unfold parseNativeAuditPublicKey at 1. destruct (words s) as [|name [|field l]]; try done.
  destruct (String.eqb name P256_ALGORITHM) eqn:En; [|done]. cbn [negb].
  destruct (canonical_base64 (JStr field)) as [blob|] eqn:Eb; [|done]. cbn [mbind option_bind]. intros H.
  assert (authorizedKey k = P256_ALGORITHM +:+ " " +:+ field) as ->.
  { do 3 apply bind_Some in H as ([? ?] & _ & H). case_match; [done|]. by apply bind_Some in H as (? & _ & [= <-]). }
  assert (words (P256_ALGORITHM +:+ " " +:+ field) = [P256_ALGORITHM; field]) as Hw.
  { apply words_two; [by repeat constructor|apply base64_no_spaces|done|].
    - cbn [canonical_base64] in Eb. destruct (re_test BASE64 field); [done|discriminate].
    - intros ->. cbn [canonical_base64] in Eb. case_match eqn:E; [|done]. injection Eb as <-. apply andb_true_iff in E as [_ E%String.eqb_eq].
      by destruct (base64_reader "") as [|? [|? [|? ?]]]. }
  unfold parseNativeAuditPublicKey. rewrite Hw. change (String.eqb P256_ALGORITHM P256_ALGORITHM) with true. cbn [negb]. rewrite Eb. exact H.
Qed.
End ParseAgain.

(** ** Keys for examples

    A key is named by its text; its signature is the digest of the name and
    the text signed, whose hexadecimal digits are 64 bytes. *)
Module Sample.
Definition ed25519 (name : string) : KeyDescription := mkKeyDescription "public" "ed25519" name name.
Definition named_key (s : string) : option KeyDescription := if String.prefix "ed:" s then Some (ed25519 s) else None.
Definition signature (der text : string) : string := @sha256 toy_sha256 (der +:+ text).
Definition checked (k : KeyDescription) (text bytes : string) : option bool := Some (String.eqb bytes (signature (spki_der k) text)).

Definition key_objects : KeyObjects := {|
  value_type := fun _ => None; object_key := fun _ => None; import_der := fun _ => None;
  import_value := fun v => match v with JStr s => named_key s | _ => None end;
  verify_with := checked |}.
Definition reader : Base64Reader := {| base64_reader := base64_bytes; base64_reader_encoded := base64_bytes_base64 |}.
Definition p256_keys : P256Keys := {| point_key := fun point => Some (mkKeyDescription "public" "ec" point point) |}.
Definition ec_keys : EcKeys := {| named_curve := fun _ => None; verify_sha256 := checked |}.
Definition signing_keys : SigningKeys := {|
  PrivateKey := string;
  import_private := fun v => match v with JStr s | JBytes s => if String.prefix "ed:" s then Some s else None | _ => None end;
  public_of := ed25519;
  sign_with := signature |}.

Fixpoint repeated (n : nat) (c : ascii) : string := match n with 0 => "" | S n => String c (repeated n c) end.
Definition ssh_string (s : string) : string :=
  (repeated 3 "000") +:+ String (ascii_of_nat (String.length s)) s.
Definition point (c : ascii) : string := String "004" (repeated 64 c).
Definition p256_text (c : ascii) : string :=
  P256_ALGORITHM +:+ " " +:+ base64 (ssh_string P256_ALGORITHM +:+ ssh_string P256_CURVE +:+ ssh_string (point c)).
#[local] Existing Instances toy_sha256 key_objects reader p256_keys ec_keys.

(** A key of the enclave is read, and its signatures are accepted. *)
Example p256_key_read :
  (point_of_key ← parseNativeAuditPublicKey (JStr (p256_text "a")); Some (NativeAudit.point point_of_key)) = Some (point "a").
Proof. vm_compute. reflexivity. Qed.

Definition p256_identity (c : ascii) : AuditIdentity :=
  default (mkIdentity "" "" "") (identifyAuditPublicKey (JStr (p256_text c))).
Definition p256_signature (c : ascii) (st : jsval) : jsval := JStr (base64 (signature (point c) (canonicalJson st))).

Example p256_signature_accepted :
  let st := JObj [("version", JNum (NInt 1))] in verifyAuditKeySignature (p256_identity "a") st (p256_signature "a" st) true = true.
Proof. vm_compute. reflexivity. Qed.
End Sample.
