(* ===== verification/AnchorKeys.v ===== *)
(** * The keys of a tenant of the anchor (lib/anchor.mjs)

    The anchor counter-signs the checkpoints of an installation's audit log.
    The key that signs them is replaced by transitions: a transition is signed
    by the old and the new key, or, when the old key is lost, by a threshold of
    the recovery keys that were pinned when the tenant was enrolled.  This file
    holds recovery policies, transitions, the anchor's receipts for them, and
    the verification of a tenant's whole history of keys. *)

From stdpp Require Import base tactics list strings.
From Stdlib Require Import Ascii.
From S2P Require Import Prelude JsValue Regex IsoTime Json Objects Crypto Capability DeviceAuth AuditLog NativeAudit.
Local Open Scope string_scope.
Local Open Scope js_scope.

(** ** Data *)

Inductive anchor_error :=
| PolicyInvalid | PolicyKeyInvalid | PolicyKeyMismatch | PolicyKeysNotUnique | PolicyHashMismatch
| TransitionEncoding | TransitionStatement | ReplacementKeyInvalid | ReplacementIdentity | PossessionProof | TransitionHash
| RecoveryNotEnrolled | RecoveryStatement | EvidenceInvalid | ApprovalOrder | ApprovalSignature | ReplacementProof
| OperationDuplicated | TransitionReceiptOrder | TransitionReceipt
| TypeFailure | OutsideModel.

#[export] Instance anchor_error_eq_dec : EqDecision anchor_error.
Proof. solve_decision. Defined.

Definition MAX_RECOVERY_AUTHORIZATION_MS : Z := 900000.
Definition MAX_RECOVERY_CLOCK_SKEW_MS : Z := 5000.

Definition SLUG : re := RSeq (one alnum) (upto (fun c => alnum c || in_chars "._-" c) 63).
Definition FINGERPRINT : re := RSeq (lit "SHA256:") (times (fun c => alnum c || in_chars "_-" c) 43).

Definition isSlug (v : jsval) : bool := str_test SLUG v.

(** [value.property] of a value that may be [null]. *)
Definition prop (v : jsval) (k : string) : result anchor_error jsval :=
  match v with JUndefined | JNull => Throw TypeFailure | _ => Ok (get v k) end.

(** [Date.parse(value)], when it is not [NaN]. *)
Definition parse_date `{DateParse} (v : jsval) : option Z := s ← to_string v; date_parse s.

(** [canonicalJson(Object.keys(value).sort()) === canonicalJson(keys)] for a
    value that is an object. *)
Definition exact_keys (v : jsval) (keys : list string) : bool :=
  is_object v && bool_decide (sort_strings (own_keys v) = keys).

(** ** Recovery policies *)

Record PolicyKey := mkPolicyKey { key_id : string; key_pem : string; key_fingerprint : string }.
Record RecoveryPolicy := mkPolicy { policy_id : string; threshold : Z; policy_keys : list PolicyKey; policy_hash : string }.

Definition policy_key_js (k : PolicyKey) : jsval :=
  JObj [("id", JStr (key_id k)); ("public_key", JStr (key_pem k)); ("fingerprint", JStr (key_fingerprint k))].

Definition policy_statement (id : string) (threshold : Z) (keys : list PolicyKey) : list (string * jsval) :=
  [("version", JNum (NInt 1)); ("policy_id", JStr id); ("threshold", JNum (NInt threshold)); ("keys", JArr (map policy_key_js keys))].

Definition policy_js (p : RecoveryPolicy) : jsval :=
  JObj (policy_statement (policy_id p) (threshold p) (policy_keys p) ++ [("policy_hash", JStr (policy_hash p))])%list.

(** [keys.sort()] by [id]. *)
Definition sort_keys (l : list PolicyKey) : list PolicyKey := map snd (sort_fields (map (fun k => (key_id k, k)) l)).

Definition find_key (id : string) (l : list PolicyKey) : option PolicyKey := snd <$> list_find (fun k => key_id k = id) l.

Section Policies.
Context `{HSha : Sha256} `{HKeys : KeyObjects}.

Definition normalize_policy_key (item : jsval) : result anchor_error PolicyKey :=
  throw_if negb (is_object item) with PolicyKeyInvalid ;;
  let expected := if is_undefined (get item "fingerprint") then ["id"; "public_key"] else ["fingerprint"; "id"; "public_key"] in
  throw_if negb (exact_keys item expected) || negb (isSlug (get item "id")) with PolicyKeyInvalid ;;
  id ← of_option PolicyKeyInvalid (as_str (get item "id"));
  key ← of_option PolicyKeyInvalid (assertEd25519PublicKey (get item "public_key"));
  throw_if negb (is_undefined (get item "fingerprint")) && negb (is_str (get item "fingerprint") (publicKeyFingerprint key))
    with PolicyKeyMismatch ;;
  Ok (mkPolicyKey id (spki_pem key) (publicKeyFingerprint key)).

(** [normalizeRecoveryPolicy] *)
Definition normalizeRecoveryPolicy (value : jsval) : result anchor_error RecoveryPolicy :=
  throw_if negb (is_object value) with PolicyInvalid ;;
  let allowed := if is_undefined (get value "policy_hash") then ["keys"; "policy_id"; "threshold"; "version"]
                 else ["keys"; "policy_hash"; "policy_id"; "threshold"; "version"] in
  throw_if negb (exact_keys value allowed) || negb (is_int (get value "version") 1) || negb (isSlug (get value "policy_id"))
    with PolicyInvalid ;;
  id ← of_option PolicyInvalid (as_str (get value "policy_id"));
  threshold ← of_option PolicyInvalid (safe_integer (get value "threshold"));
  items ← match get value "keys" with JArr l => Ok l | _ => Throw PolicyInvalid end;
  throw_if Nat.ltb (length items) 1 || Nat.ltb 16 (length items) || (threshold <? 1)%Z || (Z.of_nat (length items) <? threshold)%Z
    with PolicyInvalid ;;
  keys ← map_result normalize_policy_key items;
  let keys := sort_keys keys in
  throw_if negb (all_distinct (map key_id keys)) || negb (all_distinct (map key_fingerprint keys)) with PolicyKeysNotUnique ;;
  let hash := hashCanonical (JObj (policy_statement id threshold keys)) in
  throw_if negb (is_undefined (get value "policy_hash")) && negb (is_str (get value "policy_hash") hash) with PolicyHashMismatch ;;
  Ok (mkPolicy id threshold keys hash).

(** [createAnchorRecoveryPolicy] *)
Definition createAnchorRecoveryPolicy (policy_id threshold keys : jsval) : result anchor_error RecoveryPolicy :=
  normalizeRecoveryPolicy (JObj [("version", JNum (NInt 1)); ("policy_id", policy_id); ("threshold", threshold); ("keys", keys)]).
End Policies.

(** ** Statements *)

Definition AUTHORIZATION_FIELDS : list string :=
  ["tenant"; "installation_id"; "role"; "operation_id"; "recovery_request_id"; "recovery_policy_id"; "recovery_policy_hash";
   "from_generation"; "to_generation"; "old_key_fingerprint"; "new_key_fingerprint"; "new_public_key"; "lifecycle_head_hash";
   "created_at"; "expires_at"; "previous_transition_hash"; "previous_transition_receipt_hash"; "last_checkpoint_index";
   "last_checkpoint_hash"; "last_checkpoint_receipt_hash"; "previous_anchor_event_index"; "previous_anchor_event_hash";
   "retiring_generation_pending_checkpoint_count"].

(** [anchorRecoveryAuthorization] *)
Definition anchorRecoveryAuthorization (value : jsval) : jsval :=
  JObj (("version", JNum (NInt 3)) :: fields value AUTHORIZATION_FIELDS).

Definition BASE_FIELDS : list string :=
  ["version"; "tenant"; "operation_id"; "from_generation"; "to_generation"; "old_key_fingerprint"; "new_key_fingerprint";
   "new_public_key"; "lifecycle_head_hash"; "created_at"; "previous_transition_hash"].
Definition BOUNDARY_FIELDS : list string :=
  ["previous_transition_receipt_hash"; "last_checkpoint_index"; "last_checkpoint_hash"; "last_checkpoint_receipt_hash";
   "previous_anchor_event_index"; "previous_anchor_event_hash"; "retiring_generation_pending_checkpoint_count"].

Definition version_in (l : list Z) (v : jsval) : bool := existsb (is_int v) l.

(** What a transition's signatures are over. *)
Definition transition_statement (transition : jsval) : jsval :=
  if is_int (get transition "version") 3 then anchorRecoveryAuthorization transition
  else JObj (fields transition (BASE_FIELDS ++ if is_int (get transition "version") 2 then BOUNDARY_FIELDS else [])%list).

Definition VERSION1_KEYS : list string :=
  ["created_at"; "from_generation"; "lifecycle_head_hash"; "new_key_fingerprint"; "new_public_key"; "new_signature";
   "old_key_fingerprint"; "old_signature"; "operation_id"; "previous_transition_hash"; "tenant"; "to_generation"; "transition_hash"; "version"].
Definition VERSION2_KEYS : list string :=
  sort_strings (VERSION1_KEYS ++ ["last_checkpoint_hash"; "last_checkpoint_index"; "last_checkpoint_receipt_hash";
    "previous_anchor_event_hash"; "previous_anchor_event_index"; "previous_transition_receipt_hash";
    "retiring_generation_pending_checkpoint_count"])%list.
Definition VERSION3_KEYS : list string :=
  sort_strings (filter (fun k => k <> "old_signature") VERSION2_KEYS
    ++ ["expires_at"; "installation_id"; "recovery_evidence"; "recovery_policy_hash"; "recovery_policy_id"; "recovery_request_id"; "role"])%list.

(** [decodeKeyTransition] *)
Definition decodeKeyTransition (value : jsval) : result anchor_error jsval :=
  let expected := if is_int (get value "version") 3 then VERSION3_KEYS
                  else if is_int (get value "version") 2 then VERSION2_KEYS else VERSION1_KEYS in
  throw_if negb (exact_keys value expected) with TransitionEncoding ;; Ok value.

(** ** Transitions *)

(** A key of the tenant's history. *)
Record KeyEntry := mkEntry { identity : AuditIdentity; generation : Z; lifecycleHeadHash : jsval }.

(** The options of [verifyKeyTransition]; a recovery trust is an installation
    and its policy. *)
Record Expected := mkExpected {
  x_tenant : string; x_generation : Z; x_previousTransition : jsval; x_previousCreatedAt : jsval;
  usedFingerprints : list string; usedRecoveryRequestIds : list jsval; recoveryTrust : option (jsval * jsval);
  requireLowS : bool; x_now : option Z
}.

Section Transitions.
Context `{HParse : DateParse} `{HSha : Sha256} `{HKeys : KeyObjects} `{HRead : Base64Reader} `{HPoint : P256Keys} `{HEc : EcKeys}.

(** The last event before the transition, as the transition states it. *)
Definition boundary_valid (st : jsval) : bool :=
  isHash (get st "previous_transition_receipt_hash") && integer_in 1 MAX_SAFE_INTEGER (get st "last_checkpoint_index")
  && isHash (get st "last_checkpoint_hash") && isHash (get st "last_checkpoint_receipt_hash")
  && integer_in 1 MAX_SAFE_INTEGER (get st "previous_anchor_event_index") && isHash (get st "previous_anchor_event_hash")
  && is_int (get st "retiring_generation_pending_checkpoint_count") 0.

(** [createdAt <= Date.parse(previousCreatedAt)] *)
Definition not_later (createdAt : Z) (previous : jsval) : bool :=
  match parse_date previous with Some t => (createdAt <=? t)%Z | None => false end.

(** The checks of the statement, up to the replacement key: the time of
    creation. *)
Definition check_statement (st : jsval) (active : KeyEntry) (x : Expected) : result anchor_error Z :=
  let bounded := version_in [2; 3]%Z (get st "version") in
  throw_if negb (version_in [1; 2; 3]%Z (get st "version")) || negb (is_str (get st "tenant") (x_tenant x))
           || negb (isSlug (get st "operation_id")) with TransitionStatement ;;
  from ← of_option TransitionStatement (safe_integer (get st "from_generation"));
  to ← of_option TransitionStatement (safe_integer (get st "to_generation"));
  throw_if negb (from =? generation active)%Z || negb (to =? x_generation x)%Z || negb (to =? from + 1)%Z
           || negb (is_str (get st "old_key_fingerprint") (fingerprint (identity active)))
           || negb (isHash (get st "lifecycle_head_hash")) with TransitionStatement ;;
  createdAt ← of_option TransitionStatement (parse_date (get st "created_at"));
  throw_if bounded && negb (is_undefined (x_previousCreatedAt x)) && not_later createdAt (x_previousCreatedAt x)
           || negb (bool_decide (get st "previous_transition_hash" = x_previousTransition x))
           || bounded && negb (boundary_valid st) with TransitionStatement ;;
  Ok createdAt.

Definition check_replacement (st : jsval) (active : KeyEntry) (x : Expected) : result anchor_error AuditIdentity :=
  replacement ← of_option ReplacementKeyInvalid (identifyAuditPublicKey (get st "new_public_key"));
  throw_if negb (String.eqb (algorithm replacement) (algorithm (identity active)))
           || negb (is_str (get st "new_key_fingerprint") (fingerprint replacement))
           || includes (usedFingerprints x) (fingerprint replacement) with ReplacementIdentity ;;
  Ok replacement.

(** The approvals: in the order of their keys, each by a key of the policy. *)
Fixpoint check_approvals (policy : RecoveryPolicy) (st : jsval) (signers : list string) (previousId : string) (l : list jsval)
    : result anchor_error (list string) :=
  match l with
  | [] => Ok signers
  | approval :: l =>
      throw_if negb (exact_keys approval ["key_id"; "signature"]) || negb (isSlug (get approval "key_id")) with ApprovalOrder ;;
      id ← of_option ApprovalOrder (as_str (get approval "key_id"));
      throw_if String.leb id previousId || includes signers id with ApprovalOrder ;;
      pinned ← of_option ApprovalSignature (find_key id (policy_keys policy));
      throw_if negb (verifyEd25519Signature (key_pem pinned) st (get approval "signature")) with ApprovalSignature ;;
      check_approvals policy st (signers ++ [id]) id l
  end.

Definition EVIDENCE_KEYS : list string := ["approvals"; "authorization"; "policy"; "version"].

Definition check_window (st : jsval) (x : Expected) : bool :=
  match parse_date (get st "created_at"), parse_date (get st "expires_at") with
  | Some createdAt, Some expiresAt =>
      is_str (get st "created_at") (to_iso createdAt) && is_str (get st "expires_at") (to_iso expiresAt)
      && (createdAt <? expiresAt)%Z && (expiresAt - createdAt <=? MAX_RECOVERY_AUTHORIZATION_MS)%Z
      && match x_now x with
         | Some now => (createdAt <=? now + MAX_RECOVERY_CLOCK_SKEW_MS)%Z && (now <=? expiresAt)%Z
         | None => true
         end
  | _, _ => false
  end.

(** The evidence: the policy, the statement and enough approvals. *)
Definition check_evidence (evidence st : jsval) (policy : RecoveryPolicy) : result anchor_error (list string) :=
  throw_if negb (exact_keys evidence EVIDENCE_KEYS) || negb (is_int (get evidence "version") 1)
           || negb (String.eqb (canonicalJson (get evidence "authorization")) (canonicalJson st))
           || negb (String.eqb (canonicalJson (get evidence "policy")) (canonicalJson (policy_js policy))) with EvidenceInvalid ;;
  approvals ← match get evidence "approvals" with JArr l => Ok l | _ => Throw EvidenceInvalid end;
  throw_if (Z.of_nat (length approvals) <? threshold policy)%Z || Nat.ltb (length (policy_keys policy)) (length approvals)
    with EvidenceInvalid ;;
  check_approvals policy st [] "" approvals.

Definition replacement_signs (replacement : AuditIdentity) (st transition : jsval) (x : Expected) : bool :=
  verifyAuditKeySignature replacement st (get transition "new_signature") (requireLowS x).

(** The result, when its hash is the transition's. *)
Definition hashed (copy : list (string * jsval)) (transition : jsval) : result anchor_error jsval :=
  throw_if negb (is_str (get transition "transition_hash") (hashCanonical (JObj copy))) with TransitionHash ;;
  Ok (JObj (copy ++ [("transition_hash", get transition "transition_hash")])%list).

(** [verifyRecoveryKeyTransition] *)
Definition verifyRecoveryKeyTransition (transition st : jsval) (replacement : AuditIdentity) (x : Expected) : result anchor_error jsval :=
  '(installationId, trusted) ← of_option RecoveryNotEnrolled (recoveryTrust x);
  policy ← normalizeRecoveryPolicy trusted;
  throw_if negb (isSlug (get st "installation_id")) || negb (bool_decide (get st "installation_id" = installationId))
           || negb (is_str (get st "role") "audit_checkpoint") || negb (isSlug (get st "recovery_request_id"))
           || includes (usedRecoveryRequestIds x) (get st "recovery_request_id")
           || negb (is_str (get st "recovery_policy_id") (policy_id policy))
           || negb (is_str (get st "recovery_policy_hash") (policy_hash policy)) || negb (check_window st x) with RecoveryStatement ;;
  let evidence := get transition "recovery_evidence" in
  _ ← check_evidence evidence st policy;
  throw_if negb (replacement_signs replacement st transition x) with ReplacementProof ;;
  hashed (fields_of st ++ [("recovery_evidence", evidence); ("new_signature", get transition "new_signature")])%list transition.

(** [verifyKeyTransition] *)
Definition verifyKeyTransition (transition : jsval) (active : KeyEntry) (x : Expected) : result anchor_error jsval :=
  let st := transition_statement transition in
  _ ← check_statement st active x;
  replacement ← check_replacement st active x;
  if is_int (get transition "version") 3 then verifyRecoveryKeyTransition transition st replacement x
  else
    throw_if negb (verifyAuditKeySignature (identity active) st (get transition "old_signature") (requireLowS x))
             || negb (replacement_signs replacement st transition x) with PossessionProof ;;
    hashed (fields_of st ++ [("old_signature", get transition "old_signature"); ("new_signature", get transition "new_signature")])%list
      transition.

(** ** Receipts *)

Definition RECEIPT1_FIELDS : list string :=
  ["version"; "tenant"; "index"; "transition_hash"; "received_at"; "previous_receipt_hash"].
Definition RECEIPT2_FIELDS : list string :=
  (RECEIPT1_FIELDS ++ ["event_index"; "previous_event_hash"; "last_checkpoint_index"; "last_checkpoint_hash"; "last_checkpoint_receipt_hash"])%list.

Definition receipt_fields (receipt : jsval) : list string :=
  if is_int (get receipt "version") 2 then RECEIPT2_FIELDS else RECEIPT1_FIELDS.
Definition PROOF_FIELDS : list string := ["anchor_key_fingerprint"; "signature"].

(** [{ ...statement, anchor_key_fingerprint, signature }], and its hash: of the
    canonical text in the second version. *)
Definition signed_receipt (names : list string) (receipt : jsval) : list (string * jsval) :=
  fields receipt (names ++ PROOF_FIELDS)%list.
Definition receipt_hash (receipt : jsval) (copy : list (string * jsval)) : string :=
  if is_int (get receipt "version") 2 then hashCanonical (JObj copy) else digest (JObj copy).

(** The checks of a receipt that transitions and checkpoints share: the
    anchor's signature, as its bytes are read, and the hash. *)
Definition check_proof (decode : jsval -> option string) (receipt : jsval) (names : list string) (key : KeyDescription) : bool :=
  is_str (get receipt "anchor_key_fingerprint") (publicKeyFingerprint key)
  && match decode (get receipt "signature") with
     | Some signature =>
         Nat.eqb (String.length signature) 64
         && bool_decide (verify_with key (canonicalJson (JObj (fields receipt names))) signature = Some true)
     | None => false
     end
  && is_str (get receipt "receipt_hash") (receipt_hash receipt (signed_receipt names receipt)).

Definition receipt_common (receipt : jsval) (hash_field : string) (tenant : string) (hash previous : jsval) : bool :=
  version_in [1; 2]%Z (get receipt "version") && coerced_test SLUG (nullish (get receipt "tenant") (JStr ""))
  && integer_in 1 MAX_SAFE_INTEGER (get receipt "index") && isHash (get receipt hash_field)
  && bool_decide (is_Some (parse_date (get receipt "received_at"))) && isHash (get receipt "previous_receipt_hash")
  && is_str (get receipt "tenant") tenant && bool_decide (get receipt hash_field = hash)
  && bool_decide (get receipt "previous_receipt_hash" = previous).

Definition receipt_event (receipt : jsval) : bool :=
  integer_in 1 MAX_SAFE_INTEGER (get receipt "event_index") && isHash (get receipt "previous_event_hash").

(** [verifyAnchorKeyTransitionReceipt] for a transition and the receipt before
    it. *)
Definition verifyAnchorKeyTransitionReceipt (receipt : jsval) (anchorPublicKey tenant : string) (transitionHash previous : jsval)
    : result anchor_error jsval :=
  throw_if negb (is_object receipt) with TransitionReceipt ;;
  key ← of_option TransitionReceipt (assertEd25519PublicKey (JStr anchorPublicKey));
  let names := receipt_fields receipt in
  throw_if negb (exact_keys receipt (sort_strings (names ++ PROOF_FIELDS ++ ["receipt_hash"])%list)) with TransitionReceipt ;;
  throw_if negb (receipt_common receipt "transition_hash" tenant transitionHash previous)
           || is_int (get receipt "version") 2
              && negb (receipt_event receipt && integer_in 1 MAX_SAFE_INTEGER (get receipt "last_checkpoint_index")
                       && isHash (get receipt "last_checkpoint_hash") && isHash (get receipt "last_checkpoint_receipt_hash"))
           || negb (check_proof canonical_base64 receipt names key) with TransitionReceipt ;;
  Ok (JObj (signed_receipt names receipt ++ [("receipt_hash", get receipt "receipt_hash")])%list).

(** ** The history of a tenant's keys *)

(** What the loop of [verifyTenantTransitions] has seen: the keys, the active
    one last; the transitions with their receipts; and the times of the last. *)
Record Progress := mkProgress {
  active : KeyEntry; keyHistory : list KeyEntry; transitions : list (jsval * jsval); previousReceivedAt : Z; previousCreatedAt : Z
}.

Definition last_transition (p : Progress) : option (jsval * jsval) := last (transitions p).
Definition previousTransition (p : Progress) : jsval :=
  match last_transition p with Some (t, _) => get t "transition_hash" | None => JStr ZERO_HASH end.
Definition previousReceipt (p : Progress) : jsval :=
  match last_transition p with Some (_, r) => get r "receipt_hash" | None => JStr ZERO_HASH end.

Definition recovery_request_ids (l : list (jsval * jsval)) : list jsval :=
  map (fun tr => get tr.1 "recovery_request_id") (filter (fun tr => is_int (get tr.1 "version") 3 = true) l).

Definition trust_of (config : jsval) : option (jsval * jsval) :=
  if truthy (get config "recovery_policy") then Some (get config "installation_id", get config "recovery_policy") else None.

Definition expected_next (p : Progress) (config : jsval) (tenant : string) (createdAt : jsval) (lowS : bool) (now : option Z) : Expected :=
  mkExpected tenant (generation (active p) + 1) (previousTransition p) createdAt
    (map (fun e => fingerprint (identity e)) (keyHistory p)) (recovery_request_ids (transitions p)) (trust_of config) lowS now.

Definition verify_transition_record (config : jsval) (anchorPublicKey tenant : string) (p : Progress) (record : jsval)
    : result anchor_error Progress :=
  value ← prop record "transition";
  decoded ← decodeKeyTransition value;
  transition ← verifyKeyTransition decoded (active p)
    (expected_next p config tenant (if Nat.eqb (length (transitions p)) 0 then JUndefined else JStr (to_iso (previousCreatedAt p))) false None);
  throw_if includes (map (fun tr => get tr.1 "operation_id") (transitions p)) (get transition "operation_id") with OperationDuplicated ;;
  receipt ← verifyAnchorKeyTransitionReceipt (get record "receipt") anchorPublicKey tenant (get transition "transition_hash") (previousReceipt p);
  createdAt ← of_option OutsideModel (parse_date (get transition "created_at"));
  receivedAt ← of_option OutsideModel (parse_date (get receipt "received_at"));
  throw_if negb (is_int (get receipt "index") (Z.of_nat (length (transitions p)) + 1)) || (receivedAt <? previousReceivedAt p)%Z
           || version_in [2; 3]%Z (get transition "version") && (receivedAt <? createdAt)%Z with TransitionReceiptOrder ;;
  identity ← of_option ReplacementKeyInvalid (identifyAuditPublicKey (get transition "new_public_key"));
  to ← of_option OutsideModel (safe_integer (get transition "to_generation"));
  let next := mkEntry identity to (get transition "lifecycle_head_hash") in
  Ok (mkProgress next (keyHistory p ++ [next]) (transitions p ++ [(transition, receipt)]) receivedAt createdAt).

Fixpoint verify_transition_records (config : jsval) (anchorPublicKey tenant : string) (p : Progress) (records : list jsval)
    : result anchor_error Progress :=
  match records with
  | [] => Ok p
  | record :: records =>
      p ← verify_transition_record config anchorPublicKey tenant p record;
      verify_transition_records config anchorPublicKey tenant p records
  end.

Definition first_progress (base : AuditIdentity) : Progress :=
  let first := mkEntry base 1 JNull in mkProgress first [first] [] 0 0.

(** [verifyTenantTransitions] *)
Definition verifyTenantTransitions (records : list jsval) (config : jsval) (anchorPublicKey tenant : string)
    : result anchor_error Progress :=
  base ← of_option ReplacementKeyInvalid (identifyAuditPublicKey (get config "audit_public_key"));
  verify_transition_records config anchorPublicKey tenant (first_progress base) records.
End Transitions.
