(* ===== verification/AnchorKeysFacts.v ===== *)
(** * Who may change the key of a tenant (lib/anchor.mjs)

    What a verified history of keys satisfies: the generations are numbered
    without gaps, no key comes back, no operation and no recovery request is
    used twice, and every new key was signed for by the key before it or by a
    threshold of distinct pinned recovery keys, and by itself. *)

From stdpp Require Import base tactics list sets strings.
From Stdlib Require Import Ascii.
From S2P Require Import Prelude JsValue Regex IsoTime Json Objects Crypto Capability DeviceAuth AuditLog NativeAudit AnchorKeys.
Local Open Scope string_scope.
Local Open Scope js_scope.

Section Authority.
Context `{HParse : DateParse} `{HSha : Sha256} `{HKeys : KeyObjects} `{HRead : Base64Reader} `{HPoint : P256Keys} `{HEc : EcKeys}.

(** ** Who signed *)

(** A statement is signed by the key of an identity. *)
Inductive signed_by (i : AuditIdentity) (st : jsval) : Prop :=
| signed_ed25519 key bytes :
    assertEd25519PublicKey (JStr (audit_public_key i)) = Some key -> String.length bytes = 64 ->
    verify_with key (canonicalJson st) bytes = Some true -> signed_by i st
| signed_p256 parsed bytes :
    algorithm i = "p256-sha256" -> parseNativeAuditPublicKey (JStr (audit_public_key i)) = Some parsed ->
    hasValidP256P1363Scalars bytes = true -> verify_sha256 (key parsed) (canonicalJson st) bytes = Some true -> signed_by i st.

(** A statement is signed by a key of a policy. *)
Definition approved_by (st : jsval) (k : PolicyKey) : Prop :=
  exists key bytes, assertEd25519PublicKey (JStr (key_pem k)) = Some key /\ String.length bytes = 64 /\
    verify_with key (canonicalJson st) bytes = Some true.

(** A threshold of the keys of a policy signed: they are different keys. *)
Definition approved (policy : RecoveryPolicy) (st : jsval) : Prop :=
  (1 <= threshold policy)%Z /\
  exists ks, NoDup (map key_fingerprint ks) /\ ks ⊆ policy_keys policy /\ (threshold policy <= Z.of_nat (length ks))%Z /\
    Forall (approved_by st) ks.

(** A key hands over to the next: both sign the transition; or, for a recovery
    of the enrolled installation, a threshold of its pinned policy and the next. *)
Definition handover (config : jsval) (e : KeyEntry) (t : jsval) (e' : KeyEntry) : Prop :=
  let st := transition_statement t in
  signed_by (identity e') st /\
  if is_int (get t "version") 3 then
    exists policy, truthy (get config "recovery_policy") = true /\ normalizeRecoveryPolicy (get config "recovery_policy") = Ok policy /\
      get st "installation_id" = get config "installation_id" /\ get st "recovery_policy_hash" = JStr (policy_hash policy) /\
      approved policy st
  else signed_by (identity e) st.

(** The anchor's receipt for a transition. *)
Definition receipted (anchorPublicKey : string) (r : jsval) : Prop :=
  exists key bytes, assertEd25519PublicKey (JStr anchorPublicKey) = Some key /\
    verify_with key (canonicalJson (JObj (fields r (receipt_fields r)))) bytes = Some true.

(** ** Lemmas *)

Lemma canonical_base64_ok v bytes : canonical_base64 v = Some bytes -> exists s, v = JStr s /\ base64 bytes = s.
Proof. destruct v; try done. cbn. case_match eqn:E; [|done]. intros [= <-]. guards. eauto. Qed.

Lemma verify_signed i st encoded lowS : verifyAuditKeySignature i st encoded lowS = true -> signed_by i st.
Proof.
  unfold verifyAuditKeySignature. destruct (canonical_base64 encoded) as [bytes|]; [|done]. destruct (String.eqb _ _) eqn:Ea.
  - destruct (parseNativeAuditPublicKey _) as [parsed|] eqn:Ep; [|done]. intros [Hs Hv]%andb_true_iff. guards.
    eapply signed_p256; [done..| |done]. destruct lowS; [|done]. unfold isCanonicalP256P1363Signature in Hs. by apply andb_true_iff in Hs as [? _].
  - destruct (assertEd25519PublicKey _) as [k|] eqn:Ek; [|done]. intros [Hl Hv]%andb_true_iff. guards. apply Nat.eqb_eq in Hl.
    by eapply signed_ed25519.
Qed.

Lemma approval_signed pem st encoded id fp : verifyEd25519Signature pem st encoded = true -> approved_by st (mkPolicyKey id pem fp).
Proof.
  unfold verifyEd25519Signature. destruct (canonical_base64 encoded) as [bytes|]; [|done].
  destruct (assertEd25519PublicKey _) as [k|] eqn:Ek; [|done]. intros [Hl Hv]%andb_true_iff. guards. apply Nat.eqb_eq in Hl.
  by exists k, bytes.
Qed.

Lemma find_key_ok id l k : find_key id l = Some k -> k ∈ l /\ key_id k = id.
Proof.
  unfold find_key. destruct (list_find _ l) as [[i k']|] eqn:E; [|done]. intros [= <-]. apply list_find_Some in E as (Hl & Hi & _).
  split; [by eapply list_elem_of_lookup_2|done].
Qed.

Lemma sort_keys_perm l : sort_keys l ≡ₚ l.
Proof.
  unfold sort_keys. rewrite sort_fields_perm. rewrite map_map. by rewrite map_id.
Qed.

(** The keys of a policy have distinct identifiers and fingerprints, and its
    threshold can be met. *)
Lemma normalizeRecoveryPolicy_ok v p :
  normalizeRecoveryPolicy v = Ok p ->
  NoDup (map key_id (policy_keys p)) /\ NoDup (map key_fingerprint (policy_keys p)) /\
  (1 <= threshold p <= Z.of_nat (length (policy_keys p)))%Z /\
  policy_hash p = hashCanonical (JObj (policy_statement (policy_id p) (threshold p) (policy_keys p))) /\
  get v "policy_id" = JStr (policy_id p).
Proof.
  intros H. unfold normalizeRecoveryPolicy in H. run_steps H. injection H as <-. guards. cbn [policy_keys threshold policy_hash policy_id].
  repeat match goal with H : all_distinct _ = true |- _ => apply all_distinct_true in H end.
  match goal with H : map_result _ _ = Ok ?l |- _ => apply map_result_length in H as Hl; pose proof (Permutation_length (sort_keys_perm l)) end.
  match goal with H : as_str ?v = Some _ |- _ => destruct v eqn:?; try done; injection H as -> end. split_and!; try done; lia.
Qed.

(** Approvals that were accepted: their signers are different keys of the
    policy, each of which signed. *)
Lemma check_approvals_ok policy st l : forall signers previous out,
  check_approvals policy st signers previous l = Ok out -> NoDup signers ->
  exists ids, out = (signers ++ ids)%list /\ NoDup out /\ length ids = length l /\
    Forall (fun id => exists k, k ∈ policy_keys policy /\ key_id k = id /\ approved_by st k) ids.
Proof.
  induction l as [|a l IH]; intros signers previous out; cbn [check_approvals].
  - intros [= ->] Hn. exists []. by rewrite app_nil_r.
  - intros H Hn. run_steps H. guards. match goal with H : includes _ _ = false |- _ => apply includes_false in H end.
    edestruct IH as (ids & -> & Hd & Hl & Hf); [done| |].
    { apply NoDup_app. split_and!; [done| |apply NoDup_singleton]. set_solver. }
    match goal with H : find_key ?id _ = Some ?k |- _ => apply find_key_ok in H as [Hin Hid]; exists (id :: ids) end.
    rewrite <- app_assoc in *. cbn [app length] in *. split_and!; [done..|by f_equal|]. constructor; [|done].
    eexists. split_and!; [done..|]. match goal with k : PolicyKey |- _ => destruct k end. by eapply approval_signed.
Qed.

(** Elements of a list that differ in one key differ in every key that is
    distinct in the whole list. *)
Lemma NoDup_map_sub {A B C} (f : A -> B) (g : A -> C) l ks :
  NoDup (map f l) -> ks ⊆ l -> NoDup (map g ks) -> NoDup (map f ks).
Proof.
  intros Hf Hs Hn. induction ks as [|k ks IH]; [constructor|]. cbn [map] in *. apply NoDup_cons in Hn as [Hk Hn].
  constructor; [|apply IH; [set_solver|done]]. intros (k' & Heq & Hin)%list_elem_of_fmap. destruct Hk. apply list_elem_of_fmap.
  exists k'. split; [|done]. f_equal. eapply (NoDup_map_inj f l); set_solver.
Qed.

(** Elements that satisfy a property, one for each name. *)
Lemma chosen_by {A B} (f : A -> B) (P : A -> Prop) l names :
  Forall (fun name => exists k, k ∈ l /\ f k = name /\ P k) names -> exists ks, map f ks = names /\ ks ⊆ l /\ Forall P ks.
Proof.
  induction 1 as [|name names (k & Hk & Hn & Hp) _ (ks & Hm & Hsub & Hall)]; [exists []; split_and!; [done|set_solver|constructor]|].
  exists (k :: ks). cbn [map]. rewrite Hn, Hm. split_and!; [done|set_solver|by constructor].
Qed.

Lemma check_evidence_approved evidence st policy v ids :
  normalizeRecoveryPolicy v = Ok policy -> check_evidence evidence st policy = Ok ids -> approved policy st.
Proof.
  intros (_ & Hf & Ht & _)%normalizeRecoveryPolicy_ok H. unfold check_evidence in H. run_steps H.
  apply check_approvals_ok in H as (ids' & -> & Hn & Hl & Ha); [|constructor]. split; [lia|].
  apply chosen_by in Ha as (ks & <- & Hsub & Hall). rewrite length_map in Hl. cbn [app] in Hn. exists ks. guards.
  split_and!; try done; [by eapply NoDup_map_sub|lia].
Qed.

(** The fields of a statement that the transition is verified for. *)
Definition chained (e : KeyEntry) (x : Expected) (st : jsval) (i : AuditIdentity) : Prop :=
  get st "from_generation" = JNum (NInt (generation e)) /\ get st "to_generation" = JNum (NInt (x_generation x)) /\
  x_generation x = (generation e + 1)%Z /\ get st "old_key_fingerprint" = JStr (fingerprint (identity e)) /\
  get st "new_key_fingerprint" = JStr (fingerprint i) /\ get st "previous_transition_hash" = x_previousTransition x /\
  identifyAuditPublicKey (get st "new_public_key") = Some i /\ algorithm i = algorithm (identity e) /\
  fingerprint i ∉ usedFingerprints x.

Lemma statement_chained st e x createdAt i :
  check_statement st e x = Ok createdAt -> check_replacement st e x = Ok i -> chained e x st i.
Proof.
  intros H H'. unfold check_statement in H. run_steps H. injection H as <-. unfold check_replacement in H'. run_steps H'. injection H' as <-.
  guards. repeat match goal with H : safe_integer _ = Some _ |- _ => apply safe_integer_Some in H as [? _]
                          | H : is_str _ _ = true |- _ => apply is_str_true in H
                          | H : includes _ _ = false |- _ => apply includes_false in H end.
  subst. split_and!; try done; congruence.
Qed.

(** A transition that was accepted, with the copy that is kept of it. *)
Record accepted (config_trust : option (jsval * jsval)) (e : KeyEntry) (x : Expected) (t t' : jsval) (i : AuditIdentity) : Prop := {
  a_chained : chained e x (transition_statement t) i;
  a_replacement : signed_by i (transition_statement t);
  a_authority :
    if is_int (get t "version") 3 then
      exists installation pinned policy, config_trust = Some (installation, pinned) /\ normalizeRecoveryPolicy pinned = Ok policy /\
        get (transition_statement t) "installation_id" = installation /\
        get (transition_statement t) "recovery_policy_hash" = JStr (policy_hash policy) /\
        get (transition_statement t) "recovery_request_id" ∉ usedRecoveryRequestIds x /\ approved policy (transition_statement t)
    else signed_by (identity e) (transition_statement t);
  a_hash : exists proofs, let copy := (fields_of (transition_statement t) ++ proofs)%list in
    t' = JObj (copy ++ [("transition_hash", get t "transition_hash")])%list /\ "transition_hash" ∉ map fst proofs /\
    get t "transition_hash" = JStr (hashCanonical (JObj copy))
}.

Lemma hashed_ok copy t t' :
  hashed copy t = Ok t' -> t' = JObj (copy ++ [("transition_hash", get t "transition_hash")])%list /\
    get t "transition_hash" = JStr (hashCanonical (JObj copy)).
Proof. unfold hashed. intros H. run_steps H. injection H as <-. guards. by apply is_str_true in E. Qed.

Lemma verifyKeyTransition_ok t e x t' :
  verifyKeyTransition t e x = Ok t' -> exists i, accepted (recoveryTrust x) e x t t' i.
Proof.
  intros H. unfold verifyKeyTransition in H. run_steps H.
  match goal with H : check_replacement _ _ _ = Ok ?i |- _ => exists i end.
  match goal with H1 : check_statement _ _ _ = Ok _, H2 : check_replacement _ _ _ = Ok _ |- _ => pose proof (statement_chained _ _ _ _ _ H1 H2) as Hc end.
  destruct (is_int (get t "version") 3) eqn:Ev.
  - unfold verifyRecoveryKeyTransition in H. apply bind_ok in H as ([installation pinned] & Ht & H). run_steps H.
    apply hashed_ok in H as [-> Hh]. guards. match goal with H : includes _ _ = false |- _ => apply includes_false in H end.
    match goal with H : replacement_signs _ _ _ _ = true |- _ => apply verify_signed in H end.
    constructor; try done; [|eexists; split_and!; [reflexivity|set_solver|done]].
    rewrite Ev. exists installation, pinned. eexists. split_and!; try done; [by apply is_str_true|by eapply check_evidence_approved].
  - run_steps H. apply hashed_ok in H as [-> Hh]. guards.
    match goal with H : replacement_signs _ _ _ _ = true |- _ => apply verify_signed in H end.
    constructor; try done; [|eexists; split_and!; [reflexivity|set_solver|done]]. rewrite Ev. by eapply verify_signed.
Qed.

(** ** The copies that are kept *)

Lemma get_fields v ks r k : k ∈ ks -> get (JObj (fields v ks ++ r)%list) k = get v k.
Proof.
  unfold fields, get. intros Hk. rewrite assoc_app. induction ks as [|a ks IH]; [set_solver|]. cbn [map assoc].
  destruct (String.eqb_spec k a) as [->|Hne]; [done|]. apply IH. set_solver.
Qed.

Lemma fields_same v w ks : (forall k, k ∈ ks -> get w k = get v k) -> fields w ks = fields v ks.
Proof. intros H. apply map_ext_in. intros k Hk%list_elem_of_In. f_equal. by apply H. Qed.

Lemma transition_kept t r : transition_statement (JObj (fields_of (transition_statement t) ++ r)%list) = transition_statement t.
Proof.
  unfold transition_statement. destruct (is_int (get t "version") 3) eqn:E3.
  - reflexivity.
  - cbn [fields_of]. set (ks := (BASE_FIELDS ++ _)%list).
    assert (forall k, k ∈ ks -> get (JObj (fields t ks ++ r)%list) k = get t k) as Hk by (intros; by apply get_fields).
    rewrite (Hk "version") by (apply elem_of_app; left; by apply (bool_decide_eq_true_1 _)). rewrite E3. f_equal. by apply fields_same.
Qed.

Lemma statement_get t k : k ∈ BASE_FIELDS -> is_int (get t "version") 3 = false -> get (transition_statement t) k = get t k.
Proof.
  intros Hk E. unfold transition_statement. rewrite E. rewrite <- (app_nil_r (fields _ _)). apply get_fields. set_solver.
Qed.

Lemma get_prefix fs r k : k ∈ map fst fs -> get (JObj (fs ++ r)%list) k = get (JObj fs) k.
Proof.
  intros Hk. unfold get. rewrite assoc_app. destruct (assoc k fs) eqn:E; [done|]. by apply assoc_None in E.
Qed.

Lemma statement_object t : transition_statement t = JObj (fields_of (transition_statement t)).
Proof. unfold transition_statement. by destruct (is_int (get t "version") 3). Qed.

Lemma statement_fields_of t k :
  k ∈ BASE_FIELDS \/ is_int (get t "version") 3 = true /\ k = "recovery_request_id" -> k ∈ map fst (fields_of (transition_statement t)).
Proof.
  unfold transition_statement. intros [Hk|[-> ->]]; [|by apply (bool_decide_eq_true_1 _)].
  assert (BASE_FIELDS ⊆ map fst (fields_of (if is_int (get t "version") 3 then anchorRecoveryAuthorization t
    else JObj (fields t (BASE_FIELDS ++ if is_int (get t "version") 2 then BOUNDARY_FIELDS else [])%list)))) as Hs; [|by apply Hs].
  destruct (is_int (get t "version") 3); [|destruct (is_int (get t "version") 2)]; by apply (bool_decide_eq_true_1 _).
Qed.

Lemma statement_version t : is_int (get (transition_statement t) "version") 3 = is_int (get t "version") 3.
Proof.
  destruct (is_int (get t "version") 3) eqn:E; unfold transition_statement; rewrite E; [reflexivity|].
  exact E.
Qed.

(** The copy of an accepted transition states what the transition states. *)
Lemma accepted_kept trust e x t t' i :
  accepted trust e x t t' i ->
  transition_statement t' = transition_statement t /\ get t' "transition_hash" = get t "transition_hash" /\
  (forall k, k ∈ map fst (fields_of (transition_statement t)) -> get t' k = get (transition_statement t) k) /\
  is_int (get t' "version") 3 = is_int (get t "version") 3.
Proof.
  intros [_ _ _ (proofs & -> & Hn & _)]. rewrite <- app_assoc.
  assert (forall r k, k ∈ map fst (fields_of (transition_statement t)) ->
    get (JObj (fields_of (transition_statement t) ++ r)%list) k = get (transition_statement t) k) as Hk.
  { intros r k Hk. rewrite get_prefix by done. by rewrite <- statement_object. }
  split_and!; [apply transition_kept| |by intros; apply Hk|].
  - unfold get at 1. rewrite assoc_app.
    assert (assoc "transition_hash" (fields_of (transition_statement t)) = None) as ->.
    { unfold transition_statement. destruct (is_int (get t "version") 3); [reflexivity|]. by destruct (is_int (get t "version") 2). }
    rewrite assoc_app. by rewrite (proj2 (assoc_None _ _) Hn).
  - rewrite Hk; [apply statement_version|]. apply statement_fields_of. left. by apply (bool_decide_eq_true_1 _).
Qed.

(** The same of a receipt. *)
Lemma receipt_kept r anchorPublicKey tenant h previous r' :
  verifyAnchorKeyTransitionReceipt r anchorPublicKey tenant h previous = Ok r' ->
  receipted anchorPublicKey r' /\ get r' "transition_hash" = h /\ get r' "previous_receipt_hash" = previous /\
  get r' "tenant" = JStr tenant /\ get r' "receipt_hash" = get r "receipt_hash".
Proof.
  intros H. unfold verifyAnchorKeyTransitionReceipt in H. run_steps H. injection H as <-. guards.
  match goal with H : check_proof _ _ _ _ = true |- _ => unfold check_proof in H; apply andb_true_iff in H as [[_ Hs]%andb_true_iff _] end.
  destruct (canonical_base64 _) as [bytes|]; [|done]. guards. unfold receipt_common in *. guards.
  unfold signed_receipt. set (r' := JObj _).
  assert (forall k, k ∈ (receipt_fields r ++ PROOF_FIELDS)%list -> get r' k = get r k) as Hk by (intros; by apply get_fields).
  assert (forall k, k ∈ RECEIPT1_FIELDS -> get r' k = get r k) as Hb.
  { intros k Hin. apply Hk, elem_of_app. left. assert (RECEIPT1_FIELDS ⊆ receipt_fields r) as Hsub; [|by apply Hsub].
    unfold receipt_fields. destruct (is_int _ 2); by apply (bool_decide_eq_true_1 _). }
  assert (receipt_fields r' = receipt_fields r) as Hr.
  { unfold receipt_fields. by rewrite (Hb "version") by (by apply (bool_decide_eq_true_1 _)). }
  split_and!.
  - eexists _, bytes. split; [done|]. rewrite Hr. rewrite (fields_same r r'); [done|]. intros k Hin. apply Hk, elem_of_app. by left.
  - rewrite Hb by (by apply (bool_decide_eq_true_1 _)). done.
  - rewrite Hb by (by apply (bool_decide_eq_true_1 _)). done.
  - rewrite Hb by (by apply (bool_decide_eq_true_1 _)). by apply is_str_true.
  - subst r'. clear. unfold receipt_fields. by destruct (is_int _ 2).
Qed.

(** ** The history *)

(** The hash that a transition, or a receipt, is chained to. *)
Definition hash_before (l : list (jsval * jsval)) (hash : jsval * jsval -> jsval) (i : nat) : jsval :=
  match i with 0 => JStr ZERO_HASH | S i => default (JStr ZERO_HASH) (hash <$> l !! i) end.

(** The transition between two keys, and the receipt for it. *)
Record linked (config : jsval) (anchorPublicKey tenant : string) (l : list (jsval * jsval)) (i : nat)
    (e e' : KeyEntry) (t r : jsval) : Prop := {
  l_handover : handover config e t e';
  l_from : get t "old_key_fingerprint" = JStr (fingerprint (identity e));
  l_to : get t "new_key_fingerprint" = JStr (fingerprint (identity e'));
  l_tenant : get r "tenant" = JStr tenant;
  l_previous : get t "previous_transition_hash" = hash_before l (fun tr => get tr.1 "transition_hash") i;
  l_receipt : receipted anchorPublicKey r /\ get r "transition_hash" = get t "transition_hash" /\
              get r "index" = JNum (NInt (Z.of_nat i + 1)) /\
              get r "previous_receipt_hash" = hash_before l (fun tr => get tr.2 "receipt_hash") i
}.

Record history (config : jsval) (anchorPublicKey tenant : string) (p : Progress) : Prop := {
  h_first : exists base, identifyAuditPublicKey (get config "audit_public_key") = Some base /\
              keyHistory p !! 0 = Some (mkEntry base 1 JNull);
  h_active : last (keyHistory p) = Some (active p);
  h_length : length (keyHistory p) = S (length (transitions p));
  h_generation : forall i e, keyHistory p !! i = Some e -> generation e = (Z.of_nat i + 1)%Z;
  h_algorithm : forall e, e ∈ keyHistory p -> algorithm (identity e) = algorithm (identity (active p));
  h_keys : NoDup (map (fun e => fingerprint (identity e)) (keyHistory p));
  h_operations : NoDup (map (fun tr => get tr.1 "operation_id") (transitions p));
  h_requests : NoDup (recovery_request_ids (transitions p));
  h_linked : forall i e e' t r, keyHistory p !! i = Some e -> keyHistory p !! S i = Some e' -> transitions p !! i = Some (t, r) ->
               linked config anchorPublicKey tenant (transitions p) i e e' t r
}.

Lemma hash_before_last p hash :
  hash_before (transitions p) hash (length (transitions p))
  = match last_transition p with Some tr => hash tr | None => JStr ZERO_HASH end.
Proof.
  unfold last_transition. destruct (transitions p) as [|x l _] using rev_ind; [done|]. rewrite length_app, Nat.add_1_r. cbn [hash_before].
  by rewrite last_snoc, lookup_app_r, Nat.sub_diag by lia.
Qed.

Lemma hash_before_app l x hash i : i <= length l -> hash_before (l ++ [x]) hash i = hash_before l hash i.
Proof. intros Hi. destruct i as [|i]; [done|]. cbn [hash_before]. by rewrite lookup_app_l by lia. Qed.

Lemma linked_app config ak tenant l x i e e' t r :
  i < length l -> linked config ak tenant l i e e' t r -> linked config ak tenant (l ++ [x]) i e e' t r.
Proof.
  intros Hi [H1 H2 H3 H4 H5 (H6 & H7 & H8 & H9)]. constructor; try done; [|split_and!; try done]; by rewrite hash_before_app by lia.
Qed.

Lemma recovery_ids_app l x :
  recovery_request_ids (l ++ [x]) = (recovery_request_ids l ++ if is_int (get x.1 "version") 3 then [get x.1 "recovery_request_id"] else [])%list.
Proof.
  unfold recovery_request_ids. rewrite filter_app, map_app. f_equal. rewrite filter_cons. case_decide as Hd; [by rewrite Hd|].
  by destruct (is_int _ 3).
Qed.

Lemma history_start config ak tenant base :
  identifyAuditPublicKey (get config "audit_public_key") = Some base -> history config ak tenant (first_progress base).
Proof.
  intros Hb. constructor; cbn; [by exists base|done..|by intros [|i] e [= <-]|by intros e He%list_elem_of_singleton; subst|apply NoDup_singleton|constructor|constructor|done].
Qed.

(** The key that a transition was verified for hands over. *)
Lemma accepted_handover config e x t t' i g h :
  recoveryTrust x = trust_of config -> accepted (recoveryTrust x) e x t t' i -> handover config e t' (mkEntry i g h).
Proof.
  intros Hx Ha. destruct (accepted_kept _ _ _ _ _ _ Ha) as (Hst & _ & _ & Hv). destruct Ha as [_ Hr Hauth _].
  unfold handover. rewrite Hst, Hv. split; [exact Hr|]. destruct (is_int (get t "version") 3); [|done].
  destruct Hauth as (installation & pinned & policy & Ht & Hp & Hi & Hh & _ & Hap). rewrite Hx in Ht. unfold trust_of in Ht.
  destruct (truthy _) eqn:E; [|done]. injection Ht as <- <-. by exists policy.
Qed.

Lemma NoDup_map_app {A} (f : A -> jsval) l x : NoDup (map f l) -> f x ∉ map f l -> NoDup (map f (l ++ [x])).
Proof. intros Hn Hx. rewrite map_app. apply NoDup_app. split_and!; [done|set_solver|apply NoDup_singleton]. Qed.

Lemma history_extend config ak tenant p e t r rt ct :
  history config ak tenant p ->
  generation e = (generation (active p) + 1)%Z -> algorithm (identity e) = algorithm (identity (active p)) ->
  fingerprint (identity e) ∉ map (fun e => fingerprint (identity e)) (keyHistory p) ->
  get t "operation_id" ∉ map (fun tr => get tr.1 "operation_id") (transitions p) ->
  (is_int (get t "version") 3 = true -> get t "recovery_request_id" ∉ recovery_request_ids (transitions p)) ->
  linked config ak tenant (transitions p) (length (transitions p)) (active p) e t r ->
  history config ak tenant (mkProgress e (keyHistory p ++ [e]) (transitions p ++ [(t, r)]) rt ct).
Proof.
  intros [Hf Ha Hl Hg Halg Hk Ho Hq Hlink] Hgen Hsame Hfp Hop Hreq Hnew. constructor; cbn [active keyHistory transitions].
  - destruct Hf as (base & Hb & H0). exists base. split; [done|]. by apply lookup_app_l_Some.
  - apply last_snoc.
  - rewrite !length_app, Hl. cbn. lia.
  - intros i e' [Hi|[Hi Hi']]%lookup_app_Some; [by apply Hg|]. apply list_lookup_singleton_Some in Hi' as [Hi' <-].
    rewrite last_lookup, Hl in Ha. apply Hg in Ha. rewrite Hgen, Ha. lia.
  - intros e' [He|He%list_elem_of_singleton]%elem_of_app; [rewrite Hsame; by apply Halg|by subst].
  - rewrite map_app. apply NoDup_app. split_and!; [done|set_solver|apply NoDup_singleton].
  - by apply NoDup_map_app.
  - rewrite recovery_ids_app. cbn [fst]. destruct (is_int _ 3); [|by rewrite app_nil_r]. specialize (Hreq eq_refl).
    apply NoDup_app. split_and!; [done|set_solver|apply NoDup_singleton].
  - intros i e1 e2 t' r' H1 H2 [Ht|[Hi Ht]]%lookup_app_Some.
    + pose proof (lookup_lt_Some _ _ _ Ht). apply linked_app; [done|]. rewrite lookup_app_l in H1 by lia. rewrite lookup_app_l in H2 by lia. eauto.
    + apply list_lookup_singleton_Some in Ht as [Hi' [= <- <-]]. assert (i = length (transitions p)) as -> by lia.
      rewrite lookup_app_l in H1 by lia. rewrite last_lookup, Hl in Ha. cbn [pred] in Ha. rewrite Ha in H1. injection H1 as <-.
      rewrite lookup_app_r in H2 by lia. rewrite Hl, Nat.sub_diag in H2. injection H2 as <-.
      destruct Hnew as [? ? ? ? ? (? & ? & ? & ?)]. constructor; try done; [|split_and!; try done]; by rewrite hash_before_app by lia.
Qed.

Lemma history_step config ak tenant p record p' :
  verify_transition_record config ak tenant p record = Ok p' -> history config ak tenant p -> history config ak tenant p'.
Proof.
  intros H Hp. unfold verify_transition_record in H. run_steps H. injection H as <-.
  match goal with H : verifyKeyTransition _ _ _ = Ok ?t' |- _ => apply verifyKeyTransition_ok in H as [i Hacc]; rename t' into t end.
  match goal with H : verifyAnchorKeyTransitionReceipt _ _ _ _ _ = Ok ?r' |- _ => apply receipt_kept in H as (Hr1 & Hr2 & Hr3 & Hr4 & _); rename r' into r end.
  pose proof (accepted_kept _ _ _ _ _ _ Hacc) as (Hst & Hth & Hget & Hver). pose proof (a_chained _ _ _ _ _ _ Hacc) as (C1 & C2 & C3 & C4 & C5 & C6 & C7 & C8 & C9).
  assert (forall k, k ∈ BASE_FIELDS -> get t k = get (transition_statement x0) k) as Hb by (intros; apply Hget, statement_fields_of; by left).
  rewrite <- !Hb in C1, C2, C4, C5, C6, C7 by (by apply (bool_decide_eq_true_1 _)).
  rewrite E7 in C7. injection C7 as ->. rewrite C2 in E8. apply safe_integer_Some in E8 as [[= <-] _]. guards.
  apply history_extend; try done.
  - by apply includes_false.
  - intros Hv. rewrite Hver in Hv. pose proof (a_authority _ _ _ _ _ _ Hacc) as Hauth. rewrite Hv in Hauth.
    destruct Hauth as (? & ? & ? & _ & _ & _ & _ & Hn & _). rewrite Hget by (apply statement_fields_of; by right). exact Hn.
  - constructor; try done.
    + by refine (accepted_handover _ _ _ _ _ _ _ _ _ Hacc).
    + rewrite hash_before_last, C6. cbn. unfold previousTransition. by destruct (last_transition p) as [[]|].
    + split_and!; try done; [by apply is_int_true|]. rewrite hash_before_last, Hr3. unfold previousReceipt. by destruct (last_transition p) as [[]|].
Qed.

Lemma verified_history records config anchorPublicKey tenant p :
  verifyTenantTransitions records config anchorPublicKey tenant = Ok p ->
  history config anchorPublicKey tenant p /\ length (transitions p) = length records.
Proof.
  intros H. unfold verifyTenantTransitions in H. run_steps H. pose proof (history_start config anchorPublicKey tenant x E) as Hs.
  assert (forall l q, history config anchorPublicKey tenant q -> verify_transition_records config anchorPublicKey tenant q l = Ok p ->
    history config anchorPublicKey tenant p /\ length (transitions p) = (length (transitions q) + length l)%nat) as Hl.
  { clear. intros l. induction l as [|record l IH]; intros q Hq H; cbn [verify_transition_records] in H.
    - injection H as <-. split; [done|]. cbn [length]. lia.
    - apply bind_ok in H as (q' & Hq' & H). apply IH in H as [? ->]; [|by eapply history_step]. split; [done|].
      unfold verify_transition_record in Hq'. run_steps Hq'. injection Hq' as <-. cbn [transitions length]. rewrite length_app. cbn. lia. }
  by apply Hl in H.
Qed.

End Authority.
