(* ===== verification/Recovery.v ===== *)
(** * The recovery ceremony (lib/recovery.mjs)

    When the key that signs an installation's checkpoints is lost, a threshold
    of recovery authorities signs, offline, for its replacement: first a
    request of the host, then the authorization that the anchor takes as the
    evidence of a transition.  Requests, policies, authorizations and approvals
    are JSON values, read from different files. *)

From stdpp Require Import base tactics list sets strings.
From Stdlib Require Import Ascii.
From S2P Require Import Prelude JsValue Regex IsoTime Json Objects Crypto Capability FileSystem DeviceAuth AuditLog NativeAudit AnchorKeys.
Local Open Scope string_scope.
Local Open Scope js_scope.

(** ** Data *)

Inductive recovery_error :=
| RequestEncoding | RequestIdentity | RequestGeneration | RequestFingerprint | RequestKey | RequestHistory | RequestPolicy
| RequestState | RequestWindow
| SignerIdInvalid | KeyPermissions | KeySize | KeyUnreadable | KeyNotEd25519
| AuthorizationEncoding | SignerNotTrusted | AuthorityKeyInvalid | AuthorizationStatement | AuthorizationSignature
| PolicyEncoding | PolicyNotValid | AuthorityEncoding | AuthorityIds | AuthorityKeysDuplicate | NotBoundToPolicy | ThresholdNotMet
| DuplicateSigner
| StatementEncoding | StatementIdentity | StatementGeneration | StatementReplacementKey | StatementReplacementFingerprint
| StatementHistory | StatementWindow | StatementNotBound
| ApprovalEncoding | ApprovalSigner | ApprovalNotTrusted | ApprovalSignatureInvalid | TooManyApprovals
| Anchored (e : anchor_error) | TypeFailure.

#[export] Instance recovery_error_eq_dec : EqDecision recovery_error.
Proof. solve_decision. Defined.

Definition REQUEST_KEYS : list string :=
  ["audit_entries"; "audit_head_hash"; "control_sequence"; "expires_at"; "from_fingerprint"; "from_generation"; "installation_id";
   "issued_at"; "latest_checkpoint_hash"; "latest_receipt_hash"; "lifecycle_head_hash"; "nonce"; "proposed_generation";
   "proposed_public_key"; "recovery_policy_hash"; "recovery_policy_id"; "recovery_policy_version"; "role"; "version"].
Definition AUTHORIZATION_KEYS : list string :=
  ["public_key_fingerprint"; "request_hash"; "signature"; "signed_at"; "signer_id"; "version"].
Definition POLICY_KEYS : list string := ["authorities"; "policy_id"; "threshold"; "version"].
Definition AUTHORITY_KEYS : list string := ["id"; "public_key"].
Definition ANCHOR_AUTHORIZATION_KEYS : list string :=
  ["created_at"; "expires_at"; "from_generation"; "installation_id"; "last_checkpoint_hash"; "last_checkpoint_index";
   "last_checkpoint_receipt_hash"; "lifecycle_head_hash"; "new_key_fingerprint"; "new_public_key"; "old_key_fingerprint";
   "operation_id"; "previous_anchor_event_hash"; "previous_anchor_event_index"; "previous_transition_hash";
   "previous_transition_receipt_hash"; "recovery_policy_hash"; "recovery_policy_id"; "recovery_request_id";
   "retiring_generation_pending_checkpoint_count"; "role"; "tenant"; "to_generation"; "version"].
Definition ANCHOR_APPROVAL_KEYS : list string := ["key_id"; "signature"].
Definition MAX_ANCHOR_AUTHORIZATION_MS : Z := 900000.
Definition MAX_CLOCK_SKEW_MS : Z := 5000.
Definition MAX_KEY_BYTES : Z := 16384.

Definition NONCE43 : re := times (fun c => alnum c || in_chars "_-" c) 43.
Definition ROLES : list string := ["git_signing"; "audit_checkpoint"; "session_approval"].

(** [re.test(value ?? "")] *)
Definition tests (r : re) (v : jsval) : bool := coerced_test r (nullish v (JStr "")).

(** [a === b] of values read from different texts: two objects are never the
    same. *)
Definition primitive (v : jsval) : bool :=
  match v with JArr _ | JObj _ | JBytes _ | JFun _ | JHost _ => false | _ => true end.
Definition strictly_equal (v w : jsval) : bool := primitive v && bool_decide (v = w).

(** [new Set(values).size === values.length] *)
Definition set_distinct (l : list jsval) : bool := all_distinct (filter (fun v => primitive v = true) l).

(** [values.sort()]: by their texts. *)
Definition sort_values (l : list jsval) : list jsval := map snd (sort_fields (map (fun v => (default "" (to_string v), v)) l)).

(** ** The host's requests *)

Section Requests.
Context `{HParse : DateParse} `{HSha : Sha256} `{HKeys : KeyObjects} `{HRead : Base64Reader} `{HPoint : P256Keys}.

Definition keyFingerprint (key : KeyDescription) : string := "SHA256:" +:+ sha256_base64url (spki_der key).

Definition parseEd25519PublicKey (value : jsval) : result recovery_error KeyDescription :=
  key ← of_option AuthorityKeyInvalid (import_value value);
  throw_if negb (String.eqb (asymmetricKeyType key) "ed25519") with AuthorityKeyInvalid ;; Ok key.

Definition requestHash (request : jsval) : string := sha256 (canonicalJson request).

Definition recoveryPolicyHash (policy : jsval) : result recovery_error string :=
  throw_if negb (exact_keys policy POLICY_KEYS) with PolicyEncoding ;; Ok (sha256 (canonicalJson policy)).

(** [validateRecoveryRequest]; its copy is the request. *)
Definition validateRecoveryRequest (request : jsval) (now : Z) : result recovery_error jsval :=
  throw_if negb (exact_keys request REQUEST_KEYS) with RequestEncoding ;;
  throw_if negb (is_int (get request "version") 1) || negb (tests SLUG (get request "installation_id"))
           || negb (one_of ROLES (get request "role")) with RequestIdentity ;;
  from ← of_option RequestGeneration (safe_integer (get request "from_generation"));
  to ← of_option RequestGeneration (safe_integer (get request "proposed_generation"));
  throw_if (from <? 1)%Z || negb (to =? from + 1)%Z with RequestGeneration ;;
  throw_if negb (tests FINGERPRINT (get request "from_fingerprint")) with RequestFingerprint ;;
  pem ← of_option RequestKey (as_str (get request "proposed_public_key"));
  throw_if Nat.ltb 4096 (String.length pem) || bool_decide (parseNativeAuditPublicKey (JStr pem) = None) with RequestKey ;;
  throw_if negb (tests HASH64 (get request "lifecycle_head_hash")) || negb (tests HASH64 (get request "audit_head_hash"))
           || negb (tests HASH64 (get request "latest_checkpoint_hash")) || negb (tests HASH64 (get request "latest_receipt_hash"))
    with RequestHistory ;;
  throw_if negb (is_int (get request "recovery_policy_version") 1) || negb (tests SLUG (get request "recovery_policy_id"))
           || negb (tests HASH64 (get request "recovery_policy_hash")) with RequestPolicy ;;
  throw_if negb (integer_in 0 MAX_SAFE_INTEGER (get request "audit_entries"))
           || negb (integer_in 0 MAX_SAFE_INTEGER (get request "control_sequence")) || negb (tests NONCE43 (get request "nonce"))
    with RequestState ;;
  issued ← of_option RequestWindow (parse_date (get request "issued_at"));
  expires ← of_option RequestWindow (parse_date (get request "expires_at"));
  throw_if (expires <=? issued)%Z || (900000 <? expires - issued)%Z || (now + 5000 <? issued)%Z || (expires <? now)%Z with RequestWindow ;;
  Ok request.

(** What an authority signs for a request. *)
Definition authorization_statement (authorization : jsval) : jsval :=
  JObj (fields authorization ["version"; "signer_id"; "request_hash"; "signed_at"; "public_key_fingerprint"]).

(** [verifyRecoveryAuthorization] *)
Definition verifyRecoveryAuthorization (request authorization authority : jsval) (now : Z) : result recovery_error jsval :=
  verified ← validateRecoveryRequest request now;
  throw_if negb (exact_keys authorization AUTHORIZATION_KEYS) with AuthorizationEncoding ;;
  throw_if negb (truthy authority) || negb (tests SLUG (get authority "id"))
           || negb (strictly_equal (get authority "id") (get authorization "signer_id")) with SignerNotTrusted ;;
  key ← parseEd25519PublicKey (get authority "public_key");
  issued ← of_option RequestWindow (parse_date (get verified "issued_at"));
  expires ← of_option RequestWindow (parse_date (get verified "expires_at"));
  signedAt ← of_option AuthorizationStatement (parse_date (get authorization "signed_at"));
  throw_if negb (is_int (get authorization "version") 1) || negb (is_str (get authorization "request_hash") (requestHash verified))
           || negb (is_str (get authorization "public_key_fingerprint") (keyFingerprint key))
           || (signedAt <? issued)%Z || (Z.min (now + 5000) expires <? signedAt)%Z with AuthorizationStatement ;;
  signature ← of_option AuthorizationSignature (canonical_base64 (get authorization "signature"));
  throw_if negb (Nat.eqb (String.length signature) 64
                 && bool_decide (verify_with key (canonicalJson (authorization_statement authorization)) signature = Some true))
    with AuthorizationSignature ;;
  Ok authorization.

(** [policy.authorities.find((item) => item.id === id)] *)
Definition find_authority (id : jsval) (authorities : list jsval) : jsval :=
  match list_find (fun a => strictly_equal (get a "id") id = true) authorities with Some (_, a) => a | None => JUndefined end.

(** The loop of [verifyRecoveryThreshold]: the signers accepted. *)
Fixpoint accept_authorizations (request : jsval) (authorities : list jsval) (now : Z) (accepted authorizations : list jsval)
    : result recovery_error (list jsval) :=
  match authorizations with
  | [] => Ok accepted
  | authorization :: authorizations =>
      throw_if includes accepted (get authorization "signer_id") with DuplicateSigner ;;
      verified ← verifyRecoveryAuthorization request authorization (find_authority (get authorization "signer_id") authorities) now;
      accept_authorizations request authorities now (accepted ++ [get verified "signer_id"]) authorizations
  end.

(** The policy's checks: its threshold, authorities and keys. *)
Definition check_policy (policy : jsval) : result recovery_error (Z * list jsval) :=
  throw_if negb (exact_keys policy POLICY_KEYS) with PolicyEncoding ;;
  throw_if negb (is_int (get policy "version") 1) || negb (tests SLUG (get policy "policy_id")) with PolicyNotValid ;;
  threshold ← of_option PolicyNotValid (safe_integer (get policy "threshold"));
  authorities ← match get policy "authorities" with JArr l => Ok l | _ => Throw PolicyNotValid end;
  throw_if (threshold <? 1)%Z || (Z.of_nat (length authorities) <? threshold)%Z with PolicyNotValid ;;
  throw_if negb (forallb (fun a => exact_keys a AUTHORITY_KEYS) authorities) with AuthorityEncoding ;;
  let ids := map (fun a => get a "id") authorities in
  throw_if negb (set_distinct ids) || negb (forallb (tests SLUG) ids) with AuthorityIds ;;
  keys ← map_result (fun a => parseEd25519PublicKey (get a "public_key")) authorities;
  throw_if negb (all_distinct (map keyFingerprint keys)) with AuthorityKeysDuplicate ;;
  Ok (threshold, authorities).

Record Threshold := mkThreshold { met : Z; signers : list jsval; request_hash : string }.

(** [verifyRecoveryThreshold] *)
Definition verifyRecoveryThreshold (request authorizations policy : jsval) (now : Z) : result recovery_error Threshold :=
  '(threshold, authorities) ← check_policy policy;
  throw_if match request with JUndefined | JNull => true | _ => false end with TypeFailure ;;
  hash ← recoveryPolicyHash policy;
  throw_if negb (strictly_equal (get request "recovery_policy_version") (get policy "version"))
           || negb (strictly_equal (get request "recovery_policy_id") (get policy "policy_id"))
           || negb (is_str (get request "recovery_policy_hash") hash) with NotBoundToPolicy ;;
  given ← match authorizations with JArr l => Ok l | _ => Throw ThresholdNotMet end;
  throw_if (Z.of_nat (length given) <? threshold)%Z with ThresholdNotMet ;;
  accepted ← accept_authorizations request authorities now [] given;
  throw_if (Z.of_nat (length accepted) <? threshold)%Z with ThresholdNotMet ;;
  Ok (mkThreshold threshold (sort_values accepted) (requestHash request)).
End Requests.

(** ** Signing with a key file *)

(** What [lstat] says of a directory on the path of a file: [acl] is whether
    [ls] lists access control entries, on the systems that have them. *)
Record Ancestor := mkAncestor { a_directory : bool; a_link : bool; a_root : bool; a_own : bool; a_mode : Z; a_acl : option bool }.

(** The file and its ancestors up to the root, in order, [None] where [lstat]
    fails; the link test of the file itself; the file that is opened, with its
    bytes, which may be others than its size says. *)
Record KeyFile := mkKeyFile { ancestors : list (option Ancestor); before : option bool; opened : option Stat; bytes : string }.

Definition protected (a : Ancestor) : bool :=
  let stickyRoot := a_directory a && a_root a && negb (Z.eqb (Z.land (a_mode a) 512) 0) in
  negb (a_link a && negb (a_root a)) && (a_own a || a_root a)
  && (Z.eqb (Z.land (a_mode a) 18) 0 || stickyRoot) && negb (default false (a_acl a)).

Definition assertProtectedAncestry (l : list (option Ancestor)) : bool :=
  forallb (fun a => match a with Some a => protected a | None => false end) l.

Definition openPrivateKeyFile (f : KeyFile) : result recovery_error Stat :=
  throw_if negb (assertProtectedAncestry (ancestors f)) with KeyPermissions ;;
  throw_if default true (before f) with KeyPermissions ;;
  of_option KeyPermissions (opened f).

Definition assertPrivateKeyStat (s : Stat) : bool :=
  isFile s && Z.eqb (nlink s) 1 && negb (permissive s) && owned s.

(** [readPrivateKeyFile] *)
Definition readPrivateKeyFile (f : KeyFile) : result recovery_error string :=
  stat ← openPrivateKeyFile f;
  throw_if negb (assertPrivateKeyStat stat) with KeyPermissions ;;
  throw_if (byte_size stat <=? 0)%Z || (MAX_KEY_BYTES <? byte_size stat)%Z with KeySize ;;
  throw_if Nat.eqb (String.length (bytes f)) 0 || (MAX_KEY_BYTES <? Z.of_nat (String.length (bytes f)))%Z with KeySize ;;
  Ok (bytes f).

Section Signing.
Context `{HParse : DateParse} `{HSha : Sha256} `{HKeys : KeyObjects} `{HRead : Base64Reader} `{HPoint : P256Keys} `{HSign : SigningKeys}.

Definition read_private (signerID : jsval) (f : KeyFile) : result recovery_error PrivateKey :=
  throw_if negb (tests SLUG signerID) with SignerIdInvalid ;;
  text ← readPrivateKeyFile f;
  private ← of_option KeyUnreadable (import_private (JBytes text));
  throw_if negb (String.eqb (asymmetricKeyType (public_of private)) "ed25519") with KeyNotEd25519 ;; Ok private.

(** [signRecoveryRequest] *)
Definition signRecoveryRequest (request : jsval) (f : KeyFile) (signerID : jsval) (now : Z) : result recovery_error jsval :=
  verified ← validateRecoveryRequest request now;
  private ← read_private signerID f;
  let statement := [("version", JNum (NInt 1)); ("signer_id", signerID); ("request_hash", JStr (requestHash verified));
                    ("signed_at", JStr (to_iso now)); ("public_key_fingerprint", JStr (keyFingerprint (public_of private)))] in
  Ok (JObj (statement ++ [("signature", JStr (base64 (sign_with private (canonicalJson (JObj statement)))))])%list).

(** ** The anchor's authorizations *)

Definition lift_anchor {A} (m : result anchor_error A) : result recovery_error A :=
  match m with Ok a => Ok a | Throw e => Throw (Anchored e) end.

(** [recoveryPolicyToAnchorPolicy] *)
Definition recoveryPolicyToAnchorPolicy (policy : jsval) : result recovery_error RecoveryPolicy :=
  throw_if negb (exact_keys policy POLICY_KEYS) with PolicyEncoding ;;
  throw_if negb (is_int (get policy "version") 1) || negb (tests SLUG (get policy "policy_id")) with PolicyNotValid ;;
  threshold ← of_option PolicyNotValid (safe_integer (get policy "threshold"));
  authorities ← match get policy "authorities" with JArr l => Ok l | _ => Throw PolicyNotValid end;
  throw_if (threshold <? 1)%Z || Nat.ltb (length authorities) 1 || Nat.ltb 16 (length authorities)
           || (Z.of_nat (length authorities) <? threshold)%Z with PolicyNotValid ;;
  throw_if negb (forallb (fun a => exact_keys a AUTHORITY_KEYS) authorities) with AuthorityEncoding ;;
  lift_anchor (createAnchorRecoveryPolicy (get policy "policy_id") (get policy "threshold")
    (JArr (map (fun a => JObj (fields a ["id"; "public_key"])) authorities))).

(** [createdAt], [expiresAt] and the time at hand. *)
Definition authorization_window (st : jsval) (now : Z) : bool :=
  match parse_date (get st "created_at"), parse_date (get st "expires_at") with
  | Some createdAt, Some expiresAt =>
      is_str (get st "created_at") (to_iso createdAt) && is_str (get st "expires_at") (to_iso expiresAt)
      && (createdAt <? expiresAt)%Z && (expiresAt - createdAt <=? MAX_ANCHOR_AUTHORIZATION_MS)%Z
      && (createdAt <=? now + MAX_CLOCK_SKEW_MS)%Z && (now <=? expiresAt)%Z
  | _, _ => false
  end.

(** [validateAnchorRecoveryAuthorization]; its copy is the statement. *)
Definition validateAnchorRecoveryAuthorization (value : jsval) (now : Z) : result recovery_error jsval :=
  throw_if negb (exact_keys value ANCHOR_AUTHORIZATION_KEYS) with StatementEncoding ;;
  let st := anchorRecoveryAuthorization value in
  throw_if negb (is_int (get st "version") 3) || negb (tests SLUG (get st "tenant")) || negb (tests SLUG (get st "installation_id"))
           || negb (is_str (get st "role") "audit_checkpoint") || negb (tests SLUG (get st "operation_id"))
           || negb (tests SLUG (get st "recovery_request_id")) || negb (tests SLUG (get st "recovery_policy_id"))
           || negb (tests HASH64 (get st "recovery_policy_hash")) with StatementIdentity ;;
  from ← of_option StatementGeneration (safe_integer (get st "from_generation"));
  to ← of_option StatementGeneration (safe_integer (get st "to_generation"));
  throw_if (from <? 1)%Z || negb (to =? from + 1)%Z || negb (tests FINGERPRINT (get st "old_key_fingerprint"))
           || negb (tests FINGERPRINT (get st "new_key_fingerprint"))
           || strictly_equal (get st "new_key_fingerprint") (get st "old_key_fingerprint") with StatementGeneration ;;
  replacement ← of_option StatementReplacementKey (parseNativeAuditPublicKey (get st "new_public_key"));
  throw_if negb (is_str (get st "new_key_fingerprint") (nativeAuditPublicKeyFingerprint replacement)) with StatementReplacementFingerprint ;;
  throw_if negb (forallb (fun k => tests HASH64 (get st k))
                   ["lifecycle_head_hash"; "previous_transition_hash"; "previous_transition_receipt_hash"; "last_checkpoint_hash";
                    "last_checkpoint_receipt_hash"; "previous_anchor_event_hash"])
           || negb (integer_in 1 MAX_SAFE_INTEGER (get st "last_checkpoint_index"))
           || negb (integer_in 1 MAX_SAFE_INTEGER (get st "previous_anchor_event_index"))
           || negb (is_int (get st "retiring_generation_pending_checkpoint_count") 0) with StatementHistory ;;
  throw_if negb (authorization_window st now) with StatementWindow ;;
  Ok st.

(** [signAnchorRecoveryAuthorization] *)
Definition signAnchorRecoveryAuthorization (authorization : jsval) (f : KeyFile) (signerID : jsval) (now : Z) : result recovery_error jsval :=
  st ← validateAnchorRecoveryAuthorization authorization now;
  private ← read_private signerID f;
  Ok (JObj [("key_id", signerID); ("signature", JStr (base64 (sign_with private (canonicalJson st))))]).

(** The loop of [verifyAnchorRecoveryApprovals]: the approvals with their keys'
    identifiers. *)
Fixpoint accept_approvals (st : jsval) (keys : list PolicyKey) (accepted : list (string * jsval)) (approvals : list jsval)
    : result recovery_error (list (string * jsval)) :=
  match approvals with
  | [] => Ok accepted
  | approval :: approvals =>
      throw_if negb (exact_keys approval ANCHOR_APPROVAL_KEYS) with ApprovalEncoding ;;
      throw_if negb (tests SLUG (get approval "key_id")) with ApprovalSigner ;;
      id ← of_option ApprovalNotTrusted (as_str (get approval "key_id"));
      throw_if includes (map fst accepted) id with ApprovalSigner ;;
      trusted ← of_option ApprovalNotTrusted (find_key id keys);
      signature ← of_option ApprovalSignatureInvalid (canonical_base64 (get approval "signature"));
      key ← parseEd25519PublicKey (JStr (key_pem trusted));
      throw_if negb (Nat.eqb (String.length signature) 64 && bool_decide (verify_with key (canonicalJson st) signature = Some true))
        with ApprovalSignatureInvalid ;;
      accept_approvals st keys (accepted ++ [(id, approval)]) approvals
  end.

(** [verifyAnchorRecoveryApprovals]: the evidence of a transition. *)
Definition verifyAnchorRecoveryApprovals (authorization policy approvals : jsval) (now : Z) : result recovery_error jsval :=
  st ← validateAnchorRecoveryAuthorization authorization now;
  anchorPolicy ← recoveryPolicyToAnchorPolicy policy;
  throw_if negb (is_str (get st "recovery_policy_id") (policy_id anchorPolicy))
           || negb (is_str (get st "recovery_policy_hash") (policy_hash anchorPolicy)) with StatementNotBound ;;
  given ← match approvals with JArr l => Ok l | _ => Throw ThresholdNotMet end;
  throw_if (Z.of_nat (length given) <? threshold anchorPolicy)%Z with ThresholdNotMet ;;
  accepted ← accept_approvals st (policy_keys anchorPolicy) [] given;
  throw_if Nat.ltb (length (policy_keys anchorPolicy)) (length given) with TooManyApprovals ;;
  throw_if (Z.of_nat (length accepted) <? threshold anchorPolicy)%Z with ThresholdNotMet ;;
  Ok (JObj [("version", JNum (NInt 1)); ("policy", policy_js anchorPolicy); ("authorization", st);
            ("approvals", JArr (map snd (sort_fields accepted)))]).
End Signing.
