(* ===== verification/RecoverySpec.v ===== *)
(** * What a recovery proves (lib/recovery.mjs, lib/anchor.mjs)

    A request that meets the threshold was signed, for this request and in its
    time, by as many authorities with different keys; and the evidence that the
    ceremony makes of approvals is accepted by the anchor. *)

From stdpp Require Import base tactics list sets strings.
From Stdlib Require Import Ascii.
From S2P Require Import Prelude JsValue Regex IsoTime Json Objects Crypto Capability FileSystem DeviceAuth AuditLog NativeAudit AnchorKeys AnchorKeysFacts Recovery.
Local Open Scope string_scope.
Local Open Scope js_scope.

Section Thresholds.
Context `{HParse : DateParse} `{HSha : Sha256} `{HKeys : KeyObjects} `{HRead : Base64Reader} `{HPoint : P256Keys}.

(** The fingerprint of an authority's key. *)
Definition authority_key (a : jsval) : string :=
  match parseEd25519PublicKey (get a "public_key") with Ok key => keyFingerprint key | Throw _ => "" end.

(** An authority signed for a request, between its times and by now. *)
Definition signed_for (request : jsval) (now : Z) (a : jsval) : Prop :=
  exists key bytes st issued expires signedAt,
    parseEd25519PublicKey (get a "public_key") = Ok key /\ verify_with key (canonicalJson st) bytes = Some true /\
    get st "request_hash" = JStr (requestHash request) /\ get st "signer_id" = get a "id" /\
    get st "public_key_fingerprint" = JStr (authority_key a) /\
    parse_date (get request "issued_at") = Some issued /\ parse_date (get request "expires_at") = Some expires /\
    parse_date (get st "signed_at") = Some signedAt /\ (issued <= signedAt <= Z.min (now + 5000) expires)%Z.

Lemma strictly_equal_ok v w : strictly_equal v w = true -> v = w /\ primitive v = true.
Proof. unfold strictly_equal. intros [? ?]%andb_true_iff. by guards. Qed.

Lemma validateRecoveryRequest_same request now verified : validateRecoveryRequest request now = Ok verified -> verified = request.
Proof. intros H. unfold validateRecoveryRequest in H. run_steps H. by injection H as <-. Qed.

Lemma find_authority_ok id authorities a :
  find_authority id authorities = a -> truthy a = true -> a ∈ authorities /\ get a "id" = id.
Proof.
  unfold find_authority. destruct (list_find _ _) as [[i b]|] eqn:E; [|by intros <- ?]. intros <- _.
  apply list_find_Some in E as (Hl & Hs & _). split; [by eapply list_elem_of_lookup_2|by apply strictly_equal_ok in Hs as [? _]].
Qed.

Lemma authorization_ok request authorization authority now verified :
  verifyRecoveryAuthorization request authorization authority now = Ok verified ->
  validateRecoveryRequest request now = Ok request /\ truthy authority = true /\ get verified "signer_id" = get authority "id" /\
  primitive (get authority "id") = true /\ get authorization "signer_id" = get authority "id" /\ signed_for request now authority.
Proof.
  intros H. unfold verifyRecoveryAuthorization in H. run_steps H. injection H as <-. guards.
  match goal with H : validateRecoveryRequest _ _ = Ok ?v |- _ => pose proof (validateRecoveryRequest_same _ _ _ H) as -> end.
  match goal with H : strictly_equal _ _ = true |- _ => apply strictly_equal_ok in H as [Hid Hp] end.
  split_and!; try done. unfold signed_for, authority_key.
  match goal with H : parseEd25519PublicKey _ = Ok _ |- _ => rewrite H end.
  do 6 eexists. split; [reflexivity|]. split; [eassumption|]. rewrite Hid.
  repeat match goal with H : is_str _ _ = true |- _ => apply is_str_true in H end.
  unfold authorization_statement. split_and!; try done; lia.
Qed.

Lemma accept_ok request authorities now authorizations : forall accepted out,
  accept_authorizations request authorities now accepted authorizations = Ok out -> NoDup accepted ->
  exists ids, out = (accepted ++ ids)%list /\ NoDup out /\ length ids = length authorizations /\
    (authorizations <> [] -> validateRecoveryRequest request now = Ok request) /\
    Forall (fun id => exists a, a ∈ authorities /\ get a "id" = id /\ signed_for request now a) ids.
Proof.
  induction authorizations as [|x l IH]; intros accepted out; cbn [accept_authorizations].
  - intros [= ->] Hn. exists []. by rewrite app_nil_r.
  - intros H Hn. run_steps H. match goal with H : includes _ _ = false |- _ => apply includes_false in H end.
    match goal with H : verifyRecoveryAuthorization _ _ _ _ = Ok _ |- _ => apply authorization_ok in H as (Hv & Ht & Hid & _ & Hs & Hsig) end.
    destruct (find_authority_ok _ _ _ eq_refl Ht) as [Hin _].
    apply IH in H as (ids & -> & Hd & Hl & _ & Hf).
    2: { apply NoDup_app. split_and!; [done| |apply NoDup_singleton]. rewrite Hid, <- Hs. set_solver. }
    eexists (_ :: ids). rewrite <- app_assoc in *. cbn [app length] in *. split_and!; [done..|by f_equal|done|].
    constructor; [|done]. by eexists.
Qed.

Lemma check_policy_ok policy threshold authorities :
  check_policy policy = Ok (threshold, authorities) ->
  get policy "threshold" = JNum (NInt threshold) /\ get policy "authorities" = JArr authorities /\ (1 <= threshold)%Z /\
  NoDup (map authority_key authorities).
Proof.
  intros H. unfold check_policy in H. run_steps H. injection H as <- <-. guards.
  match goal with H : safe_integer _ = Some _ |- _ => apply safe_integer_Some in H as [Ht _] end.
  match goal with H : match ?v with _ => _ end = Ok _ |- _ => destruct v eqn:Ea; try done; injection H as -> end.
  match goal with H : map_result _ _ = Ok ?l |- _ => apply map_result_ok in H as Hk end.
  match goal with H : all_distinct (map keyFingerprint _) = true |- _ => apply all_distinct_true in H as Hd end.
  split_and!; try done. assert (map authority_key x0 = map keyFingerprint x1) as ->; [|done].
  clear -Hk. induction Hk as [|a k l l' Ha _ IH]; [done|]. cbn [map]. rewrite IH. f_equal. unfold authority_key. by rewrite Ha.
Qed.

Lemma sort_values_perm l : sort_values l ≡ₚ l.
Proof. unfold sort_values. rewrite sort_fields_perm, map_map. by rewrite map_id. Qed.

(** C12: a recovery needs its threshold.  When [verifyRecoveryThreshold] accepts, the
    request is valid now and names this policy by its hash; and at least as many
    authorities of the policy as its threshold, with keys that all differ, each
    signed this request, after it was issued and before it expires. *)
Theorem recovery_threshold_sound request authorizations policy now out :
  verifyRecoveryThreshold request authorizations policy now = Ok out ->
  validateRecoveryRequest request now = Ok request /\ request_hash out = requestHash request /\
  get request "recovery_policy_hash" = JStr (sha256 (canonicalJson policy)) /\
  (1 <= met out)%Z /\ get policy "threshold" = JNum (NInt (met out)) /\
  exists authorities agreed, get policy "authorities" = JArr authorities /\ agreed ⊆ authorities /\
    NoDup (map authority_key agreed) /\ (met out <= Z.of_nat (length agreed))%Z /\
    signers out ≡ₚ map (fun a => get a "id") agreed /\ Forall (signed_for request now) agreed.
Proof.
  intros H. unfold verifyRecoveryThreshold in H. apply bind_ok in H as ([threshold authorities] & Hp & H). run_steps H. injection H as <-.
  apply check_policy_ok in Hp as (Ht & Ha & H1 & Hk). guards. cbn [met signers request_hash].
  match goal with H : accept_authorizations _ _ _ _ _ = Ok _ |- _ => apply accept_ok in H as (ids & -> & Hd & Hl & Hv & Hs); [|constructor] end.
  apply chosen_by in Hs as (agreed & <- & Hsub & Hall). rewrite length_map in Hl. cbn [app] in *.
  split_and!; try done.
  - apply Hv. intros ->. cbn in *. lia.
  - match goal with H : recoveryPolicyHash _ = Ok _ |- _ => unfold recoveryPolicyHash in H; run_steps H; injection H as <- end.
    by apply is_str_true.
  - exists authorities, agreed. rewrite length_map in *. split_and!; try done; [by eapply NoDup_map_sub|apply sort_values_perm].
Qed.
End Thresholds.

(** ** Approvals in order *)

Lemma sort_fields_strings {A} (fs : list (string * A)) : map fst (sort_fields fs) = sort_strings (map fst fs).
Proof.
  assert (forall k (a : A) l, map fst (insert_field k a l) = insert_string k (map fst l)) as Hi.
  { intros k a l. induction l as [|[k' a'] l IH]; [done|]. cbn [insert_field map insert_string fst]. destruct (String.leb k k'); [done|].
    cbn [map fst]. by rewrite IH. }
  induction fs as [|[k a] fs IH]; [done|]. cbn [sort_fields map fst]. rewrite Hi, IH. reflexivity.
Qed.

(** Every text is above the one before it. *)
Fixpoint rising (previous : string) (l : list string) : Prop :=
  match l with [] => True | s :: l => String.leb s previous = false /\ rising s l end.

Lemma ascending_rising l : ascending l -> NoDup l -> "" ∉ l -> rising "" l.
Proof.
  assert (forall s l, ascending (s :: l) -> NoDup (s :: l) -> rising s l) as Hs.
  { intros s l'. revert s. induction l' as [|t l' IH]; [done|]. intros s [Hle Ha] [Hs Hn]%NoDup_cons. split; [|by apply IH].
    destruct (String.leb t s) eqn:E; [|done]. destruct Hs. rewrite (String.leb_antisym _ _ Hle E). set_solver. }
  destruct l as [|s l]; [done|]. intros Ha Hn Hne. split; [|by apply Hs]. destruct s; [set_solver|done].
Qed.

Section Evidence.
Context `{HParse : DateParse} `{HSha : Sha256} `{HKeys : KeyObjects} `{HRead : Base64Reader} `{HPoint : P256Keys} `{HSign : SigningKeys}
  `{HEc : EcKeys}.

(** A text has no property [type]. *)
Hypothesis text_untyped : forall s, value_type (JStr s) = None.

(** An approval of a key of the policy, ready for the anchor. *)
Definition good_approval (P : RecoveryPolicy) (st : jsval) (a : string * jsval) : Prop :=
  exact_keys a.2 ANCHOR_APPROVAL_KEYS = true /\ get a.2 "key_id" = JStr a.1 /\ re_test SLUG a.1 = true /\
  exists k, find_key a.1 (policy_keys P) = Some k /\ verifyEd25519Signature (key_pem k) st (get a.2 "signature") = true.

Lemma accept_approvals_ok P st approvals : forall accepted out,
  accept_approvals st (policy_keys P) accepted approvals = Ok out -> NoDup (map fst accepted) -> Forall (good_approval P st) accepted ->
  NoDup (map fst out) /\ Forall (good_approval P st) out /\ length out = (length accepted + length approvals)%nat.
Proof.
  induction approvals as [|a l IH]; intros accepted out; cbn [accept_approvals].
  - intros [= ->] Hn Hg. cbn. split_and!; [done..|lia].
  - intros H Hn Hg. run_steps H. guards. match goal with H : includes _ _ = false |- _ => apply includes_false in H as Hi end.
    match goal with H : as_str _ = Some ?s |- _ => destruct (get a "key_id") eqn:Ek; try done; injection H as -> end.
    apply IH in H as (Hn' & Hg' & Hl).
    + split_and!; [done..|]. rewrite Hl, length_app. cbn. lia.
    + rewrite map_app. apply NoDup_app. split_and!; [done|set_solver|apply NoDup_singleton].
    + apply Forall_app. split; [done|]. apply Forall_singleton. split_and!; [done..|]. eexists. split; [eassumption|].
      unfold verifyEd25519Signature. cbn [snd]. match goal with H : canonical_base64 _ = Some _ |- _ => rewrite H end.
      match goal with H : parseEd25519PublicKey _ = Ok _ |- _ => unfold parseEd25519PublicKey in H; run_steps H; injection H as <- end.
      unfold assertEd25519PublicKey, public_key. rewrite text_untyped. cbn [bool_decide decide_rel]. guards.
      rewrite bool_decide_eq_false_2 by done.
      match goal with H : import_value _ = Some _ |- _ => rewrite H end. cbn [mbind option_bind].
      match goal with H : asymmetricKeyType _ = _ |- _ => rewrite H end. cbn [String.eqb Ascii.eqb Bool.eqb].
      rewrite andb_true_iff, bool_decide_eq_true. done.
Qed.

Lemma check_approvals_sorted P st l : forall signers previous,
  Forall (good_approval P st) l -> rising previous (map fst l) -> NoDup (signers ++ map fst l) ->
  check_approvals P st signers previous (map snd l) = Ok (signers ++ map fst l)%list.
Proof.
  induction l as [|[id a] l IH]; intros signers previous Hg Hr Hn; [by rewrite app_nil_r|].
  apply Forall_cons in Hg as [(Hk & Hid & Hs & k & Hf & Hv) Hg]. destruct Hr as [Hle Hr]. cbn [map fst snd check_approvals] in *.
  change (exact_keys a ["key_id"; "signature"]) with (exact_keys a ANCHOR_APPROVAL_KEYS). rewrite Hk, Hid.
  unfold isSlug, str_test. rewrite Hs. cbn [negb orb as_str of_option mbind result_bind]. rewrite Hle.
  assert (includes signers id = false) as ->. { apply includes_false. apply NoDup_app in Hn as (_ & Hn & _). set_solver. }
  cbn [orb]. rewrite Hf. cbn [of_option mbind result_bind]. rewrite Hv. cbn [negb]. rewrite IH; [|done..|].
  - by rewrite <- app_assoc.
  - by rewrite <- app_assoc.
Qed.
Lemma validated_statement authorization now st :
  validateAnchorRecoveryAuthorization authorization now = Ok st ->
  st = anchorRecoveryAuthorization authorization /\ authorization_window st now = true /\ is_str (get st "role") "audit_checkpoint" = true.
Proof.
  intros H. unfold validateAnchorRecoveryAuthorization in H. run_steps H. injection H as <-. guards. done.
Qed.

(** The evidence of a transition. *)
Definition evidence_js (P : RecoveryPolicy) (st : jsval) (approvals : list jsval) : jsval :=
  JObj [("version", JNum (NInt 1)); ("policy", policy_js P); ("authorization", st); ("approvals", JArr approvals)].

Lemma evidence_checked P st approvals ids :
  (threshold P <= Z.of_nat (length approvals))%Z -> length approvals <= length (policy_keys P) ->
  check_approvals P st [] "" approvals = Ok ids -> check_evidence (evidence_js P st approvals) st P = Ok ids.
Proof.
  intros Ht Hl Hc. unfold check_evidence. set (e := evidence_js P st approvals). change (exact_keys e EVIDENCE_KEYS) with true.
  change (get e "version") with (JNum (NInt 1)). change (get e "authorization") with st. change (get e "policy") with (policy_js P).
  change (get e "approvals") with (JArr approvals). rewrite !String.eqb_refl. cbn [negb orb mbind result_bind is_int].
  rewrite (proj2 (Z.ltb_ge _ _) Ht), (proj2 (Nat.ltb_ge _ _) Hl). exact Hc.
Qed.

Lemma ceremony_evidence authorization policy approvals now evidence :
  verifyAnchorRecoveryApprovals authorization policy approvals now = Ok evidence ->
  exists P st ids, recoveryPolicyToAnchorPolicy policy = Ok P /\ validateAnchorRecoveryAuthorization authorization now = Ok st /\
    get st "recovery_policy_id" = JStr (policy_id P) /\ get st "recovery_policy_hash" = JStr (policy_hash P) /\
    check_evidence evidence st P = Ok ids.
Proof.
  intros H. unfold verifyAnchorRecoveryApprovals in H. run_steps H. injection H as <-. guards.
  match goal with H : accept_approvals ?s _ _ _ = Ok ?l, H' : recoveryPolicyToAnchorPolicy _ = Ok ?p |- _ =>
    rename l into accepted; exists p, s, (map fst (sort_fields accepted)); apply accept_approvals_ok in H as (Hn & Hg & Hl); [|constructor..] end.
  repeat match goal with H : is_str _ _ = true |- _ => apply is_str_true in H end. split_and!; try done.
  pose proof (sort_fields_perm accepted) as Hp. cbn [length Nat.add] in Hl.
  apply evidence_checked; rewrite ?length_map, ?Hp; [lia| |].
  - match goal with H : Nat.ltb _ _ = false |- _ => apply Nat.ltb_ge in H end. lia.
  - apply (check_approvals_sorted x0 x (sort_fields accepted) [] ""); [by rewrite Hp| |by cbn [app]; rewrite Hp].
    apply ascending_rising; [rewrite sort_fields_strings; apply sort_ascending|by rewrite Hp|]. rewrite Hp.
    intros (a & Ha & Hin)%list_elem_of_fmap. rewrite Forall_forall in Hg. apply Hg in Hin as (_ & _ & Hs & _). by rewrite <- Ha in Hs.
Qed.

(** The transition that a recovery submits. *)
Definition recovery_transition (st evidence : jsval) (new_signature : string) : jsval :=
  let copy := (fields_of st ++ [("recovery_evidence", evidence); ("new_signature", JStr new_signature)])%list in
  JObj (copy ++ [("transition_hash", JStr (hashCanonical (JObj copy)))])%list.

(** The evidence passes the checks of [verifyRecoveryKeyTransition]. *)
Lemma evidence_verified authorization policy approvals now evidence P pinned replacement x new_signature :
  verifyAnchorRecoveryApprovals authorization policy approvals now = Ok evidence ->
  recoveryPolicyToAnchorPolicy policy = Ok P -> normalizeRecoveryPolicy pinned = Ok P ->
  let st := anchorRecoveryAuthorization authorization in
  let transition := recovery_transition st evidence new_signature in
  recoveryTrust x = Some (get st "installation_id", pinned) -> x_now x = Some now ->
  isSlug (get st "installation_id") = true -> isSlug (get st "recovery_request_id") = true ->
  get st "recovery_request_id" ∉ usedRecoveryRequestIds x ->
  verifyAuditKeySignature replacement st (JStr new_signature) (requireLowS x) = true ->
  verifyRecoveryKeyTransition transition st replacement x = Ok transition.
Proof.
  intros (P' & st' & ids & HP & Hst & Hid & Hh & He)%ceremony_evidence HP' Hpin st transition Ht Hnow Hi Hr Hu Hs.
  rewrite HP in HP'. injection HP' as <-. apply validated_statement in Hst as (-> & Hw & Hrole).
  unfold verifyRecoveryKeyTransition. rewrite Ht. cbn [of_option mbind result_bind]. rewrite Hpin. cbn [mbind result_bind].
  fold st in He, Hid, Hh, Hw, Hrole. rewrite Hi, Hrole, Hr, Hid, Hh. rewrite bool_decide_eq_true_2 by done.
  rewrite (proj2 (includes_false _ _) Hu). cbn [is_str negb orb]. rewrite !String.eqb_refl.
  assert (check_window st x = true) as ->.
  { unfold check_window, authorization_window in *. rewrite Hnow. repeat case_match; try done. by rewrite andb_assoc. }
  change (get transition "recovery_evidence") with evidence. rewrite He. cbn [mbind result_bind negb orb].
  change (replacement_signs replacement st transition x) with (verifyAuditKeySignature replacement st (JStr new_signature) (requireLowS x)).
  rewrite Hs. cbn [negb]. unfold hashed. change (get transition "new_signature") with (JStr new_signature).
  change (get transition "transition_hash") with (JStr (hashCanonical (JObj (fields_of st ++ [("recovery_evidence", evidence); ("new_signature", JStr new_signature)])%list))).
  cbn [is_str]. by rewrite String.eqb_refl.
Qed.
(** C28: the anchor accepts what the ceremony makes.  Take the evidence of
    [verifyAnchorRecoveryApprovals] and put it into a transition with the
    signature of the replacement key.  The transition is decoded, and
    [verifyKeyTransition] accepts it for a tenant, when the authorization states
    the tenant's head and a new key (the anchor's checks of the statement and of
    the replacement key, which the ceremony does not make, hold); the anchor
    pinned the same policy for the installation; the time is that of the
    ceremony; the identifiers of the installation and of the request are texts
    of the form of a slug (the ceremony's own test also lets through values that
    convert to such texts, which the anchor refuses); the request was not used;
    and the replacement key signed the statement. *)
Theorem recovery_evidence_accepted authorization policy approvals now evidence P pinned active replacement createdAt x new_signature :
  verifyAnchorRecoveryApprovals authorization policy approvals now = Ok evidence ->
  recoveryPolicyToAnchorPolicy policy = Ok P -> normalizeRecoveryPolicy pinned = Ok P ->
  let st := anchorRecoveryAuthorization authorization in
  let transition := recovery_transition st evidence new_signature in
  check_statement st active x = Ok createdAt -> check_replacement st active x = Ok replacement ->
  recoveryTrust x = Some (get st "installation_id", pinned) -> x_now x = Some now ->
  isSlug (get st "installation_id") = true -> isSlug (get st "recovery_request_id") = true ->
  get st "recovery_request_id" ∉ usedRecoveryRequestIds x ->
  verifyAuditKeySignature replacement st (JStr new_signature) (requireLowS x) = true ->
  decodeKeyTransition transition = Ok transition /\ transition_statement transition = st /\
  verifyKeyTransition transition active x = Ok transition.
Proof.
  intros He HP Hpin st transition Hst Hrep Ht Hnow Hi Hr Hu Hs.
  assert (transition_statement transition = st) as E by reflexivity.
  split_and!; [reflexivity|done|]. unfold verifyKeyTransition. rewrite E, Hst. cbn [mbind result_bind]. rewrite Hrep. cbn [mbind result_bind].
  change (is_int (get transition "version") 3) with true. cbv iota.
  by apply (evidence_verified authorization policy approvals now evidence P pinned replacement x new_signature).
Qed.
End Evidence.

(** ** Examples: two of two authorities *)

Module Ceremony.
#[local] Existing Instances iso_date_parse toy_sha256 NativeAudit.Sample.key_objects NativeAudit.Sample.reader NativeAudit.Sample.p256_keys
  NativeAudit.Sample.ec_keys NativeAudit.Sample.signing_keys.

Definition time : Z := 1700000000000.
Definition hash : jsval := JStr ZERO_HASH.
Definition number (n : Z) : jsval := JNum (NInt n).
Definition fingerprint_of (c : ascii) : jsval := JStr (fingerprint (NativeAudit.Sample.p256_identity c)).

Definition authority (id name : string) : jsval := JObj [("id", JStr id); ("public_key", JStr name)].
Definition policy : jsval :=
  JObj [("version", number 1); ("policy_id", JStr "recovery"); ("threshold", number 2);
        ("authorities", JArr [authority "bob" "ed:bob"; authority "alice" "ed:alice"; authority "carol" "ed:carol"])].

(** The file of a key: its text is the key's name. *)
Definition key_file (name : string) : KeyFile :=
  mkKeyFile [Some (mkAncestor true false true false 493 None)] (Some false)
    (Some (mkStat true false false true 384 1 (Z.of_nat (String.length name)))) name.

Definition get_ok {E} (m : result E jsval) : jsval := match m with Ok v => v | Throw _ => JUndefined end.

Definition request : jsval :=
  JObj [("version", number 1); ("installation_id", JStr "host-1"); ("role", JStr "git_signing"); ("from_generation", number 1);
        ("proposed_generation", number 2); ("from_fingerprint", fingerprint_of "a");
        ("proposed_public_key", JStr (NativeAudit.Sample.p256_text "b")); ("lifecycle_head_hash", hash); ("audit_head_hash", hash);
        ("latest_checkpoint_hash", hash); ("latest_receipt_hash", hash); ("recovery_policy_version", number 1);
        ("recovery_policy_id", JStr "recovery");
        ("recovery_policy_hash", match recoveryPolicyHash policy with Ok h => JStr h | Throw _ => JNull end);
        ("audit_entries", number 7); ("control_sequence", number 0); ("nonce", JStr (NativeAudit.Sample.repeated 43 "n"));
        ("issued_at", JStr (to_iso time)); ("expires_at", JStr (to_iso (time + 600000)))].

Definition signed_by_host (id name : string) : jsval := get_ok (signRecoveryRequest request (key_file name) (JStr id) (time + 1000)).
Definition authorizations : jsval := JArr [signed_by_host "bob" "ed:bob"; signed_by_host "alice" "ed:alice"].
Definition outcome : Threshold := mkThreshold 2 [JStr "alice"; JStr "bob"] (requestHash request).

(** The anchor's statement, for the key that is lost and its replacement. *)
Definition anchor_policy : RecoveryPolicy :=
  match recoveryPolicyToAnchorPolicy policy with Ok p => p | Throw _ => mkPolicy "" 0 [] "" end.
Definition statement : jsval :=
  anchorRecoveryAuthorization (JObj
    [("tenant", JStr "tenant-1"); ("installation_id", JStr "host-1"); ("role", JStr "audit_checkpoint"); ("operation_id", JStr "operation-1");
     ("recovery_request_id", JStr "request-1"); ("recovery_policy_id", JStr "recovery"); ("recovery_policy_hash", JStr (policy_hash anchor_policy));
     ("from_generation", number 1); ("to_generation", number 2); ("old_key_fingerprint", fingerprint_of "a");
     ("new_key_fingerprint", fingerprint_of "b"); ("new_public_key", JStr (NativeAudit.Sample.p256_text "b")); ("lifecycle_head_hash", hash);
     ("created_at", JStr (to_iso time)); ("expires_at", JStr (to_iso (time + 600000))); ("previous_transition_hash", hash);
     ("previous_transition_receipt_hash", hash); ("last_checkpoint_index", number 1); ("last_checkpoint_hash", hash);
     ("last_checkpoint_receipt_hash", hash); ("previous_anchor_event_index", number 1); ("previous_anchor_event_hash", hash);
     ("retiring_generation_pending_checkpoint_count", number 0)]).

Definition approval (id name : string) : jsval :=
  get_ok (signAnchorRecoveryAuthorization statement (key_file name) (JStr id) (time + 1000)).
Definition approvals : jsval := JArr [approval "carol" "ed:carol"; approval "alice" "ed:alice"].
Definition evidence : jsval := get_ok (verifyAnchorRecoveryApprovals statement policy approvals (time + 2000)).
Definition expected : Expected :=
  mkExpected "tenant-1" 2 hash JUndefined [fingerprint (NativeAudit.Sample.p256_identity "a")] [JStr "request-0"]
    (Some (JStr "host-1", policy_js anchor_policy)) true (Some (time + 2000)%Z).

(** The key of the tenant that is lost. *)
Definition active : KeyEntry := mkEntry (NativeAudit.Sample.p256_identity "a") 1 hash.
Definition new_signature : string :=
  match NativeAudit.Sample.p256_signature "b" statement with JStr s => s | _ => "" end.
End Ceremony.

#[local] Existing Instances iso_date_parse toy_sha256 NativeAudit.Sample.key_objects NativeAudit.Sample.reader NativeAudit.Sample.p256_keys
  NativeAudit.Sample.ec_keys NativeAudit.Sample.signing_keys.

Lemma recovery_threshold_sound_witness :
  verifyRecoveryThreshold Ceremony.request Ceremony.authorizations Ceremony.policy (Ceremony.time + 2000) = Ok Ceremony.outcome /\
  (1 <= met Ceremony.outcome)%Z.
Proof.
  assert (verifyRecoveryThreshold Ceremony.request Ceremony.authorizations Ceremony.policy (Ceremony.time + 2000) = Ok Ceremony.outcome) as H
    by (vm_compute; reflexivity).
  split; [exact H|]. exact (proj1 (proj2 (proj2 (proj2 (recovery_threshold_sound _ _ _ _ _ H))))).
Defined.

Lemma recovery_evidence_accepted_witness :
  verifyAnchorRecoveryApprovals Ceremony.statement Ceremony.policy Ceremony.approvals (Ceremony.time + 2000) = Ok Ceremony.evidence /\
  verifyKeyTransition (recovery_transition Ceremony.statement Ceremony.evidence Ceremony.new_signature) Ceremony.active Ceremony.expected
  = Ok (recovery_transition Ceremony.statement Ceremony.evidence Ceremony.new_signature).
Proof.
  assert (verifyAnchorRecoveryApprovals Ceremony.statement Ceremony.policy Ceremony.approvals (Ceremony.time + 2000) = Ok Ceremony.evidence) as H
    by (vm_compute; reflexivity).
  split; [exact H|].
  refine (proj2 (proj2 (recovery_evidence_accepted (fun _ => eq_refl) Ceremony.statement Ceremony.policy Ceremony.approvals _ Ceremony.evidence
    Ceremony.anchor_policy (policy_js Ceremony.anchor_policy) Ceremony.active (NativeAudit.Sample.p256_identity "b") Ceremony.time
    Ceremony.expected Ceremony.new_signature H _ _ _ _ _ _ _ _ _ _))); try (vm_compute; reflexivity).
  apply (bool_decide_eq_true_1 _). vm_compute. reflexivity.
Defined.
