(* ===== verification/Anchor.v ===== *)
(** * The transparency anchor (lib/anchor.mjs)

    A tenant of the anchor has two append-only logs: its checkpoints and the
    transitions of its key, each with the anchor's receipt.  Receipts of the
    second version also number the events of both logs in one chain.  Every
    operation verifies both logs from their first line, decides, and appends at
    most one line.  A log is the list of the values of its lines; a line is
    written and synchronised before the receipt is returned.  The third log, of
    pruned archives, is taken to be empty, with no tip. *)

From stdpp Require Import base tactics list sorting strings.
From Stdlib Require Import Ascii.
From S2P Require Import Prelude JsValue Regex IsoTime Json Objects Crypto Capability FileSystem DeviceAuth AuditLog NativeAudit AnchorKeys.
Local Open Scope string_scope.
Local Open Scope js_scope.

(** ** Data *)

Inductive tenant_error :=
| KeysRefused (e : anchor_error) | CheckpointRefused (r : reason)
| TenantNameInvalid | NotEnrolled | AlreadyEnrolled | ConfigInvalid | ConfigAlgorithm | ConfigIdentity | ConfigRecovery
| EnrollmentOptions | AnchorKeyUnsafe
| CheckpointEncoding | AlgorithmUnsupported | UnknownGeneration | GenerationRollback | LifecycleBinding | CheckpointReceipt
| ReceiptIndex | EntriesRollback | ReceiptTimeRollback
| LegacyAfterEvents | EventVersion | EventChain
| EventReceiptRequired | CheckpointBoundary | GenerationBoundary | EventBoundary | NotFollowing | LegacyBoundary
| PredatesCheckpoint | PostdatesExpiry | TenantBoundary
| CheckpointEquivocation | OperationEquivocation | GenerationNotBound | NotAtOrigin | NotExtending | VersionNotAccepted
| NoCheckpoint | NotRetiring | NotAfterCheckpoint | StateNotBound | ExpiredBeforeEvent
| TimeInvalid | LogTooLarge.

Definition lift_keys {A} (m : result anchor_error A) : result tenant_error A :=
  match m with Ok a => Ok a | Throw e => Throw (KeysRefused e) end.
Definition lift_reason {A} (m : result reason A) : result tenant_error A :=
  match m with Ok a => Ok a | Throw e => Throw (CheckpointRefused e) end.

(** A tenant's directory. *)
Record Tenant := mkTenant { config : option jsval; checkpoints : list jsval; key_transitions : list jsval }.

(** The anchor's key files. *)
Record AnchorKey := mkAnchorKey { private_stat : option Stat; private_text : jsval; public_pem : string }.

Definition MAX_LOG_BYTES : Z := 134217728.

Definition log_size (log : list jsval) : Z :=
  foldr (fun r n => (1 + Z.of_nat (String.length (utf8 (stringify r))) + n)%Z) 0%Z log.

(** [recordsLog.append] of the line of a record. *)
Definition append (log : list jsval) (record : jsval) : result tenant_error (list jsval) :=
  throw_if (MAX_LOG_BYTES <? log_size (log ++ [record]))%Z with LogTooLarge ;; Ok (log ++ [json_clone record])%list.

(** [new Date(time).toISOString()] *)
Definition iso_of (time : Z) : result tenant_error string :=
  throw_if negb (in_time_range time) with TimeInvalid ;; Ok (to_iso time).

Section Anchor.
Context `{HParse : DateParse} `{HSha : Sha256} `{HKeys : KeyObjects} `{HRead : Base64Reader} `{HPoint : P256Keys} `{HEc : EcKeys}.

(** ** Checkpoints *)

(** [verifyTenantCheckpoint] *)
Definition verifyTenantCheckpoint (checkpoint : jsval) (i : AuditIdentity) (previous : jsval) (requireCanonical : bool)
    : result tenant_error jsval :=
  if String.eqb (algorithm i) "p256-sha256" then
    signature ← of_option CheckpointEncoding (canonical_base64 (get checkpoint "signature"));
    throw_if negb (if requireCanonical then isCanonicalP256P1363Signature signature else hasValidP256P1363Scalars signature)
      with CheckpointEncoding ;;
    lift_reason (verifyNativeCheckpointRecord checkpoint (audit_public_key i) previous)
  else if String.eqb (algorithm i) "ed25519" then
    lift_reason (verify_ed25519_checkpoint checkpoint (JStr (audit_public_key i)) previous)
  else Throw AlgorithmUnsupported.

Definition CHECKPOINT_RECEIPT1 : list string :=
  ["version"; "tenant"; "index"; "checkpoint_hash"; "received_at"; "previous_receipt_hash"].
Definition CHECKPOINT_RECEIPT2 : list string := (CHECKPOINT_RECEIPT1 ++ ["event_index"; "previous_event_hash"])%list.

Definition checkpoint_receipt_fields (receipt : jsval) : list string :=
  if is_int (get receipt "version") 2 then CHECKPOINT_RECEIPT2 else CHECKPOINT_RECEIPT1.

(** The bytes of a text in base 64, canonical or not. *)
Definition base64_value (v : jsval) : option string :=
  match v with JStr s => if re_test BASE64 s then Some (base64_reader s) else None | _ => None end.

(** [verifyAnchorReceipt] for a checkpoint and the receipt before it. *)
Definition verifyAnchorReceipt (receipt : jsval) (anchorPublicKey tenant : string) (checkpointHash previous : jsval)
    : result tenant_error jsval :=
  throw_if negb (is_object receipt) with CheckpointReceipt ;;
  key ← of_option CheckpointReceipt (assertEd25519PublicKey (JStr anchorPublicKey));
  let names := checkpoint_receipt_fields receipt in
  throw_if negb (exact_keys receipt (sort_strings (names ++ PROOF_FIELDS ++ ["receipt_hash"])%list)) with CheckpointReceipt ;;
  throw_if negb (receipt_common receipt "checkpoint_hash" tenant checkpointHash previous)
           || is_int (get receipt "version") 2 && negb (receipt_event receipt)
           || negb (check_proof base64_value receipt names key) with CheckpointReceipt ;;
  Ok (JObj (signed_receipt names receipt ++ [("receipt_hash", get receipt "receipt_hash")])%list).

Definition find_identity (fingerprint_ : jsval) (l : list KeyEntry) : option KeyEntry :=
  snd <$> list_find (fun e => is_str fingerprint_ (fingerprint (identity e)) = true) l.

(** A checkpoint of a later generation names it and the head of its
    lifecycle. *)
Definition binds_generation (checkpoint : jsval) (e : KeyEntry) : bool :=
  is_int (get checkpoint "version") 2 && is_int (get checkpoint "key_generation") (generation e)
  && bool_decide (get checkpoint "lifecycle_head_hash" = lifecycleHeadHash e).

(** What the loop of [verifyTenantRecords] remembers of the last record. *)
Record Chain := mkChain {
  length_ : Z; previousCheckpoint : jsval; previousCheckpointReceipt : jsval; previousEntries : Z; lastReceivedAt : Z; previousGeneration : Z
}.

Definition verify_record (history : list KeyEntry) (anchorPublicKey tenant : string) (c : Chain) (record : jsval)
    : result tenant_error Chain :=
  value ← lift_keys (prop record "checkpoint");
  e ← of_option UnknownGeneration (find_identity (get value "public_key_fingerprint") history);
  throw_if (generation e <? previousGeneration c)%Z with GenerationRollback ;;
  checkpoint ← verifyTenantCheckpoint value (identity e) (previousCheckpoint c) false;
  throw_if (1 <? generation e)%Z && negb (binds_generation checkpoint e) with LifecycleBinding ;;
  receipt ← verifyAnchorReceipt (get record "receipt") anchorPublicKey tenant (get checkpoint "checkpoint_hash") (previousCheckpointReceipt c);
  throw_if negb (is_int (get receipt "index") (length_ c + 1)) with ReceiptIndex ;;
  entries ← of_option EntriesRollback (js_integer (get checkpoint "entries"));
  throw_if (entries <? previousEntries c)%Z with EntriesRollback ;;
  receivedAt ← of_option ReceiptTimeRollback (parse_date (get receipt "received_at"));
  throw_if (receivedAt <? lastReceivedAt c)%Z with ReceiptTimeRollback ;;
  Ok (mkChain (length_ c + 1) (get checkpoint "checkpoint_hash") (get receipt "receipt_hash") entries receivedAt (generation e)).

Fixpoint verify_records (history : list KeyEntry) (anchorPublicKey tenant : string) (c : Chain) (records : list jsval)
    : result tenant_error Chain :=
  match records with
  | [] => Ok c
  | record :: records => c ← verify_record history anchorPublicKey tenant c record; verify_records history anchorPublicKey tenant c records
  end.

Definition first_chain : Chain := mkChain 0 (JStr ZERO_HASH) (JStr ZERO_HASH) 0 0 1.

(** [verifyTenantRecords] with the history of the keys. *)
Definition verifyTenantRecords (records : list jsval) (history : list KeyEntry) (anchorPublicKey tenant : string)
    : result tenant_error Chain :=
  verify_records history anchorPublicKey tenant first_chain records.

(** ** Events *)

Inductive Kind := CheckpointEvent | TransitionEvent | LegacyState.

#[export] Instance kind_eq_dec : EqDecision Kind.
Proof. solve_decision. Defined.

Record EventState := mkEventState { e_index : Z; e_hash : jsval; e_receivedAt : Z; latestKind : option Kind; legacyCount : nat }.

(** The receipts of a log: those of the first version, which come first, and
    the events. *)
Fixpoint read_stream (kind : Kind) (sawVersion2 : bool) (records : list jsval) : result tenant_error (list jsval * list (Kind * jsval)) :=
  match records with
  | [] => Ok ([], [])
  | record :: records =>
      let receipt := get record "receipt" in
      if is_int (get receipt "version") 2 then
        '(legacy, events) ← read_stream kind true records; Ok (legacy, (kind, receipt) :: events)
      else if is_int (get receipt "version") 1 then
        throw_if sawVersion2 with LegacyAfterEvents ;;
        '(legacy, events) ← read_stream kind sawVersion2 records; Ok (receipt :: legacy, events)
      else Throw EventVersion
  end.

Definition legacy_records (records : list jsval) : list jsval :=
  filter (fun record => is_int (get (get record "receipt") "version") 1 = true) records.

Definition last_part (records : list jsval) (part hash : string) : jsval :=
  match last records with Some record => nullish (get (get record part) hash) (JStr ZERO_HASH) | None => JStr ZERO_HASH end.

Definition legacy_state (tenant : string) (checkpointLegacy transitionLegacy : list jsval) : jsval :=
  JObj [("version", JNum (NInt 1)); ("type", JStr "agentpass-anchor-legacy-event-state"); ("tenant", JStr tenant);
        ("checkpoint_count", JNum (NInt (Z.of_nat (length checkpointLegacy))));
        ("last_checkpoint_hash", last_part checkpointLegacy "checkpoint" "checkpoint_hash");
        ("last_checkpoint_receipt_hash", last_part checkpointLegacy "receipt" "receipt_hash");
        ("transition_count", JNum (NInt (Z.of_nat (length transitionLegacy))));
        ("last_transition_hash", last_part transitionLegacy "transition" "transition_hash");
        ("last_transition_receipt_hash", last_part transitionLegacy "receipt" "receipt_hash")].

(** The index and the time of a receipt that was verified. *)
Definition event_index (event : Kind * jsval) : Z := default 0%Z (js_integer (get event.2 "event_index")).
Definition received_at (receipt : jsval) : Z := default 0%Z (parse_date (get receipt "received_at")).

Definition not_after (a b : Kind * jsval) : Prop := (event_index a <= event_index b)%Z.

#[export] Instance not_after_dec : RelDecision not_after.
Proof. intros a b. unfold not_after. apply _. Defined.

(** [events.sort((left, right) => left.event_index - right.event_index)] *)
Definition sort_events (l : list (Kind * jsval)) : list (Kind * jsval) := merge_sort not_after l.

Fixpoint chain_events (s : EventState) (events : list (Kind * jsval)) : result tenant_error EventState :=
  match events with
  | [] => Ok s
  | (kind, receipt) :: events =>
      throw_if negb (is_int (get receipt "event_index") (e_index s + 1))
               || negb (bool_decide (get receipt "previous_event_hash" = e_hash s))
               || (received_at receipt <? e_receivedAt s)%Z with EventChain ;;
      chain_events (mkEventState (e_index s + 1) (get receipt "receipt_hash") (received_at receipt) (Some kind) (legacyCount s)) events
  end.

Definition first_events (tenant : string) (cs ts legacy : list jsval) : EventState :=
  let count := length legacy in
  mkEventState (Z.of_nat count)
    (if Nat.eqb count 0 then JStr ZERO_HASH else JStr (hashCanonical (legacy_state tenant (legacy_records cs) (legacy_records ts))))
    (foldr (fun r n => Z.max (received_at r) n) 0%Z legacy) (if Nat.eqb count 0 then None else Some LegacyState) count.

(** [verifyTenantEventState] *)
Definition verifyTenantEventState (cs ts : list jsval) (tenant : string) : result tenant_error EventState :=
  '(legacyC, eventsC) ← read_stream CheckpointEvent false cs;
  '(legacyT, eventsT) ← read_stream TransitionEvent false ts;
  chain_events (first_events tenant cs ts (legacyC ++ legacyT)%list) (sort_events (eventsC ++ eventsT)).

(** ** The boundaries of transitions *)

Definition find_generation (g : Z) (l : list KeyEntry) : option KeyEntry := snd <$> list_find (fun e => generation e = g) l.

Definition max_dates (a b : jsval) : option Z := x ← parse_date a; y ← parse_date b; Some (Z.max x y).

(** A transition after a checkpoint of the first version follows all records
    of that version. *)
Definition follows_checkpoint (transition receipt checkpointRecord : jsval) (cs ts : list jsval) : bool :=
  let checkpointReceipt := get checkpointRecord "receipt" in
  if is_int (get checkpointReceipt "version") 2 then
    bool_decide (get transition "previous_anchor_event_index" = get checkpointReceipt "event_index")
    && bool_decide (get transition "previous_anchor_event_hash" = get checkpointReceipt "receipt_hash")
  else
    is_int (get receipt "event_index") (Z.of_nat (length (legacy_records cs)) + Z.of_nat (length (legacy_records ts)) + 1)
    && is_int (get transition "last_checkpoint_index") (Z.of_nat (length (legacy_records cs))).

Definition previous_receipt_hash (l : list (jsval * jsval)) (index : nat) : jsval :=
  match index with 0 => JStr ZERO_HASH | S i => match l !! i with Some (_, r) => get r "receipt_hash" | None => JStr ZERO_HASH end end.

(** The record that a transition names as the last of the retiring key. *)
Definition boundary_record (cs : list jsval) (transition : jsval) : option jsval :=
  n ← js_integer (get transition "last_checkpoint_index"); if (n <? 1)%Z then None else cs !! Z.to_nat (n - 1).

Definition verify_boundary (cs ts : list jsval) (trust : Progress) (tenant : string) (index : nat) (tr : jsval * jsval)
    : result tenant_error unit :=
  let '(transition, receipt) := tr in
  if is_int (get transition "version") 1 then Ok tt else
  throw_if negb (is_int (get receipt "version") 2) with EventReceiptRequired ;;
  from ← of_option GenerationBoundary (safe_integer (get transition "from_generation"));
  record ← of_option CheckpointBoundary (boundary_record cs transition);
  e ← of_option CheckpointBoundary (find_generation from (keyHistory trust));
  let checkpoint := get record "checkpoint" in
  throw_if negb (bool_decide (get checkpoint "checkpoint_hash" = get transition "last_checkpoint_hash"))
           || negb (bool_decide (get (get record "receipt") "receipt_hash" = get transition "last_checkpoint_receipt_hash"))
           || negb (is_str (get checkpoint "public_key_fingerprint") (fingerprint (identity e))) with CheckpointBoundary ;;
  throw_if (1 <? from)%Z && (negb (is_int (get checkpoint "version") 2) || negb (is_int (get checkpoint "key_generation") from))
    with GenerationBoundary ;;
  n ← of_option EventBoundary (js_integer (get transition "previous_anchor_event_index"));
  throw_if negb (bool_decide (get transition "previous_transition_receipt_hash" = previous_receipt_hash (transitions trust) index))
           || negb (bool_decide (get receipt "previous_event_hash" = get transition "previous_anchor_event_hash"))
           || negb (is_int (get receipt "event_index") (n + 1))
           || negb (forallb (fun k => bool_decide (get receipt k = get transition k))
                      ["last_checkpoint_index"; "last_checkpoint_hash"; "last_checkpoint_receipt_hash"]) with EventBoundary ;;
  throw_if negb (follows_checkpoint transition receipt record cs ts)
    with (if is_int (get (get record "receipt") "version") 2 then NotFollowing else LegacyBoundary) ;;
  created ← of_option PredatesCheckpoint (parse_date (get transition "created_at"));
  latest ← of_option PredatesCheckpoint (max_dates (get checkpoint "created_at") (get (get record "receipt") "received_at"));
  throw_if (created <? latest)%Z with PredatesCheckpoint ;;
  expires ← (if is_int (get transition "version") 3 then of_option PostdatesExpiry (parse_date (get transition "expires_at")) else Ok (received_at receipt));
  throw_if (expires <? received_at receipt)%Z with PostdatesExpiry ;;
  throw_if negb (is_str (get transition "tenant") tenant) with TenantBoundary ;;
  Ok tt.

Fixpoint verify_boundaries (cs ts : list jsval) (trust : Progress) (tenant : string) (index : nat) (l : list (jsval * jsval))
    : result tenant_error unit :=
  match l with
  | [] => Ok tt
  | tr :: l => _ ← verify_boundary cs ts trust tenant index tr; verify_boundaries cs ts trust tenant (S index) l
  end.

(** [verifyTransitionBoundaries] *)
Definition verifyTransitionBoundaries (ts cs : list jsval) (trust : Progress) (tenant : string) : result tenant_error unit :=
  verify_boundaries cs ts trust tenant 0 (transitions trust).

(** [assertCurrentTransitionBoundary] *)
Definition assertCurrentTransitionBoundary (transition : jsval) (cs : list jsval) (trust : Progress) (s : EventState)
    : result tenant_error unit :=
  record ← of_option NoCheckpoint (last cs);
  let checkpoint := get record "checkpoint" in
  e ← of_option NotRetiring (find_identity (get checkpoint "public_key_fingerprint") (keyHistory trust));
  throw_if negb (generation e =? generation (active trust))%Z with NotRetiring ;;
  throw_if negb (bool_decide (latestKind s = Some CheckpointEvent)) with NotAfterCheckpoint ;;
  throw_if negb (is_int (get transition "last_checkpoint_index") (Z.of_nat (length cs)))
           || negb (bool_decide (get transition "last_checkpoint_hash" = get checkpoint "checkpoint_hash"))
           || negb (bool_decide (get transition "last_checkpoint_receipt_hash" = get (get record "receipt") "receipt_hash"))
           || negb (bool_decide (get transition "previous_transition_receipt_hash" = previousReceipt trust))
           || negb (is_int (get transition "previous_anchor_event_index") (e_index s))
           || negb (bool_decide (get transition "previous_anchor_event_hash" = e_hash s)) with StateNotBound ;;
  created ← of_option PredatesCheckpoint (parse_date (get transition "created_at"));
  latest ← of_option PredatesCheckpoint (max_dates (get checkpoint "created_at") (get (get record "receipt") "received_at"));
  throw_if (created <? latest)%Z with PredatesCheckpoint ;; Ok tt.

(** ** The configuration of a tenant *)

Definition CONFIG_KEYS : list string :=
  ["audit_key_fingerprint"; "audit_public_key"; "checkpoint_algorithm"; "enrolled_at"; "installation_id"; "recovery_policy"; "tenant"; "version"].

(** [assertTenant] and [loadTenant] *)
Definition loadTenant (s : Tenant) (tenant : string) : result tenant_error jsval :=
  throw_if negb (re_test SLUG tenant) with TenantNameInvalid ;;
  config ← of_option NotEnrolled (config s);
  throw_if negb (version_in [1; 2; 3]%Z (get config "version")) || negb (is_str (get config "tenant") tenant) with ConfigInvalid ;;
  identity ← of_option ConfigIdentity (identifyAuditPublicKey (get config "audit_public_key"));
  let expected := if is_int (get config "version") 1 then JStr "ed25519" else get config "checkpoint_algorithm" in
  throw_if is_int (get config "version") 2 && negb (is_str expected "p256-sha256") with ConfigAlgorithm ;;
  throw_if negb (is_str expected (algorithm identity)) || negb (is_str (get config "audit_key_fingerprint") (fingerprint identity))
    with ConfigIdentity ;;
  if is_int (get config "version") 3 then
    throw_if negb (exact_keys config CONFIG_KEYS) || negb (isSlug (get config "installation_id")) with ConfigRecovery ;;
    policy ← lift_keys (normalizeRecoveryPolicy (get config "recovery_policy"));
    throw_if negb (String.eqb (canonicalJson (policy_js policy)) (canonicalJson (get config "recovery_policy"))) with ConfigRecovery ;;
    Ok config
  else Ok config.

(** A tenant's verified state: [loadTenantTrust], with the chains of its
    records and events. *)
Record Trust := mkTrust { t_config : jsval; keys : Progress; chain : Chain; events : EventState }.

Definition loadTenantTrust (s : Tenant) (anchorPublicKey tenant : string) : result tenant_error Trust :=
  config ← loadTenant s tenant;
  trust ← lift_keys (verifyTenantTransitions (key_transitions s) config anchorPublicKey tenant);
  chain ← verifyTenantRecords (checkpoints s) (keyHistory trust) anchorPublicKey tenant;
  events ← verifyTenantEventState (checkpoints s) (key_transitions s) tenant;
  _ ← verifyTransitionBoundaries (key_transitions s) (checkpoints s) trust tenant;
  Ok (mkTrust config trust chain events).

(** ** Submissions *)

Context `{HSign : SigningKeys}.

(** [loadAnchorPrivateKey] *)
Definition loadAnchorPrivateKey (a : AnchorKey) : result tenant_error PrivateKey :=
  stat ← of_option AnchorKeyUnsafe (private_stat a);
  throw_if negb (isFile stat) || isSymbolicLink stat || permissive stat || negb (owned stat) with AnchorKeyUnsafe ;;
  private ← of_option AnchorKeyUnsafe (import_private (private_text a));
  throw_if negb (String.eqb (asymmetricKeyType (public_of private)) "ed25519") with AnchorKeyUnsafe ;;
  expected ← of_option AnchorKeyUnsafe (public_key (JStr (public_pem a)));
  throw_if negb (String.eqb (publicKeyFingerprint (public_of private)) (publicKeyFingerprint expected)) with AnchorKeyUnsafe ;;
  Ok private.

(** [{ ...statement, anchor_key_fingerprint, signature, receipt_hash }] *)
Definition make_receipt (private : PrivateKey) (statement : list (string * jsval)) : jsval :=
  let signed := (statement ++ [("anchor_key_fingerprint", JStr (publicKeyFingerprint (public_of private)));
                               ("signature", JStr (base64 (sign_with private (canonicalJson (JObj statement)))))])%list in
  JObj (signed ++ [("receipt_hash", JStr (hashCanonical (JObj signed)))])%list.

Definition find_record (part field : string) (v : jsval) (records : list jsval) : option jsval :=
  snd <$> list_find (fun record => bool_decide (get (get record part) field = v) = true) records.

Definition last_receipt (records : list jsval) : jsval :=
  match last records with Some record => get record "receipt" | None => JUndefined end.

(** [Math.max(now, previous ? Date.parse(previous.received_at) : 0,
    eventState.receivedAt)] *)
Definition received_now (now : Z) (previous : jsval) (s : EventState) : Z :=
  Z.max now (Z.max (if is_undefined previous then 0 else received_at previous) (e_receivedAt s)).

(** The checks of a checkpoint that is not in the log, up to its receipt. *)
Definition check_checkpoint (trust : Trust) (cs : list jsval) (checkpoint : jsval) : result tenant_error jsval :=
  let active := active (keys trust) in
  verified ← verifyTenantCheckpoint checkpoint (identity active) JUndefined true;
  throw_if (1 <? generation active)%Z && negb (binds_generation verified active) with GenerationNotBound ;;
  match last cs with
  | None => throw_if negb (is_str (get verified "previous_checkpoint_hash") ZERO_HASH) with NotAtOrigin ;; Ok verified
  | Some previous =>
      let last_checkpoint := get previous "checkpoint" in
      throw_if negb (bool_decide (get verified "previous_checkpoint_hash" = get last_checkpoint "checkpoint_hash")) with NotExtending ;;
      entries ← of_option EntriesRollback (js_integer (get verified "entries"));
      before ← of_option EntriesRollback (js_integer (get last_checkpoint "entries"));
      throw_if (entries <? before)%Z with EntriesRollback ;; Ok verified
  end.

(** [submitAnchorCheckpoint]: the receipt, and the tenant after it. *)
Definition submitAnchorCheckpoint (a : AnchorKey) (tenant : string) (s : Tenant) (checkpoint : jsval) (now : Z)
    : result tenant_error (jsval * Tenant) :=
  trust ← loadTenantTrust s (public_pem a) tenant;
  match find_record "checkpoint" "checkpoint_hash" (get checkpoint "checkpoint_hash") (checkpoints s) with
  | Some existing =>
      throw_if negb (String.eqb (canonicalJson (get existing "checkpoint")) (canonicalJson checkpoint)) with CheckpointEquivocation ;;
      Ok (get existing "receipt", s)
  | None =>
      verified ← check_checkpoint trust (checkpoints s) checkpoint;
      at_ ← iso_of (received_now now (last_receipt (checkpoints s)) (events trust));
      private ← loadAnchorPrivateKey a;
      let receipt := make_receipt private
        [("version", JNum (NInt 2)); ("tenant", JStr tenant); ("index", JNum (NInt (Z.of_nat (length (checkpoints s)) + 1)));
         ("checkpoint_hash", get verified "checkpoint_hash"); ("received_at", JStr at_);
         ("previous_receipt_hash", nullish (get (last_receipt (checkpoints s)) "receipt_hash") (JStr ZERO_HASH));
         ("event_index", JNum (NInt (e_index (events trust) + 1))); ("previous_event_hash", e_hash (events trust))] in
      log ← append (checkpoints s) (JObj [("checkpoint", verified); ("receipt", receipt)]);
      Ok (receipt, mkTenant (config s) log (key_transitions s))
  end.

(** The options of [verifyKeyTransition] for a transition that is submitted. *)
Definition submitted_expectation (trust : Trust) (tenant : string) (now : Z) : Expected :=
  expected_next (keys trust) (t_config trust) tenant
    (match last_transition (keys trust) with Some (t, _) => get t "created_at" | None => JUndefined end) true (Some now).

(** The verified transition and the time of its receipt. *)
Definition check_transition (trust : Trust) (tenant : string) (cs : list jsval) (transition : jsval) (now : Z)
    : result tenant_error (jsval * Z) :=
  throw_if negb (version_in [2; 3]%Z (get transition "version")) with VersionNotAccepted ;;
  next ← lift_keys (verifyKeyTransition transition (active (keys trust)) (submitted_expectation trust tenant now));
  _ ← assertCurrentTransitionBoundary next cs (keys trust) (events trust);
  let previous := match last_transition (keys trust) with Some (_, r) => r | None => JUndefined end in
  created ← of_option TimeInvalid (parse_date (get next "created_at"));
  let receivedAt := Z.max created (received_now now previous (events trust)) in
  expires ← (if is_int (get next "version") 3 then of_option ExpiredBeforeEvent (parse_date (get next "expires_at")) else Ok receivedAt);
  throw_if (expires <? receivedAt)%Z with ExpiredBeforeEvent ;;
  Ok (next, receivedAt).

(** [submitAnchorKeyTransition] *)
Definition submitAnchorKeyTransition (a : AnchorKey) (tenant : string) (s : Tenant) (transition : jsval) (now : Z)
    : result tenant_error (jsval * Tenant) :=
  trust ← loadTenantTrust s (public_pem a) tenant;
  decoded ← lift_keys (decodeKeyTransition transition);
  match find_record "transition" "operation_id" (get decoded "operation_id") (key_transitions s) with
  | Some existing =>
      throw_if negb (String.eqb (canonicalJson (get existing "transition")) (canonicalJson decoded)) with OperationEquivocation ;;
      Ok (get existing "receipt", s)
  | None =>
      '(next, receivedAt) ← check_transition trust tenant (checkpoints s) decoded now;
      at_ ← iso_of receivedAt;
      private ← loadAnchorPrivateKey a;
      let receipt := make_receipt private
        [("version", JNum (NInt 2)); ("tenant", JStr tenant); ("index", JNum (NInt (Z.of_nat (length (key_transitions s)) + 1)));
         ("transition_hash", get next "transition_hash"); ("received_at", JStr at_); ("previous_receipt_hash", previousReceipt (keys trust));
         ("event_index", JNum (NInt (e_index (events trust) + 1))); ("previous_event_hash", e_hash (events trust));
         ("last_checkpoint_index", get next "last_checkpoint_index"); ("last_checkpoint_hash", get next "last_checkpoint_hash");
         ("last_checkpoint_receipt_hash", get next "last_checkpoint_receipt_hash")] in
      log ← append (key_transitions s) (JObj [("transition", next); ("receipt", receipt)]);
      Ok (receipt, mkTenant (config s) (checkpoints s) log)
  end.

(** [enrollAnchorTenant]; an option that is not given is [undefined]. *)
Definition enrollAnchorTenant (a : AnchorKey) (tenant : string) (s : Tenant) (auditPublicKey installationId recoveryPolicy : jsval) (now : Z)
    : result tenant_error Tenant :=
  throw_if negb (re_test SLUG tenant) with TenantNameInvalid ;;
  _ ← loadAnchorPrivateKey a;
  i ← of_option ConfigIdentity (identifyAuditPublicKey auditPublicKey);
  throw_if bool_decide (is_Some (config s)) with AlreadyEnrolled ;;
  throw_if negb (Bool.eqb (is_undefined installationId) (is_undefined recoveryPolicy)) with EnrollmentOptions ;;
  recovery ← (if is_undefined recoveryPolicy then Ok [] else
    policy ← lift_keys (normalizeRecoveryPolicy recoveryPolicy);
    throw_if negb (isSlug installationId) with EnrollmentOptions ;;
    Ok [("installation_id", installationId); ("recovery_policy", policy_js policy)]);
  let version := if negb (is_undefined recoveryPolicy) then 3%Z else if String.eqb (algorithm i) "ed25519" then 1%Z else 2%Z in
  Ok (mkTenant (Some (JObj ([("version", JNum (NInt version)); ("tenant", JStr tenant); ("checkpoint_algorithm", JStr (algorithm i));
                             ("audit_public_key", JStr (audit_public_key i)); ("audit_key_fingerprint", JStr (fingerprint i))]
                            ++ recovery ++ [("enrolled_at", JStr (to_iso now))])%list))
        (checkpoints s) (key_transitions s)).
End Anchor.
