(* ===== verification/AnchorFacts.v ===== *)
(** * Lemmas on the logs of the anchor (lib/anchor.mjs)

    What the verification of the checkpoints establishes of the last record,
    and what a checkpoint that is verified keeps. *)

From stdpp Require Import base tactics list sets sorting strings.
From Stdlib Require Import Ascii.
From S2P Require Import Prelude JsValue Regex IsoTime Json Objects Crypto Capability FileSystem DeviceAuth AuditLog NativeAudit AnchorKeys AnchorKeysFacts Anchor.
Local Open Scope string_scope.
Local Open Scope js_scope.

Section Facts.
Context `{HParse : DateParse} `{HSha : Sha256} `{HKeys : KeyObjects} `{HRead : Base64Reader} `{HPoint : P256Keys} `{HEc : EcKeys}.

Lemma lift_keys_ok {A} (m : result anchor_error A) a : lift_keys m = Ok a <-> m = Ok a.
Proof. destruct m; split; cbn; congruence. Qed.

Lemma lift_reason_ok {A} (m : result reason A) a : lift_reason m = Ok a <-> m = Ok a.
Proof. destruct m; split; cbn; congruence. Qed.

(** ** Checkpoints *)

Lemma find_identity_ok fp l e : find_identity fp l = Some e -> e ∈ l /\ fp = JStr (fingerprint (identity e)).
Proof.
  unfold find_identity. destruct (list_find _ l) as [[i e']|] eqn:E; [|done]. intros [= <-]. apply list_find_Some in E as (Hl & Hs & _).
  split; [by eapply list_elem_of_lookup_2|by apply is_str_true].
Qed.

(** A checkpoint signed with Ed25519 is of the first version. *)
Lemma ed25519_version checkpoint i previous strict verified :
  algorithm i <> "p256-sha256" -> verifyTenantCheckpoint checkpoint i previous strict = Ok verified -> get verified "version" = JNum (NInt 1).
Proof.
  intros Ha H. unfold verifyTenantCheckpoint in H. apply String.eqb_neq in Ha. rewrite Ha in H.
  destruct (String.eqb (algorithm i) "ed25519"); [|done]. apply lift_reason_ok in H. unfold verify_ed25519_checkpoint in H. run_steps H. injection H as <-.
  unfold verifyCheckpointRecord in *. run_steps E. guards. by apply is_int_true.
Qed.

Lemma ed25519_unbound checkpoint i previous strict verified e :
  algorithm i <> "p256-sha256" -> verifyTenantCheckpoint checkpoint i previous strict = Ok verified -> binds_generation verified e = false.
Proof. intros Ha H. unfold binds_generation. by rewrite (ed25519_version _ _ _ _ _ Ha H). Qed.

(** ** What is kept of a checkpoint *)

(** A copy of some properties and one more. *)
Lemma kept_get names h v k :
  k ∈ names \/ k = h /\ h ∉ names -> get (JObj (fields v names ++ [(h, get v h)])%list) k = get v k.
Proof.
  intros [Hk|[-> Hn]]; [by apply get_fields|]. unfold get at 1. rewrite assoc_app.
  rewrite (proj2 (assoc_None _ _)); [cbn; by rewrite String.eqb_refl|]. unfold fields. rewrite map_map, map_id. done.
Qed.

(** The properties that the verification of a checkpoint reads. *)
Definition checkpoint_reads (names : list string) : list string := (names ++ CHECKPOINT_PROOF ++ ["checkpoint_hash"])%list.
Definition same_checkpoint (names : list string) (v w : jsval) : Prop := forall k, k ∈ checkpoint_reads names -> get w k = get v k.

(** A name is among those listed. *)
Ltac listed := by apply (bool_decide_eq_true_1 _).

Lemma statement_read k : k ∈ checkpoint_reads statement_fields -> forall v, k ∈ checkpoint_reads (native_fields v).
Proof.
  intros Hk v. unfold native_fields. destruct (is_int _ 2); [|done]. unfold checkpoint_reads in *. rewrite !elem_of_app in *. tauto.
Qed.

Lemma native_agree v w publicKey previous :
  is_object v = true -> is_object w = true -> same_checkpoint (native_fields v) v w ->
  verifyNativeCheckpointRecord w publicKey previous = verifyNativeCheckpointRecord v publicKey previous.
Proof.
  intros Hv Hw Hs. assert (forall k, k ∈ checkpoint_reads statement_fields -> get w k = get v k) as Hb by (intros; by apply Hs, statement_read).
  assert (native_fields w = native_fields v) as Hn by (unfold native_fields; by rewrite (Hb "version") by listed).
  assert (forall names, names ⊆ checkpoint_reads (native_fields v) -> fields w names = fields v names) as Hf.
  { intros names Hsub. apply fields_same. intros k Hk. by apply Hs, Hsub. }
  assert (is_int (get v "version") 2 = true -> get w "key_generation" = get v "key_generation" /\ get w "lifecycle_head_hash" = get v "lifecycle_head_hash") as H2.
  { intros E. split; apply Hs; unfold native_fields; rewrite E; listed. }
  unfold verifyNativeCheckpointRecord. cbv zeta. rewrite Hn.
  unfold signed_checkpoint. rewrite (Hf (native_fields v)), (Hf (native_fields v ++ CHECKPOINT_PROOF)%list) by (unfold checkpoint_reads; set_solver).
  rewrite !(Hb "version"), (Hb "created_at"), (Hb "entries"), (Hb "head_hash"), !(Hb "previous_checkpoint_hash"), (Hb "public_key_fingerprint"),
    (Hb "signature"), !(Hb "checkpoint_hash") by listed.
  assert (truthy w = true /\ truthy v = true) as [-> ->] by (split; [destruct w|destruct v]; done). rewrite Hv, Hw.
  destruct (is_int (get v "version") 2); [destruct (H2 eq_refl) as [-> ->]|]; reflexivity.
Qed.

(** ** The log *)

Lemma verify_records_app history ak tenant l l' : forall c,
  verify_records history ak tenant c (l ++ l') = (c ← verify_records history ak tenant c l; verify_records history ak tenant c l').
Proof.
  induction l as [|r l IH]; intros c; [done|]. cbn [app verify_records]. destruct (verify_record _ _ _ _ _); [apply IH|done].
Qed.

Lemma verify_last history ak tenant records c r :
  verifyTenantRecords records history ak tenant = Ok c -> last records = Some r ->
  exists c', verify_record history ak tenant c' r = Ok c.
Proof.
  unfold verifyTenantRecords. intros H. destruct records as [|r' l _] using rev_ind; [done|]. rewrite last_snoc. intros [= ->].
  rewrite verify_records_app in H. apply bind_ok in H as (c' & _ & H). exists c'. cbn [verify_records] in H. by apply bind_ok in H as (c'' & H & [= ->]).
Qed.

Lemma trust_ok s ak tenant trust :
  loadTenantTrust s ak tenant = Ok trust ->
  loadTenant s tenant = Ok (t_config trust) /\ verifyTenantTransitions (key_transitions s) (t_config trust) ak tenant = Ok (keys trust) /\
  verifyTenantRecords (checkpoints s) (keyHistory (keys trust)) ak tenant = Ok (chain trust) /\
  verifyTenantEventState (checkpoints s) (key_transitions s) tenant = Ok (events trust) /\
  verifyTransitionBoundaries (key_transitions s) (checkpoints s) (keys trust) tenant = Ok tt.
Proof.
  unfold loadTenantTrust. intros H. run_steps H. injection H as <-. rewrite lift_keys_ok in *. match goal with u : () |- _ => destruct u end.
  by split_and!.
Qed.

(** What a transition that is submitted is bound to. *)
Lemma current_boundary_ok t cs trust st u :
  assertCurrentTransitionBoundary t cs trust st = Ok u ->
  exists record e, last cs = Some record /\ find_identity (get (get record "checkpoint") "public_key_fingerprint") (keyHistory trust) = Some e /\
    generation e = generation (active trust) /\ latestKind st = Some CheckpointEvent /\
    get t "last_checkpoint_index" = JNum (NInt (Z.of_nat (length cs))) /\
    get t "last_checkpoint_hash" = get (get record "checkpoint") "checkpoint_hash" /\
    get t "last_checkpoint_receipt_hash" = get (get record "receipt") "receipt_hash" /\
    get t "previous_transition_receipt_hash" = previousReceipt trust /\
    get t "previous_anchor_event_index" = JNum (NInt (e_index st)) /\ get t "previous_anchor_event_hash" = e_hash st /\
    exists created latest, parse_date (get t "created_at") = Some created /\
      max_dates (get (get record "checkpoint") "created_at") (get (get record "receipt") "received_at") = Some latest /\ (latest <= created)%Z.
Proof.
  unfold assertCurrentTransitionBoundary. intros H. run_steps H. guards.
  repeat match goal with H : is_int _ _ = true |- _ => apply is_int_true in H end.
  do 2 eexists. split_and!; [eassumption|eassumption|done..|]. by do 2 eexists.
Qed.

(** The last record was verified for the key that it names. *)
Lemma last_verified history ak tenant records c r e :
  verifyTenantRecords records history ak tenant = Ok c -> last records = Some r ->
  find_identity (get (get r "checkpoint") "public_key_fingerprint") history = Some e ->
  exists previous verified, verifyTenantCheckpoint (get r "checkpoint") (identity e) previous false = Ok verified /\
    ((1 < generation e)%Z -> binds_generation verified e = true).
Proof.
  intros H Hl Hf. destruct (verify_last _ _ _ _ _ _ H Hl) as [c' Hr]. unfold verify_record in Hr. run_steps Hr.
  rewrite lift_keys_ok in *. assert (x = get r "checkpoint") as ->.
  { match goal with H : prop _ _ = Ok _ |- _ => unfold prop in H; destruct r; congruence end. }
  match goal with H : find_identity _ _ = Some ?e' |- _ => rewrite Hf in H; injection H as <- end.
  do 2 eexists. split; [eassumption|]. intros Hg%Z.ltb_lt. match goal with H : Z.ltb 1 _ && _ = false |- _ => rewrite Hg in H; apply negb_false_iff in H; exact H end.
Qed.
End Facts.
