(* ===== verification/AnchorSpec.v ===== *)
(** * What the anchor promises of a tenant (lib/anchor.mjs)

    Who may change the key of a tenant, and a tenant that can never submit
    again, on tenants that enroll and submit. *)

From stdpp Require Import base tactics list sets sorting strings.
From Stdlib Require Import Ascii.
From S2P Require Import Prelude JsValue Regex IsoTime Json Objects Crypto Capability FileSystem DeviceAuth AuditLog NativeAudit AnchorKeys AnchorKeysFacts Recovery RecoverySpec Anchor AnchorFacts.
Local Open Scope string_scope.
Local Open Scope js_scope.

Section Tenants.
Context `{HParse : DateParse} `{HSha : Sha256} `{HKeys : KeyObjects} `{HRead : Base64Reader} `{HPoint : P256Keys} `{HEc : EcKeys}.

(** C11: only an authority changes the key that signs a tenant's checkpoints.
    In a history that [verifyTenantTransitions] accepts, the first key is the
    enrolled one, the generations are numbered from one, no key, operation or
    recovery request occurs twice, each transition is chained to the one before
    it and receipted by the anchor, and each new key was signed for by itself
    and by the key before it or, in a recovery, by as many distinct keys of the
    pinned policy as its threshold. *)
Theorem keys_change_by_authority records config anchorPublicKey tenant p :
  verifyTenantTransitions records config anchorPublicKey tenant = Ok p ->
  history config anchorPublicKey tenant p /\ length (transitions p) = length records.
Proof. exact (verified_history records config anchorPublicKey tenant p). Qed.
Context `{HSign : SigningKeys}.

(** C40: a tenant that signs with Ed25519 and has changed its key once can submit
    nothing any more: every submission that is answered leaves the logs as they
    are.  A checkpoint of a later generation must be of the second version, and
    only checkpoints on P-256 have one; a transition needs such a checkpoint
    before it. *)
Theorem rotated_ed25519_tenant_stuck a tenant s trust :
  loadTenantTrust s (public_pem a) tenant = Ok trust ->
  algorithm (identity (active (keys trust))) = "ed25519" -> (1 < generation (active (keys trust)))%Z ->
  (forall checkpoint now r s', submitAnchorCheckpoint a tenant s checkpoint now = Ok (r, s') -> s' = s) /\
  (forall transition now r s', submitAnchorKeyTransition a tenant s transition now = Ok (r, s') -> s' = s).
Proof.
  intros Ht Ha Hg. split.
  - apply Z.ltb_lt in Hg. intros checkpoint now r s' H. unfold submitAnchorCheckpoint in H. rewrite Ht in H. cbn [mbind result_bind] in H.
    destruct (find_record _ _ _ _); [by run_steps H; injection H|].
    apply bind_ok in H as (verified & Hc & _). unfold check_checkpoint in Hc. run_steps Hc.
    match goal with H : verifyTenantCheckpoint _ _ _ _ = Ok _ |- _ => apply (ed25519_unbound _ _ _ _ _ (active (keys trust))) in H; [|by rewrite Ha] end.
    by rewrite Hg, E in E0.
  - intros transition now r s' H. unfold submitAnchorKeyTransition in H. rewrite Ht in H. cbn [mbind result_bind] in H.
    apply bind_ok in H as (decoded & _ & H). destruct (find_record _ _ _ _); [by run_steps H; injection H|].
    apply bind_ok in H as ([next receivedAt] & Hc & _). unfold check_transition in Hc. run_steps Hc.
    match goal with H : assertCurrentTransitionBoundary _ _ _ _ = Ok _ |- _ => apply current_boundary_ok in H as (record & e & Hl & Hf & Hge & _) end.
    apply trust_ok in Ht as (_ & Hk & Hc' & _). destruct (last_verified _ _ _ _ _ _ _ Hc' Hl Hf) as (previous & verified & Hv & Hb).
    apply verified_history in Hk as [Hh _]. apply find_identity_ok in Hf as [Hin _]. apply (h_algorithm _ _ _ _ Hh) in Hin.
    rewrite (ed25519_unbound _ _ _ _ _ e ltac:(by rewrite Hin, Ha) Hv), Hge in Hb. by specialize (Hb Hg).
Qed.
End Tenants.

(** ** Examples *)

Module Submissions.
#[local] Existing Instances iso_date_parse toy_sha256 NativeAudit.Sample.key_objects NativeAudit.Sample.reader NativeAudit.Sample.p256_keys
  NativeAudit.Sample.ec_keys NativeAudit.Sample.signing_keys.

Definition time : Z := Ceremony.time.
Definition number (n : Z) : jsval := JNum (NInt n).
Definition anchor : AnchorKey := mkAnchorKey (Some (mkStat true false false true 384 1 9)) (JStr "ed:anchor") "ed:anchor".
Definition tenant : string := "tenant-1".

Definition after {E A} (d : A) (m : result E (jsval * A)) : A := match m with Ok (_, a) => a | Throw _ => d end.
Definition nothing : Tenant := mkTenant None [] [].
Definition enrolled (key installation policy : jsval) : Tenant :=
  match enrollAnchorTenant anchor tenant nothing key installation policy time with Ok s => s | Throw _ => nothing end.

(** The last checkpoint of a tenant, its receipt, and a transition after it. *)
Definition last_of (part field : string) (s : Tenant) : jsval :=
  match last (checkpoints s) with Some r => get (get r part) field | None => JStr ZERO_HASH end.
Definition last_hash (part field : string) (s : Tenant) : jsval :=
  match last (key_transitions s) with Some r => get (get r part) field | None => JStr ZERO_HASH end.

Definition boundary (s : Tenant) : list (string * jsval) :=
  [("previous_transition_receipt_hash", last_hash "receipt" "receipt_hash" s);
   ("last_checkpoint_index", number (Z.of_nat (length (checkpoints s)))); ("last_checkpoint_hash", last_of "checkpoint" "checkpoint_hash" s);
   ("last_checkpoint_receipt_hash", last_of "receipt" "receipt_hash" s);
   ("previous_anchor_event_index", number (Z.of_nat (length (checkpoints s) + length (key_transitions s))));
   ("previous_anchor_event_hash", last_of "receipt" "receipt_hash" s); ("retiring_generation_pending_checkpoint_count", number 0)].

Definition base (version generation : Z) (operation : string) (old new : string * jsval) (created : Z) (s : Tenant) : list (string * jsval) :=
  [("version", number version); ("tenant", JStr tenant); ("operation_id", JStr operation); ("from_generation", number generation);
   ("to_generation", number (generation + 1)); ("old_key_fingerprint", JStr old.1); ("new_key_fingerprint", JStr new.1);
   ("new_public_key", new.2); ("lifecycle_head_hash", JStr ZERO_HASH); ("created_at", JStr (to_iso created));
   ("previous_transition_hash", last_hash "transition" "transition_hash" s)].

Definition finished (copy : list (string * jsval)) (field : string) : jsval :=
  JObj (copy ++ [(field, JStr (hashCanonical (JObj copy)))])%list.

(** A transition signed by two keys, whose names are given. *)
Definition signed_transition (old new : string) (st : list (string * jsval)) : jsval :=
  let sign name := JStr (base64 (NativeAudit.Sample.signature name (canonicalJson (JObj st)))) in
  finished (st ++ [("old_signature", sign old); ("new_signature", sign new)])%list "transition_hash".

(** Checkpoints. *)
Definition checkpoint_statement (version entries created : Z) (s : Tenant) (r : list (string * jsval)) : list (string * jsval) :=
  ([("version", number version); ("created_at", JStr (to_iso created)); ("entries", number entries); ("head_hash", JStr ZERO_HASH);
    ("previous_checkpoint_hash", last_of "checkpoint" "checkpoint_hash" s)] ++ r)%list.
Definition proof_of (fp name text : string) : list (string * jsval) :=
  [("public_key_fingerprint", JStr fp); ("signature", JStr (base64 (NativeAudit.Sample.signature name text)))].

(** A tenant that signs with Ed25519: it enrolls, submits a checkpoint, and
    changes its key. *)
Definition ed_fingerprint (name : string) : string := publicKeyFingerprint (NativeAudit.Sample.ed25519 name).
Definition ed_enrolled : Tenant := enrolled (JStr "ed:a") JUndefined JUndefined.
Definition ed_checkpoint : jsval :=
  let st := checkpoint_statement 1 3 time ed_enrolled [] in
  let copy := (st ++ proof_of (ed_fingerprint "ed:a") "ed:a" (stringify (JObj st)))%list in
  JObj (copy ++ [("checkpoint_hash", JStr (digest (JObj copy)))])%list.
Definition ed_checked : Tenant := after nothing (submitAnchorCheckpoint anchor tenant ed_enrolled ed_checkpoint (time + 1000)).
Definition ed_transition : jsval :=
  signed_transition "ed:a" "ed:b"
    (base 2 1 "rotate-1" (ed_fingerprint "ed:a", JNull) (ed_fingerprint "ed:b", JStr "ed:b") (time + 2000) ed_checked ++ boundary ed_checked).
Definition ed_rotated : Tenant := after nothing (submitAnchorKeyTransition anchor tenant ed_checked ed_transition (time + 3000)).

(** A tenant on P-256 with recovery keys: it rotates from the first key to the
    second, and recovers to the third. *)
Definition ec_fingerprint (c : ascii) : string := fingerprint (NativeAudit.Sample.p256_identity c).
Definition ec_key (c : ascii) : string * jsval := (ec_fingerprint c, JStr (NativeAudit.Sample.p256_text c)).
Definition ec_enrolled : Tenant := enrolled (JStr (NativeAudit.Sample.p256_text "a")) (JStr "host-1") (policy_js Ceremony.anchor_policy).
Definition ec_checkpoint (c : ascii) (version entries created : Z) (s : Tenant) (r : list (string * jsval)) : jsval :=
  let st := checkpoint_statement version entries created s r in
  finished (st ++ proof_of (ec_fingerprint c) (NativeAudit.Sample.point c) (canonicalJson (JObj st)))%list "checkpoint_hash".
Definition ec_checked : Tenant :=
  after nothing (submitAnchorCheckpoint anchor tenant ec_enrolled (ec_checkpoint "a" 1 3 time ec_enrolled []) (time + 1000)).
Definition ec_rotated : Tenant :=
  after nothing (submitAnchorKeyTransition anchor tenant ec_checked
    (signed_transition (NativeAudit.Sample.point "a") (NativeAudit.Sample.point "b")
       (base 2 1 "rotate-1" (ec_key "a") (ec_key "b") (time + 2000) ec_checked ++ boundary ec_checked)) (time + 3000)).
Definition ec_bound : Tenant :=
  after nothing (submitAnchorCheckpoint anchor tenant ec_rotated
    (ec_checkpoint "b" 2 5 (time + 4000) ec_rotated [("key_generation", number 2); ("lifecycle_head_hash", JStr ZERO_HASH)]) (time + 5000)).

Definition recovery_statement : jsval :=
  anchorRecoveryAuthorization (JObj (base 3 2 "recover-1" (ec_key "b") (ec_key "c") (time + 6000) ec_bound ++ boundary ec_bound ++
    [("installation_id", JStr "host-1"); ("role", JStr "audit_checkpoint"); ("recovery_request_id", JStr "request-1");
     ("recovery_policy_id", JStr "recovery"); ("recovery_policy_hash", JStr (policy_hash Ceremony.anchor_policy));
     ("expires_at", JStr (to_iso (time + 600000)))])%list).
Definition recovery_approval (id name : string) : jsval :=
  Ceremony.get_ok (signAnchorRecoveryAuthorization recovery_statement (Ceremony.key_file name) (JStr id) (time + 7000)).
Definition recovery_evidence : jsval :=
  Ceremony.get_ok (verifyAnchorRecoveryApprovals recovery_statement Ceremony.policy
    (JArr [recovery_approval "carol" "ed:carol"; recovery_approval "bob" "ed:bob"]) (time + 8000)).
Definition ec_recovered : Tenant :=
  after nothing (submitAnchorKeyTransition anchor tenant ec_bound
    (recovery_transition recovery_statement recovery_evidence
       (base64 (NativeAudit.Sample.signature (NativeAudit.Sample.point "c") (canonicalJson recovery_statement)))) (time + 9000)).
Definition ec_config : jsval := default JNull (config ec_recovered).
End Submissions.

#[local] Existing Instances iso_date_parse toy_sha256 NativeAudit.Sample.key_objects NativeAudit.Sample.reader NativeAudit.Sample.p256_keys
  NativeAudit.Sample.ec_keys NativeAudit.Sample.signing_keys.

(** Each submission was answered and appended its line. *)
Example submissions_appended :
  map (fun s => (length (checkpoints s), length (key_transitions s)))
    [Submissions.ed_enrolled; Submissions.ed_checked; Submissions.ed_rotated; Submissions.ec_enrolled; Submissions.ec_checked;
     Submissions.ec_rotated; Submissions.ec_bound; Submissions.ec_recovered]
  = [(0, 0); (1, 0); (1, 1); (0, 0); (1, 0); (1, 1); (2, 1); (2, 2)].
Proof. vm_compute. reflexivity. Qed.

(** The trust in the two tenants. *)
Lemma ec_history_verified :
  is_ok (verifyTenantTransitions (key_transitions Submissions.ec_recovered) Submissions.ec_config "ed:anchor" Submissions.tenant) = true /\
  length (key_transitions Submissions.ec_recovered) = 2.
Proof. vm_compute. split; reflexivity. Qed.

Lemma ed_trust_verified :
  match loadTenantTrust Submissions.ed_rotated (public_pem Submissions.anchor) Submissions.tenant with
  | Ok t => Some (algorithm (identity (active (keys t))), generation (active (keys t)))
  | Throw _ => None
  end = Some ("ed25519", 2%Z).
Proof. vm_compute. reflexivity. Qed.

(** The history of a tenant that rotated and recovered. *)
Lemma keys_change_by_authority_witness :
  exists p, verifyTenantTransitions (key_transitions Submissions.ec_recovered) Submissions.ec_config "ed:anchor" Submissions.tenant = Ok p /\
    history Submissions.ec_config "ed:anchor" Submissions.tenant p /\ length (transitions p) = 2.
Proof.
  destruct ec_history_verified as [H Hl].
  destruct (verifyTenantTransitions (key_transitions Submissions.ec_recovered) Submissions.ec_config "ed:anchor" Submissions.tenant)
    as [p|] eqn:E; [|discriminate H].
  exists p. split; [reflexivity|]. rewrite <- Hl. exact (keys_change_by_authority _ _ _ _ _ E).
Defined.

(** The tenant that changed its Ed25519 key. *)
Lemma rotated_ed25519_tenant_stuck_witness :
  exists trust, loadTenantTrust Submissions.ed_rotated (public_pem Submissions.anchor) Submissions.tenant = Ok trust /\
    generation (active (keys trust)) = 2%Z /\
    (forall checkpoint now r s',
       submitAnchorCheckpoint Submissions.anchor Submissions.tenant Submissions.ed_rotated checkpoint now = Ok (r, s') ->
       s' = Submissions.ed_rotated).
Proof.
  pose proof ed_trust_verified as H.
  destruct (loadTenantTrust Submissions.ed_rotated (public_pem Submissions.anchor) Submissions.tenant) as [trust|] eqn:E; [|discriminate].
  injection H as Ha Hg. exists trust. split; [reflexivity|]. split; [exact Hg|].
  exact (proj1 (rotated_ed25519_tenant_stuck Submissions.anchor Submissions.tenant Submissions.ed_rotated trust E Ha
    ltac:(rewrite Hg; reflexivity))).
Defined.
